(** * cgpde-lib: a shallow embedding of [cgpdelib.c]

    The development follows the C source function by function.  C [int]s
    are integers of [Z] (the code never relies on wrap-around: every
    index and counter it computes stays between 0 and the size of an
    array), C [double]s are IEEE-754 binary64 values in the standard
    library's [spec_float], arrays are lists read and written by index,
    and the three ways in which a call can fail to return a value are
    kept apart in the type [result]. *)

From Stdlib Require Import ZArith Bool Ascii String.
From Stdlib Require Import Floats.SpecFloat.
From stdpp Require Import base tactics option list numbers sorting.

Local Open Scope Z_scope.

(** ** Outcomes of a call *)

(** [Exit]: the library printed an error and called [exit(0)].
    [Fault]: an array was read or written outside its bounds (undefined
    behaviour in C).
    [Fuel]: a loop whose number of rounds depends on the random stream
    did not finish within the rounds granted to the model. *)
Inductive error := Exit | Fault | Fuel.

Inductive result (A : Type) :=
  | Ok (a : A)
  | Err (e : error).
Arguments Ok {A} a.
Arguments Err {A} e.

#[global] Instance result_ret : MRet result := @Ok.
#[global] Instance result_bind : MBind result :=
  fun A B f m => match m with Ok a => f a | Err e => Err e end.

(** What is looked at in the value of a call. *)
Definition rmap {A B} (f : A -> B) (m : result A) : result B :=
  match m with Ok a => Ok (f a) | Err e => Err e end.

Definition is_ok {A} (r : result A) : bool :=
  match r with Ok _ => true | Err _ => false end.

(** ** Arrays *)

(** [a[i]] as an rvalue. *)
Definition aget {A} (a : list A) (i : Z) : result A :=
  if i <? 0 then Err Fault
  else match a !! Z.to_nat i with
       | Some x => Ok x
       | None => Err Fault
       end.

(** [a[i] = x]. *)
Definition aset {A} (a : list A) (i : Z) (x : A) : result (list A) :=
  if (0 <=? i) && (i <? Z.of_nat (length a))
  then Ok (<[Z.to_nat i := x]> a)
  else Err Fault.

(** ** Counted loops *)

(** [for (i = lo; i < hi; i++) body], for a body that changes neither
    [i] nor [hi]; the state [S] collects what the body may write. *)
Fixpoint for_nat {S} (n : nat) (i : Z) (body : Z -> S -> result S) (s : S)
  : result S :=
  match n with
  | O => Ok s
  | S n' => s' ← body i s; for_nat n' (i + 1) body s'
  end.

Definition for_loop {S} (lo hi : Z) (body : Z -> S -> result S) (s : S)
  : result S :=
  for_nat (Z.to_nat (hi - lo)) lo body s.

(** ** Doubles *)

Definition double := spec_float.

Definition dadd : double -> double -> double := SFadd 53 1024.
Definition dsub : double -> double -> double := SFsub 53 1024.
Definition dmul : double -> double -> double := SFmul 53 1024.
Definition ddiv : double -> double -> double := SFdiv 53 1024.
Definition dabs : double -> double := SFabs.
Definition dlt : double -> double -> bool := SFltb.
Definition dle : double -> double -> bool := SFleb.
Definition deq : double -> double -> bool := SFeqb.
Definition dgt (x y : double) : bool := SFltb y x.
Definition dge (x y : double) : bool := SFleb y x.

(** [(double) z] *)
Definition of_int (z : Z) : double := binary_normalize 53 1024 z 0 false.

Definition isnan (x : double) : bool :=
  match x with S754_nan => true | _ => false end.

Definition isinf (x : double) : bool :=
  match x with S754_infinity _ => true | _ => false end.

(** [<float.h>]: the largest finite double, and the smallest positive
    normalised double. *)
Definition DBL_MAX : double := SFmax_float 53 1024.
Definition DBL_MIN : double := S754_finite false (2 ^ 52) (-1074).

(** ** Data model (the [struct] definitions) *)

(** A node function receives the number of inputs, the operand buffer
    and the connection weights.  Being C code it may also read and
    advance the hidden state of the C library's [rand()], which is the
    last argument and is returned with the value. *)
Definition nodeFunction : Type :=
  Z -> list double -> list double -> Z -> result (double * Z).

Record functionSet := {
  numFunctions : Z;
  functionNames : list string;
  maxNumInputs : list Z;
  functions : list nodeFunction
}.

Record node := {
  function : Z;
  inputs : list Z;
  weights : list double;
  active : Z;
  output : double;
  maxArity : Z;
  actArity : Z
}.

Record chromosome := {
  numInputs : Z;
  numOutputs : Z;
  numNodes : Z;
  numActiveNodes : Z;
  arity : Z;
  nodes : list node;
  outputNodes : list Z;
  activeNodes : list Z;
  fitness : double;
  fitnessValidation : double;
  outputValues : list double;
  funcSet : functionSet;
  nodeInputsHold : list double;
  generation : Z
}.

Record dataSet := {
  d_numSamples : Z;
  d_numInputs : Z;
  d_numOutputs : Z;
  inputData : list (list double);
  outputData : list (list double)
}.

Record DEChromosome := {
  chromo : chromosome;
  weightsVector : list double
}.

(** The five mutation routines [params->mutationType] can point to. *)
Inductive mutationKind :=
  | probabilistic | point | pointANN | onlyActive | single.

Record parameters := {
  p_mu : Z;
  p_lambda : Z;
  p_evolutionaryStrategy : ascii;
  p_mutationRate : double;
  p_recurrentConnectionProbability : double;
  p_connectionWeightRange : double;
  p_numInputs : Z;
  p_numNodes : Z;
  p_numOutputs : Z;
  p_arity : Z;
  p_targetFitness : double;
  p_funcSet : functionSet;
  p_shortcutConnections : Z;
  p_mutationType : mutationKind;
  p_numThreads : Z;
  p_NP_IN : Z;
  p_NP_OUT : Z;
  p_maxIter_IN : Z;
  p_maxIter_OUT : Z;
  p_CR : double;
  p_F : double
}.

(** Field assignments. *)

Definition set_function (n : node) (v : Z) : node :=
  {| function := v; inputs := inputs n; weights := weights n;
     active := active n; output := output n; maxArity := maxArity n;
     actArity := actArity n |}.
Definition set_inputs (n : node) (v : list Z) : node :=
  {| function := function n; inputs := v; weights := weights n;
     active := active n; output := output n; maxArity := maxArity n;
     actArity := actArity n |}.
Definition set_weights (n : node) (v : list double) : node :=
  {| function := function n; inputs := inputs n; weights := v;
     active := active n; output := output n; maxArity := maxArity n;
     actArity := actArity n |}.
Definition set_active (n : node) (v : Z) : node :=
  {| function := function n; inputs := inputs n; weights := weights n;
     active := v; output := output n; maxArity := maxArity n;
     actArity := actArity n |}.
Definition set_output (n : node) (v : double) : node :=
  {| function := function n; inputs := inputs n; weights := weights n;
     active := active n; output := v; maxArity := maxArity n;
     actArity := actArity n |}.
Definition set_maxArity (n : node) (v : Z) : node :=
  {| function := function n; inputs := inputs n; weights := weights n;
     active := active n; output := output n; maxArity := v;
     actArity := actArity n |}.
Definition set_actArity (n : node) (v : Z) : node :=
  {| function := function n; inputs := inputs n; weights := weights n;
     active := active n; output := output n; maxArity := maxArity n;
     actArity := v |}.

Definition set_numActiveNodes (c : chromosome) (v : Z) : chromosome :=
  {| numInputs := numInputs c; numOutputs := numOutputs c;
     numNodes := numNodes c; numActiveNodes := v; arity := arity c;
     nodes := nodes c; outputNodes := outputNodes c;
     activeNodes := activeNodes c; fitness := fitness c;
     fitnessValidation := fitnessValidation c;
     outputValues := outputValues c; funcSet := funcSet c;
     nodeInputsHold := nodeInputsHold c; generation := generation c |}.
Definition set_nodes (c : chromosome) (v : list node) : chromosome :=
  {| numInputs := numInputs c; numOutputs := numOutputs c;
     numNodes := numNodes c; numActiveNodes := numActiveNodes c;
     arity := arity c; nodes := v; outputNodes := outputNodes c;
     activeNodes := activeNodes c; fitness := fitness c;
     fitnessValidation := fitnessValidation c;
     outputValues := outputValues c; funcSet := funcSet c;
     nodeInputsHold := nodeInputsHold c; generation := generation c |}.
Definition set_outputNodes (c : chromosome) (v : list Z) : chromosome :=
  {| numInputs := numInputs c; numOutputs := numOutputs c;
     numNodes := numNodes c; numActiveNodes := numActiveNodes c;
     arity := arity c; nodes := nodes c; outputNodes := v;
     activeNodes := activeNodes c; fitness := fitness c;
     fitnessValidation := fitnessValidation c;
     outputValues := outputValues c; funcSet := funcSet c;
     nodeInputsHold := nodeInputsHold c; generation := generation c |}.
Definition set_activeNodes (c : chromosome) (v : list Z) : chromosome :=
  {| numInputs := numInputs c; numOutputs := numOutputs c;
     numNodes := numNodes c; numActiveNodes := numActiveNodes c;
     arity := arity c; nodes := nodes c; outputNodes := outputNodes c;
     activeNodes := v; fitness := fitness c;
     fitnessValidation := fitnessValidation c;
     outputValues := outputValues c; funcSet := funcSet c;
     nodeInputsHold := nodeInputsHold c; generation := generation c |}.
Definition set_fitness (c : chromosome) (v : double) : chromosome :=
  {| numInputs := numInputs c; numOutputs := numOutputs c;
     numNodes := numNodes c; numActiveNodes := numActiveNodes c;
     arity := arity c; nodes := nodes c; outputNodes := outputNodes c;
     activeNodes := activeNodes c; fitness := v;
     fitnessValidation := fitnessValidation c;
     outputValues := outputValues c; funcSet := funcSet c;
     nodeInputsHold := nodeInputsHold c; generation := generation c |}.
Definition set_fitnessValidation (c : chromosome) (v : double)
  : chromosome :=
  {| numInputs := numInputs c; numOutputs := numOutputs c;
     numNodes := numNodes c; numActiveNodes := numActiveNodes c;
     arity := arity c; nodes := nodes c; outputNodes := outputNodes c;
     activeNodes := activeNodes c; fitness := fitness c;
     fitnessValidation := v;
     outputValues := outputValues c; funcSet := funcSet c;
     nodeInputsHold := nodeInputsHold c; generation := generation c |}.
Definition set_outputValues (c : chromosome) (v : list double)
  : chromosome :=
  {| numInputs := numInputs c; numOutputs := numOutputs c;
     numNodes := numNodes c; numActiveNodes := numActiveNodes c;
     arity := arity c; nodes := nodes c; outputNodes := outputNodes c;
     activeNodes := activeNodes c; fitness := fitness c;
     fitnessValidation := fitnessValidation c;
     outputValues := v; funcSet := funcSet c;
     nodeInputsHold := nodeInputsHold c; generation := generation c |}.
Definition set_funcSet (c : chromosome) (v : functionSet) : chromosome :=
  {| numInputs := numInputs c; numOutputs := numOutputs c;
     numNodes := numNodes c; numActiveNodes := numActiveNodes c;
     arity := arity c; nodes := nodes c; outputNodes := outputNodes c;
     activeNodes := activeNodes c; fitness := fitness c;
     fitnessValidation := fitnessValidation c;
     outputValues := outputValues c; funcSet := v;
     nodeInputsHold := nodeInputsHold c; generation := generation c |}.
Definition set_nodeInputsHold (c : chromosome) (v : list double)
  : chromosome :=
  {| numInputs := numInputs c; numOutputs := numOutputs c;
     numNodes := numNodes c; numActiveNodes := numActiveNodes c;
     arity := arity c; nodes := nodes c; outputNodes := outputNodes c;
     activeNodes := activeNodes c; fitness := fitness c;
     fitnessValidation := fitnessValidation c;
     outputValues := outputValues c; funcSet := funcSet c;
     nodeInputsHold := v; generation := generation c |}.
Definition set_generation (c : chromosome) (v : Z) : chromosome :=
  {| numInputs := numInputs c; numOutputs := numOutputs c;
     numNodes := numNodes c; numActiveNodes := numActiveNodes c;
     arity := arity c; nodes := nodes c; outputNodes := outputNodes c;
     activeNodes := activeNodes c; fitness := fitness c;
     fitnessValidation := fitnessValidation c;
     outputValues := outputValues c; funcSet := funcSet c;
     nodeInputsHold := nodeInputsHold c; generation := v |}.

(** [chromo->nodes[k]->field = v], by way of the node array. *)
Definition upd_node (c : chromosome) (k : Z) (f : node -> node)
  : result chromosome :=
  n ← aget (nodes c) k;
  ns ← aset (nodes c) k (f n);
  Ok (set_nodes c ns).

(** [params->field = v]. *)

Definition set_p_mu (p : parameters) (v : Z) : parameters :=
  {| p_mu := v; p_lambda := p_lambda p;
     p_evolutionaryStrategy := p_evolutionaryStrategy p;
     p_mutationRate := p_mutationRate p;
     p_recurrentConnectionProbability := p_recurrentConnectionProbability p;
     p_connectionWeightRange := p_connectionWeightRange p;
     p_numInputs := p_numInputs p; p_numNodes := p_numNodes p;
     p_numOutputs := p_numOutputs p; p_arity := p_arity p;
     p_targetFitness := p_targetFitness p; p_funcSet := p_funcSet p;
     p_shortcutConnections := p_shortcutConnections p;
     p_mutationType := p_mutationType p; p_numThreads := p_numThreads p;
     p_NP_IN := p_NP_IN p; p_NP_OUT := p_NP_OUT p;
     p_maxIter_IN := p_maxIter_IN p; p_maxIter_OUT := p_maxIter_OUT p;
     p_CR := p_CR p; p_F := p_F p |}.
Definition set_p_lambda (p : parameters) (v : Z) : parameters :=
  {| p_mu := p_mu p; p_lambda := v;
     p_evolutionaryStrategy := p_evolutionaryStrategy p;
     p_mutationRate := p_mutationRate p;
     p_recurrentConnectionProbability := p_recurrentConnectionProbability p;
     p_connectionWeightRange := p_connectionWeightRange p;
     p_numInputs := p_numInputs p; p_numNodes := p_numNodes p;
     p_numOutputs := p_numOutputs p; p_arity := p_arity p;
     p_targetFitness := p_targetFitness p; p_funcSet := p_funcSet p;
     p_shortcutConnections := p_shortcutConnections p;
     p_mutationType := p_mutationType p; p_numThreads := p_numThreads p;
     p_NP_IN := p_NP_IN p; p_NP_OUT := p_NP_OUT p;
     p_maxIter_IN := p_maxIter_IN p; p_maxIter_OUT := p_maxIter_OUT p;
     p_CR := p_CR p; p_F := p_F p |}.
Definition set_p_evolutionaryStrategy (p : parameters) (v : ascii) : parameters :=
  {| p_mu := p_mu p; p_lambda := p_lambda p; p_evolutionaryStrategy := v;
     p_mutationRate := p_mutationRate p;
     p_recurrentConnectionProbability := p_recurrentConnectionProbability p;
     p_connectionWeightRange := p_connectionWeightRange p;
     p_numInputs := p_numInputs p; p_numNodes := p_numNodes p;
     p_numOutputs := p_numOutputs p; p_arity := p_arity p;
     p_targetFitness := p_targetFitness p; p_funcSet := p_funcSet p;
     p_shortcutConnections := p_shortcutConnections p;
     p_mutationType := p_mutationType p; p_numThreads := p_numThreads p;
     p_NP_IN := p_NP_IN p; p_NP_OUT := p_NP_OUT p;
     p_maxIter_IN := p_maxIter_IN p; p_maxIter_OUT := p_maxIter_OUT p;
     p_CR := p_CR p; p_F := p_F p |}.
Definition set_p_mutationRate (p : parameters) (v : double) : parameters :=
  {| p_mu := p_mu p; p_lambda := p_lambda p;
     p_evolutionaryStrategy := p_evolutionaryStrategy p;
     p_mutationRate := v;
     p_recurrentConnectionProbability := p_recurrentConnectionProbability p;
     p_connectionWeightRange := p_connectionWeightRange p;
     p_numInputs := p_numInputs p; p_numNodes := p_numNodes p;
     p_numOutputs := p_numOutputs p; p_arity := p_arity p;
     p_targetFitness := p_targetFitness p; p_funcSet := p_funcSet p;
     p_shortcutConnections := p_shortcutConnections p;
     p_mutationType := p_mutationType p; p_numThreads := p_numThreads p;
     p_NP_IN := p_NP_IN p; p_NP_OUT := p_NP_OUT p;
     p_maxIter_IN := p_maxIter_IN p; p_maxIter_OUT := p_maxIter_OUT p;
     p_CR := p_CR p; p_F := p_F p |}.
Definition set_p_recurrentConnectionProbability (p : parameters) (v : double) : parameters :=
  {| p_mu := p_mu p; p_lambda := p_lambda p;
     p_evolutionaryStrategy := p_evolutionaryStrategy p;
     p_mutationRate := p_mutationRate p;
     p_recurrentConnectionProbability := v;
     p_connectionWeightRange := p_connectionWeightRange p;
     p_numInputs := p_numInputs p; p_numNodes := p_numNodes p;
     p_numOutputs := p_numOutputs p; p_arity := p_arity p;
     p_targetFitness := p_targetFitness p; p_funcSet := p_funcSet p;
     p_shortcutConnections := p_shortcutConnections p;
     p_mutationType := p_mutationType p; p_numThreads := p_numThreads p;
     p_NP_IN := p_NP_IN p; p_NP_OUT := p_NP_OUT p;
     p_maxIter_IN := p_maxIter_IN p; p_maxIter_OUT := p_maxIter_OUT p;
     p_CR := p_CR p; p_F := p_F p |}.
Definition set_p_connectionWeightRange (p : parameters) (v : double) : parameters :=
  {| p_mu := p_mu p; p_lambda := p_lambda p;
     p_evolutionaryStrategy := p_evolutionaryStrategy p;
     p_mutationRate := p_mutationRate p;
     p_recurrentConnectionProbability := p_recurrentConnectionProbability p;
     p_connectionWeightRange := v; p_numInputs := p_numInputs p;
     p_numNodes := p_numNodes p; p_numOutputs := p_numOutputs p;
     p_arity := p_arity p; p_targetFitness := p_targetFitness p;
     p_funcSet := p_funcSet p;
     p_shortcutConnections := p_shortcutConnections p;
     p_mutationType := p_mutationType p; p_numThreads := p_numThreads p;
     p_NP_IN := p_NP_IN p; p_NP_OUT := p_NP_OUT p;
     p_maxIter_IN := p_maxIter_IN p; p_maxIter_OUT := p_maxIter_OUT p;
     p_CR := p_CR p; p_F := p_F p |}.
Definition set_p_numInputs (p : parameters) (v : Z) : parameters :=
  {| p_mu := p_mu p; p_lambda := p_lambda p;
     p_evolutionaryStrategy := p_evolutionaryStrategy p;
     p_mutationRate := p_mutationRate p;
     p_recurrentConnectionProbability := p_recurrentConnectionProbability p;
     p_connectionWeightRange := p_connectionWeightRange p;
     p_numInputs := v; p_numNodes := p_numNodes p;
     p_numOutputs := p_numOutputs p; p_arity := p_arity p;
     p_targetFitness := p_targetFitness p; p_funcSet := p_funcSet p;
     p_shortcutConnections := p_shortcutConnections p;
     p_mutationType := p_mutationType p; p_numThreads := p_numThreads p;
     p_NP_IN := p_NP_IN p; p_NP_OUT := p_NP_OUT p;
     p_maxIter_IN := p_maxIter_IN p; p_maxIter_OUT := p_maxIter_OUT p;
     p_CR := p_CR p; p_F := p_F p |}.
Definition set_p_numNodes (p : parameters) (v : Z) : parameters :=
  {| p_mu := p_mu p; p_lambda := p_lambda p;
     p_evolutionaryStrategy := p_evolutionaryStrategy p;
     p_mutationRate := p_mutationRate p;
     p_recurrentConnectionProbability := p_recurrentConnectionProbability p;
     p_connectionWeightRange := p_connectionWeightRange p;
     p_numInputs := p_numInputs p; p_numNodes := v;
     p_numOutputs := p_numOutputs p; p_arity := p_arity p;
     p_targetFitness := p_targetFitness p; p_funcSet := p_funcSet p;
     p_shortcutConnections := p_shortcutConnections p;
     p_mutationType := p_mutationType p; p_numThreads := p_numThreads p;
     p_NP_IN := p_NP_IN p; p_NP_OUT := p_NP_OUT p;
     p_maxIter_IN := p_maxIter_IN p; p_maxIter_OUT := p_maxIter_OUT p;
     p_CR := p_CR p; p_F := p_F p |}.
Definition set_p_numOutputs (p : parameters) (v : Z) : parameters :=
  {| p_mu := p_mu p; p_lambda := p_lambda p;
     p_evolutionaryStrategy := p_evolutionaryStrategy p;
     p_mutationRate := p_mutationRate p;
     p_recurrentConnectionProbability := p_recurrentConnectionProbability p;
     p_connectionWeightRange := p_connectionWeightRange p;
     p_numInputs := p_numInputs p; p_numNodes := p_numNodes p;
     p_numOutputs := v; p_arity := p_arity p;
     p_targetFitness := p_targetFitness p; p_funcSet := p_funcSet p;
     p_shortcutConnections := p_shortcutConnections p;
     p_mutationType := p_mutationType p; p_numThreads := p_numThreads p;
     p_NP_IN := p_NP_IN p; p_NP_OUT := p_NP_OUT p;
     p_maxIter_IN := p_maxIter_IN p; p_maxIter_OUT := p_maxIter_OUT p;
     p_CR := p_CR p; p_F := p_F p |}.
Definition set_p_arity (p : parameters) (v : Z) : parameters :=
  {| p_mu := p_mu p; p_lambda := p_lambda p;
     p_evolutionaryStrategy := p_evolutionaryStrategy p;
     p_mutationRate := p_mutationRate p;
     p_recurrentConnectionProbability := p_recurrentConnectionProbability p;
     p_connectionWeightRange := p_connectionWeightRange p;
     p_numInputs := p_numInputs p; p_numNodes := p_numNodes p;
     p_numOutputs := p_numOutputs p; p_arity := v;
     p_targetFitness := p_targetFitness p; p_funcSet := p_funcSet p;
     p_shortcutConnections := p_shortcutConnections p;
     p_mutationType := p_mutationType p; p_numThreads := p_numThreads p;
     p_NP_IN := p_NP_IN p; p_NP_OUT := p_NP_OUT p;
     p_maxIter_IN := p_maxIter_IN p; p_maxIter_OUT := p_maxIter_OUT p;
     p_CR := p_CR p; p_F := p_F p |}.
Definition set_p_targetFitness (p : parameters) (v : double) : parameters :=
  {| p_mu := p_mu p; p_lambda := p_lambda p;
     p_evolutionaryStrategy := p_evolutionaryStrategy p;
     p_mutationRate := p_mutationRate p;
     p_recurrentConnectionProbability := p_recurrentConnectionProbability p;
     p_connectionWeightRange := p_connectionWeightRange p;
     p_numInputs := p_numInputs p; p_numNodes := p_numNodes p;
     p_numOutputs := p_numOutputs p; p_arity := p_arity p;
     p_targetFitness := v; p_funcSet := p_funcSet p;
     p_shortcutConnections := p_shortcutConnections p;
     p_mutationType := p_mutationType p; p_numThreads := p_numThreads p;
     p_NP_IN := p_NP_IN p; p_NP_OUT := p_NP_OUT p;
     p_maxIter_IN := p_maxIter_IN p; p_maxIter_OUT := p_maxIter_OUT p;
     p_CR := p_CR p; p_F := p_F p |}.
Definition set_p_funcSet (p : parameters) (v : functionSet) : parameters :=
  {| p_mu := p_mu p; p_lambda := p_lambda p;
     p_evolutionaryStrategy := p_evolutionaryStrategy p;
     p_mutationRate := p_mutationRate p;
     p_recurrentConnectionProbability := p_recurrentConnectionProbability p;
     p_connectionWeightRange := p_connectionWeightRange p;
     p_numInputs := p_numInputs p; p_numNodes := p_numNodes p;
     p_numOutputs := p_numOutputs p; p_arity := p_arity p;
     p_targetFitness := p_targetFitness p; p_funcSet := v;
     p_shortcutConnections := p_shortcutConnections p;
     p_mutationType := p_mutationType p; p_numThreads := p_numThreads p;
     p_NP_IN := p_NP_IN p; p_NP_OUT := p_NP_OUT p;
     p_maxIter_IN := p_maxIter_IN p; p_maxIter_OUT := p_maxIter_OUT p;
     p_CR := p_CR p; p_F := p_F p |}.
Definition set_p_shortcutConnections (p : parameters) (v : Z) : parameters :=
  {| p_mu := p_mu p; p_lambda := p_lambda p;
     p_evolutionaryStrategy := p_evolutionaryStrategy p;
     p_mutationRate := p_mutationRate p;
     p_recurrentConnectionProbability := p_recurrentConnectionProbability p;
     p_connectionWeightRange := p_connectionWeightRange p;
     p_numInputs := p_numInputs p; p_numNodes := p_numNodes p;
     p_numOutputs := p_numOutputs p; p_arity := p_arity p;
     p_targetFitness := p_targetFitness p; p_funcSet := p_funcSet p;
     p_shortcutConnections := v; p_mutationType := p_mutationType p;
     p_numThreads := p_numThreads p; p_NP_IN := p_NP_IN p;
     p_NP_OUT := p_NP_OUT p; p_maxIter_IN := p_maxIter_IN p;
     p_maxIter_OUT := p_maxIter_OUT p; p_CR := p_CR p; p_F := p_F p |}.
Definition set_p_mutationType (p : parameters) (v : mutationKind) : parameters :=
  {| p_mu := p_mu p; p_lambda := p_lambda p;
     p_evolutionaryStrategy := p_evolutionaryStrategy p;
     p_mutationRate := p_mutationRate p;
     p_recurrentConnectionProbability := p_recurrentConnectionProbability p;
     p_connectionWeightRange := p_connectionWeightRange p;
     p_numInputs := p_numInputs p; p_numNodes := p_numNodes p;
     p_numOutputs := p_numOutputs p; p_arity := p_arity p;
     p_targetFitness := p_targetFitness p; p_funcSet := p_funcSet p;
     p_shortcutConnections := p_shortcutConnections p;
     p_mutationType := v; p_numThreads := p_numThreads p;
     p_NP_IN := p_NP_IN p; p_NP_OUT := p_NP_OUT p;
     p_maxIter_IN := p_maxIter_IN p; p_maxIter_OUT := p_maxIter_OUT p;
     p_CR := p_CR p; p_F := p_F p |}.
Definition set_p_numThreads (p : parameters) (v : Z) : parameters :=
  {| p_mu := p_mu p; p_lambda := p_lambda p;
     p_evolutionaryStrategy := p_evolutionaryStrategy p;
     p_mutationRate := p_mutationRate p;
     p_recurrentConnectionProbability := p_recurrentConnectionProbability p;
     p_connectionWeightRange := p_connectionWeightRange p;
     p_numInputs := p_numInputs p; p_numNodes := p_numNodes p;
     p_numOutputs := p_numOutputs p; p_arity := p_arity p;
     p_targetFitness := p_targetFitness p; p_funcSet := p_funcSet p;
     p_shortcutConnections := p_shortcutConnections p;
     p_mutationType := p_mutationType p; p_numThreads := v;
     p_NP_IN := p_NP_IN p; p_NP_OUT := p_NP_OUT p;
     p_maxIter_IN := p_maxIter_IN p; p_maxIter_OUT := p_maxIter_OUT p;
     p_CR := p_CR p; p_F := p_F p |}.
Definition set_p_NP_IN (p : parameters) (v : Z) : parameters :=
  {| p_mu := p_mu p; p_lambda := p_lambda p;
     p_evolutionaryStrategy := p_evolutionaryStrategy p;
     p_mutationRate := p_mutationRate p;
     p_recurrentConnectionProbability := p_recurrentConnectionProbability p;
     p_connectionWeightRange := p_connectionWeightRange p;
     p_numInputs := p_numInputs p; p_numNodes := p_numNodes p;
     p_numOutputs := p_numOutputs p; p_arity := p_arity p;
     p_targetFitness := p_targetFitness p; p_funcSet := p_funcSet p;
     p_shortcutConnections := p_shortcutConnections p;
     p_mutationType := p_mutationType p; p_numThreads := p_numThreads p;
     p_NP_IN := v; p_NP_OUT := p_NP_OUT p;
     p_maxIter_IN := p_maxIter_IN p; p_maxIter_OUT := p_maxIter_OUT p;
     p_CR := p_CR p; p_F := p_F p |}.
Definition set_p_NP_OUT (p : parameters) (v : Z) : parameters :=
  {| p_mu := p_mu p; p_lambda := p_lambda p;
     p_evolutionaryStrategy := p_evolutionaryStrategy p;
     p_mutationRate := p_mutationRate p;
     p_recurrentConnectionProbability := p_recurrentConnectionProbability p;
     p_connectionWeightRange := p_connectionWeightRange p;
     p_numInputs := p_numInputs p; p_numNodes := p_numNodes p;
     p_numOutputs := p_numOutputs p; p_arity := p_arity p;
     p_targetFitness := p_targetFitness p; p_funcSet := p_funcSet p;
     p_shortcutConnections := p_shortcutConnections p;
     p_mutationType := p_mutationType p; p_numThreads := p_numThreads p;
     p_NP_IN := p_NP_IN p; p_NP_OUT := v; p_maxIter_IN := p_maxIter_IN p;
     p_maxIter_OUT := p_maxIter_OUT p; p_CR := p_CR p; p_F := p_F p |}.
Definition set_p_maxIter_IN (p : parameters) (v : Z) : parameters :=
  {| p_mu := p_mu p; p_lambda := p_lambda p;
     p_evolutionaryStrategy := p_evolutionaryStrategy p;
     p_mutationRate := p_mutationRate p;
     p_recurrentConnectionProbability := p_recurrentConnectionProbability p;
     p_connectionWeightRange := p_connectionWeightRange p;
     p_numInputs := p_numInputs p; p_numNodes := p_numNodes p;
     p_numOutputs := p_numOutputs p; p_arity := p_arity p;
     p_targetFitness := p_targetFitness p; p_funcSet := p_funcSet p;
     p_shortcutConnections := p_shortcutConnections p;
     p_mutationType := p_mutationType p; p_numThreads := p_numThreads p;
     p_NP_IN := p_NP_IN p; p_NP_OUT := p_NP_OUT p; p_maxIter_IN := v;
     p_maxIter_OUT := p_maxIter_OUT p; p_CR := p_CR p; p_F := p_F p |}.
Definition set_p_maxIter_OUT (p : parameters) (v : Z) : parameters :=
  {| p_mu := p_mu p; p_lambda := p_lambda p;
     p_evolutionaryStrategy := p_evolutionaryStrategy p;
     p_mutationRate := p_mutationRate p;
     p_recurrentConnectionProbability := p_recurrentConnectionProbability p;
     p_connectionWeightRange := p_connectionWeightRange p;
     p_numInputs := p_numInputs p; p_numNodes := p_numNodes p;
     p_numOutputs := p_numOutputs p; p_arity := p_arity p;
     p_targetFitness := p_targetFitness p; p_funcSet := p_funcSet p;
     p_shortcutConnections := p_shortcutConnections p;
     p_mutationType := p_mutationType p; p_numThreads := p_numThreads p;
     p_NP_IN := p_NP_IN p; p_NP_OUT := p_NP_OUT p;
     p_maxIter_IN := p_maxIter_IN p; p_maxIter_OUT := v; p_CR := p_CR p;
     p_F := p_F p |}.
Definition set_p_CR (p : parameters) (v : double) : parameters :=
  {| p_mu := p_mu p; p_lambda := p_lambda p;
     p_evolutionaryStrategy := p_evolutionaryStrategy p;
     p_mutationRate := p_mutationRate p;
     p_recurrentConnectionProbability := p_recurrentConnectionProbability p;
     p_connectionWeightRange := p_connectionWeightRange p;
     p_numInputs := p_numInputs p; p_numNodes := p_numNodes p;
     p_numOutputs := p_numOutputs p; p_arity := p_arity p;
     p_targetFitness := p_targetFitness p; p_funcSet := p_funcSet p;
     p_shortcutConnections := p_shortcutConnections p;
     p_mutationType := p_mutationType p; p_numThreads := p_numThreads p;
     p_NP_IN := p_NP_IN p; p_NP_OUT := p_NP_OUT p;
     p_maxIter_IN := p_maxIter_IN p; p_maxIter_OUT := p_maxIter_OUT p;
     p_CR := v; p_F := p_F p |}.
Definition set_p_F (p : parameters) (v : double) : parameters :=
  {| p_mu := p_mu p; p_lambda := p_lambda p;
     p_evolutionaryStrategy := p_evolutionaryStrategy p;
     p_mutationRate := p_mutationRate p;
     p_recurrentConnectionProbability := p_recurrentConnectionProbability p;
     p_connectionWeightRange := p_connectionWeightRange p;
     p_numInputs := p_numInputs p; p_numNodes := p_numNodes p;
     p_numOutputs := p_numOutputs p; p_arity := p_arity p;
     p_targetFitness := p_targetFitness p; p_funcSet := p_funcSet p;
     p_shortcutConnections := p_shortcutConnections p;
     p_mutationType := p_mutationType p; p_numThreads := p_numThreads p;
     p_NP_IN := p_NP_IN p; p_NP_OUT := p_NP_OUT p;
     p_maxIter_IN := p_maxIter_IN p; p_maxIter_OUT := p_maxIter_OUT p;
     p_CR := p_CR p; p_F := v |}.

(** ** Parameters: the setters *)

(** A setter returns what it wrote to standard output (the [printf]
    format strings, line feeds left out) together with its outcome. *)
Definition printed (A : Type) : Type := (list string * result A)%type.

Definition setNumInputs (params : parameters) (numInputs : Z)
  : printed parameters :=
  if numInputs <=? 0 then
    (["Error: number of chromosome inputs cannot be less than one; %d is invalid. Terminating CGP-Library."%string],
     Err Exit)
  else ([], Ok (set_p_numInputs params numInputs)).

Definition setNumNodes (params : parameters) (numNodes : Z)
  : printed parameters :=
  if numNodes <? 0 then
    (["Warning: number of chromosome nodes cannot be negative; %d is invalid. Terminating CGP-Library."%string],
     Err Exit)
  else ([], Ok (set_p_numNodes params numNodes)).

Definition setNumOutputs (params : parameters) (numOutputs : Z)
  : printed parameters :=
  if numOutputs <? 0 then
    (["Warning: number of chromosome outputs cannot be less than one; %d is invalid. Terminating CGP-Library."%string],
     Err Exit)
  else ([], Ok (set_p_numOutputs params numOutputs)).

Definition setArity (params : parameters) (arity : Z)
  : printed parameters :=
  if arity <? 0 then
    (["Warning: node arity cannot be less than one; %d is invalid. Terminating CGP-Library."%string],
     Err Exit)
  else ([], Ok (set_p_arity params arity)).

Definition setMu (params : parameters) (mu : Z) : printed parameters :=
  if mu >? 0 then ([], Ok (set_p_mu params mu))
  else
    (["Warning: mu value '%d' is invalid. Mu value must have a value of one or greater. Mu value left unchanged as '%d'."%string],
     Ok params).

Definition setLambda (params : parameters) (lambda : Z)
  : printed parameters :=
  if lambda >? 0 then ([], Ok (set_p_lambda params lambda))
  else
    (["Warning: lambda value '%d' is invalid. Lambda value must have a value of one or greater. Lambda value left unchanged as '%d'."%string],
     Ok params).

Definition setEvolutionaryStrategy (params : parameters)
    (evolutionaryStrategy : ascii) : printed parameters :=
  if Ascii.eqb evolutionaryStrategy "+"%char
     || Ascii.eqb evolutionaryStrategy ","%char
  then ([], Ok (set_p_evolutionaryStrategy params evolutionaryStrategy))
  else
    (["Warning: the evolutionary strategy '%c' is invalid. The evolutionary strategy must be '+' or ','. The evolutionary strategy has been left unchanged as '%c'."%string],
     Ok params).

Definition setMutationRate (params : parameters) (mutationRate : double)
  : printed parameters :=
  if dge mutationRate (of_int 0) && dle mutationRate (of_int 1)
  then ([], Ok (set_p_mutationRate params mutationRate))
  else
    (["Warning: mutation rate '%f' is invalid. The mutation rate must be in the range [0,1]. The mutation rate has been left unchanged as '%f'."%string],
     Ok params).

Definition setRecurrentConnectionProbability (params : parameters)
    (recurrentConnectionProbability : double) : printed parameters :=
  if dge recurrentConnectionProbability (of_int 0)
     && dle recurrentConnectionProbability (of_int 1)
  then ([], Ok (set_p_recurrentConnectionProbability params
                  recurrentConnectionProbability))
  else
    (["Warning: recurrent connection probability '%f' is invalid. The recurrent connection probability must be in the range [0,1]. The recurrent connection probability has been left unchanged as '%f'."%string],
     Ok params).

Definition setShortcutConnections (params : parameters)
    (shortcutConnections : Z) : printed parameters :=
  if (shortcutConnections =? 0) || (shortcutConnections =? 1)
  then ([], Ok (set_p_shortcutConnections params shortcutConnections))
  else
    (["Warning: shortcut connection '%d' is invalid. The shortcut connections takes values 0 or 1. The shortcut connection has been left unchanged as '%d'."%string],
     Ok params).

(** The message is printed and the assignment follows all the same:
    there is no [else] and no [return] after the [printf]. *)
Definition setNumThreads (params : parameters) (numThreads : Z)
  : printed parameters :=
  let out :=
    if numThreads <=? 0 then
      ["Error: number threads cannot be less than one; %d is invalid. The number threads is left unchanged as %d."%string]
    else [] in
  (out, Ok (set_p_numThreads params numThreads)).

Definition setNP_IN (params : parameters) (np : Z) : printed parameters :=
  if np <? 4 then
    (["Warning: de population size cannot be less than four; %d is invalid. Terminating CGP-Library."%string],
     Err Exit)
  else ([], Ok (set_p_NP_IN params np)).

Definition setNP_OUT (params : parameters) (np : Z) : printed parameters :=
  if np <? 4 then
    (["Warning: de population size cannot be less than four; %d is invalid. Terminating CGP-Library."%string],
     Err Exit)
  else ([], Ok (set_p_NP_OUT params np)).

Definition setMaxIter_IN (params : parameters) (maxiter : Z)
  : printed parameters :=
  if maxiter <? 0 then
    (["Warning: de max iterations cannot be less than zero; %d is invalid. Terminating CGP-Library."%string],
     Err Exit)
  else ([], Ok (set_p_maxIter_IN params maxiter)).

Definition setMaxIter_OUT (params : parameters) (maxiter : Z)
  : printed parameters :=
  if maxiter <? 0 then
    (["Warning: de max iterations cannot be less than zero; %d is invalid. Terminating CGP-Library."%string],
     Err Exit)
  else ([], Ok (set_p_maxIter_OUT params maxiter)).

Definition setCR (params : parameters) (cr : double) : printed parameters :=
  if dlt cr (of_int 0) || dgt cr (of_int 1) then
    (["Warning: de crossover rate must be in the [0,1] range; %f is invalid. Terminating CGP-Library."%string],
     Err Exit)
  else ([], Ok (set_p_CR params cr)).

Definition setF (params : parameters) (f : double) : printed parameters :=
  if dlt f (of_int 0) || dgt f (of_int 2) then
    (["Warning: de rential scale factor must be in the [0,2] range; %f is invalid. Terminating CGP-Library."%string],
     Err Exit)
  else ([], Ok (set_p_F params f)).

Definition setMutationType (params : parameters) (mutationType : string)
  : printed parameters :=
  if String.eqb mutationType "probabilistic" then
    ([], Ok (set_p_mutationType params probabilistic))
  else if String.eqb mutationType "point" then
    ([], Ok (set_p_mutationType params point))
  else if String.eqb mutationType "pointANN" then
    ([], Ok (set_p_mutationType params pointANN))
  else if String.eqb mutationType "onlyActive" then
    ([], Ok (set_p_mutationType params onlyActive))
  else if String.eqb mutationType "single" then
    ([], Ok (set_p_mutationType params single))
  else
    (["Warning: mutation type '%s' is invalid. The mutation type must be 'probabilistic' or 'point'. The mutation type has been left unchanged as '%s'."%string],
     Ok params).

(** [initialiseParameters]: the default values.  The function set
    starts empty. *)
Definition initialiseParameters (numInputs numNodes numOutputs arity : Z)
  : result parameters :=
  let params :=
    {| p_mu := 1; p_lambda := 4; p_evolutionaryStrategy := "+"%char;
       p_mutationRate := ddiv (of_int 5) (of_int 100);
       p_recurrentConnectionProbability := of_int 0;
       p_connectionWeightRange := of_int 1;
       p_numInputs := 0; p_numNodes := 0; p_numOutputs := 0;
       p_arity := 0; p_targetFitness := of_int 0;
       p_funcSet := {| numFunctions := 0; functionNames := [];
                       maxNumInputs := []; functions := [] |};
       p_shortcutConnections := 1; p_mutationType := probabilistic;
       p_numThreads := 1; p_NP_IN := 10; p_NP_OUT := 10;
       p_maxIter_IN := 100; p_maxIter_OUT := 100;
       p_CR := ddiv (of_int 1) (of_int 2); p_F := of_int 1 |} in
  params ← snd (setNumInputs params numInputs);
  params ← snd (setNumNodes params numNodes);
  params ← snd (setNumOutputs params numOutputs);
  snd (setArity params arity).

(** [addCustomNodeFunction]; the set holds at most [FUNCTIONSETSIZE]
    functions. *)
Definition FUNCTIONSETSIZE : Z := 50.

Definition addCustomNodeFunction (params : parameters) (f : nodeFunction)
    (functionName : string) (maxNumInputs_ : Z) : printed parameters :=
  let fs := p_funcSet params in
  if numFunctions fs >=? FUNCTIONSETSIZE then
    (["Warning: functions set has reached maximum capacity (%d). Function '%s' not added."%string],
     Ok params)
  else
    ([], Ok (set_p_funcSet params
               {| numFunctions := numFunctions fs + 1;
                  functionNames := functionNames fs ++ [functionName];
                  maxNumInputs := maxNumInputs fs ++ [maxNumInputs_];
                  functions := functions fs ++ [f] |})).

(** ** Active nodes *)

(** [getChromosomeNodeArity]: the declared arity of the node's function,
    cut down to the arity of the chromosome; [-1] stands for "as many as
    the chromosome has". *)
Definition getChromosomeNodeArity (c : chromosome) (index : Z) : result Z :=
  let chromoArity := arity c in
  n ← aget (nodes c) index;
  maxArity_ ← aget (maxNumInputs (funcSet c)) (function n);
  if maxArity_ =? -1 then Ok chromoArity
  else if maxArity_ <? chromoArity then Ok maxArity_
  else Ok chromoArity.

(** Lines 2356-2362 of [recursivelySetActiveNodes]: node [k] is logged
    as active and its actual arity is set. *)
Definition logActive (c : chromosome) (k : Z) : result chromosome :=
  c ← upd_node c k (fun n => set_active n 1);
  an ← aset (activeNodes c) (numActiveNodes c) k;
  let c := set_activeNodes c an in
  let c := set_numActiveNodes c (numActiveNodes c + 1) in
  a ← getChromosomeNodeArity c k;
  upd_node c k (fun n => set_actArity n a).

(** [recursivelySetActiveNodes].  The recursion of the source is bounded
    by the number of nodes, since every call that goes on marks a node
    that was not marked; [fuel] counts the nesting that is left.  The
    bound of the inner loop is read once: the calls below change the
    [actArity] of no node that is already active. *)
Fixpoint recursivelySetActiveNodes (fuel : nat) (c : chromosome)
    (nodeIndex : Z) : result chromosome :=
  match fuel with
  | O => Err Fuel
  | S fuel' =>
    if nodeIndex <? numInputs c then Ok c
    else
      let k := nodeIndex - numInputs c in
      n ← aget (nodes c) k;
      if active n =? 1 then Ok c
      else
        c ← logActive c k;
        n ← aget (nodes c) k;
        for_loop 0 (actArity n)
          (fun i c =>
             n ← aget (nodes c) k;
             input ← aget (inputs n) i;
             recursivelySetActiveNodes fuel' c input)
          c
  end.

(** [cmpInt], the comparison handed to [qsort]. *)
Definition cmpInt (a b : Z) : Z := a - b.

Definition cmpInt_le (a b : Z) : Prop := cmpInt a b <= 0.

#[global] Instance cmpInt_le_dec : RelDecision cmpInt_le :=
  fun a b => Z_le_dec (cmpInt a b) 0.

(** [sortIntArray]: [qsort] over the first [length] entries.  [qsort]
    belongs to the C library; its contract is that the entries end up
    permuted and in the order of the comparison, which for integers
    fixes the result, so any sorting function stands for it. *)
Definition sortIntArray (array : list Z) (length : Z) : list Z :=
  merge_sort cmpInt_le (take (Z.to_nat length) array)
  ++ drop (Z.to_nat length) array.

Definition setChromosomeActiveNodes (c : chromosome) : result chromosome :=
  let c := set_numActiveNodes c 0 in
  c ← for_loop 0 (numNodes c)
        (fun i c => upd_node c i (fun n => set_active n 0)) c;
  c ← for_loop 0 (numOutputs c)
        (fun i c =>
           o ← aget (outputNodes c) i;
           if o <? numInputs c then Ok c
           else recursivelySetActiveNodes (S (Z.to_nat (numNodes c))) c o)
        c;
  Ok (set_activeNodes c (sortIntArray (activeNodes c) (numActiveNodes c))).

(** ** Execution *)

(** The value an address stands for: a sample input below [numInputs],
    the cached output of a node from there on. *)
Definition readAddress (c : chromosome) (ins : list double) (a : Z)
  : result double :=
  if a <? numInputs c then aget ins a
  else n ← aget (nodes c) (a - numInputs c); Ok (output n).

(** Lines 1291-1305 of [executeChromosome]: what is kept of the value a
    node function returned. *)
Definition sanitise (v : double) : double :=
  if isnan v then of_int 0
  else if isinf v then
    if dgt v (of_int 0) then DBL_MAX else DBL_MIN
  else v.

Definition executeNode (c : chromosome) (ins : list double)
    (currentActiveNode : Z) (g : Z) : result (chromosome * Z) :=
  n ← aget (nodes c) currentActiveNode;
  let nodeArity := actArity n in
  c ← for_loop 0 nodeArity
        (fun j c =>
           n ← aget (nodes c) currentActiveNode;
           nodeInputLocation ← aget (inputs n) j;
           v ← readAddress c ins nodeInputLocation;
           hold ← aset (nodeInputsHold c) j v;
           Ok (set_nodeInputsHold c hold))
        c;
  n ← aget (nodes c) currentActiveNode;
  let currentActiveNodeFunction := function n in
  f ← aget (functions (funcSet c)) currentActiveNodeFunction;
  '(v, g) ← f nodeArity (nodeInputsHold c) (weights n) g;
  c ← upd_node c currentActiveNode (fun n => set_output n (sanitise v));
  Ok (c, g).

Definition executeChromosome (c : chromosome) (ins : list double) (g : Z)
  : result (chromosome * Z) :=
  let numInputs_ := numInputs c in
  let numActiveNodes_ := numActiveNodes c in
  let numOutputs_ := numOutputs c in
  '(c, g) ← for_loop 0 numActiveNodes_
              (fun i '(c, g) =>
                 currentActiveNode ← aget (activeNodes c) i;
                 executeNode c ins currentActiveNode g)
              (c, g);
  c ← for_loop 0 numOutputs_
        (fun i c =>
           o ← aget (outputNodes c) i;
           v ← readAddress c ins o;
           ov ← aset (outputValues c) i v;
           Ok (set_outputValues c ov))
        c;
  Ok (c, g).

Definition getChromosomeOutput (c : chromosome) (output_ : Z)
  : result double :=
  if (output_ <? 0) || (output_ >? numOutputs c) then Err Exit
  else aget (outputValues c) output_.

Definition getChromosomeNodeValue (c : chromosome) (node_ : Z)
  : result double :=
  if (node_ <? 0) || (node_ >? numNodes c) then Err Exit
  else n ← aget (nodes c) node_; Ok (output n).

Definition isNodeActive (c : chromosome) (node_ : Z) : result Z :=
  if (node_ <? 0) || (node_ >? numNodes c) then Err Exit
  else n ← aget (nodes c) node_; Ok (active n).

Definition resetChromosome (c : chromosome) : result chromosome :=
  for_loop 0 (numNodes c)
    (fun i c => upd_node c i (fun n => set_output n (of_int 0))) c.

(** ** Copies *)

(** [for (i = 0; i < n; i++) dest[i] = src[i]]. *)
Definition copyArray {A} (n : Z) (dest src : list A) : result (list A) :=
  for_loop 0 n (fun i dest => x ← aget src i; aset dest i x) dest.

Definition copyNode (nodeDest nodeSrc : node) : result node :=
  let nodeDest := set_function nodeDest (function nodeSrc) in
  let nodeDest := set_active nodeDest (active nodeSrc) in
  let nodeDest := set_maxArity nodeDest (maxArity nodeSrc) in
  let nodeDest := set_actArity nodeDest (actArity nodeSrc) in
  for_loop 0 (maxArity nodeSrc)
    (fun i nodeDest =>
       x ← aget (inputs nodeSrc) i;
       ins ← aset (inputs nodeDest) i x;
       let nodeDest := set_inputs nodeDest ins in
       w ← aget (weights nodeSrc) i;
       ws ← aset (weights nodeDest) i w;
       Ok (set_weights nodeDest ws))
    nodeDest.

(** [copyFunctionSet].  The arrays of a function set have
    [FUNCTIONSETSIZE] slots of which the lists hold the first
    [numFunctions]; copying [numFunctions] entries replaces that part. *)
Definition copyFunctionSet (funcSetDest funcSetSrc : functionSet)
  : functionSet :=
  let n := Z.to_nat (numFunctions funcSetSrc) in
  {| numFunctions := numFunctions funcSetSrc;
     functionNames := take n (functionNames funcSetSrc)
                      ++ drop n (functionNames funcSetDest);
     maxNumInputs := take n (maxNumInputs funcSetSrc)
                     ++ drop n (maxNumInputs funcSetDest);
     functions := take n (functions funcSetSrc)
                  ++ drop n (functions funcSetDest) |}.

Definition copyChromosome (chromoDest chromoSrc : chromosome)
  : result chromosome :=
  if negb (numInputs chromoDest =? numInputs chromoSrc) then Err Exit
  else if negb (numNodes chromoDest =? numNodes chromoSrc) then Err Exit
  else if negb (numOutputs chromoDest =? numOutputs chromoSrc) then Err Exit
  else if negb (arity chromoDest =? arity chromoSrc) then Err Exit
  else
    chromoDest ← for_loop 0 (numNodes chromoSrc)
      (fun i chromoDest =>
         nd ← aget (nodes chromoDest) i;
         ns ← aget (nodes chromoSrc) i;
         nd ← copyNode nd ns;
         nds ← aset (nodes chromoDest) i nd;
         let chromoDest := set_nodes chromoDest nds in
         a ← aget (activeNodes chromoSrc) i;
         an ← aset (activeNodes chromoDest) i a;
         Ok (set_activeNodes chromoDest an))
      chromoDest;
    let chromoDest :=
      set_funcSet chromoDest
        (copyFunctionSet (funcSet chromoDest) (funcSet chromoSrc)) in
    on ← copyArray (numOutputs chromoSrc) (outputNodes chromoDest)
           (outputNodes chromoSrc);
    let chromoDest := set_outputNodes chromoDest on in
    let chromoDest :=
      set_numActiveNodes chromoDest (numActiveNodes chromoSrc) in
    let chromoDest := set_fitness chromoDest (fitness chromoSrc) in
    let chromoDest :=
      set_fitnessValidation chromoDest (fitnessValidation chromoSrc) in
    Ok (set_generation chromoDest (generation chromoSrc)).

(** ** The environment of the library *)

(** What the library takes from the C library: [RAND_MAX], the
    re-entrant generator [rand_r], which maps the caller's seed word to
    a draw and the next seed word, and [rand], which does the same with
    the hidden state of the process.  [patience] is the number of rounds
    granted to each loop that waits for the random stream. *)
Class Libc := {
  RAND_MAX : Z;
  rand_r : Z -> Z * Z;
  rand : Z -> Z * Z;
  patience : nat
}.

(** [params->fitnessFunction]: it may execute the chromosome it is
    given, and so change its cached values and draw from [rand]. *)
Class Fitness := fitnessFunction :
  parameters -> chromosome -> dataSet -> Z -> result (double * chromosome * Z).

Section Random.
Context `{Libc}.

Definition randDecimal (seed : Z) : double * Z :=
  let '(x, seed) := rand_r seed in
  (ddiv (of_int (Z.rem x 1000000)) (of_int 1000000), seed).

(** The [do ... while (x > randLimit)] of [randInt]. *)
Fixpoint randInt_draw (fuel : nat) (randLimit : Z) (seed : Z)
  : result (Z * Z) :=
  match fuel with
  | O => Err Fuel
  | S fuel' =>
    let '(x, seed) := rand_r seed in
    if x >? randLimit then randInt_draw fuel' randLimit seed
    else Ok (x, seed)
  end.

Definition randInt (n : Z) (seed : Z) : result (Z * Z) :=
  if n =? 0 then Ok (0, seed)
  else
    let randExcess := Z.rem RAND_MAX n + 1 in
    let randLimit := RAND_MAX - randExcess in
    '(x, seed) ← randInt_draw patience randLimit seed;
    Ok (Z.rem x n, seed).

Definition getRandomConnectionWeight (weightRange : double) (seed : Z)
  : double * Z :=
  let '(r, seed) := randDecimal seed in
  (dsub (dmul (dmul r (of_int 2)) weightRange) weightRange, seed).

Definition getRandomFunction (numFunctions_ : Z) (seed : Z)
  : result (Z * Z) :=
  if numFunctions_ <? 1 then Err Exit
  else randInt numFunctions_ seed.

Definition getRandomNodeInput (numChromoInputs numNodes_ nodePosition : Z)
    (recurrentConnectionProbability : double) (seed : Z) : result (Z * Z) :=
  let '(r, seed) := randDecimal seed in
  if dlt r recurrentConnectionProbability then
    '(x, seed) ← randInt (numNodes_ - nodePosition) seed;
    Ok (x + nodePosition + numChromoInputs, seed)
  else randInt (numChromoInputs + nodePosition) seed.

Definition getRandomChromosomeOutput (numInputs_ numNodes_ : Z)
    (shortcutConnections : Z) (seed : Z) : result (Z * Z) :=
  if shortcutConnections =? 1 then randInt (numInputs_ + numNodes_) seed
  else
    '(x, seed) ← randInt numNodes_ seed;
    Ok (x + numInputs_, seed).

End Random.

(** ** Genes *)

(** [chromo->nodes[i]->function = v] and its likes. *)
Definition set_gene_function (c : chromosome) (i v : Z) : result chromosome :=
  upd_node c i (fun n => set_function n v).

Definition set_gene_input (c : chromosome) (i j v : Z) : result chromosome :=
  n ← aget (nodes c) i;
  ins ← aset (inputs n) j v;
  upd_node c i (fun n => set_inputs n ins).

Definition set_gene_weight (c : chromosome) (i j : Z) (v : double)
  : result chromosome :=
  n ← aget (nodes c) i;
  ws ← aset (weights n) j v;
  upd_node c i (fun n => set_weights n ws).

Definition set_gene_output (c : chromosome) (i v : Z) : result chromosome :=
  on ← aset (outputNodes c) i v;
  Ok (set_outputNodes c on).

(** ** Mutation *)

(** [(int) roundf(x)] for a double [x]: the argument is converted to
    single precision, rounded to the nearest integer with halves away
    from zero, and converted to [int]; the last step is undefined for
    NaN, for the infinities and outside the range of [int]. *)
Definition double_to_float (x : double) : spec_float :=
  match x with
  | S754_finite s m e => binary_round 24 128 s m e
  | _ => x
  end.

Definition roundf (x : spec_float) : spec_float :=
  match x with
  | S754_finite s m e =>
    if 0 <=? e then x
    else
      let d := 2 ^ (- e) in
      let q := Z.pos m / d in
      let r := Z.pos m mod d in
      let q' := if 2 * r >=? d then q + 1 else q in
      binary_normalize 24 128 (cond_Zopp s q') 0 s
  | _ => x
  end.

Definition float_to_int (x : spec_float) : result Z :=
  match x with
  | S754_zero _ => Ok 0
  | S754_finite s m e =>
    let v := cond_Zopp s (if 0 <=? e then Z.pos m * 2 ^ e
                          else Z.pos m / 2 ^ (- e)) in
    if (- 2 ^ 31 <=? v) && (v <=? 2 ^ 31 - 1) then Ok v else Err Fault
  | _ => Err Fault
  end.

(** [(int)roundf(numGenes * params->mutationRate)] *)
Definition numGenesToMutate_of (numGenes : Z) (mutationRate : double)
  : result Z :=
  float_to_int (roundf (double_to_float (dmul (of_int numGenes) mutationRate))).

Section Mutation.
Context `{Libc}.

(** The redraw of one gene, as the branches of [pointMutation] and
    [singleMutation] do it for a gene index that counts function genes
    first, input genes next and output genes last. *)
Definition mutateGene (params : parameters) (c : chromosome)
    (geneToMutate : Z) (seed : Z) : result (chromosome * Z) :=
  let numFunctionGenes := p_numNodes params in
  let numInputGenes := p_numNodes params * p_arity params in
  if geneToMutate <? numFunctionGenes then
    let nodeIndex := geneToMutate in
    '(v, seed) ← getRandomFunction (numFunctions (funcSet c)) seed;
    c ← set_gene_function c nodeIndex v;
    Ok (c, seed)
  else if geneToMutate <? numFunctionGenes + numInputGenes then
    let nodeIndex := Z.quot (geneToMutate - numFunctionGenes) (arity c) in
    let nodeInputIndex := Z.rem (geneToMutate - numFunctionGenes) (arity c) in
    '(v, seed) ← getRandomNodeInput (numInputs c) (numNodes c) nodeIndex
                   (p_recurrentConnectionProbability params) seed;
    c ← set_gene_input c nodeIndex nodeInputIndex v;
    Ok (c, seed)
  else
    let nodeIndex := geneToMutate - numFunctionGenes - numInputGenes in
    '(v, seed) ← getRandomChromosomeOutput (numInputs c) (numNodes c)
                   (p_shortcutConnections params) seed;
    c ← set_gene_output c nodeIndex v;
    Ok (c, seed).

(** One round of the loop of [pointMutation]: a gene is drawn, then
    redrawn. *)
Definition pointMutation_step (params : parameters) (numGenes : Z)
    (cs : chromosome * Z) : result (chromosome * Z) :=
  let '(c, seed) := cs in
  '(geneToMutate, seed) ← randInt numGenes seed;
  mutateGene params c geneToMutate seed.

Definition pointMutation (params : parameters) (c : chromosome) (type : Z)
    (seed : Z) : result (chromosome * Z) :=
  let numFunctionGenes := p_numNodes params in
  let numInputGenes := p_numNodes params * p_arity params in
  let numOutputGenes := p_numOutputs params in
  let numGenes := numFunctionGenes + numInputGenes + numOutputGenes in
  numGenesToMutate ← numGenesToMutate_of numGenes (p_mutationRate params);
  for_loop 0 numGenesToMutate
    (fun i cs => pointMutation_step params numGenes cs) (c, seed).

(** [pointMutationANN]: the gene index counts the weight genes between
    the input genes and the output genes; a redraw counts when it falls
    on an active node or on an output gene. *)
Fixpoint pointMutationANN_loop (fuel : nat) (params : parameters)
    (numGenes numGenesToMutate counter : Z) (c : chromosome) (seed : Z)
  : result (chromosome * Z) :=
  if negb (counter <? numGenesToMutate) then Ok (c, seed)
  else
    match fuel with
    | O => Err Fuel
    | S fuel' =>
      let numFunctionGenes := p_numNodes params in
      let numInputGenes := p_numNodes params * p_arity params in
      let numWeightGenes := p_numNodes params * p_arity params in
      '(geneToMutate, seed) ← randInt numGenes seed;
      '(c, seed, counter) ←
        (if geneToMutate <? numFunctionGenes then
           let nodeIndex := geneToMutate in
           n ← aget (nodes c) nodeIndex;
           let counter := if active n =? 1 then counter + 1 else counter in
           '(v, seed) ← getRandomFunction (numFunctions (funcSet c)) seed;
           c ← set_gene_function c nodeIndex v;
           Ok (c, seed, counter)
         else if geneToMutate <? numFunctionGenes + numInputGenes then
           let nodeIndex :=
             Z.quot (geneToMutate - numFunctionGenes) (arity c) in
           let nodeInputIndex :=
             Z.rem (geneToMutate - numFunctionGenes) (arity c) in
           n ← aget (nodes c) nodeIndex;
           let counter := if active n =? 1 then counter + 1 else counter in
           '(v, seed) ← getRandomNodeInput (numInputs c) (numNodes c)
                          nodeIndex
                          (p_recurrentConnectionProbability params) seed;
           c ← set_gene_input c nodeIndex nodeInputIndex v;
           Ok (c, seed, counter)
         else if geneToMutate
                 <? numFunctionGenes + numInputGenes + numWeightGenes then
           let nodeIndex :=
             Z.quot (geneToMutate - numFunctionGenes - numInputGenes)
               (arity c) in
           let nodeInputIndex :=
             Z.rem (geneToMutate - numFunctionGenes - numInputGenes)
               (arity c) in
           n ← aget (nodes c) nodeIndex;
           let counter := if active n =? 1 then counter + 1 else counter in
           let '(w, seed) :=
             getRandomConnectionWeight (p_connectionWeightRange params)
               seed in
           c ← set_gene_weight c nodeIndex nodeInputIndex w;
           Ok (c, seed, counter)
         else
           let nodeIndex :=
             geneToMutate - numFunctionGenes - numInputGenes
             - numWeightGenes in
           let counter := counter + 1 in
           '(v, seed) ← getRandomChromosomeOutput (numInputs c)
                          (numNodes c) (p_shortcutConnections params) seed;
           c ← set_gene_output c nodeIndex v;
           Ok (c, seed, counter));
      pointMutationANN_loop fuel' params numGenes numGenesToMutate counter
        c seed
    end.

Definition pointMutationANN (params : parameters) (c : chromosome)
    (type : Z) (seed : Z) : result (chromosome * Z) :=
  let numGenes := p_numNodes params + p_numNodes params * p_arity params
                  + p_numNodes params * p_arity params
                  + p_numOutputs params in
  numGenesToMutate ← numGenesToMutate_of numGenes (p_mutationRate params);
  pointMutationANN_loop patience params numGenes numGenesToMutate 0 c seed.

(** [singleMutation]: genes are redrawn until a redraw changes the gene
    of an active node, or an output gene. *)
Fixpoint singleMutation_loop (fuel : nat) (params : parameters)
    (numGenes : Z) (c : chromosome) (seed : Z) : result (chromosome * Z) :=
  match fuel with
  | O => Err Fuel
  | S fuel' =>
    let numFunctionGenes := p_numNodes params in
    let numInputGenes := p_numNodes params * p_arity params in
    '(geneToMutate, seed) ← randInt numGenes seed;
    '(c, seed, mutatedActive) ←
      (if geneToMutate <? numFunctionGenes then
         let nodeIndex := geneToMutate in
         n ← aget (nodes c) nodeIndex;
         let previousGeneValue := function n in
         '(newGeneValue, seed) ←
           getRandomFunction (numFunctions (funcSet c)) seed;
         c ← set_gene_function c nodeIndex newGeneValue;
         Ok (c, seed,
             negb (previousGeneValue =? newGeneValue) && (active n =? 1))
       else if geneToMutate <? numFunctionGenes + numInputGenes then
         let nodeIndex :=
           Z.quot (geneToMutate - numFunctionGenes) (arity c) in
         let nodeInputIndex :=
           Z.rem (geneToMutate - numFunctionGenes) (arity c) in
         n ← aget (nodes c) nodeIndex;
         previousGeneValue ← aget (inputs n) nodeInputIndex;
         '(newGeneValue, seed) ←
           getRandomNodeInput (numInputs c) (numNodes c) nodeIndex
             (p_recurrentConnectionProbability params) seed;
         c ← set_gene_input c nodeIndex nodeInputIndex newGeneValue;
         Ok (c, seed,
             negb (previousGeneValue =? newGeneValue) && (active n =? 1))
       else
         let nodeIndex := geneToMutate - numFunctionGenes - numInputGenes in
         previousGeneValue ← aget (outputNodes c) nodeIndex;
         '(newGeneValue, seed) ←
           getRandomChromosomeOutput (numInputs c) (numNodes c)
             (p_shortcutConnections params) seed;
         c ← set_gene_output c nodeIndex newGeneValue;
         Ok (c, seed, negb (previousGeneValue =? newGeneValue))
       : result (chromosome * Z * bool));
    if (mutatedActive : bool) then Ok (c, seed)
    else singleMutation_loop fuel' params numGenes c seed
  end.

Definition singleMutation (params : parameters) (c : chromosome) (type : Z)
    (seed : Z) : result (chromosome * Z) :=
  let numGenes := p_numNodes params + p_numNodes params * p_arity params
                  + p_numOutputs params in
  singleMutation_loop patience params numGenes c seed.

(** The redraw of the input gene and, for [type = 0], of the weight
    gene [j] of node [i], each with the probability of the mutation
    rate: the body of the inner loop of both probabilistic routines. *)
Definition mutateConnection (params : parameters) (type : Z) (i j : Z)
    (cs : chromosome * Z) : result (chromosome * Z) :=
  let '(c, seed) := cs in
  let '(r, seed) := randDecimal seed in
  '(c, seed) ←
    (if dle r (p_mutationRate params) then
       '(v, seed) ← getRandomNodeInput (numInputs c) (numNodes c) i
                      (p_recurrentConnectionProbability params) seed;
       c ← set_gene_input c i j v;
       Ok (c, seed)
     else Ok (c, seed));
  if type =? 0 then
    let '(r, seed) := randDecimal seed in
    if dle r (p_mutationRate params) then
      let '(w, seed) :=
        getRandomConnectionWeight (p_connectionWeightRange params) seed in
      c ← set_gene_weight c i j w;
      Ok (c, seed)
    else Ok (c, seed)
  else Ok (c, seed).

(** The last loop of both probabilistic routines. *)
Definition mutateOutputs (params : parameters) (cs : chromosome * Z)
  : result (chromosome * Z) :=
  for_loop 0 (p_numOutputs params)
    (fun i '(c, seed) =>
       let '(r, seed) := randDecimal seed in
       if dle r (p_mutationRate params) then
         '(v, seed) ← getRandomChromosomeOutput (numInputs c) (numNodes c)
                        (p_shortcutConnections params) seed;
         c ← set_gene_output c i v;
         Ok (c, seed)
       else Ok (c, seed))
    cs.

Definition probabilisticMutation (params : parameters) (c : chromosome)
    (type : Z) (seed : Z) : result (chromosome * Z) :=
  cs ← for_loop 0 (p_numNodes params)
    (fun i '(c, seed) =>
       cs ← (if numFunctions (funcSet c) >? 1 then
               let '(r, seed) := randDecimal seed in
               if dle r (p_mutationRate params) then
                 '(v, seed) ←
                   getRandomFunction (numFunctions (funcSet c)) seed;
                 c ← set_gene_function c i v;
                 Ok (c, seed)
               else Ok (c, seed)
             else Ok (c, seed));
       for_loop 0 (p_arity params)
         (fun j cs => mutateConnection params type i j cs) cs)
    (c, seed);
  mutateOutputs params cs.

Definition probabilisticMutationOnlyActive (params : parameters)
    (c : chromosome) (type : Z) (seed : Z) : result (chromosome * Z) :=
  cs ← for_loop 0 (numActiveNodes c)
    (fun i '(c, seed) =>
       activeNode ← aget (activeNodes c) i;
       let '(r, seed) := randDecimal seed in
       cs ← (if dle r (p_mutationRate params) then
               '(v, seed) ←
                 getRandomFunction (numFunctions (funcSet c)) seed;
               c ← set_gene_function c activeNode v;
               Ok (c, seed)
             else Ok (c, seed));
       for_loop 0 (p_arity params)
         (fun j cs => mutateConnection params type activeNode j cs) cs)
    (c, seed);
  mutateOutputs params cs.

(** [mutateChromosome]: the routine [params->mutationType] points to,
    then the active nodes anew. *)
Definition mutateChromosome (params : parameters) (c : chromosome)
    (type : Z) (seed : Z) : result (chromosome * Z) :=
  '(c, seed) ←
    match p_mutationType params with
    | probabilistic => probabilisticMutation params c type seed
    | point => pointMutation params c type seed
    | pointANN => pointMutationANN params c type seed
    | onlyActive => probabilisticMutationOnlyActive params c type seed
    | single => singleMutation params c type seed
    end;
  c ← setChromosomeActiveNodes c;
  Ok (c, seed).

End Mutation.

(** ** Node functions *)

Definition _add : nodeFunction := fun numInputs_ ins ws g =>
  sum ← aget ins 0;
  sum ← for_loop 1 numInputs_
          (fun i sum => x ← aget ins i; Ok (dadd sum x)) sum;
  Ok (sum, g).

Definition _sub : nodeFunction := fun numInputs_ ins ws g =>
  sum ← aget ins 0;
  sum ← for_loop 1 numInputs_
          (fun i sum => x ← aget ins i; Ok (dsub sum x)) sum;
  Ok (sum, g).

Definition _mul : nodeFunction := fun numInputs_ ins ws g =>
  multiplication ← aget ins 0;
  multiplication ← for_loop 1 numInputs_
          (fun i m => x ← aget ins i; Ok (dmul m x)) multiplication;
  Ok (multiplication, g).

Definition _divide : nodeFunction := fun numInputs_ ins ws g =>
  divide ← aget ins 0;
  divide ← for_loop 1 numInputs_
          (fun i d => x ← aget ins i; Ok (ddiv d x)) divide;
  Ok (divide, g).

Definition _absolute : nodeFunction := fun numInputs_ ins ws g =>
  x ← aget ins 0; Ok (dabs x, g).

Definition _wire : nodeFunction := fun numInputs_ ins ws g =>
  x ← aget ins 0; Ok (x, g).

Definition _constOne : nodeFunction := fun numInputs_ ins ws g =>
  Ok (of_int 1, g).

Definition _constZero : nodeFunction := fun numInputs_ ins ws g =>
  Ok (of_int 0, g).

(** [_randFloat] draws from [rand()], the generator of the process, not
    from a seed of the caller: its signature has no seed. *)
Definition _randFloat `{Libc} : nodeFunction := fun numInputs_ ins ws g =>
  let '(x, g) := rand g in
  let random := ddiv (of_int x) (of_int RAND_MAX) in
  let random := dsub (dmul random (of_int 2)) (of_int 1) in
  Ok (random, g).

Definition sumWeigtedInputs (numInputs_ : Z) (ins ws : list double)
  : result double :=
  for_loop 0 numInputs_
    (fun i weightedSum =>
       x ← aget ins i; w ← aget ws i; Ok (dadd weightedSum (dmul x w)))
    (of_int 0).

Definition _step : nodeFunction := fun numInputs_ ins ws g =>
  weightedInputSum ← sumWeigtedInputs numInputs_ ins ws;
  let out := if dlt weightedInputSum (of_int 0) then of_int 0
             else of_int 1 in
  Ok (out, g).

Definition _softsign : nodeFunction := fun numInputs_ ins ws g =>
  weightedInputSum ← sumWeigtedInputs numInputs_ ins ws;
  let out := ddiv weightedInputSum
               (dadd (of_int 1) (dabs weightedInputSum)) in
  Ok (out, g).

(** ** Fitness *)

(** [supervisedLearning], the default fitness function: the sum over
    the samples of the absolute differences between the outputs of the
    chromosome and the targets. *)
Definition supervisedLearning (params : parameters) (c : chromosome)
    (data : dataSet) (g : Z) : result (double * chromosome * Z) :=
  if negb (numInputs c =? d_numInputs data) then Err Exit
  else if negb (numOutputs c =? d_numOutputs data) then Err Exit
  else
    for_loop 0 (d_numSamples data)
      (fun i '(error, c, g) =>
         ins ← aget (inputData data) i;
         '(c, g) ← executeChromosome c ins g;
         error ← for_loop 0 (numOutputs c)
                   (fun j error =>
                      o ← getChromosomeOutput c j;
                      row ← aget (outputData data) i;
                      t ← aget row j;
                      Ok (dadd error (dabs (dsub o t))))
                   error;
         Ok (error, c, g))
      (of_int 0, c, g).

Section Evaluation.
Context `{Fitness}.

Definition setChromosomeFitness (params : parameters) (c : chromosome)
    (data : dataSet) (g : Z) : result (chromosome * Z) :=
  c ← setChromosomeActiveNodes c;
  c ← resetChromosome c;
  '(fit, c, g) ← fitnessFunction params c data g;
  Ok (set_fitness c fit, g).

Definition setChromosomeFitnessValidation (params : parameters)
    (c : chromosome) (data : dataSet) (g : Z) : result (chromosome * Z) :=
  c ← setChromosomeActiveNodes c;
  c ← resetChromosome c;
  '(fit, c, g) ← fitnessFunction params c data g;
  Ok (set_fitnessValidation c fit, g).

End Evaluation.

(** ** Selection and reproduction *)

(** [sortChromosomeArray]: the array holds pointers, the entries of the
    list are the chromosomes they point to, and exchanging two pointers
    exchanges two entries. *)
Definition sortChromosomeArray (chromoArray : list chromosome)
    (numChromos : Z) : result (list chromosome) :=
  for_loop 0 numChromos
    (fun i chromoArray =>
       for_loop i numChromos
         (fun j chromoArray =>
            ci ← aget chromoArray i;
            cj ← aget chromoArray j;
            if dgt (fitness ci) (fitness cj) then
              let chromoTmp := ci in
              chromoArray ← aset chromoArray i cj;
              aset chromoArray j chromoTmp
            else Ok chromoArray)
         chromoArray)
    chromoArray.

(** [selectFittest]; the pair is the parents and the candidates as the
    call leaves them. *)
Definition selectFittest (params : parameters)
    (parents candidateChromos : list chromosome)
    (numParents numCandidateChromos : Z)
  : result (list chromosome * list chromosome) :=
  candidateChromos ← sortChromosomeArray candidateChromos numCandidateChromos;
  parents ← for_loop 0 numParents
    (fun i parents =>
       p ← aget parents i;
       cand ← aget candidateChromos i;
       p ← copyChromosome p cand;
       aset parents i p)
    parents;
  Ok (parents, candidateChromos).

Section Reproduction.
Context `{Libc}.

(** [mutateRandomParent]: every child becomes the copy of a parent
    drawn at random and is then mutated. *)
Definition mutateRandomParent (params : parameters)
    (parents children : list chromosome) (numParents numChildren : Z)
    (type : Z) (seed : Z) : result (list chromosome * Z) :=
  for_loop 0 numChildren
    (fun i '(children, seed) =>
       '(r, seed) ← randInt numParents seed;
       p ← aget parents r;
       child ← aget children i;
       child ← copyChromosome child p;
       '(child, seed) ← mutateChromosome params child type seed;
       children ← aset children i child;
       Ok (children, seed))
    (children, seed).

End Reproduction.

(** [getBestChromosome]: the parents, then the children, are compared
    by validation fitness with the best so far; [best] is overwritten
    when one of them took its place. *)
Definition getBestChromosome (parents children : list chromosome)
    (numParents numChildren : Z) (best : chromosome) : result chromosome :=
  let flag := false in
  let bestChromoSoFar := best in
  '(bestChromoSoFar, flag) ← for_loop 0 numParents
    (fun i '(bestChromoSoFar, flag) =>
       p ← aget parents i;
       if dle (fitnessValidation p) (fitnessValidation bestChromoSoFar)
       then Ok (p, true) else Ok (bestChromoSoFar, flag))
    (bestChromoSoFar, flag);
  '(bestChromoSoFar, flag) ← for_loop 0 numChildren
    (fun i '(bestChromoSoFar, flag) =>
       ch ← aget children i;
       if dle (fitnessValidation ch) (fitnessValidation bestChromoSoFar)
       then Ok (ch, true) else Ok (bestChromoSoFar, flag))
    (bestChromoSoFar, flag);
  if (flag : bool) then copyChromosome best bestChromoSoFar else Ok best.

(** ** Initialisation *)

(** Memory that [malloc] returns is modelled as filled with zeros. *)
Definition blank_node : node :=
  {| function := 0; inputs := []; weights := []; active := 0;
     output := of_int 0; maxArity := 0; actArity := 0 |}.

Definition blank_functionSet : functionSet :=
  {| numFunctions := 0; functionNames := []; maxNumInputs := [];
     functions := [] |}.

Section Initialisation.
Context `{Libc}.

Definition initialiseNode (numInputs_ numNodes_ arity_ numFunctions_ : Z)
    (connectionWeightRange recurrentConnectionProbability : double)
    (nodePosition : Z) (seed : Z) : result (node * Z) :=
  let n := set_inputs blank_node (replicate (Z.to_nat arity_) 0) in
  let n := set_weights n (replicate (Z.to_nat arity_) (of_int 0)) in
  '(f, seed) ← getRandomFunction numFunctions_ seed;
  let n := set_function n f in
  let n := set_active n 1 in
  '(n, seed) ← for_loop 0 arity_
    (fun i '(n, seed) =>
       '(v, seed) ← getRandomNodeInput numInputs_ numNodes_ nodePosition
                      recurrentConnectionProbability seed;
       ins ← aset (inputs n) i v;
       let n := set_inputs n ins in
       let '(w, seed) := getRandomConnectionWeight connectionWeightRange
                           seed in
       ws ← aset (weights n) i w;
       Ok (set_weights n ws, seed))
    (n, seed);
  let n := set_output n (of_int 0) in
  Ok (set_maxArity n arity_, seed).

Definition initialiseChromosome (params : parameters) (seed : Z)
  : result (chromosome * Z) :=
  if numFunctions (p_funcSet params) <? 1 then Err Exit
  else
    '(nodes_, seed) ← for_loop 0 (p_numNodes params)
      (fun i '(nodes_, seed) =>
         '(n, seed) ← initialiseNode (p_numInputs params)
                        (p_numNodes params) (p_arity params)
                        (numFunctions (p_funcSet params))
                        (p_connectionWeightRange params)
                        (p_recurrentConnectionProbability params) i seed;
         nodes_ ← aset nodes_ i n;
         Ok (nodes_, seed))
      (replicate (Z.to_nat (p_numNodes params)) blank_node, seed);
    '(outputNodes_, seed) ← for_loop 0 (p_numOutputs params)
      (fun i '(outputNodes_, seed) =>
         '(o, seed) ← getRandomChromosomeOutput (p_numInputs params)
                        (p_numNodes params) (p_shortcutConnections params)
                        seed;
         outputNodes_ ← aset outputNodes_ i o;
         Ok (outputNodes_, seed))
      (replicate (Z.to_nat (p_numOutputs params)) 0, seed);
    let c :=
      {| numInputs := p_numInputs params;
         numOutputs := p_numOutputs params;
         numNodes := p_numNodes params;
         numActiveNodes := p_numNodes params;
         arity := p_arity params;
         nodes := nodes_;
         outputNodes := outputNodes_;
         activeNodes := replicate (Z.to_nat (p_numNodes params)) 0;
         fitness := of_int 0;
         fitnessValidation := of_int 0;
         outputValues :=
           replicate (Z.to_nat (p_numOutputs params)) (of_int 0);
         funcSet := copyFunctionSet blank_functionSet (p_funcSet params);
         nodeInputsHold :=
           replicate (Z.to_nat (p_arity params)) (of_int 0);
         generation := 0 |} in
    c ← setChromosomeActiveNodes c;
    Ok (c, seed).

Definition initialiseChromosomeFromChromosome (c : chromosome) (seed : Z)
  : result (chromosome * Z) :=
  '(nodes_, seed) ← for_loop 0 (numNodes c)
    (fun i '(nodes_, seed) =>
       '(n, seed) ← initialiseNode (numInputs c) (numNodes c) (arity c)
                      (numFunctions (funcSet c)) (of_int 0) (of_int 0)
                      i seed;
       src ← aget (nodes c) i;
       n ← copyNode n src;
       nodes_ ← aset nodes_ i n;
       Ok (nodes_, seed))
    (replicate (Z.to_nat (numNodes c)) blank_node, seed);
  outputNodes_ ← copyArray (numOutputs c)
                   (replicate (Z.to_nat (numOutputs c)) 0) (outputNodes c);
  let chromoNew :=
    {| numInputs := numInputs c;
       numOutputs := numOutputs c;
       numNodes := numNodes c;
       numActiveNodes := 0;
       arity := arity c;
       nodes := nodes_;
       outputNodes := outputNodes_;
       activeNodes := replicate (Z.to_nat (numNodes c)) 0;
       fitness := fitness c;
       fitnessValidation := fitnessValidation c;
       outputValues := replicate (Z.to_nat (numOutputs c)) (of_int 0);
       funcSet := copyFunctionSet blank_functionSet (funcSet c);
       nodeInputsHold := replicate (Z.to_nat (arity c)) (of_int 0);
       generation := generation c |} in
  chromoNew ← setChromosomeActiveNodes chromoNew;
  Ok (chromoNew, seed).

End Initialisation.

(** ** The generational loop *)

(** The chromosomes a run works on, the seed of the caller and the
    state of [rand()]. *)
Record population := {
  parentChromos : list chromosome;
  childrenChromos : list chromosome;
  candidateChromos : list chromosome;
  bestChromo : chromosome;
  pop_seed : Z;
  pop_rand : Z
}.

Section Generations.
Context `{Libc} `{Fitness}.

(** The training and the validation fitness of every chromosome of an
    array. *)
Definition evaluateChromosomes (params : parameters)
    (dataTrain dataValid : dataSet) (n : Z) (cs : list chromosome) (g : Z)
  : result (list chromosome * Z) :=
  for_loop 0 n
    (fun i '(cs, g) =>
       c ← aget cs i;
       '(c, g) ← setChromosomeFitness params c dataTrain g;
       '(c, g) ← setChromosomeFitnessValidation params c dataValid g;
       cs ← aset cs i c;
       Ok (cs, g))
    (cs, g).

(** The candidates of a generation: under ['+'] the children, then the
    parents; under [','] the children. *)
Definition setCandidates (params : parameters) (numCandidateChromos : Z)
    (parents children candidates : list chromosome)
  : result (list chromosome) :=
  if Ascii.eqb (p_evolutionaryStrategy params) "+"%char then
    for_loop 0 numCandidateChromos
      (fun i candidates =>
         cand ← aget candidates i;
         src ← (if i <? p_lambda params then aget children i
                else aget parents (i - p_lambda params));
         cand ← copyChromosome cand src;
         aset candidates i cand)
      candidates
  else if Ascii.eqb (p_evolutionaryStrategy params) ","%char then
    for_loop 0 numCandidateChromos
      (fun i candidates =>
         cand ← aget candidates i;
         src ← aget children i;
         cand ← copyChromosome cand src;
         aset candidates i cand)
      candidates
  else Ok candidates.

(** One generation.  The bodies of the loops of [runCGP] (lines
    3897-3944) and of [runCGPDE_OUT] (lines 4306-4356) are the same
    text but for the argument [type] that the reproduction scheme
    receives, which is why it is an argument here.  The selection and
    the reproduction scheme are the default ones, [selectFittest] and
    [mutateRandomParent]. *)
Definition generation_body (params : parameters)
    (dataTrain dataValid : dataSet) (numCandidateChromos : Z) (type : Z)
    (P : population) : result population :=
  '(children, g) ← evaluateChromosomes params dataTrain dataValid
                     (p_lambda params) (childrenChromos P) (pop_rand P);
  best ← getBestChromosome (parentChromos P) children (p_mu params)
           (p_lambda params) (bestChromo P);
  candidates ← setCandidates params numCandidateChromos (parentChromos P)
                 children (candidateChromos P);
  '(parents, candidates) ← selectFittest params (parentChromos P)
                             candidates (p_mu params) numCandidateChromos;
  '(children, seed) ← mutateRandomParent params parents children
                        (p_mu params) (p_lambda params) type (pop_seed P);
  Ok {| parentChromos := parents; childrenChromos := children;
        candidateChromos := candidates; bestChromo := best;
        pop_seed := seed; pop_rand := g |}.

(** [n] chromosomes from [initialiseChromosome]. *)
Definition initialiseChromosomes (params : parameters) (n : Z) (seed : Z)
  : result (list chromosome * Z) :=
  for_loop 0 n
    (fun i '(cs, seed) =>
       '(c, seed) ← initialiseChromosome params seed;
       Ok (cs ++ [c], seed))
    ([], seed).

Definition dataMismatch (params : parameters) (data : dataSet) : bool :=
  negb (p_numInputs params =? d_numInputs data)
  || negb (p_numOutputs params =? d_numOutputs data).

Definition numCandidates (params : parameters) : result Z :=
  if Ascii.eqb (p_evolutionaryStrategy params) "+"%char then
    Ok (p_mu params + p_lambda params)
  else if Ascii.eqb (p_evolutionaryStrategy params) ","%char then
    Ok (p_lambda params)
  else Err Exit.

(** [runCGP]: plain CGPANN.  The data sets are taken to be present (the
    source lets the pointers be [NULL]). *)
Definition runCGP (params : parameters) (dataTrain dataValid : dataSet)
    (numGens : Z) (seed : Z) (g : Z) : result (chromosome * Z * Z) :=
  if numGens <? 0 then Err Exit
  else if dataMismatch params dataTrain then Err Exit
  else if dataMismatch params dataValid then Err Exit
  else
    '(parents, seed) ← initialiseChromosomes params (p_mu params) seed;
    '(children, seed) ← initialiseChromosomes params (p_lambda params) seed;
    p0 ← aget parents 0;
    '(best, seed) ← initialiseChromosomeFromChromosome p0 seed;
    '(best, g) ← setChromosomeFitnessValidation params best dataValid g;
    numCandidateChromos ← numCandidates params;
    '(candidates, seed) ← initialiseChromosomes params numCandidateChromos
                            seed;
    '(parents, g) ← evaluateChromosomes params dataTrain dataValid
                      (p_mu params) parents g;
    P ← for_loop 0 numGens
          (fun gen P =>
             generation_body params dataTrain dataValid
               numCandidateChromos 0 P)
          {| parentChromos := parents; childrenChromos := children;
             candidateChromos := candidates; bestChromo := best;
             pop_seed := seed; pop_rand := g |};
    Ok (bestChromo P, pop_seed P, pop_rand P).

End Generations.

(** ** Differential evolution *)

Definition set_chromo (d : DEChromosome) (c : chromosome) : DEChromosome :=
  {| chromo := c; weightsVector := weightsVector d |}.
Definition set_weightsVector (d : DEChromosome) (w : list double)
  : DEChromosome :=
  {| chromo := chromo d; weightsVector := w |}.

Definition getNumChromosomeWeights (c : chromosome) : Z :=
  numNodes c * arity c.

(** [transferWeightsVectorToChromo]: the weights of the nodes are
    overwritten, node after node, from the flat vector. *)
Definition transferWeightsVectorToChromo (params : parameters)
    (d : DEChromosome) : result DEChromosome :=
  '(c, _) ← for_loop 0 (numNodes (chromo d))
    (fun i '(c, counter) =>
       for_loop 0 (arity c)
         (fun j '(c, counter) =>
            w ← aget (weightsVector d) counter;
            c ← set_gene_weight c i j w;
            Ok (c, counter + 1))
         (c, counter))
    (chromo d, 0);
  Ok (set_chromo d c).

(** The population size and the number of sweeps for a [type] of run:
    1 is CGPDE-IN, 2 is CGPDE-OUT, and both stay 0 otherwise. *)
Definition DE_NP (params : parameters) (type : Z) : Z :=
  if type =? 1 then p_NP_IN params
  else if type =? 2 then p_NP_OUT params else 0.
Definition DE_maxIter (params : parameters) (type : Z) : Z :=
  if type =? 1 then p_maxIter_IN params
  else if type =? 2 then p_maxIter_OUT params else 0.

(** Lines 4457 and 4461 of [runDE]: coordinate [j] of the trial for
    target [i] is the donor combination when [rj < CR] or [j] is [jr],
    and the coordinate of the target otherwise. *)
Definition DE_coordinate (params : parameters) (DEChromos : list DEChromosome)
    (i r1 r2 r3 jr j : Z) (rj : double) : result double :=
  if dlt rj (p_CR params) || (j =? jr) then
    d3 ← aget DEChromos r3; w3 ← aget (weightsVector d3) j;
    d1 ← aget DEChromos r1; w1 ← aget (weightsVector d1) j;
    d2 ← aget DEChromos r2; w2 ← aget (weightsVector d2) j;
    Ok (dadd w3 (dmul (p_F params) (dsub w1 w2)))
  else
    di ← aget DEChromos i; aget (weightsVector di) j.

(** Lines 4473-4477: the trial takes the place of the target when its
    fitness is less than or equal to the fitness of the target. *)
Definition DE_replace (numWeights : Z) (target u : DEChromosome)
  : result DEChromosome :=
  let fit_u := fitness (chromo u) in
  let fit_s := fitness (chromo target) in
  if dle fit_u fit_s then
    c ← copyChromosome (chromo target) (chromo u);
    w ← copyArray numWeights (weightsVector target) (weightsVector u);
    Ok {| chromo := c; weightsVector := w |}
  else Ok target.

Section DifferentialEvolution.
Context `{Libc} `{Fitness}.

Definition initialiseDEChromosome (params : parameters) (c : chromosome)
    (data : dataSet) (seed : Z) (g : Z) : result (DEChromosome * Z * Z) :=
  let numWeights := getNumChromosomeWeights c in
  '(cNew, seed) ← initialiseChromosomeFromChromosome c seed;
  '(w, seed) ← for_loop 0 numWeights
    (fun i '(w, seed) =>
       let '(x, seed) :=
         getRandomConnectionWeight (p_connectionWeightRange params) seed in
       w ← aset w i x;
       Ok (w, seed))
    (replicate (Z.to_nat numWeights) (of_int 0), seed);
  d ← transferWeightsVectorToChromo params
        {| chromo := cNew; weightsVector := w |};
  '(cNew, g) ← setChromosomeFitness params (chromo d) data g;
  Ok (set_chromo d cNew, seed, g).

Definition initialiseDEPopulation (params : parameters) (c : chromosome)
    (data : dataSet) (type : Z) (seed : Z) (g : Z)
  : result (list DEChromosome * Z * Z) :=
  let NP := DE_NP params type in
  let numWeights := getNumChromosomeWeights c in
  '(DEChromos, seed) ← for_loop 0 NP
    (fun i '(DEChromos, seed) =>
       '(cNew, seed) ← initialiseChromosomeFromChromosome c seed;
       Ok (DEChromos
             ++ [{| chromo := cNew;
                    weightsVector :=
                      replicate (Z.to_nat numWeights) (of_int 0) |}],
           seed))
    ([], seed);
  d0 ← aget DEChromos 0;
  '(w0, _) ← for_loop 0 (numNodes (chromo d0))
    (fun i '(w0, counter) =>
       for_loop 0 (arity (chromo d0))
         (fun j '(w0, counter) =>
            n ← aget (nodes c) i;
            w ← aget (weights n) j;
            w0 ← aset w0 counter w;
            Ok (w0, counter + 1))
         (w0, counter))
    (weightsVector d0, 0);
  '(c0, g) ← setChromosomeFitness params (chromo d0) data g;
  DEChromos ← aset DEChromos 0 {| chromo := c0; weightsVector := w0 |};
  '(DEChromos, seed) ← for_loop 1 NP
    (fun i '(DEChromos, seed) =>
       d ← aget DEChromos i;
       '(w, seed) ← for_loop 0 numWeights
         (fun j '(w, seed) =>
            let '(x, seed) :=
              getRandomConnectionWeight (p_connectionWeightRange params)
                seed in
            w ← aset w j x;
            Ok (w, seed))
         (weightsVector d, seed);
       DEChromos ← aset DEChromos i (set_weightsVector d w);
       Ok (DEChromos, seed))
    (DEChromos, seed);
  '(DEChromos, g) ← for_loop 1 NP
    (fun i '(DEChromos, g) =>
       d ← aget DEChromos i;
       d ← transferWeightsVectorToChromo params d;
       '(ci, g) ← setChromosomeFitness params (chromo d) data g;
       DEChromos ← aset DEChromos i (set_chromo d ci);
       Ok (DEChromos, g))
    (DEChromos, g);
  Ok (DEChromos, seed, g).

(** [do r = randInt(NP, seed); while (r is one of avoid)]. *)
Fixpoint DE_draw (fuel : nat) (NP : Z) (avoid : list Z) (seed : Z)
  : result (Z * Z) :=
  match fuel with
  | O => Err Fuel
  | S fuel' =>
    '(r, seed) ← randInt NP seed;
    if existsb (Z.eqb r) avoid then DE_draw fuel' NP avoid seed
    else Ok (r, seed)
  end.

(** Lines 4451-4463: the weights of the trial. *)
Definition DE_trial (params : parameters) (DEChromos : list DEChromosome)
    (numWeights i r1 r2 r3 jr : Z) (u : list double) (seed : Z)
  : result (list double * Z) :=
  for_loop 0 numWeights
    (fun j '(u, seed) =>
       let '(rj, seed) := randDecimal seed in
       x ← DE_coordinate params DEChromos i r1 r2 r3 jr j rj;
       u ← aset u j x;
       Ok (u, seed))
    (u, seed).

(** The state of the sweeps: the population, the trial, the seed of
    the caller and the state of [rand()]. *)
Definition DE_state : Type := (list DEChromosome * DEChromosome * Z * Z)%type.

(** Lines 4428-4463: the donors and the forced coordinate are drawn,
    then the weights of the trial are set. *)
Definition DE_make_trial (params : parameters)
    (DEChromos : list DEChromosome) (NP numWeights i : Z) (u : list double)
    (seed : Z) : result (list double * Z) :=
  '(r1, seed) ← DE_draw patience NP [i] seed;
  '(r2, seed) ← DE_draw patience NP [i; r1] seed;
  '(r3, seed) ← DE_draw patience NP [i; r1; r2] seed;
  '(jr, seed) ← randInt numWeights seed;
  DE_trial params DEChromos numWeights i r1 r2 r3 jr u seed.

(** Lines 4428-4477: the body of the loop over the targets. *)
Definition DE_target (params : parameters) (dataTrain : dataSet)
    (NP numWeights : Z) (i : Z) (st : DE_state) : result DE_state :=
  let '(DEChromos, DEChromo_u, seed, g) := st in
  '(u, seed) ← DE_make_trial params DEChromos NP numWeights i
                 (weightsVector DEChromo_u) seed;
  let DEChromo_u := set_weightsVector DEChromo_u u in
  DEChromo_u ← transferWeightsVectorToChromo params DEChromo_u;
  '(cu, g) ← setChromosomeFitness params (chromo DEChromo_u) dataTrain g;
  let DEChromo_u := set_chromo DEChromo_u cu in
  target ← aget DEChromos i;
  target ← DE_replace numWeights target DEChromo_u;
  DEChromos ← aset DEChromos i target;
  Ok (DEChromos, DEChromo_u, seed, g).

(** Lines 4423-4480: [maxIter] sweeps over the [NP] targets. *)
Definition DE_sweeps (params : parameters) (dataTrain : dataSet)
    (maxIter NP numWeights : Z) (st : DE_state) : result DE_state :=
  for_loop 0 maxIter
    (fun t st =>
       for_loop 0 NP
         (fun i st => DE_target params dataTrain NP numWeights i st) st)
    st.

Definition runDE (params : parameters) (c : chromosome)
    (dataTrain dataValid : dataSet) (type : Z) (seed : Z) (g : Z)
  : result (list chromosome * Z * Z) :=
  let maxIter := DE_maxIter params type in
  let NP := DE_NP params type in
  '(DEChromos, seed, g) ←
    initialiseDEPopulation params c dataTrain type seed g;
  let numWeights := getNumChromosomeWeights c in
  '(DEChromo_u, seed, g) ← initialiseDEChromosome params c dataTrain seed g;
  '(DEChromos, DEChromo_u, seed, g) ←
    DE_sweeps params dataTrain maxIter NP numWeights
      (DEChromos, DEChromo_u, seed, g);
  '(populationChromos, seed) ← for_loop 0 NP
    (fun i '(populationChromos, seed) =>
       d ← aget DEChromos i;
       '(ci, seed) ← initialiseChromosomeFromChromosome (chromo d) seed;
       Ok (populationChromos ++ [ci], seed))
    ([], seed);
  Ok (populationChromos, seed, g).

(** [runCGPDE_OUT]: the generations, with [type = 1] handed to the
    reproduction scheme (line 4355), then one pass of [runDE] on the
    best chromosome by validation fitness. *)
Definition runCGPDE_OUT_generations (params : parameters)
    (dataTrain dataValid : dataSet) (numCandidateChromos numGens : Z)
    (P : population) : result population :=
  for_loop 0 numGens
    (fun gen P =>
       generation_body params dataTrain dataValid numCandidateChromos 1 P)
    P.

Definition runCGPDE_OUT (params : parameters)
    (dataTrain dataValid : dataSet) (numGens : Z) (seed : Z) (g : Z)
  : result (list chromosome * Z * Z) :=
  if numGens <? 0 then Err Exit
  else if dataMismatch params dataTrain then Err Exit
  else if dataMismatch params dataValid then Err Exit
  else
    '(parents, seed, g) ← for_loop 0 (p_mu params)
      (fun i '(parents, seed, g) =>
         '(c, seed) ← initialiseChromosome params seed;
         '(c, g) ← setChromosomeFitness params c dataTrain g;
         '(c, g) ← setChromosomeFitnessValidation params c dataValid g;
         Ok (parents ++ [c], seed, g))
      ([], seed, g);
    '(children, seed) ← initialiseChromosomes params (p_lambda params) seed;
    p0 ← aget parents 0;
    '(best, seed) ← initialiseChromosomeFromChromosome p0 seed;
    '(best, g) ← setChromosomeFitnessValidation params best dataValid g;
    numCandidateChromos ← numCandidates params;
    '(candidates, seed) ← initialiseChromosomes params numCandidateChromos
                            seed;
    P ← runCGPDE_OUT_generations params dataTrain dataValid
          numCandidateChromos numGens
          {| parentChromos := parents; childrenChromos := children;
             candidateChromos := candidates; bestChromo := best;
             pop_seed := seed; pop_rand := g |};
    runDE params (bestChromo P) dataTrain dataValid 2 (pop_seed P)
      (pop_rand P).

End DifferentialEvolution.

(** ** Comparing chromosomes *)

(** A loop that a [return] can leave: the body goes on with a state,
    [inl], or returns a value from the function, [inr]. *)
Fixpoint for_nat_ret {St R} (n : nat) (i : Z)
    (body : Z -> St -> result (St + R)) (s : St) : result (St + R) :=
  match n with
  | O => Ok (inl s)
  | S n' =>
    r ← body i s;
    match r with
    | inl s' => for_nat_ret n' (i + 1) body s'
    | inr v => Ok (inr v)
    end
  end.

Definition for_loop_ret {St R} (lo hi : Z)
    (body : Z -> St -> result (St + R)) (s : St) : result (St + R) :=
  for_nat_ret (Z.to_nat (hi - lo)) lo body s.

(** What follows a loop that may have returned. *)
Definition and_then {St R} (r : result (St + R)) (k : St -> result R)
  : result R :=
  r ← r;
  match r with
  | inl s => k s
  | inr v => Ok v
  end.

(** The loop over the output genes that ends the four comparisons. *)
Definition compareOutputs (chromoA chromoB : chromosome)
  : result (unit + Z) :=
  for_loop_ret 0 (numOutputs chromoA)
    (fun i _ =>
       a ← aget (outputNodes chromoA) i;
       b ← aget (outputNodes chromoB) i;
       if negb (a =? b) then Ok (inr 0) else Ok (inl tt))
    tt.

(** The checks of the dimensions that open the four comparisons.  A
    chromosome is a value here, so that the check for [NULL] has no
    counterpart. *)
Definition dimensionsDiffer (chromoA chromoB : chromosome) : bool :=
  negb (numInputs chromoA =? numInputs chromoB)
  || negb (numNodes chromoA =? numNodes chromoB)
  || negb (numOutputs chromoA =? numOutputs chromoB)
  || negb (arity chromoA =? arity chromoB).

(** [compareChromosomes]: 1 when the function, input and output genes
    are the same, 0 otherwise. *)
Definition compareChromosomes (chromoA chromoB : chromosome) : result Z :=
  if dimensionsDiffer chromoA chromoB then Ok 0
  else
    and_then
      (for_loop_ret 0 (numNodes chromoA)
         (fun i _ =>
            na ← aget (nodes chromoA) i;
            nb ← aget (nodes chromoB) i;
            if negb (function na =? function nb) then Ok (inr 0)
            else
              for_loop_ret 0 (arity chromoA)
                (fun j _ =>
                   a ← aget (inputs na) j;
                   b ← aget (inputs nb) j;
                   if negb (a =? b) then Ok (inr 0) else Ok (inl tt))
                tt)
         tt)
      (fun _ =>
         and_then (compareOutputs chromoA chromoB) (fun _ => Ok 1)).

(** [compareChromosomesANN]: the connection weights count as well. *)
Definition compareChromosomesANN (chromoA chromoB : chromosome)
  : result Z :=
  if dimensionsDiffer chromoA chromoB then Ok 0
  else
    and_then
      (for_loop_ret 0 (numNodes chromoA)
         (fun i _ =>
            na ← aget (nodes chromoA) i;
            nb ← aget (nodes chromoB) i;
            if negb (function na =? function nb) then Ok (inr 0)
            else
              for_loop_ret 0 (arity chromoA)
                (fun j _ =>
                   a ← aget (inputs na) j;
                   b ← aget (inputs nb) j;
                   if negb (a =? b) then Ok (inr 0)
                   else
                     wa ← aget (weights na) j;
                     wb ← aget (weights nb) j;
                     if negb (deq wa wb) then Ok (inr 0) else Ok (inl tt))
                tt)
         tt)
      (fun _ =>
         and_then (compareOutputs chromoA chromoB) (fun _ => Ok 1)).

(** [compareChromosomesActiveNodes]: the genes of the nodes that are
    active in both count, and a node that is active in one of the two
    only makes them differ. *)
Definition compareChromosomesActiveNodes (chromoA chromoB : chromosome)
  : result Z :=
  if dimensionsDiffer chromoA chromoB then Ok 0
  else
    and_then
      (for_loop_ret 0 (numNodes chromoA)
         (fun i _ =>
            na ← aget (nodes chromoA) i;
            nb ← aget (nodes chromoB) i;
            if (active na =? 1) && (active nb =? 1) then
              if negb (function na =? function nb) then Ok (inr 0)
              else
                for_loop_ret 0 (arity chromoA)
                  (fun j _ =>
                     a ← aget (inputs na) j;
                     b ← aget (inputs nb) j;
                     if negb (a =? b) then Ok (inr 0) else Ok (inl tt))
                  tt
            else if negb (active na =? active nb) then Ok (inr 0)
            else Ok (inl tt))
         tt)
      (fun _ =>
         and_then (compareOutputs chromoA chromoB) (fun _ => Ok 1)).

(** * Data sets *)

Definition set_inputData (d : dataSet) (v : list (list double)) : dataSet :=
  {| d_numSamples := d_numSamples d; d_numInputs := d_numInputs d;
     d_numOutputs := d_numOutputs d; inputData := v;
     outputData := outputData d |}.

Definition set_outputData (d : dataSet) (v : list (list double)) : dataSet :=
  {| d_numSamples := d_numSamples d; d_numInputs := d_numInputs d;
     d_numOutputs := d_numOutputs d; inputData := inputData d;
     outputData := v |}.

(** A cell of an array of rows: [a[i][j]] and [a[i][j] = x]. *)
Definition aget2 {A} (a : list (list A)) (i j : Z) : result A :=
  row ← aget a i; aget row j.

Definition aset2 {A} (a : list (list A)) (i j : Z) (x : A)
  : result (list (list A)) :=
  row ← aget a i; row ← aset row j x; aset a i row.

(** [initialiseDataSetFromArrays]: the two flat arrays are cut into
    [numSamples] rows.  A row that [malloc] returns holds zeros here. *)
Definition initialiseDataSetFromArrays
    (numInputs_ numOutputs_ numSamples_ : Z) (inputs_ outputs_ : list double)
  : result dataSet :=
  '(inD, outD) ← for_loop 0 numSamples_
    (fun i '(inD, outD) =>
       rowI ← for_loop 0 numInputs_
                (fun j row =>
                   x ← aget inputs_ (i * numInputs_ + j); aset row j x)
                (replicate (Z.to_nat numInputs_) (of_int 0));
       rowO ← for_loop 0 numOutputs_
                (fun j row =>
                   x ← aget outputs_ (i * numOutputs_ + j); aset row j x)
                (replicate (Z.to_nat numOutputs_) (of_int 0));
       inD ← aset inD i rowI;
       outD ← aset outD i rowO;
       Ok (inD, outD))
    (replicate (Z.to_nat numSamples_) [],
     replicate (Z.to_nat numSamples_) []);
  Ok {| d_numSamples := numSamples_; d_numInputs := numInputs_;
        d_numOutputs := numOutputs_; inputData := inD;
        outputData := outD |}.

Definition getNumDataSetInputs (data : dataSet) : Z := d_numInputs data.
Definition getNumDataSetOutputs (data : dataSet) : Z := d_numOutputs data.
Definition getNumDataSetSamples (data : dataSet) : Z := d_numSamples data.

Definition getDataSetSampleInputs (data : dataSet) (sample : Z)
  : result (list double) := aget (inputData data) sample.

Definition getDataSetSampleInput (data : dataSet) (sample input : Z)
  : result double := aget2 (inputData data) sample input.

Definition getDataSetSampleOutputs (data : dataSet) (sample : Z)
  : result (list double) := aget (outputData data) sample.

Definition getDataSetSampleOutput (data : dataSet) (sample output : Z)
  : result double := aget2 (outputData data) sample output.

(** * Cross-validation *)

Section CrossValidation.
Context `{Libc}.

(** [memcpy] of [n] doubles between two buffers that do not overlap. *)
Definition memcpy {A} (dest src : list A) (n : Z) : result (list A) :=
  copyArray n dest src.

(** [shuffleData]: [numSamples] times, two rows are drawn and
    exchanged, through four buffers. *)
Definition shuffleData (data : dataSet) (seed : Z) : result (dataSet * Z) :=
  for_loop 0 (d_numSamples data)
    (fun i '(data, seed) =>
       '(rnd1, seed) ← randInt (d_numSamples data) seed;
       '(rnd2, seed) ← randInt (d_numSamples data) seed;
       let row1_input := replicate (Z.to_nat (d_numInputs data)) (of_int 0) in
       let row1_output :=
         replicate (Z.to_nat (d_numOutputs data)) (of_int 0) in
       let row2_input := replicate (Z.to_nat (d_numInputs data)) (of_int 0) in
       let row2_output :=
         replicate (Z.to_nat (d_numOutputs data)) (of_int 0) in
       src ← aget (inputData data) rnd1;
       row1_input ← memcpy row1_input src (d_numInputs data);
       src ← aget (outputData data) rnd1;
       row1_output ← memcpy row1_output src (d_numOutputs data);
       src ← aget (inputData data) rnd2;
       row2_input ← memcpy row2_input src (d_numInputs data);
       src ← aget (outputData data) rnd2;
       row2_output ← memcpy row2_output src (d_numOutputs data);
       dest ← aget (inputData data) rnd1;
       dest ← memcpy dest row2_input (d_numInputs data);
       inD ← aset (inputData data) rnd1 dest;
       let data := set_inputData data inD in
       dest ← aget (outputData data) rnd1;
       dest ← memcpy dest row2_output (d_numOutputs data);
       outD ← aset (outputData data) rnd1 dest;
       let data := set_outputData data outD in
       dest ← aget (inputData data) rnd2;
       dest ← memcpy dest row1_input (d_numInputs data);
       inD ← aset (inputData data) rnd2 dest;
       let data := set_inputData data inD in
       dest ← aget (outputData data) rnd2;
       dest ← memcpy dest row1_output (d_numOutputs data);
       outD ← aset (outputData data) rnd2 dest;
       let data := set_outputData data outD in
       Ok (data, seed))
    (data, seed).

(** One [do ... while] of [getIndex]: a fold is drawn until it differs
    from the folds in [avoid]; it is the loop of [DE_draw], over ten
    folds. *)
Definition getIndex_draw (avoid : list Z) (seed : Z) : result (Z * Z) :=
  DE_draw patience 10 avoid seed.

(** [getIndex]: seven folds for training and two for validation. *)
Definition getIndex (training_index validation_index : list Z)
    (testing_index : Z) (seed : Z) : result (list Z * list Z * Z) :=
  '(t0, seed) ← getIndex_draw [testing_index] seed;
  training_index ← aset training_index 0 t0;
  '(t1, seed) ← getIndex_draw [testing_index; t0] seed;
  training_index ← aset training_index 1 t1;
  '(t2, seed) ← getIndex_draw [testing_index; t0; t1] seed;
  training_index ← aset training_index 2 t2;
  '(t3, seed) ← getIndex_draw [testing_index; t0; t1; t2] seed;
  training_index ← aset training_index 3 t3;
  '(t4, seed) ← getIndex_draw [testing_index; t0; t1; t2; t3] seed;
  training_index ← aset training_index 4 t4;
  '(t5, seed) ← getIndex_draw [testing_index; t0; t1; t2; t3; t4] seed;
  training_index ← aset training_index 5 t5;
  '(t6, seed) ← getIndex_draw [testing_index; t0; t1; t2; t3; t4; t5] seed;
  training_index ← aset training_index 6 t6;
  '(v0, seed) ←
    getIndex_draw [testing_index; t0; t1; t2; t3; t4; t5; t6] seed;
  validation_index ← aset validation_index 0 v0;
  '(v1, seed) ←
    getIndex_draw [testing_index; t0; t1; t2; t3; t4; t5; t6; v0] seed;
  validation_index ← aset validation_index 1 v1;
  Ok (training_index, validation_index, seed).

End CrossValidation.

(** The part [getTrainingData] and [getValidationData] share, word for
    word but for the number of folds, 7 and 2: the sizes of the chosen
    folds are added up, the rows are allocated, and the folds are copied
    one after the other, cell by cell. *)
Definition gatherFolds (numFolds : Z) (folds : list dataSet)
    (index : list Z) : result dataSet :=
  f0 ← aget folds 0;
  let numInputs_ := d_numInputs f0 in
  let numOutputs_ := d_numOutputs f0 in
  numSamples_ ← for_loop 0 numFolds
    (fun i n =>
       k ← aget index i; f ← aget folds k; Ok (n + d_numSamples f))
    0;
  let inD :=
    replicate (Z.to_nat numSamples_)
      (replicate (Z.to_nat numInputs_) (of_int 0)) in
  let outD :=
    replicate (Z.to_nat numSamples_)
      (replicate (Z.to_nat numOutputs_) (of_int 0)) in
  '(inD, outD, l) ← for_loop 0 numFolds
    (fun i st =>
       fi ← aget index i;
       f ← aget folds fi;
       for_loop 0 (d_numSamples f)
         (fun j '(inD, outD, l) =>
            inD ← for_loop 0 numInputs_
                    (fun k inD =>
                       x ← aget2 (inputData f) j k; aset2 inD l k x)
                    inD;
            outD ← for_loop 0 numOutputs_
                     (fun k outD =>
                        x ← aget2 (outputData f) j k; aset2 outD l k x)
                     outD;
            Ok (inD, outD, l + 1))
         st)
    (inD, outD, 0);
  Ok {| d_numSamples := numSamples_; d_numInputs := numInputs_;
        d_numOutputs := numOutputs_; inputData := inD;
        outputData := outD |}.

Definition getTrainingData (folds : list dataSet) (training_index : list Z)
  : result dataSet := gatherFolds 7 folds training_index.

Definition getValidationData (folds : list dataSet)
    (validation_index : list Z) : result dataSet :=
  gatherFolds 2 folds validation_index.

(** [getTestingData]: the copy of one fold. *)
Definition getTestingData (folds : list dataSet) (testing_index : Z)
  : result dataSet :=
  f0 ← aget folds 0;
  let numInputs_ := d_numInputs f0 in
  let numOutputs_ := d_numOutputs f0 in
  f ← aget folds testing_index;
  let numSamples_ := d_numSamples f in
  let inD :=
    replicate (Z.to_nat numSamples_)
      (replicate (Z.to_nat numInputs_) (of_int 0)) in
  let outD :=
    replicate (Z.to_nat numSamples_)
      (replicate (Z.to_nat numOutputs_) (of_int 0)) in
  '(inD, outD) ← for_loop 0 (d_numSamples f)
    (fun i '(inD, outD) =>
       inD ← for_loop 0 numInputs_
               (fun j inD => x ← aget2 (inputData f) i j; aset2 inD i j x)
               inD;
       outD ← for_loop 0 numOutputs_
                (fun j outD =>
                   x ← aget2 (outputData f) i j; aset2 outD i j x)
                outD;
       Ok (inD, outD))
    (inD, outD);
  Ok {| d_numSamples := numSamples_; d_numInputs := numInputs_;
        d_numOutputs := numOutputs_; inputData := inD;
        outputData := outD |}.

(** * The best of a population of differential evolution *)

Section BestOfPopulation.
Context `{Libc} `{Fitness}.

(** [getBestDEChromosome]: by training fitness for the types 1 and 2,
    by validation fitness, computed here, for the type 3. *)
Definition getBestDEChromosome (params : parameters)
    (chromos : list chromosome) (dataValid : dataSet) (typeCGPDE : Z)
    (seed : Z) (g : Z)
  : result (chromosome * list chromosome * Z * Z) :=
  let NP :=
    if typeCGPDE =? 1 then p_NP_IN params
    else if (typeCGPDE =? 2) || (typeCGPDE =? 3) then p_NP_OUT params
    else 0 in
  '(chromos, g) ←
    (if typeCGPDE =? 3 then
       for_loop 0 NP
         (fun i '(chromos, g) =>
            c ← aget chromos i;
            '(c, g) ← setChromosomeFitnessValidation params c dataValid g;
            chromos ← aset chromos i c;
            Ok (chromos, g))
         (chromos, g)
     else Ok (chromos, g));
  c0 ← aget chromos 0;
  '(best, seed) ← initialiseChromosomeFromChromosome c0 seed;
  bestChromoSoFar ← for_loop 1 NP
    (fun i bestChromoSoFar =>
       ci ← aget chromos i;
       if ((typeCGPDE =? 1) || (typeCGPDE =? 2))
          && dlt (fitness ci) (fitness bestChromoSoFar)
       then Ok ci
       else if (typeCGPDE =? 3)
               && dlt (fitnessValidation ci)
                    (fitnessValidation bestChromoSoFar)
       then Ok ci
       else Ok bestChromoSoFar)
    c0;
  best ← copyChromosome best bestChromoSoFar;
  Ok (best, chromos, seed, g).

End BestOfPopulation.

(** * The logic gates of the function set *)

(** [_and] and [_nand] return from within the loop at the first input
    that is 0, [_or] and [_nor] at the first input that is 1. *)
Definition _and : nodeFunction := fun numInputs_ ins ws g =>
  out ← and_then
    (for_loop_ret 0 numInputs_
       (fun i _ =>
          x ← aget ins i;
          if deq x (of_int 0) then Ok (inr (of_int 0)) else Ok (inl tt))
       tt)
    (fun _ => Ok (of_int 1));
  Ok (out, g).

Definition _nand : nodeFunction := fun numInputs_ ins ws g =>
  out ← and_then
    (for_loop_ret 0 numInputs_
       (fun i _ =>
          x ← aget ins i;
          if deq x (of_int 0) then Ok (inr (of_int 1)) else Ok (inl tt))
       tt)
    (fun _ => Ok (of_int 0));
  Ok (out, g).

Definition _or : nodeFunction := fun numInputs_ ins ws g =>
  out ← and_then
    (for_loop_ret 0 numInputs_
       (fun i _ =>
          x ← aget ins i;
          if deq x (of_int 1) then Ok (inr (of_int 1)) else Ok (inl tt))
       tt)
    (fun _ => Ok (of_int 0));
  Ok (out, g).

Definition _nor : nodeFunction := fun numInputs_ ins ws g =>
  out ← and_then
    (for_loop_ret 0 numInputs_
       (fun i _ =>
          x ← aget ins i;
          if deq x (of_int 1) then Ok (inr (of_int 0)) else Ok (inl tt))
       tt)
    (fun _ => Ok (of_int 1));
  Ok (out, g).

(** The loop of [_xor] and [_xnor]: the inputs that are 1 are counted,
    and the loop is left at the second one. *)
Definition countOnes (numInputs_ : Z) (ins : list double) : result Z :=
  r ← for_loop_ret 0 numInputs_
        (fun i numOnes =>
           x ← aget ins i;
           let numOnes := if deq x (of_int 1) then numOnes + 1 else numOnes in
           if numOnes >? 1 then Ok (inr numOnes) else Ok (inl numOnes))
        0;
  Ok (match r with inl numOnes => numOnes | inr numOnes => numOnes end).

Definition _xor : nodeFunction := fun numInputs_ ins ws g =>
  numOnes ← countOnes numInputs_ ins;
  let out := if numOnes =? 1 then 1 else 0 in
  Ok (of_int out, g).

Definition _xnor : nodeFunction := fun numInputs_ ins ws g =>
  numOnes ← countOnes numInputs_ ins;
  let out := if numOnes =? 1 then 0 else 1 in
  Ok (of_int out, g).

Definition _not : nodeFunction := fun numInputs_ ins ws g =>
  x ← aget ins 0;
  let out := if deq x (of_int 0) then of_int 1 else of_int 0 in
  Ok (out, g).

(** * Statistics over repeated runs *)

(** [<limits.h>] for a 32-bit [int], and the sum of two [int]s, which is
    undefined when it leaves their range. *)
Definition INT_MAX : Z := 2147483647.
Definition INT_MIN : Z := - INT_MAX - 1.

Definition int_add (a b : Z) : result Z :=
  if (a + b <? INT_MIN) || (INT_MAX <? a + b) then Err Fault
  else Ok (a + b).

(** [medianInt]: the median of the first [length] entries, from a sorted
    copy.  The mean of the two middle entries is an integer division,
    converted to [double] afterwards. *)
Definition medianInt (anArray : list Z) (length_ : Z) : result double :=
  copy ← copyArray length_ (replicate (Z.to_nat length_) 0) anArray;
  let copy := sortIntArray copy length_ in
  if Z.rem length_ 2 =? 0 then
    a ← aget copy (Z.quot length_ 2);
    b ← aget copy (Z.quot length_ 2 - 1);
    s ← int_add a b;
    Ok (of_int (Z.quot s 2))
  else
    x ← aget copy (Z.quot (length_ - 1) 2);
    Ok (of_int x).

(** * What the properties are stated with *)

(** ** Tunables *)

(** A tunable is in the range from [lo] to [hi] when [lo <= v <= hi]
    holds: a NaN is in no range. *)
Definition in_interval (lo hi : Z) (v : double) : bool :=
  dge v (of_int lo) && dle v (of_int hi).

(** What [setCR] and [setF] test: a NaN passes. *)
Definition outside (lo hi : Z) (v : double) : bool :=
  dlt v (of_int lo) || dgt v (of_int hi).

(** ** Chromosomes the library builds *)

(** The arrays have the sizes [initialiseChromosome] gives them, every
    function gene names a function of the set, and every input and
    output gene is below [numInputs + numNodes]: what the generators
    of genes ensure, and what keeps the array accesses of the resolver
    in bounds. *)
Definition wf_node (c : chromosome) (n : node) : bool :=
  (0 <=? function n)
  && (function n <? Z.of_nat (length (maxNumInputs (funcSet c))))
  && (arity c <=? Z.of_nat (length (inputs n)))
  && forallb (fun b => b <? numInputs c + numNodes c) (inputs n).

Definition wf_chromosome (c : chromosome) : bool :=
  (Z.of_nat (length (nodes c)) =? numNodes c)
  && (numNodes c <=? Z.of_nat (length (activeNodes c)))
  && (Z.of_nat (length (outputNodes c)) =? numOutputs c)
  && forallb (fun o => o <? numInputs c + numNodes c) (outputNodes c)
  && forallb (wf_node c) (nodes c).

(** ** Reachability *)

(** The input genes of node [k] that count: the first ones, as many as
    the actual arity of the node. *)
Definition nodeInputs (c : chromosome) (k : nat) : list Z :=
  match nodes c !! k, getChromosomeNodeArity c (Z.of_nat k) with
  | Some n, Ok a => take (Z.to_nat a) (inputs n)
  | _, _ => []
  end.

(** Address [b] is the address of a node and one of the input genes
    that count of the node at address [a]. *)
Definition edge (c : chromosome) (a b : Z) : Prop :=
  exists k : nat,
    a = numInputs c + Z.of_nat k /\ b ∈ nodeInputs c k /\ numInputs c <= b.

Inductive path (c : chromosome) : Z -> Z -> Prop :=
  | path_refl a : path c a a
  | path_step a b b' : path c a b -> edge c b b' -> path c a b'.

(** The address of a node is reachable when a path leads to it from an
    output gene that addresses a node. *)
Definition reachable (c : chromosome) (b : Z) : Prop :=
  exists (i : nat) (a : Z),
    outputNodes c !! i = Some a /\ Z.of_nat i < numOutputs c
    /\ numInputs c <= a /\ path c a b.

(** The active-node list: the first [numActiveNodes] entries of the
    array [activeNodes]. *)
Definition activeList (c : chromosome) : list Z :=
  take (Z.to_nat (numActiveNodes c)) (activeNodes c).

(** Node [k] carries the active flag. *)
Definition isActive (c : chromosome) (k : nat) : bool :=
  match nodes c !! k with
  | Some n => active n =? 1
  | None => false
  end.

(** ** Invariants of the resolver *)

(** [c] has the genes of [c0]: the two differ at most in the flags and
    cached values of the nodes, in the list of active nodes and in the
    fitness values. *)
Record same_genes (c0 c : chromosome) : Prop := {
  sg_numInputs : numInputs c = numInputs c0;
  sg_numNodes : numNodes c = numNodes c0;
  sg_numOutputs : numOutputs c = numOutputs c0;
  sg_arity : arity c = arity c0;
  sg_outputNodes : outputNodes c = outputNodes c0;
  sg_funcSet : funcSet c = funcSet c0;
  sg_function : function <$> nodes c = function <$> nodes c0;
  sg_inputs : inputs <$> nodes c = inputs <$> nodes c0;
  sg_activeLen : length (activeNodes c) = length (activeNodes c0)
}.

(** The active-node list holds the nodes that carry the flag, each
    once, and a node that carries the flag has its actual arity set. *)
Record marks_ok (c : chromosome) : Prop := {
  mo_range : 0 <= numActiveNodes c <= Z.of_nat (length (activeNodes c));
  mo_nodup : NoDup (activeList c);
  mo_elem : forall z, z ∈ activeList c <->
                      exists k : nat, z = Z.of_nat k /\ isActive c k = true;
  mo_arity : forall (k : nat) n,
      nodes c !! k = Some n -> active n = 1 ->
      getChromosomeNodeArity c (Z.of_nat k) = Ok (actArity n)
}.

(** [c] after node [k], which was [n], is logged as active with actual
    arity [a]. *)
Definition logged (c : chromosome) (k : nat) (n : node) (a : Z)
  : chromosome :=
  set_nodes
    (set_numActiveNodes
       (set_activeNodes c
          (<[Z.to_nat (numActiveNodes c) := Z.of_nat k]> (activeNodes c)))
       (numActiveNodes c + 1))
    (<[k := set_actArity (set_active n 1) a]> (nodes c)).

(** Every input gene that counts of node [k] addresses an input or a
    node that carries the flag. *)
Definition closed_at (c0 c : chromosome) (k : nat) : Prop :=
  forall b, b ∈ nodeInputs c0 k -> numInputs c0 <= b ->
            isActive c (Z.to_nat (b - numInputs c0)) = true.

(** What a call of [recursivelySetActiveNodes] on address [a] has done
    when it turned [c] into [c']. *)
Record resolved_from (c0 : chromosome) (a : Z) (c c' : chromosome)
  : Prop := {
  rf_genes : same_genes c0 c';
  rf_marks : marks_ok c';
  rf_input : a < numInputs c0 -> c' = c;
  rf_count : numActiveNodes c <= numActiveNodes c';
  rf_mono : forall k, isActive c k = true -> isActive c' k = true;
  rf_root : numInputs c0 <= a ->
            isActive c' (Z.to_nat (a - numInputs c0)) = true;
  rf_closed : forall k, isActive c' k = true -> isActive c k = false ->
                        closed_at c0 c' k;
  rf_reach : forall k, isActive c' k = true -> isActive c k = false ->
                       path c0 a (numInputs c0 + Z.of_nat k)
}.

(** The loop invariant of the call on the node at address [a], logged
    in [c1], whose input genes are [ins]. *)
Definition inputs_resolved (c0 : chromosome) (a : Z) (ins : list Z)
    (c1 : chromosome) (i : Z) (s : chromosome) : Prop :=
  same_genes c0 s /\ marks_ok s
  /\ numActiveNodes c1 <= numActiveNodes s
  /\ (forall k, isActive c1 k = true -> isActive s k = true)
  /\ (forall j b, 0 <= j < i -> ins !! Z.to_nat j = Some b ->
        numInputs c0 <= b ->
        isActive s (Z.to_nat (b - numInputs c0)) = true)
  /\ (forall k, isActive s k = true -> isActive c1 k = false ->
        closed_at c0 s k)
  /\ (forall k, isActive s k = true -> isActive c1 k = false ->
        path c0 a (numInputs c0 + Z.of_nat k)).

(** The invariant of the loop of [setChromosomeActiveNodes] over the
    output genes. *)
Definition outputs_resolved (c0 : chromosome) (i : Z) (s : chromosome)
  : Prop :=
  same_genes c0 s /\ marks_ok s
  /\ (forall j o, 0 <= j < i -> outputNodes c0 !! Z.to_nat j = Some o ->
        numInputs c0 <= o ->
        isActive s (Z.to_nat (o - numInputs c0)) = true)
  /\ (forall k, isActive s k = true -> closed_at c0 s k)
  /\ (forall k, isActive s k = true ->
        reachable c0 (numInputs c0 + Z.of_nat k)).

(** ** Repeatable execution *)

(** No input gene of node [k] addresses node [k] or a later node: the
    chromosome has no recurrent connection. *)
Fixpoint non_recurrent_from (numIn k : Z) (ns : list node) : bool :=
  match ns with
  | [] => true
  | n :: ns' =>
    forallb (fun b => b <? numIn + k) (inputs n)
    && non_recurrent_from numIn (k + 1) ns'
  end.

Definition non_recurrent (c : chromosome) : bool :=
  non_recurrent_from (numInputs c) 0 (nodes c).

(** Called with [n] inputs, the node function [f] computes its value
    from the first [n] operands and the weights, and leaves the
    generator of the process alone. *)
Definition pure_at (f : nodeFunction) (n : Z) : Prop :=
  exists h : list double -> list double -> result double,
    forall ins ws g,
      f n ins ws g = rmap (fun v => (v, g)) (h (take (Z.to_nat n) ins) ws).

Definition active_functions_pure (c : chromosome) : Prop :=
  forall (k : nat) n f,
    Z.of_nat k ∈ activeList c -> nodes c !! k = Some n ->
    functions (funcSet c) !! Z.to_nat (function n) = Some f ->
    pure_at f (actArity n).

(** [s] and [t] are the same chromosome but for the cached values:
    the outputs of the nodes, the operand buffer and the output
    values. *)
Definition same_program (s t : chromosome) : Prop :=
  numInputs s = numInputs t /\ numOutputs s = numOutputs t
  /\ numActiveNodes s = numActiveNodes t
  /\ activeNodes s = activeNodes t
  /\ outputNodes s = outputNodes t
  /\ funcSet s = funcSet t
  /\ (fun n => set_output n (of_int 0)) <$> nodes s
     = (fun n => set_output n (of_int 0)) <$> nodes t.

(** The list of active nodes is in feed-forward order: the operands of
    an active node are inputs or nodes that stand earlier in the list,
    and the output genes address inputs or nodes of the list. *)
Definition feed_forward (c : chromosome) : Prop :=
  (forall (i : nat) (k : Z), activeList c !! i = Some k ->
     exists n, 0 <= k /\ nodes c !! Z.to_nat k = Some n
       /\ forall (j : nat) b,
            Z.of_nat j < actArity n -> inputs n !! j = Some b ->
            numInputs c <= b ->
            exists i' : nat, (i' < i)%nat
              /\ activeList c !! i' = Some (b - numInputs c))
  /\ (forall (i : nat) o, Z.of_nat i < numOutputs c ->
        outputNodes c !! i = Some o -> numInputs c <= o ->
        o - numInputs c ∈ activeList c).

(** The outputs of the first [i] active nodes are the same in [s] and
    in [t]. *)
Definition same_outputs_upto (L : list Z) (i : nat) (s t : chromosome)
  : Prop :=
  forall (i' : nat) (k : Z), (i' < i)%nat -> L !! i' = Some k ->
    output <$> (nodes s !! Z.to_nat k) = output <$> (nodes t !! Z.to_nat k).

(** What [executeNode] leaves as it was. *)
Definition same_frame (s u : chromosome) : Prop :=
  numInputs u = numInputs s /\ numOutputs u = numOutputs s
  /\ numActiveNodes u = numActiveNodes s
  /\ activeNodes u = activeNodes s
  /\ outputNodes u = outputNodes s
  /\ funcSet u = funcSet s
  /\ outputValues u = outputValues s.

(** ** Differential evolution *)

(** Fitness [x] does not exceed fitness [x0]. *)
Definition not_worse (x x0 : double) : Prop := dgt x x0 = false.

(** No individual of [pop] has a fitness that exceeds the fitness its
    place had in [pop0]. *)
Definition never_worse (pop0 pop : list DEChromosome) : Prop :=
  length pop = length pop0
  /\ forall (i : nat) d0 d, pop0 !! i = Some d0 -> pop !! i = Some d ->
       not_worse (fitness (chromo d)) (fitness (chromo d0)).

(** The donor combination at coordinate [j]:
    [weight[r3][j] + F * (weight[r1][j] - weight[r2][j])]. *)
Definition donor_combination (params : parameters)
    (DEChromos : list DEChromosome) (r1 r2 r3 j : Z) : result double :=
  d3 ← aget DEChromos r3; w3 ← aget (weightsVector d3) j;
  d1 ← aget DEChromos r1; w1 ← aget (weightsVector d1) j;
  d2 ← aget DEChromos r2; w2 ← aget (weightsVector d2) j;
  Ok (dadd w3 (dmul (p_F params) (dsub w1 w2))).

(** Coordinate [j] of the weights of the target [i]. *)
Definition target_coordinate (DEChromos : list DEChromosome) (i j : Z)
  : result double :=
  di ← aget DEChromos i; aget (weightsVector di) j.

(** ** Mutation *)

(** The connection weights of [c'] are those of [c]. *)
Definition same_weights (c c' : chromosome) : Prop :=
  weights <$> nodes c' = weights <$> nodes c.

(** The number of function, input and output genes. *)
Definition numStructuralGenes (params : parameters) : Z :=
  p_numNodes params + p_numNodes params * p_arity params
  + p_numOutputs params.

(** The value of the gene [g], with the numbering of [pointMutation]:
    the function genes first, the input genes next, node by node, and
    the output genes last. *)
Definition gene (params : parameters) (c : chromosome) (g : Z) : result Z :=
  let numFunctionGenes := p_numNodes params in
  let numInputGenes := p_numNodes params * p_arity params in
  if g <? numFunctionGenes then
    n ← aget (nodes c) g; Ok (function n)
  else if g <? numFunctionGenes + numInputGenes then
    n ← aget (nodes c) (Z.quot (g - numFunctionGenes) (arity c));
    aget (inputs n) (Z.rem (g - numFunctionGenes) (arity c))
  else aget (outputNodes c) (g - numFunctionGenes - numInputGenes).

Section MutationLog.
Context `{Libc}.

(** The loop of [pointMutation] with a log of the genes it draws, in
    the order of the draws. *)
Definition pointMutation_logged (params : parameters) (c : chromosome)
    (seed : Z) : result (chromosome * Z * list Z) :=
  let numGenes := numStructuralGenes params in
  numGenesToMutate ← numGenesToMutate_of numGenes (p_mutationRate params);
  for_loop 0 numGenesToMutate
    (fun i '(c, seed, log) =>
       '(geneToMutate, seed) ← randInt numGenes seed;
       '(c, seed) ← mutateGene params c geneToMutate seed;
       Ok (c, seed, log ++ [geneToMutate]))
    (c, seed, []).

Definition pointMutation_draws (params : parameters) (c : chromosome)
    (seed : Z) : result (list Z) :=
  rmap snd (pointMutation_logged params c seed).

End MutationLog.

Section Breeding.
Context `{Libc}.

(** [child'] was bred as [mutateRandomParent] does it when it is handed
    [type]: it is the mutated copy of one of the [parents], and the
    mutation left the weights of the copy as they were. *)
Definition bred_keeping_weights (params : parameters) (type : Z)
    (parents : list chromosome) (child' : chromosome) : Prop :=
  exists p child copy seed seed',
    p ∈ parents
    /\ copyChromosome child p = Ok copy
    /\ mutateChromosome params copy type seed = Ok (child', seed')
    /\ same_weights copy child'.

End Breeding.

(** The connection weights and the input genes of the children of a
    population, node by node. *)
Definition childrenWeights (P : population) : list (list (list double)) :=
  map (fun c => map weights (nodes c)) (childrenChromos P).

Definition childrenInputs (P : population) : list (list (list Z)) :=
  map (fun c => map inputs (nodes c)) (childrenChromos P).

(** ** The draws of the generator *)

Section Draws.
Context `{Libc}.

(** The state of [rand_r] after [k] draws from [seed]. *)
Fixpoint seed_after (k : nat) (seed : Z) : Z :=
  match k with
  | O => seed
  | S k' => seed_after k' (rand_r seed).2
  end.

(** Draw number [k] of [rand_r] from [seed], counting from 0. *)
Definition draw (k : nat) (seed : Z) : Z := (rand_r (seed_after k seed)).1.

(** [randInt(n)] accepts a draw when it is at most the limit it computes
    from [RAND_MAX]. *)
Definition randLimit_of (n : Z) : Z := RAND_MAX - (Z.rem RAND_MAX n + 1).

End Draws.

(** ** Doubles *)

(** The sign of a rounded number is the sign handed to the rounding. *)
Definition has_sign (sx : bool) (x : spec_float) : Prop :=
  match x with
  | S754_zero s | S754_infinity s | S754_finite s _ _ => s = sx
  | S754_nan => True
  end.

(** ** Chromosomes as the library builds them *)

(** The function set has a maximal arity on record for each of its
    [numFunctions] functions. *)
Definition funcSet_ok (fs : functionSet) : Prop :=
  numFunctions fs <= Z.of_nat (length (maxNumInputs fs)).

(** The genes of node [n] are valid alleles for a chromosome of the
    given dimensions: the function gene is the index of a function and
    every input gene is the address of an input or of a node. *)
Definition valid_node (numIn numNd ar numFn : Z) (n : node) : Prop :=
  0 <= function n < numFn
  /\ length (inputs n) = Z.to_nat ar
  /\ length (weights n) = Z.to_nat ar
  /\ Forall (fun b => 0 <= b < numIn + numNd) (inputs n).

(** ** Execution *)

(** A double that is a number and is finite. *)
Definition is_finite (x : double) : Prop :=
  isnan x = false /\ isinf x = false.

(** ** Selection *)

(** The fitness of [a] is not greater than the fitness of [b]. *)
Definition fitness_le (a b : chromosome) : Prop :=
  dgt (fitness a) (fitness b) = false.

(** No fitness of the list is NaN. *)
Definition no_nan_fitness (l : list chromosome) : Prop :=
  Forall (fun c => isnan (fitness c) = false) l.

(** [a] holds the chromosomes of [a0], the first [n] of them in some
    order and the others in their places. *)
Definition same_upto_order (n : Z) (a0 a : list chromosome) : Prop :=
  length a = length a0 /\ a ≡ₚ a0
  /\ take (Z.to_nat n) a ≡ₚ take (Z.to_nat n) a0
  /\ drop (Z.to_nat n) a = drop (Z.to_nat n) a0.

(** Each of the entries before [i] has a fitness that is not greater
    than the fitness of any entry that follows it among the first
    [n]. *)
Definition sorted_before (i n : Z) (a : list chromosome) : Prop :=
  forall (p q : nat) x y,
    Z.of_nat p < i -> (p <= q)%nat -> Z.of_nat q < n ->
    a !! p = Some x -> a !! q = Some y -> fitness_le x y.

(** The validation fitness of [a] is not greater than that of [b]. *)
Definition validation_le (a b : chromosome) : Prop :=
  dgt (fitnessValidation a) (fitnessValidation b) = false.

(** ** Equal genes *)

(** The two chromosomes have the same dimensions, and the same function
    genes, input genes and output genes within them. *)
Definition genes_equal (a b : chromosome) : Prop :=
  numInputs a = numInputs b /\ numNodes a = numNodes b
  /\ numOutputs a = numOutputs b /\ arity a = arity b
  /\ (forall (i : nat) na nb, Z.of_nat i < numNodes a ->
        nodes a !! i = Some na -> nodes b !! i = Some nb ->
        function na = function nb
        /\ forall j : nat, Z.of_nat j < arity a ->
             inputs na !! j = inputs nb !! j)
  /\ (forall i : nat, Z.of_nat i < numOutputs a ->
        outputNodes a !! i = outputNodes b !! i).

(** The arrays of the chromosome are as long as its dimensions say. *)
Definition allocated (c : chromosome) : Prop :=
  numNodes c <= Z.of_nat (length (nodes c))
  /\ numOutputs c <= Z.of_nat (length (outputNodes c))
  /\ forall (i : nat) n, Z.of_nat i < numNodes c -> nodes c !! i = Some n ->
       arity c <= Z.of_nat (length (inputs n))
       /\ arity c <= Z.of_nat (length (weights n)).

(** ** Copies *)

(** [nd] carries what [copyNode] takes over from [ns]: the function,
    the flags and the first [maxArity] input genes and weights. *)
Definition copied_node (ns nd : node) : Prop :=
  function nd = function ns /\ active nd = active ns
  /\ maxArity nd = maxArity ns /\ actArity nd = actArity ns
  /\ forall j : nat, Z.of_nat j < maxArity ns ->
       is_Some (inputs ns !! j) /\ is_Some (weights ns !! j)
       /\ inputs nd !! j = inputs ns !! j
       /\ weights nd !! j = weights ns !! j.

(** No connection weight within the dimensions of [c] is NaN. *)
Definition no_nan_weights (c : chromosome) : Prop :=
  forall (i j : nat) n w,
    Z.of_nat i < numNodes c -> nodes c !! i = Some n ->
    Z.of_nat j < arity c -> weights n !! j = Some w -> isnan w = false.

(** ** Mutation keeps chromosomes well formed *)

(** The genes of the node [n] are valid alleles for [c]: the function
    gene is the index of a function of the set, and every input gene is
    the address of an input or of a node. *)
Definition node_genes_valid (c : chromosome) (n : node) : Prop :=
  0 <= function n < numFunctions (funcSet c)
  /\ Forall (fun b => 0 <= b < numInputs c + numNodes c) (inputs n).

(** The genes of [c] are valid alleles: those of its nodes, and every
    output gene is the address of an input or of a node. *)
Definition genes_valid (c : chromosome) : Prop :=
  Forall (node_genes_valid c) (nodes c)
  /\ Forall (fun o => 0 <= o < numInputs c + numNodes c) (outputNodes c).

(** [c] is well formed, its genes are valid alleles, and it has the
    dimensions and the function set of [c0]. *)
Definition well_formed_like (c0 c : chromosome) : Prop :=
  wf_chromosome c = true
  /\ genes_valid c
  /\ numInputs c = numInputs c0 /\ numNodes c = numNodes c0
  /\ numOutputs c = numOutputs c0 /\ arity c = arity c0
  /\ funcSet c = funcSet c0.

(** ** Data sets *)

(** The arrays of [d] have the sizes its three counts announce. *)
Definition data_ok (d : dataSet) : Prop :=
  0 <= d_numInputs d /\ 0 <= d_numOutputs d
  /\ Z.of_nat (length (inputData d)) = d_numSamples d
  /\ Z.of_nat (length (outputData d)) = d_numSamples d
  /\ Forall (fun r => Z.of_nat (length r) = d_numInputs d) (inputData d)
  /\ Forall (fun r => Z.of_nat (length r) = d_numOutputs d) (outputData d).

(** The samples of [d]: each row of inputs with its row of targets. *)
Definition samples (d : dataSet) : list (list double * list double) :=
  zip (inputData d) (outputData d).

(** The folds [index] names, in its order. *)
Definition chosen_folds (folds : list dataSet) (index : list Z)
  : list dataSet :=
  omap (fun k => folds !! Z.to_nat k) index.

(** The number of samples of a list of folds. *)
Definition total_samples (fs : list dataSet) : Z :=
  foldr (fun f n => d_numSamples f + n) 0 fs.

(** [f] is a fold of the dimensions of [f0] whose arrays have the sizes
    its counts announce. *)
Definition fold_like (f0 f : dataSet) : Prop :=
  data_ok f /\ d_numInputs f = d_numInputs f0
  /\ d_numOutputs f = d_numOutputs f0.

(** [r] is a data set of the dimensions of [f0] that holds the rows of
    the folds [index] names, one fold after the other. *)
Definition gathers (f0 : dataSet) (folds : list dataSet) (index : list Z)
    (r : result dataSet) : Prop :=
  exists d, r = Ok d /\ data_ok d
    /\ d_numInputs d = d_numInputs f0 /\ d_numOutputs d = d_numOutputs f0
    /\ inputData d = concat (inputData <$> chosen_folds folds index)
    /\ outputData d = concat (outputData <$> chosen_folds folds index).

(** The entries of [index] are places of [folds]. *)
Definition names_folds (folds : list dataSet) (index : list Z) : Prop :=
  Forall (fun k => 0 <= k < Z.of_nat (length folds)) index.

(** ** The best of a population of differential evolution *)

(** What [getBestDEChromosome] compares: the validation fitness for the
    type 3, the training fitness for the others. *)
Definition DE_measure (typeCGPDE : Z) (c : chromosome) : double :=
  if typeCGPDE =? 3 then fitnessValidation c else fitness c.

(** The size of the population [getBestDEChromosome] looks at. *)
Definition best_NP (params : parameters) (typeCGPDE : Z) : Z :=
  if typeCGPDE =? 1 then p_NP_IN params else p_NP_OUT params.

(** ** The best chromosome over the generations *)

(** The validation fitness of [a] is the one of [b], or a number that
    is less than or equal to it. *)
Definition validation_improved (a b : chromosome) : Prop :=
  fitnessValidation a = fitnessValidation b
  \/ dle (fitnessValidation a) (fitnessValidation b) = true.

(** ** The logic gates *)

(** One of the inputs is [v]. *)
Definition some_input_is (v : Z) (l : list double) : bool :=
  existsb (fun x => deq x (of_int v)) l.

(** The number of the inputs that are 1. *)
Definition ones (l : list double) : Z :=
  Z.of_nat (length (List.filter (fun x => deq x (of_int 1)) l)).

(** 0 for [false], 1 for [true]. *)
Definition truth (b : bool) : double := if b then of_int 1 else of_int 0.

(** ** Single mutation *)

(** The genes of a node that carries the flag [active]: its function,
    then its inputs; none for a node without the flag. *)
Definition node_genes (n : node) : list Z :=
  if active n =? 1 then function n :: inputs n else [].

(** The expressed genes of a chromosome: the genes of the nodes that
    carry the flag [active], node by node, then the output genes. *)
Definition expressed_genes (c : chromosome) : list Z :=
  concat (node_genes <$> nodes c) ++ outputNodes c.

(** ** A C library, and small chromosomes to run the code on *)

(** [rand_r] as the GNU C library computes it, on a seed word of 32
    bits. *)
Definition glibc_rand_r (seed : Z) : Z * Z :=
  let next := seed in
  let next := (next * 1103515245 + 12345) mod 2 ^ 32 in
  let result := (next / 65536) mod 2048 in
  let next := (next * 1103515245 + 12345) mod 2 ^ 32 in
  let result := Z.shiftl result 10 in
  let result := Z.lxor result ((next / 65536) mod 1024) in
  let next := (next * 1103515245 + 12345) mod 2 ^ 32 in
  let result := Z.shiftl result 10 in
  let result := Z.lxor result ((next / 65536) mod 1024) in
  (result, next).

(** [rand] as the linear congruential generator that the C standard
    gives as an example, scaled to the same [RAND_MAX]. *)
Definition lcg_rand (g : Z) : Z * Z :=
  let next := (g * 1103515245 + 12345) mod 2 ^ 32 in
  (next / 2, next).

#[global] Instance example_libc : Libc :=
  {| RAND_MAX := 2147483647; rand_r := glibc_rand_r; rand := lcg_rand;
     patience := 64 |}.

#[global] Instance example_fitness : Fitness := supervisedLearning.

(** A function set with the preset functions "add", "div", "rand",
    "wire" and "softsign", as [addNodeFunction] registers them. *)
Definition example_funcSet : functionSet :=
  {| numFunctions := 5;
     functionNames := ["add"; "div"; "rand"; "wire"; "soft"]%string;
     maxNumInputs := [-1; -1; 0; 1; -1];
     functions := [_add; _divide; _randFloat; _wire; _softsign] |}.

(** A node and a chromosome as [initialiseNode] and
    [initialiseChromosome] lay them out, with the genes given instead
    of drawn, before the active nodes are set. *)
Definition mk_node (f : Z) (ins : list Z) (ws : list double) : node :=
  {| function := f; inputs := ins; weights := ws; active := 1;
     output := of_int 0; maxArity := Z.of_nat (length ins);
     actArity := 0 |}.

Definition mk_chromosome (nIn ar : Z) (ns : list node) (outs : list Z)
  : chromosome :=
  {| numInputs := nIn; numOutputs := Z.of_nat (length outs);
     numNodes := Z.of_nat (length ns);
     numActiveNodes := Z.of_nat (length ns); arity := ar; nodes := ns;
     outputNodes := outs; activeNodes := replicate (length ns) 0;
     fitness := of_int 0; fitnessValidation := of_int 0;
     outputValues := replicate (length outs) (of_int 0);
     funcSet := example_funcSet;
     nodeInputsHold := replicate (Z.to_nat ar) (of_int 0);
     generation := 0 |}.

Definition one : double := of_int 1.

(** A chromosome of one node, all of whose genes are in use, as
    [setChromosomeActiveNodes] leaves it: the node is active and its
    actual arity is set. *)
Definition one_node (nIn ar f : Z) (ins : list Z) (ws : list double)
    (out : Z) : chromosome :=
  set_numActiveNodes
    (mk_chromosome nIn ar [set_actArity (mk_node f ins ws) ar] [out]) 1.

(** Two inputs, one node "add" over both, one output reading the node. *)
Definition chromo_add : chromosome := one_node 2 2 0 [0; 1] [one; one] 2.

(** The same with "div": on the inputs (-1, 0) the node computes
    -1 / 0, on (0, 0) it computes 0 / 0. *)
Definition chromo_div : chromosome := one_node 2 2 1 [0; 1] [one; one] 2.

(** One input, one node "rand", which takes no operand, and one output
    reading the node. *)
Definition chromo_rand : chromosome :=
  set_numActiveNodes
    (mk_chromosome 1 1 [mk_node 2 [0] [one]] [1]) 1.

(** Two inputs, one node "soft", which weighs its operands, and one
    output reading the node. *)
Definition half : double := ddiv (of_int 1) (of_int 2).

Definition chromo_soft : chromosome :=
  one_node 2 2 4 [0; 1] [half; half] 2.

(** Four nodes of arity 2 over two inputs; the output reads node 2,
    which reads node 0 and an input; node 1 and node 3 are read by no
    one, and node 3 is a "wire", whose second input gene is not used. *)
Definition chromo_four : chromosome :=
  mk_chromosome 2 2
    [mk_node 0 [0; 1] [one; one]; mk_node 0 [2; 0] [one; one];
     mk_node 0 [2; 1] [one; one]; mk_node 3 [3; 4] [one; one]]
    [4].

(** A recurrent chromosome: node 0 reads node 1 and node 1 reads node
    0; a "wire" node 2 whose unused second gene points at node 3. *)
Definition chromo_cycle : chromosome :=
  mk_chromosome 1 2
    [mk_node 0 [0; 2] [one; one]; mk_node 0 [1; 1] [one; one];
     mk_node 3 [2; 4] [one; one]; mk_node 0 [0; 0] [one; one]]
    [3; 0].

(** Parameters for chromosomes of two inputs, one node of arity 2 and
    one output, with the example function set. *)
Definition example_params : parameters :=
  {| p_mu := 1; p_lambda := 4; p_evolutionaryStrategy := "+"%char;
     p_mutationRate := ddiv (of_int 5) (of_int 100);
     p_recurrentConnectionProbability := of_int 0;
     p_connectionWeightRange := of_int 1;
     p_numInputs := 2; p_numNodes := 1; p_numOutputs := 1;
     p_arity := 2; p_targetFitness := of_int 0;
     p_funcSet := example_funcSet;
     p_shortcutConnections := 1; p_mutationType := probabilistic;
     p_numThreads := 1; p_NP_IN := 10; p_NP_OUT := 10;
     p_maxIter_IN := 100; p_maxIter_OUT := 100;
     p_CR := ddiv (of_int 1) (of_int 2); p_F := of_int 1 |}.

(** Three candidates for selection, told apart by [generation]: a child
    and a parent of fitness 2, and a child of fitness 1. *)
Definition candidate (fit gen : Z) : chromosome :=
  set_generation (set_fitness chromo_add (of_int fit)) gen.

Definition child_a : chromosome := candidate 2 1.
Definition parent_b : chromosome := candidate 2 2.
Definition child_c : chromosome := candidate 1 3.

(** ** A run of differential evolution *)

(** Two samples of two inputs and one output. *)
Definition example_data : dataSet :=
  {| d_numSamples := 2; d_numInputs := 2; d_numOutputs := 1;
     inputData := [[of_int 1; of_int 2]; [of_int 3; of_int (-1)]];
     outputData := [[half]; [of_int 0]] |}.

(** A population of four, two sweeps. *)
Definition de_params : parameters :=
  set_p_maxIter_OUT (set_p_NP_OUT example_params 4) 2.

Definition blank_DEChromosome : DEChromosome :=
  {| chromo := chromo_soft; weightsVector := [] |}.

(** What a call returned, for a call that is known to return. *)
Definition value_of {A} (d : A) (r : result A) : A :=
  match r with Ok a => a | Err _ => d end.

(** The state in which [runDE] enters its sweeps, for the seed 1. *)
Definition de_start : DE_state :=
  value_of ([], blank_DEChromosome, 0, 0)
    ('(pop, seed, g) ←
       initialiseDEPopulation de_params chromo_soft example_data 2 1 0;
     '(u, seed, g) ←
       initialiseDEChromosome de_params chromo_soft example_data seed g;
     Ok (pop, u, seed, g)).

(** Populations of four for the sweeps of [runDE], on [chromo_soft]. *)
Definition with_weights (w : list double) : DEChromosome :=
  {| chromo := chromo_soft; weightsVector := w |}.

Definition uniform_population : list DEChromosome :=
  replicate 4 (with_weights [half; half]).

Definition spread_population : list DEChromosome :=
  [with_weights [of_int 1; of_int 2]; with_weights [of_int 3; of_int 5];
   with_weights [of_int 7; of_int 11]; with_weights [of_int 13; of_int 17]].

(** Point mutation at the rate 1/2: two of the four genes of
    [chromo_soft] are drawn. *)
Definition point_params : parameters :=
  set_p_mutationType (set_p_mutationRate example_params half) point.

(** Every gene is redrawn: the mutation rate is 1. *)
Definition always_params : parameters :=
  set_p_mutationRate example_params (of_int 1).

(** One parent and four children, all with the weights 1/2 and 1/2. *)
Definition first_population : population :=
  {| parentChromos := [chromo_soft];
     childrenChromos := replicate 4 chromo_soft;
     candidateChromos := replicate 5 chromo_soft;
     bestChromo := chromo_soft; pop_seed := 1; pop_rand := 0 |}.

(** [always_params] with a population of four and two sweeps for the
    pass of [runDE] that ends [runCGPDE_OUT]. *)
Definition out_params : parameters :=
  set_p_maxIter_OUT (set_p_NP_OUT always_params 4) 2.

(** [chromo_add] with a weight that is not a number. *)
Definition chromo_nan : chromosome :=
  one_node 2 2 0 [0; 1] [one; S754_nan] 2.

(** Ten folds of two samples each. *)
Definition example_folds : list dataSet := replicate 10 example_data.

(** Chromosomes told apart by [generation], with a validation fitness:
    a best so far of validation fitness 2, a parent of 3 and two
    children of 2. *)
Definition validated (fit gen : Z) : chromosome :=
  set_generation (set_fitnessValidation chromo_add (of_int fit)) gen.

Definition best_2 : chromosome := validated 2 0.
Definition parent_3 : chromosome := validated 3 1.
Definition child_2a : chromosome := validated 2 2.
Definition child_2b : chromosome := validated 2 3.

(** * Properties *)

(** ** The result monad, arrays and loops *)

Lemma bind_Ok {A B} (m : result A) (f : A -> result B) (b : B) :
  m ≫= f = Ok b -> exists a, m = Ok a /\ f a = Ok b.
Proof. destruct m as [a|e]; [eauto | discriminate]. Qed.

Lemma aget_Ok {A} (a : list A) (i : Z) (x : A) :
  aget a i = Ok x <-> 0 <= i /\ a !! Z.to_nat i = Some x.
Proof.
  unfold aget. destruct (Z.ltb_spec i 0).
  - split; [discriminate | lia].
  - destruct (a !! Z.to_nat i) eqn:E; split;
      try discriminate; try (intros [= ->]; auto); intros [_ [= ->]]; auto.
Qed.

Lemma aget_in_range {A} (a : list A) (i : Z) :
  0 <= i < Z.of_nat (length a) -> exists x, aget a i = Ok x.
Proof.
  intros Hi. unfold aget. destruct (Z.ltb_spec i 0); [lia|].
  destruct (lookup_lt_is_Some_2 a (Z.to_nat i)) as [x Hx]; [lia|].
  rewrite Hx. eauto.
Qed.

Lemma aget_past_end {A} (a : list A) (i : Z) :
  Z.of_nat (length a) <= i -> aget a i = Err Fault.
Proof.
  intros Hi. unfold aget. destruct (Z.ltb_spec i 0); [done|].
  rewrite lookup_ge_None_2; [done | lia].
Qed.

Lemma aget_not_Exit {A} (a : list A) (i : Z) : aget a i <> Err Exit.
Proof.
  unfold aget. destruct (i <? 0); [discriminate|].
  destruct (a !! Z.to_nat i); discriminate.
Qed.

Lemma aset_Ok {A} (a : list A) (i : Z) (x : A) (a' : list A) :
  aset a i x = Ok a' <->
  0 <= i < Z.of_nat (length a) /\ a' = <[Z.to_nat i := x]> a.
Proof.
  unfold aset.
  destruct (Z.leb_spec 0 i), (Z.ltb_spec i (Z.of_nat (length a))); simpl;
    split; try discriminate; try lia.
  - intros [= <-]. split; [lia | done].
  - intros [_ ->]. done.
Qed.

Lemma aset_in_range {A} (a : list A) (i : Z) (x : A) :
  0 <= i < Z.of_nat (length a) -> aset a i x = Ok (<[Z.to_nat i := x]> a).
Proof. intros Hi. apply aset_Ok. auto. Qed.

(** A loop invariant, for loops that return. *)
Lemma for_nat_inv {St} (P : Z -> St -> Prop) (body : Z -> St -> result St) :
  forall (n : nat) (i : Z) (s s' : St),
  P i s ->
  (forall j t t', i <= j < i + Z.of_nat n -> P j t -> body j t = Ok t' ->
                  P (j + 1) t') ->
  for_nat n i body s = Ok s' ->
  P (i + Z.of_nat n) s'.
Proof.
  induction n as [|n IH]; intros i s s' Hs Hbody Hrun; simpl in Hrun.
  - injection Hrun as <-. by replace (i + Z.of_nat 0) with i by lia.
  - apply bind_Ok in Hrun as (t & Ht & Hrun).
    replace (i + Z.of_nat (S n)) with ((i + 1) + Z.of_nat n) by lia.
    eapply IH; [ | | exact Hrun].
    + eapply Hbody; [ | exact Hs | exact Ht]. lia.
    + intros j u u' Hj. apply Hbody. lia.
Qed.

Lemma for_loop_inv {St} (P : Z -> St -> Prop) (body : Z -> St -> result St)
    (lo hi : Z) (s s' : St) :
  lo <= hi ->
  P lo s ->
  (forall j t t', lo <= j < hi -> P j t -> body j t = Ok t' -> P (j + 1) t') ->
  for_loop lo hi body s = Ok s' ->
  P hi s'.
Proof.
  intros Hle Hs Hbody Hrun. unfold for_loop in Hrun.
  replace hi with (lo + Z.of_nat (Z.to_nat (hi - lo))) by lia.
  eapply for_nat_inv; [exact Hs | | exact Hrun].
  intros j t t' Hj. apply Hbody. lia.
Qed.

(** An invariant that does not mention the counter. *)
Lemma for_loop_preserves {St} (P : St -> Prop) (body : Z -> St -> result St)
    (lo hi : Z) (s s' : St) :
  P s ->
  (forall j t t', lo <= j < hi -> P t -> body j t = Ok t' -> P t') ->
  for_loop lo hi body s = Ok s' ->
  P s'.
Proof.
  intros Hs Hbody Hrun. unfold for_loop in Hrun.
  assert (Hgen : forall n i t, lo <= i -> i + Z.of_nat n <= Z.max lo hi ->
            P t -> for_nat n i body t = Ok s' -> P s').
  { induction n as [|n IH]; intros i t Hlo Hhi Ht Hr; simpl in Hr.
    - by injection Hr as <-.
    - apply bind_Ok in Hr as (u & Hu & Hr).
      eapply (IH (i + 1)); [lia | lia | | exact Hr].
      eapply Hbody; [ | exact Ht | exact Hu]. lia. }
  eapply Hgen; [ | | exact Hs | exact Hrun]; lia.
Qed.

(** A loop invariant that also shows that the loop returns. *)
Lemma for_nat_total {St} (P : Z -> St -> Prop) (body : Z -> St -> result St) :
  forall (n : nat) (i : Z) (s : St),
  P i s ->
  (forall j t, i <= j < i + Z.of_nat n -> P j t ->
               exists t', body j t = Ok t' /\ P (j + 1) t') ->
  exists s', for_nat n i body s = Ok s' /\ P (i + Z.of_nat n) s'.
Proof.
  induction n as [|n IH]; intros i s Hs Hbody; simpl.
  - exists s. split; [done|]. by replace (i + Z.of_nat 0) with i by lia.
  - destruct (Hbody i s) as (t & Ht & HPt); [lia | done |].
    rewrite Ht. simpl.
    destruct (IH (i + 1) t HPt) as (s' & Hs' & HP').
    { intros j u Hj. apply Hbody. lia. }
    exists s'. split; [done|].
    by replace (i + Z.of_nat (S n)) with ((i + 1) + Z.of_nat n) by lia.
Qed.

Lemma for_loop_total {St} (P : Z -> St -> Prop) (body : Z -> St -> result St)
    (lo hi : Z) (s : St) :
  lo <= hi ->
  P lo s ->
  (forall j t, lo <= j < hi -> P j t ->
               exists t', body j t = Ok t' /\ P (j + 1) t') ->
  exists s', for_loop lo hi body s = Ok s' /\ P hi s'.
Proof.
  intros Hle Hs Hbody. unfold for_loop.
  destruct (for_nat_total P body (Z.to_nat (hi - lo)) lo s Hs)
    as (s' & Hrun & HP).
  { intros j t Hj. apply Hbody. lia. }
  exists s'. split; [done|].
  by replace hi with (lo + Z.of_nat (Z.to_nat (hi - lo))) by lia.
Qed.

Lemma for_loop_empty {St} (body : Z -> St -> result St) (lo hi : Z) (s : St) :
  hi <= lo -> for_loop lo hi body s = Ok s.
Proof.
  intros Hle. unfold for_loop. by replace (Z.to_nat (hi - lo)) with O by lia.
Qed.

(** ** Setters *)

Lemma SFcompare_antisym (x y : double) :
  SFcompare y x = option_map CompOpp (SFcompare x y).
Proof.
  destruct x as [sx|sx| |sx mx ex], y as [sy|sy| |sy my ey]; cbn; try done;
    repeat match goal with
           | s : bool |- _ => destruct s
           end; cbn; try done.
  all: rewrite (Z.compare_antisym ex ey);
    destruct (ex ?= ey) eqn:He; cbn; try done.
  all: rewrite !Pos.compare_cont_spec; cbn;
    rewrite (Pos.compare_antisym mx my); by destruct (mx ?= my)%positive.
Qed.

(** Between numbers, what is not in a range is below it or above it. *)
Lemma below_or_above (a b v : double) :
  isnan v = false -> isnan a = false -> isnan b = false ->
  dge v a && dle v b = false -> dlt v a || dgt v b = true.
Proof.
  unfold dge, dle, dlt, dgt, SFleb, SFltb. intros Hv Ha Hb.
  rewrite (SFcompare_antisym v a), (SFcompare_antisym b v).
  destruct (SFcompare v a) as [[]|] eqn:E1;
    destruct (SFcompare b v) as [[]|] eqn:E2; cbn; try done.
  all: destruct v, a, b; done.
Qed.

Lemma out_of_interval (lo hi : Z) (v : double) :
  isnan v = false -> isnan (of_int lo) = false -> isnan (of_int hi) = false ->
  in_interval lo hi v = false -> outside lo hi v = true.
Proof. apply below_or_above. Qed.

Lemma nan_in_no_interval (lo hi : Z) (v : double) :
  isnan v = true -> in_interval lo hi v = false /\ outside lo hi v = false.
Proof.
  unfold in_interval, outside, dge, dle, dlt, dgt, SFleb, SFltb.
  destruct v; try done. intros _. by destruct (of_int lo), (of_int hi).
Qed.

(** C9, as the code has it.  A value is out of range when it is not in
    the range, a NaN included.  The setters of the evolutionary
    tunables (mutation rate, recurrent connection probability, mu,
    lambda, shortcut connections) answer an out-of-range value with one
    warning, keep the parameters as they were and return.  The setters
    of the tunables of differential evolution (CR, F, both population
    sizes, both iteration counts) answer an out-of-range number with
    one message and terminate the program; [setCR] and [setF] test
    [v < lo || v > hi], which a NaN passes, and store a NaN without a
    message. *)
Theorem setters_out_of_range (params : parameters) :
  (forall r, in_interval 0 1 r = false ->
     exists w, setMutationRate params r = ([w], Ok params)) /\
  (forall r, in_interval 0 1 r = false ->
     exists w, setRecurrentConnectionProbability params r
               = ([w], Ok params)) /\
  (forall n, n <= 0 -> exists w, setMu params n = ([w], Ok params)) /\
  (forall n, n <= 0 -> exists w, setLambda params n = ([w], Ok params)) /\
  (forall n, n <> 0 -> n <> 1 ->
     exists w, setShortcutConnections params n = ([w], Ok params)) /\
  (forall cr, in_interval 0 1 cr = false ->
     if isnan cr then setCR params cr = ([], Ok (set_p_CR params cr))
     else exists w, setCR params cr = ([w], Err Exit)) /\
  (forall f, in_interval 0 2 f = false ->
     if isnan f then setF params f = ([], Ok (set_p_F params f))
     else exists w, setF params f = ([w], Err Exit)) /\
  (forall v, isnan v = true ->
     in_interval 0 1 v = false /\ in_interval 0 2 v = false) /\
  (forall np, np < 4 ->
     exists w, setNP_IN params np = ([w], Err Exit)
               /\ setNP_OUT params np = ([w], Err Exit)) /\
  (forall n, n < 0 ->
     exists w, setMaxIter_IN params n = ([w], Err Exit)
               /\ setMaxIter_OUT params n = ([w], Err Exit)).
Proof.
  repeat apply conj.
  - intros r Hr. unfold setMutationRate. unfold in_interval in Hr.
    rewrite Hr. eauto.
  - intros r Hr. unfold setRecurrentConnectionProbability.
    unfold in_interval in Hr. rewrite Hr. eauto.
  - intros n Hn. unfold setMu.
    destruct (Z.gtb_spec n 0); [lia | eauto].
  - intros n Hn. unfold setLambda.
    destruct (Z.gtb_spec n 0); [lia | eauto].
  - intros n H0 H1. unfold setShortcutConnections.
    destruct (Z.eqb_spec n 0), (Z.eqb_spec n 1); try lia. simpl. eauto.
  - intros cr Hcr. unfold setCR. destruct (isnan cr) eqn:Hnan.
    + destruct (nan_in_no_interval 0 1 cr Hnan) as [_ Hout].
      unfold outside in Hout. by rewrite Hout.
    + pose proof (out_of_interval 0 1 cr Hnan eq_refl eq_refl Hcr) as Hout.
      unfold outside in Hout. rewrite Hout. eauto.
  - intros f Hf. unfold setF. destruct (isnan f) eqn:Hnan.
    + destruct (nan_in_no_interval 0 2 f Hnan) as [_ Hout].
      unfold outside in Hout. by rewrite Hout.
    + pose proof (out_of_interval 0 2 f Hnan eq_refl eq_refl Hf) as Hout.
      unfold outside in Hout. rewrite Hout. eauto.
  - intros v Hv. split; by apply nan_in_no_interval.
  - intros np Hnp. unfold setNP_IN, setNP_OUT.
    destruct (Z.ltb_spec np 4); [eauto | lia].
  - intros n Hn. unfold setMaxIter_IN, setMaxIter_OUT.
    destruct (Z.ltb_spec n 0); [eauto | lia].
Qed.

Lemma setters_out_of_range_witness :
  (exists w, setMutationRate example_params (of_int 2)
             = ([w], Ok example_params)) /\
  (exists w, setMutationRate example_params S754_nan
             = ([w], Ok example_params)) /\
  (exists w, setCR example_params (of_int 2) = ([w], Err Exit)) /\
  setCR example_params S754_nan
    = ([], Ok (set_p_CR example_params S754_nan)) /\
  setF example_params S754_nan
    = ([], Ok (set_p_F example_params S754_nan)).
Proof.
  pose proof (setters_out_of_range example_params)
    as (Hrate & _ & _ & _ & _ & Hcr & Hf & _).
  split; [apply Hrate; reflexivity|].
  split; [apply Hrate; reflexivity|].
  split; [exact (Hcr (of_int 2) eq_refl)|].
  split; [exact (Hcr S754_nan eq_refl) | exact (Hf S754_nan eq_refl)].
Defined.

(** C9 as stated fails for the crossover rate 2: [setCR] does not
    return. *)
Lemma setCR_terminates_on_2 :
  outside 0 1 (of_int 2) = true /\
  snd (setCR example_params (of_int 2)) = Err Exit /\
  ~ (exists w, setCR example_params (of_int 2) = (w, Ok example_params)).
Proof.
  split; [reflexivity|]. split; [reflexivity|].
  intros [w Hw]. apply (f_equal snd) in Hw. discriminate.
Qed.

(** [setNumThreads] stores the thread count it has just reported as
    left unchanged. *)
Lemma setNumThreads_stores_what_it_rejects (params : parameters) (n : Z) :
  n <= 0 ->
  exists w, setNumThreads params n = ([w], Ok (set_p_numThreads params n)).
Proof.
  intros Hn. unfold setNumThreads. destruct (Z.leb_spec n 0); [eauto | lia].
Qed.

(** ** The accessors *)

(** C10.  The guards of [getChromosomeOutput] and of
    [getChromosomeNodeValue] terminate the program exactly for an index
    that is negative or greater than the count; at the count itself
    the call goes on to read the array one element past its end. *)
Theorem accessor_guards_admit_the_count (c : chromosome) :
  Z.of_nat (length (outputValues c)) = numOutputs c ->
  Z.of_nat (length (nodes c)) = numNodes c ->
  (forall i, getChromosomeOutput c i = Err Exit <->
             i < 0 \/ numOutputs c < i) /\
  (forall i, getChromosomeNodeValue c i = Err Exit <->
             i < 0 \/ numNodes c < i) /\
  getChromosomeOutput c (numOutputs c) = Err Fault /\
  getChromosomeNodeValue c (numNodes c) = Err Fault.
Proof.
  intros Hout Hnodes. repeat apply conj; [intros i; split | intros i; split | | ].
  - unfold getChromosomeOutput.
    destruct (Z.ltb_spec i 0), (Z.gtb_spec i (numOutputs c)); simpl;
      try lia.
    intros Hget. by apply aget_not_Exit in Hget.
  - unfold getChromosomeOutput.
    destruct (Z.ltb_spec i 0), (Z.gtb_spec i (numOutputs c)); simpl;
      auto; lia.
  - unfold getChromosomeNodeValue.
    destruct (Z.ltb_spec i 0), (Z.gtb_spec i (numNodes c)); simpl;
      try lia.
    destruct (aget (nodes c) i) eqn:E; simpl; [discriminate|].
    intros [= ->]. by apply aget_not_Exit in E.
  - unfold getChromosomeNodeValue.
    destruct (Z.ltb_spec i 0), (Z.gtb_spec i (numNodes c)); simpl;
      auto; lia.
  - unfold getChromosomeOutput.
    destruct (Z.ltb_spec (numOutputs c) 0),
             (Z.gtb_spec (numOutputs c) (numOutputs c)); simpl; try lia.
    apply aget_past_end. lia.
  - unfold getChromosomeNodeValue.
    destruct (Z.ltb_spec (numNodes c) 0),
             (Z.gtb_spec (numNodes c) (numNodes c)); simpl; try lia.
    rewrite aget_past_end; [done | lia].
Qed.

Lemma accessor_guards_admit_the_count_witness :
  getChromosomeOutput chromo_add 1 = Err Fault /\
  getChromosomeNodeValue chromo_add 1 = Err Fault /\
  (getChromosomeOutput chromo_add 2 = Err Exit <-> 2 < 0 \/ 1 < 2).
Proof.
  pose proof (accessor_guards_admit_the_count chromo_add eq_refl eq_refl)
    as (Hexit & _ & Hout & Hnode).
  split; [exact Hout|]. split; [exact Hnode|]. exact (Hexit 2).
Defined.

(** ** Execution: what is kept of a node's value *)

Lemma sanitise_nan : sanitise S754_nan = of_int 0.
Proof. reflexivity. Qed.

Lemma sanitise_plus_infinity : sanitise (S754_infinity false) = DBL_MAX.
Proof. reflexivity. Qed.

Lemma sanitise_minus_infinity : sanitise (S754_infinity true) = DBL_MIN.
Proof. reflexivity. Qed.

Lemma sanitise_finite (v : double) :
  isnan (sanitise v) = false /\ isinf (sanitise v) = false.
Proof. by destruct v as [s|[]| |s m e]. Qed.

(** What [executeNode] caches is the sanitised value of the node
    function. *)
Lemma executeNode_output (c c' : chromosome) (ins : list double)
    (k g g' : Z) :
  executeNode c ins k g = Ok (c', g') ->
  exists n', nodes c' !! Z.to_nat k = Some n' /\
             isnan (output n') = false /\ isinf (output n') = false.
Proof.
  unfold executeNode. intros Hrun.
  apply bind_Ok in Hrun as (n & _ & Hrun).
  apply bind_Ok in Hrun as (c1 & _ & Hrun).
  apply bind_Ok in Hrun as (n1 & _ & Hrun).
  apply bind_Ok in Hrun as (f & _ & Hrun).
  apply bind_Ok in Hrun as ([v g1] & _ & Hrun).
  apply bind_Ok in Hrun as (c2 & Hupd & [= <- <-]).
  unfold upd_node in Hupd.
  apply bind_Ok in Hupd as (n2 & _ & Hupd).
  apply bind_Ok in Hupd as (ns & Hset & [= <-]).
  apply aset_Ok in Hset as [Hk ->]. simpl.
  exists (set_output n2 (sanitise v)).
  split; [apply list_lookup_insert_eq; lia | apply sanitise_finite].
Qed.

(** C1, at the input where the code parts from it.  The node "div" of
    [chromo_div] computes -1 / 0, which is minus infinity; what
    [executeChromosome] caches for it, and hands out as the output of
    the chromosome, is [DBL_MIN], a positive number, the smallest
    positive normalised double, and not the least double: [-DBL_MAX]
    is below it, as is zero. *)
Theorem minus_infinity_is_cached_as_DBL_MIN :
  _divide 2 [of_int (-1); of_int 0] [one; one] 0
    = Ok (S754_infinity true, 0) /\
  rmap (fun r => (map output (nodes r.1), outputValues r.1))
    (executeChromosome chromo_div [of_int (-1); of_int 0] 0)
    = Ok ([DBL_MIN], [DBL_MIN]) /\
  dgt DBL_MIN (of_int 0) = true /\
  dlt (SFopp DBL_MAX) DBL_MIN = true /\
  dlt (of_int 0) DBL_MIN = true.
Proof.
  repeat apply conj; vm_compute; reflexivity.
Qed.

(** ** Selection *)

(** C7, at the input where the code parts from it.  [child_a] and
    [parent_b] have the same fitness and stand in this order;
    [sortChromosomeArray] moves [child_a] behind [parent_b] when it
    exchanges it with the fitter [child_c], and [selectFittest] then
    takes the parent and leaves the child out. *)
Theorem sortChromosomeArray_is_not_stable :
  fitness child_a = fitness parent_b /\
  map generation [child_a; parent_b; child_c] = [1; 2; 3] /\
  rmap (map generation)
    (sortChromosomeArray [child_a; parent_b; child_c] 3)
    = Ok [generation child_c; generation parent_b; generation child_a] /\
  rmap (fun r => map generation r.1)
    (selectFittest example_params [chromo_add; chromo_add]
       [child_a; parent_b; child_c] 2 3)
    = Ok [generation child_c; generation parent_b].
Proof.
  repeat apply conj; vm_compute; reflexivity.
Qed.

Lemma for_loop_total_max {St} (P : Z -> St -> Prop)
    (body : Z -> St -> result St) (lo hi : Z) (s : St) :
  P lo s ->
  (forall j t, lo <= j < hi -> P j t ->
               exists t', body j t = Ok t' /\ P (j + 1) t') ->
  exists s', for_loop lo hi body s = Ok s' /\ P (Z.max lo hi) s'.
Proof.
  intros Hs Hbody. destruct (Z.le_gt_cases lo hi) as [Hle|Hgt].
  - rewrite Z.max_r by done. by apply for_loop_total.
  - rewrite Z.max_l by lia. exists s. split; [|done].
    apply for_loop_empty. lia.
Qed.

Lemma for_loop_inv_max {St} (P : Z -> St -> Prop)
    (body : Z -> St -> result St) (lo hi : Z) (s s' : St) :
  P lo s ->
  (forall j t t', lo <= j < hi -> P j t -> body j t = Ok t' -> P (j + 1) t') ->
  for_loop lo hi body s = Ok s' ->
  P (Z.max lo hi) s'.
Proof.
  intros Hs Hbody Hrun. destruct (Z.le_gt_cases lo hi) as [Hle|Hgt].
  - rewrite Z.max_r by done. by eapply for_loop_inv.
  - rewrite Z.max_l by lia.
    rewrite for_loop_empty in Hrun by lia. by injection Hrun as <-.
Qed.

(** Two loops that run side by side. *)
Lemma for_nat_rel {S1 S2} (R : Z -> S1 -> S2 -> Prop)
    (body1 : Z -> S1 -> result S1) (body2 : Z -> S2 -> result S2) :
  forall (n : nat) (i : Z) s t s' t',
  R i s t ->
  (forall j u v u' v', i <= j < i + Z.of_nat n -> R j u v ->
     body1 j u = Ok u' -> body2 j v = Ok v' -> R (j + 1) u' v') ->
  for_nat n i body1 s = Ok s' -> for_nat n i body2 t = Ok t' ->
  R (i + Z.of_nat n) s' t'.
Proof.
  induction n as [|n IH]; intros i s t s' t' HR Hbody H1 H2;
    simpl in H1, H2.
  - injection H1 as <-. injection H2 as <-.
    by replace (i + Z.of_nat 0) with i by lia.
  - apply bind_Ok in H1 as (u & Hu & H1).
    apply bind_Ok in H2 as (v & Hv & H2).
    replace (i + Z.of_nat (S n)) with ((i + 1) + Z.of_nat n) by lia.
    eapply IH; [ | | exact H1 | exact H2].
    + eapply Hbody; [ | exact HR | exact Hu | exact Hv]. lia.
    + intros j w x w' x' Hj. apply Hbody. lia.
Qed.

Lemma for_loop_rel {S1 S2} (R : Z -> S1 -> S2 -> Prop)
    (body1 : Z -> S1 -> result S1) (body2 : Z -> S2 -> result S2)
    (lo hi : Z) s t s' t' :
  R lo s t ->
  (forall j u v u' v', lo <= j < hi -> R j u v ->
     body1 j u = Ok u' -> body2 j v = Ok v' -> R (j + 1) u' v') ->
  for_loop lo hi body1 s = Ok s' -> for_loop lo hi body2 t = Ok t' ->
  R (Z.max lo hi) s' t'.
Proof.
  intros HR Hbody H1 H2. destruct (Z.le_gt_cases lo hi) as [Hle|Hgt].
  - rewrite Z.max_r by done. unfold for_loop in H1, H2.
    replace hi with (lo + Z.of_nat (Z.to_nat (hi - lo))) by lia.
    eapply for_nat_rel; [exact HR | | exact H1 | exact H2].
    intros j u v u' v' Hj. apply Hbody. lia.
  - rewrite Z.max_l by lia.
    rewrite for_loop_empty in H1 by lia.
    rewrite for_loop_empty in H2 by lia.
    injection H1 as <-. by injection H2 as <-.
Qed.

(** A loop that returns has returned from each of its first rounds. *)
Lemma for_nat_split {St} (body : Z -> St -> result St) :
  forall (a b : nat) (i : Z) (s s' : St),
  for_nat (a + b) i body s = Ok s' ->
  exists t, for_nat a i body s = Ok t
            /\ for_nat b (i + Z.of_nat a) body t = Ok s'.
Proof.
  induction a as [|a IH]; intros b i s s' Hrun.
  - exists s. split; [done|]. by replace (i + Z.of_nat 0) with i by lia.
  - cbn [Nat.add for_nat] in Hrun.
    apply bind_Ok in Hrun as (u & Hu & Hrun).
    destruct (IH b (i + 1) u s' Hrun) as (t & Ht & Hrest).
    exists t. split.
    + cbn [for_nat]. rewrite Hu. exact Ht.
    + by replace (i + Z.of_nat (S a)) with (i + 1 + Z.of_nat a) by lia.
Qed.

Lemma for_loop_split {St} (body : Z -> St -> result St) (lo mid hi : Z)
    (s s' : St) :
  lo <= mid <= hi ->
  for_loop lo hi body s = Ok s' ->
  exists t, for_loop lo mid body s = Ok t /\ for_loop mid hi body t = Ok s'.
Proof.
  intros Hmid Hrun. unfold for_loop in *.
  replace (Z.to_nat (hi - lo))
    with (Z.to_nat (mid - lo) + Z.to_nat (hi - mid))%nat in Hrun by lia.
  destruct (for_nat_split body _ _ _ _ _ Hrun) as (t & Ht & Hrest).
  exists t. split; [done|].
  by replace (lo + Z.of_nat (Z.to_nat (mid - lo))) with mid in Hrest by lia.
Qed.

(** ** The resolver of active nodes *)

Lemma upd_node_eq (c : chromosome) (k : nat) (n : node) (f : node -> node) :
  nodes c !! k = Some n ->
  upd_node c (Z.of_nat k) f = Ok (set_nodes c (<[k := f n]> (nodes c))).
Proof.
  intros Hn. unfold upd_node.
  assert (Hget : aget (nodes c) (Z.of_nat k) = Ok n).
  { apply aget_Ok. rewrite Nat2Z.id. split; [lia | done]. }
  rewrite Hget. simpl.
  rewrite aset_in_range.
  - simpl. by rewrite Nat2Z.id.
  - apply lookup_lt_Some in Hn. lia.
Qed.

Lemma wf_chromosome_spec (c : chromosome) :
  wf_chromosome c = true ->
  Z.of_nat (length (nodes c)) = numNodes c
  /\ numNodes c <= Z.of_nat (length (activeNodes c))
  /\ Z.of_nat (length (outputNodes c)) = numOutputs c
  /\ (forall o, o ∈ outputNodes c -> o < numInputs c + numNodes c)
  /\ (forall n, n ∈ nodes c -> wf_node c n = true).
Proof.
  unfold wf_chromosome. rewrite !andb_true_iff.
  intros ((((H1 & H2) & H3) & H4) & H5).
  repeat apply conj; try lia.
  - intros o Ho. rewrite forallb_forall in H4.
    apply list_elem_of_In in Ho. specialize (H4 _ Ho). lia.
  - intros n Hn. rewrite forallb_forall in H5.
    apply H5. by apply list_elem_of_In.
Qed.

Lemma wf_node_spec (c : chromosome) (n : node) :
  wf_node c n = true ->
  0 <= function n < Z.of_nat (length (maxNumInputs (funcSet c)))
  /\ arity c <= Z.of_nat (length (inputs n))
  /\ (forall b, b ∈ inputs n -> b < numInputs c + numNodes c).
Proof.
  unfold wf_node. rewrite !andb_true_iff.
  intros (((H1 & H2) & H3) & H4).
  repeat apply conj; try lia.
  intros b Hb. rewrite forallb_forall in H4.
  apply list_elem_of_In in Hb. specialize (H4 _ Hb). lia.
Qed.

(** The actual arity depends on the function gene, on the function set
    and on the arity of the chromosome only. *)
Lemma getChromosomeNodeArity_ext (c c' : chromosome) (k : Z) :
  arity c' = arity c -> funcSet c' = funcSet c ->
  function <$> nodes c' = function <$> nodes c ->
  getChromosomeNodeArity c' k = getChromosomeNodeArity c k.
Proof.
  intros Ha Hf Hn. unfold getChromosomeNodeArity, aget.
  destruct (k <? 0); [done|].
  assert (Hk : function <$> (nodes c' !! Z.to_nat k)
               = function <$> (nodes c !! Z.to_nat k)).
  { by rewrite <- !list_lookup_fmap, Hn. }
  destruct (nodes c' !! Z.to_nat k) as [n'|], (nodes c !! Z.to_nat k) as [n|];
    simpl in Hk; try discriminate; [|done].
  injection Hk as Hk. simpl. by rewrite Hk, Hf, Ha.
Qed.

Lemma getChromosomeNodeArity_wf (c : chromosome) (k : nat) (n : node) :
  wf_chromosome c = true -> nodes c !! k = Some n ->
  exists a, getChromosomeNodeArity c (Z.of_nat k) = Ok a /\ a <= arity c.
Proof.
  intros Hwf Hn. apply wf_chromosome_spec in Hwf as (_ & _ & _ & _ & Hns).
  destruct (wf_node_spec c n) as (Hf & _ & _).
  { apply Hns. by eapply list_elem_of_lookup_2. }
  unfold getChromosomeNodeArity.
  assert (Hget : aget (nodes c) (Z.of_nat k) = Ok n).
  { apply aget_Ok. rewrite Nat2Z.id. split; [lia | done]. }
  rewrite Hget. simpl.
  destruct (aget_in_range (maxNumInputs (funcSet c)) (function n) Hf)
    as [m Hm].
  rewrite Hm. simpl.
  destruct (Z.eqb_spec m (-1)); [eexists; split; [done | lia]|].
  destruct (Z.ltb_spec m (arity c)); eexists; (split; [done | lia]).
Qed.

Lemma same_genes_refl (c : chromosome) : same_genes c c.
Proof. by constructor. Qed.

Lemma same_genes_length (c0 c : chromosome) :
  same_genes c0 c -> length (nodes c) = length (nodes c0).
Proof.
  intros Hsg. rewrite <- (length_fmap function (nodes c)).
  by rewrite (sg_function _ _ Hsg), length_fmap.
Qed.

Lemma same_genes_lookup (c0 c : chromosome) (k : nat) (n : node) :
  same_genes c0 c -> nodes c !! k = Some n ->
  exists n0, nodes c0 !! k = Some n0
             /\ function n = function n0 /\ inputs n = inputs n0.
Proof.
  intros Hsg Hn.
  assert (Hf : function <$> (nodes c !! k) = function <$> (nodes c0 !! k)).
  { rewrite <- !list_lookup_fmap. by rewrite (sg_function _ _ Hsg). }
  assert (Hi : inputs <$> (nodes c !! k) = inputs <$> (nodes c0 !! k)).
  { rewrite <- !list_lookup_fmap. by rewrite (sg_inputs _ _ Hsg). }
  rewrite Hn in Hf, Hi.
  destruct (nodes c0 !! k) as [n0|]; simpl in Hf, Hi; [|discriminate].
  exists n0. split; [done|]. split; congruence.
Qed.

Lemma same_genes_nodeInputs (c0 c : chromosome) (k : nat) (n : node) :
  same_genes c0 c -> nodes c !! k = Some n ->
  forall a, getChromosomeNodeArity c0 (Z.of_nat k) = Ok a ->
            nodeInputs c0 k = take (Z.to_nat a) (inputs n).
Proof.
  intros Hsg Hn a Ha.
  destruct (same_genes_lookup _ _ _ _ Hsg Hn) as (n0 & Hn0 & _ & Hi).
  unfold nodeInputs. by rewrite Hn0, Ha, Hi.
Qed.

Lemma isActive_lookup (c : chromosome) (k : nat) :
  isActive c k = true -> exists n, nodes c !! k = Some n /\ active n = 1.
Proof.
  unfold isActive. destruct (nodes c !! k) as [n|]; [|discriminate].
  intros H. exists n. split; [done | lia].
Qed.

Lemma isActive_lt (c : chromosome) (k : nat) :
  isActive c k = true -> (k < length (nodes c))%nat.
Proof.
  intros (n & Hn & _)%isActive_lookup. by eapply lookup_lt_Some.
Qed.

Lemma activeList_length (c : chromosome) :
  marks_ok c -> length (activeList c) = Z.to_nat (numActiveNodes c).
Proof.
  intros [Hr _ _]. unfold activeList. apply length_take_le. lia.
Qed.

(** There is room in the list for a node that is not yet active. *)
Lemma marks_room (c : chromosome) (k : nat) :
  marks_ok c -> (k < length (nodes c))%nat -> isActive c k = false ->
  numActiveNodes c < Z.of_nat (length (nodes c)).
Proof.
  intros Hm Hk Hact.
  assert (Hsub : Z.of_nat k :: activeList c
                 ⊆+ seqZ 0 (Z.of_nat (length (nodes c)))).
  { apply NoDup_submseteq.
    - constructor; [|apply (mo_nodup _ Hm)].
      intros (k' & Hk' & Hact')%(mo_elem _ Hm).
      apply Nat2Z.inj in Hk'. subst k'. congruence.
    - intros z [->|Hz]%elem_of_cons; apply elem_of_seqZ; [lia|].
      apply (mo_elem _ Hm) in Hz as (k' & -> & Hact').
      apply isActive_lt in Hact'. lia. }
  apply submseteq_length in Hsub.
  rewrite length_seqZ in Hsub. simpl in Hsub.
  rewrite (activeList_length _ Hm) in Hsub.
  pose proof (mo_range _ Hm). lia.
Qed.

Lemma marks_bound (c : chromosome) :
  marks_ok c -> numActiveNodes c <= Z.of_nat (length (nodes c)).
Proof.
  intros Hm.
  assert (Hsub : activeList c ⊆+ seqZ 0 (Z.of_nat (length (nodes c)))).
  { apply NoDup_submseteq; [apply (mo_nodup _ Hm)|].
    intros z Hz. apply elem_of_seqZ.
    apply (mo_elem _ Hm) in Hz as (k' & -> & Hact').
    apply isActive_lt in Hact'. lia. }
  apply submseteq_length in Hsub.
  rewrite length_seqZ, (activeList_length _ Hm) in Hsub.
  pose proof (mo_range _ Hm). lia.
Qed.

Lemma fmap_insert_same {A B} (f : A -> B) (l : list A) (k : nat) (x y : A) :
  l !! k = Some x -> f y = f x -> f <$> <[k := y]> l = f <$> l.
Proof.
  intros Hx Hf. rewrite list_fmap_insert, Hf.
  apply list_insert_id. by rewrite list_lookup_fmap, Hx.
Qed.

Lemma logActive_eq (c : chromosome) (k : nat) (n : node) (a : Z) :
  nodes c !! k = Some n ->
  0 <= numActiveNodes c < Z.of_nat (length (activeNodes c)) ->
  getChromosomeNodeArity c (Z.of_nat k) = Ok a ->
  logActive c (Z.of_nat k) = Ok (logged c k n a).
Proof.
  intros Hn Hr Ha. unfold logActive.
  rewrite (upd_node_eq _ _ _ _ Hn). cbn [mbind result_bind].
  cbn [activeNodes numActiveNodes set_nodes].
  rewrite (aset_in_range _ _ _ Hr). cbn [mbind result_bind].
  erewrite getChromosomeNodeArity_ext; [rewrite Ha | done | done |].
  2:{ cbn [nodes set_nodes set_activeNodes set_numActiveNodes].
      by apply (fmap_insert_same _ _ _ n). }
  cbn [mbind result_bind].
  rewrite (upd_node_eq _ k (set_active n 1)).
  2:{ cbn [nodes set_nodes set_activeNodes set_numActiveNodes].
      apply list_lookup_insert_eq. by eapply lookup_lt_Some. }
  unfold logged. cbn [nodes set_nodes set_activeNodes set_numActiveNodes].
  rewrite list_insert_insert_eq. reflexivity.
Qed.

Lemma logged_same_genes (c0 c : chromosome) (k : nat) (n : node) (a : Z) :
  same_genes c0 c -> nodes c !! k = Some n ->
  same_genes c0 (logged c k n a).
Proof.
  intros [] Hn. constructor; cbn; try done.
  - by rewrite (fmap_insert_same _ _ _ n).
  - by rewrite (fmap_insert_same _ _ _ n).
  - by rewrite length_insert.
Qed.

Lemma logged_isActive (c : chromosome) (k : nat) (n : node) (a : Z)
    (k' : nat) :
  nodes c !! k = Some n ->
  isActive (logged c k n a) k'
  = if decide (k' = k) then true else isActive c k'.
Proof.
  intros Hn. unfold isActive, logged. cbn [nodes set_nodes].
  destruct (decide (k' = k)) as [->|Hne].
  - rewrite list_lookup_insert_eq; [done|]. by eapply lookup_lt_Some.
  - by rewrite list_lookup_insert_ne.
Qed.

Lemma logged_activeList (c : chromosome) (k : nat) (n : node) (a : Z) :
  0 <= numActiveNodes c < Z.of_nat (length (activeNodes c)) ->
  activeList (logged c k n a) = activeList c ++ [Z.of_nat k].
Proof.
  intros Hr. unfold activeList, logged.
  cbn [activeNodes numActiveNodes set_nodes set_numActiveNodes
       set_activeNodes].
  replace (Z.to_nat (numActiveNodes c + 1))
    with (S (Z.to_nat (numActiveNodes c))) by lia.
  erewrite take_S_r.
  - rewrite take_insert_ge; [done | lia].
  - apply list_lookup_insert_eq. lia.
Qed.

Lemma logged_marks_ok (c : chromosome) (k : nat) (n : node) (a : Z) :
  marks_ok c -> nodes c !! k = Some n -> isActive c k = false ->
  numActiveNodes c < Z.of_nat (length (activeNodes c)) ->
  getChromosomeNodeArity c (Z.of_nat k) = Ok a ->
  marks_ok (logged c k n a).
Proof.
  intros Hm Hn Hact Hroom Ha.
  assert (Hext : forall k', getChromosomeNodeArity (logged c k n a) k'
                            = getChromosomeNodeArity c k').
  { intros k'. apply getChromosomeNodeArity_ext; [done | done |].
    cbn [nodes logged set_nodes]. by apply (fmap_insert_same _ _ _ n). }
  pose proof (mo_range _ Hm) as Hr.
  constructor.
  - cbn. rewrite length_insert. lia.
  - rewrite logged_activeList by lia.
    apply NoDup_app. split; [apply (mo_nodup _ Hm)|]. split.
    + intros z Hz ->%list_elem_of_singleton.
      apply (mo_elem _ Hm) in Hz as (k' & Hk' & Hact').
      apply Nat2Z.inj in Hk'. subst k'. congruence.
    + apply NoDup_singleton.
  - intros z. rewrite logged_activeList by lia.
    rewrite elem_of_app, list_elem_of_singleton, (mo_elem _ Hm).
    split.
    + intros [(k' & -> & Hact')| ->].
      * exists k'. split; [done|]. rewrite (logged_isActive _ _ _ _ _ Hn).
        by destruct (decide (k' = k)).
      * exists k. split; [done|]. rewrite (logged_isActive _ _ _ _ _ Hn).
        by destruct (decide (k = k)).
    + intros (k' & -> & Hact').
      rewrite (logged_isActive _ _ _ _ _ Hn) in Hact'.
      destruct (decide (k' = k)) as [->|]; [by right | left; eauto].
  - intros k' n' Hn' Hact'. rewrite Hext.
    cbn [nodes logged set_nodes] in Hn'.
    destruct (decide (k' = k)) as [->|Hne].
    + rewrite list_lookup_insert_eq in Hn' by by eapply lookup_lt_Some.
      injection Hn' as <-. done.
    + rewrite list_lookup_insert_ne in Hn' by done.
      by apply (mo_arity _ Hm).
Qed.

Lemma path_edge_l (c : chromosome) (a b x : Z) :
  edge c a b -> path c b x -> path c a x.
Proof.
  intros Hab Hbx. induction Hbx as [b|b y y' _ IH Hy].
  - eapply path_step; [apply path_refl | done].
  - eapply path_step; [by apply IH | done].
Qed.

Lemma path_node (c : chromosome) (a b : Z) :
  path c a b -> numInputs c <= a -> numInputs c <= b.
Proof.
  intros Hab Ha. destruct Hab as [|a b b' _ (k & _ & _ & Hb)]; done.
Qed.

Lemma closed_at_mono (c0 c c' : chromosome) (k : nat) :
  (forall k', isActive c k' = true -> isActive c' k' = true) ->
  closed_at c0 c k -> closed_at c0 c' k.
Proof. intros Hmono Hcl b Hb Hge. apply Hmono. by apply Hcl. Qed.

Lemma recursivelySetActiveNodes_spec (c0 : chromosome) :
  wf_chromosome c0 = true ->
  forall (fuel : nat) (c : chromosome) (a : Z),
    same_genes c0 c -> marks_ok c ->
    a < numInputs c0 + numNodes c0 ->
    numNodes c0 - numActiveNodes c < Z.of_nat fuel ->
    exists c', recursivelySetActiveNodes fuel c a = Ok c'
               /\ resolved_from c0 a c c'.
Proof.
  intros Hwf.
  destruct (wf_chromosome_spec _ Hwf) as (Hlen & Hroom0 & _ & _ & Hwfn).
  induction fuel as [|fuel IH]; intros c a Hsg Hm Ha Hfuel.
  { pose proof (marks_bound _ Hm) as Hb.
    rewrite (same_genes_length _ _ Hsg) in Hb. lia. }
  cbn [recursivelySetActiveNodes]. rewrite (sg_numInputs _ _ Hsg).
  destruct (Z.ltb_spec a (numInputs c0)) as [Hin|Hnode].
  { exists c. split; [done|].
    constructor; try done; try lia; intros; congruence. }
  set (k := Z.to_nat (a - numInputs c0)).
  assert (Hk : a - numInputs c0 = Z.of_nat k) by (unfold k; lia).
  assert (Hklt : (k < length (nodes c))%nat).
  { rewrite (same_genes_length _ _ Hsg). lia. }
  destruct (lookup_lt_is_Some_2 _ _ Hklt) as [n Hn].
  rewrite Hk.
  assert (Hget : aget (nodes c) (Z.of_nat k) = Ok n).
  { apply aget_Ok. rewrite Nat2Z.id. split; [lia | done]. }
  rewrite Hget. cbn [mbind result_bind].
  destruct (Z.eqb_spec (active n) 1) as [Hact|Hact].
  { exists c. split; [done|].
    constructor; try done; try lia; try (intros; congruence).
    intros _. fold k. unfold isActive. rewrite Hn. lia. }
  assert (Hinact : isActive c k = false).
  { unfold isActive. rewrite Hn. lia. }
  destruct (same_genes_lookup _ _ _ _ Hsg Hn) as (n0 & Hn0 & Hfn & Hins).
  destruct (getChromosomeNodeArity_wf _ _ _ Hwf Hn0) as (ar & Har & Harle).
  destruct (wf_node_spec c0 n0) as (_ & Hnlen & Hnin).
  { apply Hwfn. by eapply list_elem_of_lookup_2. }
  assert (Har' : getChromosomeNodeArity c (Z.of_nat k) = Ok ar).
  { rewrite <- Har. apply getChromosomeNodeArity_ext; by destruct Hsg. }
  assert (Hroom : numActiveNodes c < Z.of_nat (length (activeNodes c))).
  { pose proof (marks_room _ _ Hm Hklt Hinact) as Hr.
    rewrite (same_genes_length _ _ Hsg) in Hr.
    rewrite (sg_activeLen _ _ Hsg). lia. }
  pose proof (mo_range _ Hm) as Hrange.
  rewrite (logActive_eq _ _ n ar Hn) by (done || lia).
  cbn [mbind result_bind].
  set (c1 := logged c k n ar).
  assert (Hn1 : nodes c1 !! k = Some (set_actArity (set_active n 1) ar)).
  { unfold c1, logged. cbn [nodes set_nodes].
    by apply list_lookup_insert_eq. }
  assert (Hget1 : aget (nodes c1) (Z.of_nat k)
                  = Ok (set_actArity (set_active n 1) ar)).
  { apply aget_Ok. rewrite Nat2Z.id. split; [lia | done]. }
  rewrite Hget1. cbn [mbind result_bind actArity set_actArity].
  assert (Hsg1 : same_genes c0 c1) by by apply logged_same_genes.
  assert (Hm1 : marks_ok c1) by by apply logged_marks_ok.
  assert (Hact1 : forall k', isActive c1 k'
                    = if decide (k' = k) then true else isActive c k').
  { intros k'. by apply logged_isActive. }
  assert (Hcount1 : numActiveNodes c1 = numActiveNodes c + 1) by done.
  assert (Hsucc : nodeInputs c0 k = take (Z.to_nat ar) (inputs n)).
  { by apply (same_genes_nodeInputs c0 c). }
  destruct (for_loop_total_max (inputs_resolved c0 a (inputs n) c1)
              (fun i c =>
                 n ← aget (nodes c) (Z.of_nat k);
                 input ← aget (inputs n) i;
                 recursivelySetActiveNodes fuel c input)
              0 ar c1) as (c' & Hrun & HQ).
  { (* the invariant holds when the loop is entered *)
    repeat apply conj; try done; try lia;
      intros k' Hk' Hk1; congruence. }
  { (* one round *)
    intros j s Hj (Hsgs & Hms & Hcnt & Hmono & Hdone & Hclosed & Hreach).
    assert (Hks : isActive s k = true).
    { apply Hmono. rewrite Hact1. by destruct (decide (k = k)). }
    destruct (isActive_lookup _ _ Hks) as (ns & Hns & _).
    destruct (same_genes_lookup _ _ _ _ Hsgs Hns) as (n0' & Hn0' & _ & Hinss).
    rewrite Hn0 in Hn0'. injection Hn0' as <-.
    assert (Hgets : aget (nodes s) (Z.of_nat k) = Ok ns).
    { apply aget_Ok. rewrite Nat2Z.id. split; [lia | done]. }
    rewrite Hgets. cbn [mbind result_bind].
    destruct (aget_in_range (inputs ns) j) as [b Hb].
    { rewrite Hinss. lia. }
    rewrite Hb. cbn [mbind result_bind].
    apply aget_Ok in Hb as [_ Hb]. rewrite Hinss, <- Hins in Hb.
    assert (Hbin : b ∈ inputs n0).
    { rewrite <- Hins. by eapply list_elem_of_lookup_2. }
    destruct (IH s b Hsgs Hms) as (s' & Hs' & Hpost).
    { by apply Hnin. }
    { lia. }
    exists s'. split; [done|].
    destruct Hpost as [Hpg Hpm Hpin Hpcnt Hpmono Hproot Hpclosed Hpreach].
    repeat apply conj; try done; try lia.
    - intros k' Hk'. apply Hpmono. by apply Hmono.
    - intros j' b' Hj' Hb' Hge.
      destruct (decide (j' = j)) as [->|Hne].
      + rewrite Hb in Hb'. injection Hb' as <-. by apply Hproot.
      + apply Hpmono. apply (Hdone j' b'); [lia | done | done].
    - intros k' Hk' Hk1.
      destruct (isActive s k') eqn:Hsk'.
      + eapply closed_at_mono; [exact Hpmono|]. by apply Hclosed.
      + by apply Hpclosed.
    - intros k' Hk' Hk1.
      destruct (isActive s k') eqn:Hsk'; [by apply Hreach|].
      assert (Hbnode : numInputs c0 <= b).
      { destruct (Z.le_gt_cases (numInputs c0) b) as [|Hlt]; [done|].
        rewrite (Hpin Hlt) in Hk'. congruence. }
      apply (path_edge_l _ _ b); [|by apply Hpreach].
      exists k. split; [lia|]. split; [|done].
      rewrite Hsucc. apply elem_of_take.
      exists (Z.to_nat j). split; [done | lia]. }
  exists c'. split; [done|].
  destruct HQ as (Hsg' & Hm' & Hcnt & Hmono & Hdone & Hclosed & Hreach).
  constructor; try done.
  - lia.
  - lia.
  - intros k' Hk'. apply Hmono. rewrite Hact1.
    by destruct (decide (k' = k)).
  - intros _. fold k. apply Hmono. rewrite Hact1.
    by destruct (decide (k = k)).
  - intros k' Hk' Hk0.
    destruct (decide (k' = k)) as [->|Hne].
    + intros b Hb Hge. rewrite Hsucc in Hb.
      apply elem_of_take in Hb as (j & Hb & Hj).
      apply (Hdone (Z.of_nat j) b); [lia | by rewrite Nat2Z.id | done].
    + apply Hclosed; [done|]. rewrite Hact1.
      by destruct (decide (k' = k)).
  - intros k' Hk' Hk0.
    destruct (decide (k' = k)) as [->|Hne].
    + replace (numInputs c0 + Z.of_nat k) with a by lia. apply path_refl.
    + apply Hreach; [done|]. rewrite Hact1.
      by destruct (decide (k' = k)).
Qed.

#[global] Instance cmpInt_le_total : Total cmpInt_le.
Proof. intros x y. unfold cmpInt_le, cmpInt. lia. Qed.

Lemma Sorted_cmpInt_strict (l : list Z) :
  Sorted cmpInt_le l -> NoDup l -> Sorted Z.lt l.
Proof.
  induction 1 as [|x l Hs IH Hhd]; intros Hnd; constructor.
  - apply IH. by apply NoDup_cons in Hnd as [_ ?].
  - destruct Hhd as [|y l' Hxy]; constructor.
    unfold cmpInt_le, cmpInt in Hxy.
    apply NoDup_cons in Hnd as [Hx _].
    assert (x <> y) by (intros ->; apply Hx; left). lia.
Qed.

(** The first loop of [setChromosomeActiveNodes] clears every flag. *)
Lemma reset_active_spec (c : chromosome) :
  Z.of_nat (length (nodes c)) = numNodes c ->
  exists s,
    for_loop 0 (numNodes c)
      (fun i c => upd_node c i (fun n => set_active n 0))
      (set_numActiveNodes c 0) = Ok s
    /\ same_genes c s /\ numActiveNodes s = 0
    /\ (forall k, isActive s k = false).
Proof.
  intros Hlen.
  destruct (for_loop_total
    (fun i s => same_genes c s /\ numActiveNodes s = 0
                /\ forall k : nat, Z.of_nat k < i -> isActive s k = false)
    (fun i c => upd_node c i (fun n => set_active n 0))
    0 (numNodes c) (set_numActiveNodes c 0)) as (s & Hrun & Hsg & Hz & Hoff).
  - lia.
  - split; [by constructor|]. split; [done|]. intros k Hk. lia.
  - intros j s Hj (Hsg & Hz & Hoff).
    assert (Hjlt : (Z.to_nat j < length (nodes s))%nat).
    { rewrite (same_genes_length _ _ Hsg). lia. }
    destruct (lookup_lt_is_Some_2 _ _ Hjlt) as [n Hn].
    exists (set_nodes s (<[Z.to_nat j := set_active n 0]> (nodes s))).
    split.
    { replace j with (Z.of_nat (Z.to_nat j)) at 1 by lia.
      apply (upd_node_eq s (Z.to_nat j) n (fun n => set_active n 0) Hn). }
    split; [|split; [done|]].
    + destruct Hsg. constructor; cbn; try done.
      * by rewrite (fmap_insert_same _ _ _ n).
      * by rewrite (fmap_insert_same _ _ _ n).
    + intros k Hk. unfold isActive. cbn [nodes set_nodes].
      destruct (decide (k = Z.to_nat j)) as [->|Hne].
      * by rewrite list_lookup_insert_eq.
      * rewrite list_lookup_insert_ne by done. apply Hoff. lia.
  - exists s. split; [done|]. split; [done|]. split; [done|].
    intros k. destruct (decide (Z.of_nat k < numNodes c)) as [Hk|Hk].
    + by apply Hoff.
    + unfold isActive. rewrite lookup_ge_None_2; [done|].
      rewrite (same_genes_length _ _ Hsg). lia.
Qed.

(** The second loop resolves one output gene after the other. *)
Lemma resolve_outputs_spec (c0 s0 : chromosome) :
  wf_chromosome c0 = true ->
  same_genes c0 s0 -> numActiveNodes s0 = 0 ->
  (forall k, isActive s0 k = false) ->
  exists s,
    for_loop 0 (numOutputs s0)
      (fun i c =>
         o ← aget (outputNodes c) i;
         if o <? numInputs c then Ok c
         else recursivelySetActiveNodes (S (Z.to_nat (numNodes c))) c o)
      s0 = Ok s
    /\ outputs_resolved c0 (numOutputs c0) s.
Proof.
  intros Hwf Hsg0 Hz0 Hoff0.
  destruct (wf_chromosome_spec _ Hwf) as (Hlen & Hroom0 & Hout & Hoin & _).
  rewrite (sg_numOutputs _ _ Hsg0).
  apply for_loop_total; [lia | |].
  - repeat apply conj; try done.
    + constructor.
      * rewrite Hz0. lia.
      * unfold activeList. rewrite Hz0. constructor.
      * intros z. unfold activeList. rewrite Hz0. cbn. split.
        -- by intros ?%elem_of_nil.
        -- intros (k & _ & Hk). rewrite Hoff0 in Hk. discriminate.
      * intros k n Hn Hact. specialize (Hoff0 k). unfold isActive in Hoff0.
        rewrite Hn in Hoff0. lia.
    + intros j o Hj. lia.
    + intros k Hk. rewrite Hoff0 in Hk. discriminate.
    + intros k Hk. rewrite Hoff0 in Hk. discriminate.
  - intros i s Hi (Hsg & Hm & Hdone & Hclosed & Hreach).
    destruct (aget_in_range (outputNodes s) i) as [o Ho].
    { rewrite (sg_outputNodes _ _ Hsg). lia. }
    rewrite Ho. cbn [mbind result_bind].
    apply aget_Ok in Ho as [_ Ho]. rewrite (sg_outputNodes _ _ Hsg) in Ho.
    rewrite (sg_numInputs _ _ Hsg), (sg_numNodes _ _ Hsg).
    destruct (Z.ltb_spec o (numInputs c0)) as [Hin|Hnode].
    { exists s. split; [done|]. repeat apply conj; try done.
      intros j o' Hj Ho' Hge.
      destruct (decide (j = i)) as [->|Hne].
      - rewrite Ho in Ho'. injection Ho' as <-. lia.
      - apply (Hdone j o'); [lia | done | done]. }
    destruct (recursivelySetActiveNodes_spec c0 Hwf
                (S (Z.to_nat (numNodes c0))) s o Hsg Hm)
      as (s' & Hs' & Hpost).
    { apply Hoin. by eapply list_elem_of_lookup_2. }
    { pose proof (mo_range _ Hm). lia. }
    exists s'. split; [done|].
    destruct Hpost as [Hpg Hpm Hpin Hpcnt Hpmono Hproot Hpclosed Hpreach].
    repeat apply conj; try done.
    + intros j o' Hj Ho' Hge.
      destruct (decide (j = i)) as [->|Hne].
      * rewrite Ho in Ho'. injection Ho' as <-. by apply Hproot.
      * apply Hpmono. apply (Hdone j o'); [lia | done | done].
    + intros k Hk. destruct (isActive s k) eqn:Hsk.
      * eapply closed_at_mono; [exact Hpmono|]. by apply Hclosed.
      * by apply Hpclosed.
    + intros k Hk. destruct (isActive s k) eqn:Hsk; [by apply Hreach|].
      exists (Z.to_nat i), o. split; [done|]. split; [lia|].
      split; [done|]. by apply Hpreach.
Qed.

(** Once the outputs are resolved, the flagged nodes are the reachable
    ones. *)
Lemma outputs_resolved_reachable (c0 s : chromosome) (b : Z) :
  Z.of_nat (length (outputNodes c0)) = numOutputs c0 ->
  outputs_resolved c0 (numOutputs c0) s ->
  reachable c0 b ->
  numInputs c0 <= b /\ isActive s (Z.to_nat (b - numInputs c0)) = true.
Proof.
  intros Hout (Hsg & Hm & Hdone & Hclosed & Hreach) (i & a & Ha & Hi & Hge & Hp).
  induction Hp as [a|a b b' Hp IH (k & -> & Hb' & Hge')].
  - split; [done|]. apply (Hdone (Z.of_nat i) a); [lia | | done].
    by rewrite Nat2Z.id.
  - split; [done|]. destruct (IH Ha Hge) as [_ Hk].
    replace (Z.to_nat (numInputs c0 + Z.of_nat k - numInputs c0)) with k
      in Hk by lia.
    by apply (Hclosed k).
Qed.

(** [setChromosomeActiveNodes] returns: the state [s] the two loops
    reach, with its list sorted. *)
Lemma setChromosomeActiveNodes_run (c : chromosome) :
  wf_chromosome c = true ->
  exists s,
    setChromosomeActiveNodes c
      = Ok (set_activeNodes s
              (sortIntArray (activeNodes s) (numActiveNodes s)))
    /\ outputs_resolved c (numOutputs c) s.
Proof.
  intros Hwf.
  destruct (wf_chromosome_spec _ Hwf) as (Hlen & Hroom0 & Hout & _ & _).
  unfold setChromosomeActiveNodes.
  destruct (reset_active_spec c Hlen) as (s0 & Hrun0 & Hsg0 & Hz0 & Hoff0).
  cbn [numNodes set_numActiveNodes] in Hrun0 |- *.
  rewrite Hrun0. cbn [mbind result_bind].
  destruct (resolve_outputs_spec c s0 Hwf Hsg0 Hz0 Hoff0)
    as (s & Hrun & Hres).
  rewrite Hrun. cbn [mbind result_bind]. by exists s.
Qed.

Lemma sorted_activeList (s : chromosome) :
  marks_ok s ->
  activeList (set_activeNodes s
                (sortIntArray (activeNodes s) (numActiveNodes s)))
  = merge_sort cmpInt_le (activeList s).
Proof.
  intros Hm. unfold activeList, sortIntArray.
  cbn [activeNodes numActiveNodes set_activeNodes].
  apply take_app_length'.
  rewrite (Permutation_length (merge_sort_Permutation _ _)).
  symmetry. apply (activeList_length _ Hm).
Qed.

(** C2.  On a chromosome as the library builds them,
    [setChromosomeActiveNodes] returns, and the active-node list then
    holds node [k] exactly when its address [numInputs + k] is
    reachable from an output gene through the input genes that count
    (those below the actual arity) of the nodes on the way; the list
    is in strictly ascending order. *)
Theorem setChromosomeActiveNodes_resolves (c : chromosome) :
  wf_chromosome c = true ->
  exists c',
    setChromosomeActiveNodes c = Ok c'
    /\ (forall k : Z, k ∈ activeList c' <-> reachable c (numInputs c + k))
    /\ Sorted Z.lt (activeList c').
Proof.
  intros Hwf.
  destruct (wf_chromosome_spec _ Hwf) as (_ & _ & Hout & _ & _).
  destruct (setChromosomeActiveNodes_run c Hwf) as (s & Hrun & Hres).
  eexists. split; [exact Hrun|].
  pose proof Hres as (Hsg & Hm & _ & _ & Hreach).
  rewrite (sorted_activeList _ Hm). split.
  - intros k. rewrite (merge_sort_Permutation cmpInt_le (activeList s)).
    rewrite (mo_elem _ Hm). split.
    + intros (k' & -> & Hk'). by apply Hreach.
    + intros Hk.
      destruct (outputs_resolved_reachable c s _ Hout Hres Hk) as [Hge Hact].
      exists (Z.to_nat (numInputs c + k - numInputs c)).
      split; [lia | done].
  - apply Sorted_cmpInt_strict; [apply Sorted_merge_sort, _|].
    rewrite (merge_sort_Permutation cmpInt_le (activeList s)).
    apply (mo_nodup _ Hm).
Qed.

Lemma setChromosomeActiveNodes_resolves_witness :
  exists c',
    setChromosomeActiveNodes chromo_cycle = Ok c'
    /\ (forall k : Z, k ∈ activeList c'
                      <-> reachable chromo_cycle (numInputs chromo_cycle + k))
    /\ Sorted Z.lt (activeList c').
Proof.
  apply setChromosomeActiveNodes_resolves. vm_compute. reflexivity.
Defined.

(** ** Repeatable execution *)

Lemma non_recurrent_from_spec (numIn : Z) (ns : list node) :
  forall (k0 : Z) (k : nat) n b,
    non_recurrent_from numIn k0 ns = true ->
    ns !! k = Some n -> b ∈ inputs n -> b < numIn + k0 + Z.of_nat k.
Proof.
  induction ns as [|n' ns IH]; intros k0 k n b Hnr Hn Hb; [done|].
  cbn in Hnr. apply andb_true_iff in Hnr as [Hhd Htl].
  destruct k as [|k]; cbn in Hn.
  - injection Hn as ->. rewrite forallb_forall in Hhd.
    apply list_elem_of_In in Hb. specialize (Hhd _ Hb). lia.
  - specialize (IH (k0 + 1) k n b Htl Hn Hb). lia.
Qed.

Lemma non_recurrent_spec (c : chromosome) (k : nat) (n : node) (b : Z) :
  non_recurrent c = true -> nodes c !! k = Some n -> b ∈ inputs n ->
  b < numInputs c + Z.of_nat k.
Proof.
  intros Hnr Hn Hb.
  pose proof (non_recurrent_from_spec _ _ 0 k n b Hnr Hn Hb). lia.
Qed.

Lemma Sorted_lt_lookup (l : list Z) :
  Sorted Z.lt l ->
  forall (i j : nat) x y,
    l !! i = Some x -> l !! j = Some y -> (i < j)%nat -> x < y.
Proof.
  intros Hs. apply Sorted_StronglySorted in Hs; [|intros ???; lia].
  induction Hs as [|z l Hs IH Hall]; intros i j x y Hi Hj Hlt; [done|].
  destruct j as [|j]; [lia|]. cbn in Hj.
  destruct i as [|i]; cbn in Hi.
  - injection Hi as ->. rewrite Forall_forall in Hall.
    apply Hall. by eapply list_elem_of_lookup_2.
  - apply (IH i j); [done | done | lia].
Qed.

Lemma Sorted_lt_index (l : list Z) (i j : nat) (x y : Z) :
  Sorted Z.lt l -> l !! i = Some x -> l !! j = Some y -> y < x ->
  (j < i)%nat.
Proof.
  intros Hs Hi Hj Hlt.
  destruct (lt_eq_lt_dec i j) as [[Hij| ->]|Hji]; [| |done].
  - pose proof (Sorted_lt_lookup l Hs i j x y Hi Hj Hij). lia.
  - rewrite Hi in Hj. injection Hj as ->. lia.
Qed.

(** What [setChromosomeActiveNodes] makes of a chromosome without
    recurrent connections. *)
Lemma resolved_feed_forward (c0 c : chromosome) :
  wf_chromosome c0 = true -> non_recurrent c0 = true ->
  setChromosomeActiveNodes c0 = Ok c ->
  feed_forward c /\ Sorted Z.lt (activeList c).
Proof.
  intros Hwf Hnr Hrun.
  destruct (wf_chromosome_spec _ Hwf) as (_ & _ & Hout & _ & _).
  destruct (setChromosomeActiveNodes_run c0 Hwf) as (s & Hrun' & Hres).
  rewrite Hrun in Hrun'. injection Hrun' as ->.
  destruct Hres as (Hsg & Hm & Hdone & Hclosed & Hreach).
  unfold feed_forward. rewrite (sorted_activeList _ Hm).
  cbn [nodes numInputs numOutputs outputNodes set_activeNodes].
  assert (Hperm : forall z, z ∈ merge_sort cmpInt_le (activeList s)
                            <-> z ∈ activeList s).
  { intros z. by rewrite (merge_sort_Permutation cmpInt_le (activeList s)). }
  assert (Hsorted : Sorted Z.lt (merge_sort cmpInt_le (activeList s))).
  { apply Sorted_cmpInt_strict; [apply Sorted_merge_sort, _|].
    rewrite (merge_sort_Permutation cmpInt_le (activeList s)).
    apply (mo_nodup _ Hm). }
  split; [split|done].
  - intros i z Hi.
    assert (Hz : z ∈ activeList s).
    { apply Hperm. by eapply list_elem_of_lookup_2. }
    apply (mo_elem _ Hm) in Hz as (k & -> & Hk).
    destruct (isActive_lookup _ _ Hk) as (n & Hn & Hact).
    exists n. split; [lia|]. rewrite Nat2Z.id. split; [done|].
    intros j b Hj Hb Hge.
    destruct (same_genes_lookup _ _ _ _ Hsg Hn) as (n0 & Hn0 & _ & Hins).
    pose proof (mo_arity _ Hm k n Hn Hact) as Har.
    assert (Har0 : getChromosomeNodeArity c0 (Z.of_nat k)
                   = Ok (actArity n)).
    { rewrite <- Har. symmetry.
      apply getChromosomeNodeArity_ext; by destruct Hsg. }
    assert (Hbin : b ∈ nodeInputs c0 k).
    { rewrite (same_genes_nodeInputs c0 s k n Hsg Hn _ Har0).
      apply elem_of_take. exists j. split; [done | lia]. }
    rewrite (sg_numInputs _ _ Hsg) in Hge |- *.
    pose proof (Hclosed k Hk b Hbin Hge) as Hbact.
    assert (Hbl : b - numInputs c0 ∈ merge_sort cmpInt_le (activeList s)).
    { apply Hperm, (mo_elem _ Hm).
      exists (Z.to_nat (b - numInputs c0)). split; [lia | done]. }
    apply list_elem_of_lookup_1 in Hbl as [i' Hi'].
    exists i'. split; [|done].
    eapply Sorted_lt_index; [exact Hsorted | exact Hi | exact Hi' |].
    assert (b < numInputs c0 + Z.of_nat k); [|lia].
    apply (non_recurrent_spec c0 k n0); [done | done |].
    rewrite <- Hins. by eapply list_elem_of_lookup_2.
  - intros i o Hi Ho Hge.
    rewrite (sg_numInputs _ _ Hsg) in Hge |- *.
    rewrite (sg_outputNodes _ _ Hsg) in Ho.
    apply Hperm, (mo_elem _ Hm).
    exists (Z.to_nat (o - numInputs c0)). split; [lia|].
    apply (Hdone (Z.of_nat i) o); [| by rewrite Nat2Z.id | done].
    rewrite (sg_numOutputs _ _ Hsg) in Hi. lia.
Qed.

Lemma readAddress_ext (s u : chromosome) (ins : list double) (b : Z) :
  numInputs u = numInputs s -> nodes u = nodes s ->
  readAddress u ins b = readAddress s ins b.
Proof. intros Hi Hn. unfold readAddress. by rewrite Hi, Hn. Qed.

(** The loop of [executeNode] that gathers the operands changes the
    operand buffer only, and fills its first entries with the values
    of the addresses the input genes hold. *)
Lemma gather_spec (s u : chromosome) (ins : list double) (cur : Z)
    (n : node) (nodeArity : Z) :
  aget (nodes s) cur = Ok n ->
  for_loop 0 nodeArity
    (fun j c =>
       n ← aget (nodes c) cur;
       nodeInputLocation ← aget (inputs n) j;
       v ← readAddress c ins nodeInputLocation;
       hold ← aset (nodeInputsHold c) j v;
       Ok (set_nodeInputsHold c hold))
    s = Ok u ->
  nodes u = nodes s /\ same_frame s u
  /\ forall j : nat, Z.of_nat j < nodeArity ->
       exists b x, inputs n !! j = Some b /\ readAddress s ins b = Ok x
                   /\ nodeInputsHold u !! j = Some x.
Proof.
  intros Hn Hrun.
  apply (for_loop_inv_max
    (fun j u => nodes u = nodes s /\ same_frame s u
       /\ forall j' : nat, Z.of_nat j' < j ->
            exists b x, inputs n !! j' = Some b
                        /\ readAddress s ins b = Ok x
                        /\ nodeInputsHold u !! j' = Some x)) in Hrun.
  - destruct Hrun as (H1 & H2 & H3). split; [done|]. split; [done|].
    intros j Hj. apply H3. lia.
  - split; [done|]. split; [by repeat split|]. intros j' Hj'. lia.
  - clear Hrun u. intros j u u' Hj (Hnodes & Hframe & Hheld) Hbody.
    rewrite Hnodes, Hn in Hbody. cbn [mbind result_bind] in Hbody.
    apply bind_Ok in Hbody as (b & Hb & Hbody).
    apply bind_Ok in Hbody as (x & Hx & Hbody).
    apply bind_Ok in Hbody as (hold & Hhold & [= <-]).
    apply aget_Ok in Hb as [_ Hb].
    apply aset_Ok in Hhold as [Hjr ->].
    rewrite (readAddress_ext s u) in Hx by (done || apply Hframe).
    split; [done|]. split; [exact Hframe|].
    intros j' Hj'. cbn [nodeInputsHold set_nodeInputsHold].
    destruct (decide (j' = Z.to_nat j)) as [->|Hne].
    + exists b, x. split; [done|]. split; [done|].
      apply list_lookup_insert_eq. lia.
    + destruct (Hheld j') as (b' & x' & ? & ? & ?); [lia|].
      exists b', x'. split; [done|]. split; [done|].
      by rewrite list_lookup_insert_ne.
Qed.

Lemma executeNode_spec (s s' : chromosome) (ins : list double)
    (cur g g' : Z) :
  executeNode s ins cur g = Ok (s', g') ->
  exists n hold f v,
    0 <= cur /\ nodes s !! Z.to_nat cur = Some n
    /\ (forall j : nat, Z.of_nat j < actArity n ->
          exists b x, inputs n !! j = Some b /\ readAddress s ins b = Ok x
                      /\ hold !! j = Some x)
    /\ functions (funcSet s) !! Z.to_nat (function n) = Some f
    /\ f (actArity n) hold (weights n) g = Ok (v, g')
    /\ nodes s' = <[Z.to_nat cur := set_output n (sanitise v)]> (nodes s)
    /\ same_frame s s'.
Proof.
  unfold executeNode. intros Hrun.
  apply bind_Ok in Hrun as (n & Hn & Hrun).
  apply bind_Ok in Hrun as (u & Hgather & Hrun).
  destruct (gather_spec _ _ _ _ _ _ Hn Hgather) as (Hnodes & Hframe & Hheld).
  rewrite Hnodes, Hn in Hrun. cbn [mbind result_bind] in Hrun.
  apply bind_Ok in Hrun as (f & Hf & Hrun).
  apply bind_Ok in Hrun as ([v g1] & Hv & Hrun).
  apply bind_Ok in Hrun as (s1 & Hupd & [= <- <-]).
  unfold upd_node in Hupd. rewrite Hnodes, Hn in Hupd.
  cbn [mbind result_bind] in Hupd.
  apply bind_Ok in Hupd as (ns & Hset & [= <-]).
  apply aset_Ok in Hset as [Hcur ->].
  apply aget_Ok in Hn as [Hcur0 Hn].
  apply aget_Ok in Hf as [_ Hf].
  destruct Hframe as (F1 & F2 & F3 & F4 & F5 & F6 & F7).
  rewrite F6 in Hf.
  exists n, (nodeInputsHold u), f, v.
  split; [done|]. split; [done|]. split; [done|]. split; [done|].
  split; [done|]. split; [done|]. by repeat split.
Qed.

Lemma same_program_lookup (s t : chromosome) (k : nat) (ns : node) :
  same_program s t -> nodes s !! k = Some ns ->
  exists nt, nodes t !! k = Some nt
    /\ function nt = function ns /\ inputs nt = inputs ns
    /\ weights nt = weights ns /\ actArity nt = actArity ns.
Proof.
  intros (_ & _ & _ & _ & _ & _ & Hn) Hs.
  assert (Hk : (fun n => set_output n (of_int 0)) <$> (nodes s !! k)
               = (fun n => set_output n (of_int 0)) <$> (nodes t !! k)).
  { rewrite <- !list_lookup_fmap. by rewrite Hn. }
  rewrite Hs in Hk. destruct (nodes t !! k) as [nt|]; [|discriminate].
  exists nt. split; [done|]. cbn in Hk. injection Hk as H1 H2 H3 H4 H5 H6.
  by rewrite H1, H2, H3, H6.
Qed.

Lemma same_program_refl (c : chromosome) : same_program c c.
Proof. by repeat split. Qed.

Lemma executeNode_same_program (c s s' : chromosome) (ins : list double)
    (cur g g' : Z) :
  same_program c s -> executeNode s ins cur g = Ok (s', g') ->
  same_program c s'.
Proof.
  intros (P1 & P2 & P3 & P4 & P5 & P6 & P7) Hrun.
  destruct (executeNode_spec _ _ _ _ _ _ Hrun)
    as (n & hold & f & v & _ & Hn & _ & _ & _ & Hnodes & Hframe).
  destruct Hframe as (F1 & F2 & F3 & F4 & F5 & F6 & F7).
  unfold same_program. rewrite F1, F2, F3, F4, F5, F6, Hnodes.
  repeat split; try done.
  rewrite P7. symmetry. by apply (fmap_insert_same _ _ _ n).
Qed.

(** The value of an address is the same in two states that agree on
    the outputs of the nodes executed so far, when the address is an
    input or one of these nodes. *)
Lemma readAddress_agree (c s t : chromosome) (ins : list double)
    (L : list Z) (i : nat) (b : Z) (x y : double) :
  same_program c s -> same_program c t ->
  same_outputs_upto L i s t ->
  (numInputs c <= b ->
   exists i' : nat, (i' < i)%nat /\ L !! i' = Some (b - numInputs c)) ->
  readAddress s ins b = Ok x -> readAddress t ins b = Ok y -> x = y.
Proof.
  intros (Ps & _) (Pt & _) Hsame Hb. unfold readAddress.
  rewrite <- Ps, <- Pt.
  destruct (Z.ltb_spec b (numInputs c)) as [Hlt|Hge].
  - intros Hx Hy. congruence.
  - destruct (Hb Hge) as (i' & Hi' & HL).
    specialize (Hsame i' _ Hi' HL).
    intros (ns & Hns & [= <-])%bind_Ok (nt & Hnt & [= <-])%bind_Ok.
    apply aget_Ok in Hns as [_ Hns]. apply aget_Ok in Hnt as [_ Hnt].
    rewrite Hns, Hnt in Hsame. by injection Hsame.
Qed.

Lemma take_agree {A} (n : nat) (l1 l2 : list A) :
  (forall j, (j < n)%nat ->
     exists x, l1 !! j = Some x /\ l2 !! j = Some x) ->
  take n l1 = take n l2.
Proof.
  intros H. apply list_eq. intros j.
  destruct (decide (j < n)%nat) as [Hj|Hj].
  - rewrite !lookup_take_lt by done.
    destruct (H j Hj) as (x & -> & ->). done.
  - rewrite !lookup_take_ge by lia. done.
Qed.

(** Executing the [i]-th active node in two states that agree so far
    gives two states that agree on one node more. *)
Lemma executeNode_lockstep (c s t s' t' : chromosome) (ins : list double)
    (i : nat) (cur gs gt gs' gt' : Z) :
  feed_forward c -> NoDup (activeList c) -> active_functions_pure c ->
  same_program c s -> same_program c t ->
  same_outputs_upto (activeList c) i s t ->
  activeList c !! i = Some cur ->
  executeNode s ins cur gs = Ok (s', gs') ->
  executeNode t ins cur gt = Ok (t', gt') ->
  same_outputs_upto (activeList c) (S i) s' t' /\ gs' = gs /\ gt' = gt.
Proof.
  intros [Hff _] Hnd Hpure Hcs Hct Hsame Hcur Hs Ht.
  destruct (executeNode_spec _ _ _ _ _ _ Hs)
    as (ns & hs & fs & vs & Hcur0 & Hns & Hhs & Hfs & Hvs & Hnodes_s & _).
  destruct (executeNode_spec _ _ _ _ _ _ Ht)
    as (nt & ht & ft & vt & _ & Hnt & Hht & Hft & Hvt & Hnodes_t & _).
  destruct (Hff i cur Hcur) as (n & _ & Hn & Hops).
  destruct (same_program_lookup _ _ _ _ Hcs Hn)
    as (ns' & Hns' & Sf & Si & Sw & Sa).
  rewrite Hns in Hns'. injection Hns' as <-.
  destruct (same_program_lookup _ _ _ _ Hct Hn)
    as (nt' & Hnt' & Tf & Ti & Tw & Ta).
  rewrite Hnt in Hnt'. injection Hnt' as <-.
  assert (Hfun : exists f, functions (funcSet c) !! Z.to_nat (function n)
                           = Some f /\ fs = f /\ ft = f).
  { destruct Hcs as (_ & _ & _ & _ & _ & Fs & _).
    destruct Hct as (_ & _ & _ & _ & _ & Ft & _).
    rewrite <- Fs, Sf in Hfs. rewrite <- Ft, Tf in Hft.
    exists fs. split; [done|]. split; [done|]. congruence. }
  destruct Hfun as (f & Hf & -> & ->).
  destruct (Hpure (Z.to_nat cur) n f) as [h Hh]; [|done|done|].
  { rewrite Z2Nat.id by done. by eapply list_elem_of_lookup_2. }
  rewrite Sa, Sw, Hh in Hvs. rewrite Ta, Tw, Hh in Hvt.
  assert (Hhold : take (Z.to_nat (actArity n)) hs
                  = take (Z.to_nat (actArity n)) ht).
  { apply take_agree. intros j Hj.
    destruct (Hhs j) as (b & x & Hb & Hx & Hsx); [lia|].
    destruct (Hht j) as (b' & y & Hb' & Hy & Hty); [lia|].
    rewrite Si in Hb. rewrite Ti, Hb in Hb'. injection Hb' as <-.
    exists x. split; [done|].
    rewrite (readAddress_agree c s t ins _ i b x y Hcs Hct Hsame); try done.
    intros Hge. apply (Hops j b); [lia | done | done]. }
  rewrite Hhold in Hvs.
  destruct (h (take (Z.to_nat (actArity n)) ht) (weights n)) as [v|e];
    [|discriminate].
  cbn in Hvs, Hvt. injection Hvs as <- <-. injection Hvt as <- <-.
  split; [|done].
  intros i' k Hi' Hk. rewrite Hnodes_s, Hnodes_t.
  destruct (decide (i' = i)) as [->|Hne].
  - rewrite Hcur in Hk. injection Hk as <-.
    rewrite !list_lookup_insert_eq by by eapply lookup_lt_Some. done.
  - assert (Hkcur : Z.to_nat k <> Z.to_nat cur).
    { destruct (Hff i' k Hk) as (_ & Hk0 & _).
      intros Heq. apply Z2Nat.inj in Heq; [|done|done]. subst k.
      apply Hne. by eapply (NoDup_lookup _ _ _ _ Hnd). }
    rewrite !list_lookup_insert_ne by done.
    apply (Hsame i' k); [lia | done].
Qed.

(** The loop of [executeChromosome] over the active nodes, run from
    two states of the same chromosome. *)
Lemma nodes_lockstep (c s0 t0 s t : chromosome) (ins : list double)
    (gs gt gs' gt' : Z) :
  feed_forward c -> NoDup (activeList c) -> active_functions_pure c ->
  same_program c s0 -> same_program c t0 ->
  for_loop 0 (numActiveNodes c)
    (fun i '(c, g) =>
       currentActiveNode ← aget (activeNodes c) i;
       executeNode c ins currentActiveNode g)
    (s0, gs) = Ok (s, gs') ->
  for_loop 0 (numActiveNodes c)
    (fun i '(c, g) =>
       currentActiveNode ← aget (activeNodes c) i;
       executeNode c ins currentActiveNode g)
    (t0, gt) = Ok (t, gt') ->
  same_program c s /\ same_program c t
  /\ same_outputs_upto (activeList c) (length (activeList c)) s t
  /\ gs' = gs /\ gt' = gt
  /\ outputValues s = outputValues s0 /\ outputValues t = outputValues t0.
Proof.
  intros Hff Hnd Hpure Hs0 Ht0 Hruns Hrunt.
  set (R := fun (j : Z) (p q : chromosome * Z) =>
       same_program c p.1 /\ same_program c q.1
       /\ same_outputs_upto (activeList c) (Z.to_nat j) p.1 q.1
       /\ p.2 = gs /\ q.2 = gt
       /\ outputValues p.1 = outputValues s0
       /\ outputValues q.1 = outputValues t0).
  assert (Hrel : R (Z.max 0 (numActiveNodes c)) (s, gs') (t, gt')).
  { eapply (for_loop_rel R); [ | | exact Hruns | exact Hrunt];
      unfold R; cbn [fst snd].
  - split; [exact Hs0|]. split; [exact Ht0|].
    split; [intros i' k Hi'; lia | done].
  - intros j [u g1] [v g2] [u' g1'] [v' g2'] Hj
      (Hu & Hv & Hsame & Eg1 & Eg2 & Hou & Hov) Hbu Hbv.
    cbn [fst snd] in *. subst g1 g2.
    apply bind_Ok in Hbu as (cur & Hcur & Hbu).
    apply bind_Ok in Hbv as (cur' & Hcur' & Hbv).
    assert (Hau : activeNodes u = activeNodes c) by (symmetry; apply Hu).
    assert (Hav : activeNodes v = activeNodes c) by (symmetry; apply Hv).
    rewrite Hau in Hcur. rewrite Hav, Hcur in Hcur'. injection Hcur' as <-.
    apply aget_Ok in Hcur as [_ Hcur].
    assert (HL : activeList c !! Z.to_nat j = Some cur).
    { unfold activeList. rewrite lookup_take_lt by lia. done. }
    destruct (executeNode_lockstep c u v u' v' ins (Z.to_nat j) cur
                gs gt g1' g2' Hff Hnd Hpure Hu Hv Hsame HL Hbu Hbv)
      as (Hsame' & -> & ->).
    split; [exact (executeNode_same_program _ _ _ _ _ _ _ Hu Hbu)|].
    split; [exact (executeNode_same_program _ _ _ _ _ _ _ Hv Hbv)|].
    split; [by replace (Z.to_nat (j + 1)) with (S (Z.to_nat j)) by lia|].
    destruct (executeNode_spec _ _ _ _ _ _ Hbu)
      as (? & ? & ? & ? & _ & _ & _ & _ & _ & _ & Fu).
    destruct (executeNode_spec _ _ _ _ _ _ Hbv)
      as (? & ? & ? & ? & _ & _ & _ & _ & _ & _ & Fv).
    destruct Fu as (_ & _ & _ & _ & _ & _ & Fu).
    destruct Fv as (_ & _ & _ & _ & _ & _ & Fv).
    split; [congruence|]. split; [congruence|]. split; congruence. }
  destruct Hrel as (H1 & H2 & H3 & H4 & H5 & H6 & H7). cbn [fst snd] in *.
  split; [done|]. split; [done|]. split; [|done].
  intros i' k Hi' Hk. apply (H3 i' k); [|done].
  unfold activeList in Hi'. rewrite length_take in Hi'. lia.
Qed.

(** The loop of [executeChromosome] over the output genes. *)
Lemma outputs_spec (u0 u : chromosome) (ins : list double) (N : Z) :
  for_loop 0 N
    (fun i c =>
       o ← aget (outputNodes c) i;
       v ← readAddress c ins o;
       ov ← aset (outputValues c) i v;
       Ok (set_outputValues c ov))
    u0 = Ok u ->
  (forall c, same_program c u0 -> same_program c u)
  /\ (forall i : nat, Z.of_nat i < N ->
        exists o x, outputNodes u0 !! i = Some o
                    /\ readAddress u0 ins o = Ok x
                    /\ outputValues u !! i = Some x)
  /\ (forall i : nat, N <= Z.of_nat i ->
        outputValues u !! i = outputValues u0 !! i).
Proof.
  intros Hrun.
  apply (for_loop_inv_max
    (fun j u =>
       (nodes u = nodes u0 /\ numInputs u = numInputs u0
        /\ numOutputs u = numOutputs u0
        /\ numActiveNodes u = numActiveNodes u0
        /\ activeNodes u = activeNodes u0
        /\ outputNodes u = outputNodes u0 /\ funcSet u = funcSet u0)
       /\ (forall i : nat, Z.of_nat i < j ->
             exists o x, outputNodes u0 !! i = Some o
                         /\ readAddress u0 ins o = Ok x
                         /\ outputValues u !! i = Some x)
       /\ (forall i : nat, j <= Z.of_nat i ->
             outputValues u !! i = outputValues u0 !! i))) in Hrun.
  - destruct Hrun as ((E1 & E2 & E3 & E4 & E5 & E6 & E7) & Hlow & Hhigh).
    split; [|split].
    + intros c (P1 & P2 & P3 & P4 & P5 & P6 & P7).
      unfold same_program. rewrite E1, E2, E3, E4, E5, E6, E7. done.
    + intros i Hi. apply Hlow. lia.
    + intros i Hi. apply Hhigh. lia.
  - split; [done|]. split; [intros i Hi; lia | done].
  - clear Hrun u. intros j u u' Hj (Heq & Hlow & Hhigh) Hbody.
    destruct Heq as (E1 & E2 & E3 & E4 & E5 & E6 & E7).
    apply bind_Ok in Hbody as (o & Ho & Hbody).
    apply bind_Ok in Hbody as (x & Hx & Hbody).
    apply bind_Ok in Hbody as (ov & Hov & [= <-]).
    rewrite E6 in Ho. apply aget_Ok in Ho as [_ Ho].
    rewrite (readAddress_ext u0 u) in Hx by done.
    apply aset_Ok in Hov as [Hjr ->].
    cbn [nodes numInputs numOutputs numActiveNodes activeNodes outputNodes
         funcSet outputValues set_outputValues].
    split; [done|]. split.
    + intros i Hi. destruct (decide (i = Z.to_nat j)) as [->|Hne].
      * exists o, x. split; [done|]. split; [done|].
        apply list_lookup_insert_eq. lia.
      * destruct (Hlow i) as (o' & x' & ? & ? & ?); [lia|].
        exists o', x'. split; [done|]. split; [done|].
        by rewrite list_lookup_insert_ne.
    + intros i Hi. rewrite list_lookup_insert_ne by lia. apply Hhigh. lia.
Qed.

(** C8, as the code has it.  The operators that draw at random take
    the seed of the caller and return it advanced, and have no other
    source ([randInt], [randDecimal] and what is built on them receive
    nothing else); of the node functions, "rand" draws from the
    generator of the process.  A chromosome without recurrent
    connections, once its active nodes are resolved, gives the same
    output values when it is executed a second time on the same
    inputs, whatever the state of that generator is, as long as the
    functions of its active nodes compute their value from their
    operands and weights alone; such an execution leaves the generator
    as it was. *)
Theorem execution_is_repeatable (c0 c c1 c2 : chromosome)
    (ins : list double) (g g' g1 g2 : Z) :
  wf_chromosome c0 = true ->
  non_recurrent c0 = true ->
  setChromosomeActiveNodes c0 = Ok c ->
  active_functions_pure c ->
  executeChromosome c ins g = Ok (c1, g1) ->
  executeChromosome c1 ins g' = Ok (c2, g2) ->
  outputValues c2 = outputValues c1 /\ g1 = g /\ g2 = g'.
Proof.
  intros Hwf Hnr Hres Hpure Hrun1 Hrun2.
  destruct (resolved_feed_forward _ _ Hwf Hnr Hres) as [Hff Hsorted].
  assert (Hnd : NoDup (activeList c)).
  { apply Sorted_StronglySorted in Hsorted; [|intros ???; lia].
    clear -Hsorted. induction Hsorted as [|x l _ IH Hall]; constructor.
    - intros Hx. rewrite Forall_forall in Hall. specialize (Hall _ Hx). lia.
    - done. }
  unfold executeChromosome in Hrun1, Hrun2.
  apply bind_Ok in Hrun1 as ([s gs'] & Hnodes1 & Hrun1).
  apply bind_Ok in Hrun1 as (c1' & Hout1 & [= -> ->]).
  apply bind_Ok in Hrun2 as ([t gt'] & Hnodes2 & Hrun2).
  apply bind_Ok in Hrun2 as (c2' & Hout2 & [= -> ->]).
  destruct (outputs_spec _ _ _ _ Hout1) as (Hprog1 & Hlow1 & Hhigh1).
  destruct (outputs_spec _ _ _ _ Hout2) as (Hprog2 & Hlow2 & Hhigh2).
  assert (Hcs : same_program c s).
  { destruct (nodes_lockstep c c c s s ins g g g1 g1 Hff Hnd Hpure
                (same_program_refl c) (same_program_refl c) Hnodes1 Hnodes1)
      as (? & _). done. }
  assert (Hcc1 : same_program c c1) by by apply Hprog1.
  assert (Ea : numActiveNodes c1 = numActiveNodes c) by (symmetry; apply Hcc1).
  assert (Eo : numOutputs c1 = numOutputs c) by (symmetry; apply Hcc1).
  rewrite Ea in Hnodes2. rewrite Eo in Hlow2, Hhigh2.
  destruct (nodes_lockstep c c c1 s t ins g g' g1 g2 Hff Hnd Hpure
              (same_program_refl c) Hcc1 Hnodes1 Hnodes2)
    as (_ & Hct & Hsame & -> & -> & _ & Hovt).
  split; [|done].
  apply list_eq. intros i.
  destruct (decide (Z.of_nat i < numOutputs c)) as [Hi|Hi].
  - destruct (Hlow1 i Hi) as (o & x & Ho & Hx & ->).
    destruct (Hlow2 i Hi) as (o' & y & Ho' & Hy & ->).
    assert (Eos : outputNodes s = outputNodes c) by (symmetry; apply Hcs).
    assert (Eot : outputNodes t = outputNodes c) by (symmetry; apply Hct).
    rewrite Eos in Ho. rewrite Eot, Ho in Ho'. injection Ho' as <-.
    f_equal. symmetry.
    apply (readAddress_agree c s t ins (activeList c)
             (length (activeList c)) o x y Hcs Hct Hsame); [|done|done].
    intros Hge. destruct Hff as [_ Hffo].
    specialize (Hffo i o Hi Ho Hge).
    apply list_elem_of_lookup_1 in Hffo as [i' Hi'].
    exists i'. split; [by eapply lookup_lt_Some | done].
  - rewrite Hhigh2, Hovt by lia. done.
Qed.

(** "add" over two operands is a function of the two operands. *)
Lemma pure_add2 : pure_at _add 2.
Proof.
  exists (fun ins ws => sum ← aget ins 0;
            for_loop 1 2 (fun i sum => x ← aget ins i; Ok (dadd sum x)) sum).
  intros [|a [|b rest]] ws g; reflexivity.
Qed.

Lemma execution_is_repeatable_witness :
  exists c1 c2,
    executeChromosome chromo_add [of_int 2; of_int 3] 0 = Ok (c1, 0)
    /\ executeChromosome c1 [of_int 2; of_int 3] 7 = Ok (c2, 7)
    /\ outputValues c2 = outputValues c1.
Proof.
  eexists _, _.
  split; [reflexivity|]. split; [reflexivity|].
  eapply (execution_is_repeatable chromo_add chromo_add _ _
            [of_int 2; of_int 3] 0 7 0 7).
  - vm_compute. reflexivity.
  - vm_compute. reflexivity.
  - reflexivity.
  - intros k n f Hk Hn Hf.
    apply list_elem_of_singleton in Hk. assert (k = 0%nat) as -> by lia.
    cbn in Hn. injection Hn as <-. cbn in Hf. injection Hf as <-.
    exact pure_add2.
  - reflexivity.
  - reflexivity.
Defined.

(** C8 as stated fails for a chromosome that uses "rand":
    [chromo_rand] has no recurrent connection and its active nodes are
    resolved, and two executions in a row on the same input give two
    different output values, because the node draws from [rand()]
    each time. *)
Lemma rand_node_is_not_repeatable :
  wf_chromosome chromo_rand = true /\
  non_recurrent chromo_rand = true /\
  setChromosomeActiveNodes chromo_rand = Ok chromo_rand /\
  exists c1 g1 c2 g2,
    executeChromosome chromo_rand [one] 0 = Ok (c1, g1)
    /\ executeChromosome c1 [one] g1 = Ok (c2, g2)
    /\ outputValues c2 <> outputValues c1.
Proof.
  split; [vm_compute; reflexivity|]. split; [vm_compute; reflexivity|].
  split; [reflexivity|].
  eexists _, _, _, _.
  split; [reflexivity|]. split; [reflexivity|].
  vm_compute. intros [=].
Qed.

(** ** Differential evolution *)

(** The order of the doubles: [a < b] and [b <= c] give [a < c]. *)
Lemma dlt_dle_trans (a b c : double) :
  dlt a b = true -> dle b c = true -> dlt a c = true.
Proof.
  unfold dlt, dle, SFltb, SFleb.
  destruct a as [sa|sa| |sa ma ea], b as [sb|sb| |sb mb eb],
           c as [sc|sc| |sc mc ec]; cbn;
    repeat match goal with
           | s : bool |- _ => destruct s
           end; cbn; try done.
  all: try (destruct (Z.compare_spec ea eb); cbn; try done).
  all: try (destruct (Z.compare_spec eb ec); cbn; try done).
  all: try (destruct (Z.compare_spec ea ec); cbn; try lia; try done).
  all: subst.
  all: rewrite ?Pos.compare_cont_spec in *; cbn.
  all: try (destruct (Pos.compare_spec ma mb); cbn; try done).
  all: try (destruct (Pos.compare_spec mb mc); cbn; try done).
  all: try (destruct (Pos.compare_spec ma mc); cbn; try lia; try done).
Qed.

Lemma not_worse_refl (x : double) : not_worse x x.
Proof.
  unfold not_worse, dgt, SFltb.
  destruct x as [s|s| |s m e]; cbn; try done; destruct s; try done.
  all: rewrite Z.compare_refl, Pos.compare_cont_refl; done.
Qed.

(** A trial that is accepted is not worse than what its target was not
    worse than. *)
Lemma not_worse_accept (fit_u fit_s fit_0 : double) :
  dle fit_u fit_s = true -> not_worse fit_s fit_0 -> not_worse fit_u fit_0.
Proof.
  unfold not_worse, dgt. intros Hle Hs.
  destruct (SFltb fit_0 fit_u) eqn:Hlt; [|done].
  fold (dlt fit_0 fit_u) in Hlt.
  pose proof (dlt_dle_trans _ _ _ Hlt Hle) as Hc.
  unfold dlt in Hc. congruence.
Qed.

Lemma copyChromosome_fitness (dest src r : chromosome) :
  copyChromosome dest src = Ok r -> fitness r = fitness src.
Proof.
  unfold copyChromosome.
  repeat (destruct (negb _); [discriminate|]).
  intros (d1 & _ & Hrun)%bind_Ok.
  apply bind_Ok in Hrun as (on & _ & [= <-]). done.
Qed.

Lemma copyArray_spec {A} (n : Z) (dest src w : list A) :
  copyArray n dest src = Ok w ->
  length w = length dest
  /\ forall j : nat, Z.of_nat j < n -> w !! j = src !! j.
Proof.
  unfold copyArray. intros Hrun.
  apply (for_loop_inv_max
    (fun i w => length w = length dest
       /\ forall j : nat, Z.of_nat j < i -> w !! j = src !! j)) in Hrun.
  - destruct Hrun as [Hlen Hj]. split; [done|].
    intros j Hjn. apply Hj. lia.
  - split; [done|]. intros j Hj. lia.
  - clear Hrun w. intros i w w' Hi [Hlen Hlow] Hbody.
    apply bind_Ok in Hbody as (x & Hx & Hset).
    apply aget_Ok in Hx as [_ Hx]. apply aset_Ok in Hset as [Hr ->].
    split; [by rewrite length_insert|].
    intros j Hj. destruct (decide (j = Z.to_nat i)) as [->|Hne].
    + rewrite list_lookup_insert_eq by lia. done.
    + rewrite list_lookup_insert_ne by done. apply Hlow. lia.
Qed.

(** The greedy replacement: the trial takes the place of the target
    exactly when its fitness is less than or equal to the target's. *)
Lemma DE_replace_spec (numWeights : Z) (target u r : DEChromosome) :
  DE_replace numWeights target u = Ok r ->
  if dle (fitness (chromo u)) (fitness (chromo target))
  then fitness (chromo r) = fitness (chromo u)
       /\ forall j : nat, Z.of_nat j < numWeights ->
            weightsVector r !! j = weightsVector u !! j
  else r = target.
Proof.
  unfold DE_replace.
  destruct (dle (fitness (chromo u)) (fitness (chromo target))).
  - intros (c & Hc & Hrun)%bind_Ok.
    apply bind_Ok in Hrun as (w & Hw & [= <-]). cbn.
    split; [by eapply copyChromosome_fitness|].
    by apply (copyArray_spec _ _ _ _ Hw).
  - by intros [= <-].
Qed.

Section DifferentialEvolutionProofs.
Context `{Libc} `{Fitness}.

Lemma DE_target_spec (params : parameters) (dataTrain : dataSet)
    (NP numWeights i : Z) (pop pop' : list DEChromosome)
    (u u' : DEChromosome) (seed seed' g g' : Z) :
  DE_target params dataTrain NP numWeights i (pop, u, seed, g)
    = Ok (pop', u', seed', g') ->
  exists old new,
    0 <= i /\ pop !! Z.to_nat i = Some old
    /\ DE_replace numWeights old u' = Ok new
    /\ pop' = <[Z.to_nat i := new]> pop.
Proof.
  unfold DE_target. intros Hrun.
  apply bind_Ok in Hrun as ([w s1] & _ & Hrun).
  apply bind_Ok in Hrun as (u1 & _ & Hrun).
  apply bind_Ok in Hrun as ([cu g1] & _ & Hrun).
  apply bind_Ok in Hrun as (old & Hold & Hrun).
  apply bind_Ok in Hrun as (new & Hnew & Hrun).
  apply bind_Ok in Hrun as (pop1 & Hset & [= <- <- <- <-]).
  apply aget_Ok in Hold as [Hi Hold]. apply aset_Ok in Hset as [_ ->].
  by exists old, new.
Qed.

Lemma DE_target_never_worse (params : parameters) (dataTrain : dataSet)
    (NP numWeights i : Z) (pop0 : list DEChromosome) (st st' : DE_state) :
  never_worse pop0 st.1.1.1 ->
  DE_target params dataTrain NP numWeights i st = Ok st' ->
  never_worse pop0 st'.1.1.1.
Proof.
  destruct st as [[[pop u] seed] g], st' as [[[pop' u'] seed'] g'].
  cbn [fst]. intros [Hlen Hmono] Hrun.
  destruct (DE_target_spec _ _ _ _ _ _ _ _ _ _ _ _ _ Hrun)
    as (old & new & Hi & Hold & Hnew & ->).
  split; [by rewrite length_insert|].
  intros k d0 d Hd0 Hd.
  destruct (decide (k = Z.to_nat i)) as [->|Hne].
  - rewrite list_lookup_insert_eq in Hd by by eapply lookup_lt_Some.
    injection Hd as <-.
    pose proof (Hmono _ _ _ Hd0 Hold) as Hold0.
    apply DE_replace_spec in Hnew.
    destruct (dle (fitness (chromo u')) (fitness (chromo old))) eqn:Hle.
    + destruct Hnew as [-> _]. by eapply not_worse_accept.
    + by subst new.
  - rewrite list_lookup_insert_ne in Hd by done. by eapply Hmono.
Qed.

(** C4.  In a sweep of [runDE] the trial takes the place of its target
    exactly when its fitness is less than or equal to the target's, ties
    included, and then the target has the fitness and the weights of
    the trial; whatever the number of sweeps, the fitness function and
    the random stream, a run of the sweeps that returns leaves no
    individual with a fitness that exceeds the fitness it had before. *)
Theorem DE_sweeps_never_worsen (params : parameters) (dataTrain : dataSet)
    (maxIter NP numWeights : Z) (st st' : DE_state) :
  DE_sweeps params dataTrain maxIter NP numWeights st = Ok st' ->
  never_worse st.1.1.1 st'.1.1.1
  /\ forall i pop u seed g pop' u' seed' g',
       DE_target params dataTrain NP numWeights i (pop, u, seed, g)
         = Ok (pop', u', seed', g') ->
       exists old new,
         pop !! Z.to_nat i = Some old
         /\ pop' = <[Z.to_nat i := new]> pop
         /\ if dle (fitness (chromo u')) (fitness (chromo old))
            then fitness (chromo new) = fitness (chromo u')
                 /\ forall j : nat, Z.of_nat j < numWeights ->
                      weightsVector new !! j = weightsVector u' !! j
            else new = old.
Proof.
  intros Hrun. split.
  - unfold DE_sweeps in Hrun.
    eapply (for_loop_preserves (fun s => never_worse st.1.1.1 s.1.1.1));
      [ | | exact Hrun].
    + split; [done|]. intros i d0 d Hd0 Hd. rewrite Hd0 in Hd.
      injection Hd as <-. apply not_worse_refl.
    + intros t s s' _ Hs Hsweep.
      eapply (for_loop_preserves (fun s => never_worse st.1.1.1 s.1.1.1));
        [exact Hs | | exact Hsweep].
      intros i v v' _ Hv Htarget. by eapply DE_target_never_worse.
  - intros i pop u seed g pop' u' seed' g' Htarget.
    destruct (DE_target_spec _ _ _ _ _ _ _ _ _ _ _ _ _ Htarget)
      as (old & new & _ & Hold & Hnew & ->).
    exists old, new. split; [done|]. split; [done|].
    by apply DE_replace_spec.
Qed.

End DifferentialEvolutionProofs.

(** A run from [de_start]: four individuals, two sweeps. *)
Lemma DE_sweeps_never_worsen_witness :
  length de_start.1.1.1 = 4%nat
  /\ exists st' : DE_state,
       DE_sweeps de_params example_data 2 4 2 de_start = Ok st'
       /\ never_worse de_start.1.1.1 st'.1.1.1.
Proof.
  split; [vm_compute; reflexivity|].
  assert (Hok : is_ok (DE_sweeps de_params example_data 2 4 2 de_start)
                = true) by (vm_compute; reflexivity).
  destruct (DE_sweeps de_params example_data 2 4 2 de_start) as [st'|e] eqn:E;
    [|discriminate].
  exists st'. split; [reflexivity|].
  apply (DE_sweeps_never_worsen de_params example_data 2 4 2 de_start st' E).
Defined.

(** *** The trial *)

Lemma DE_coordinate_spec (params : parameters) (pop : list DEChromosome)
    (i r1 r2 r3 jr j : Z) (rj x : double) :
  DE_coordinate params pop i r1 r2 r3 jr j rj = Ok x ->
  (j = jr -> donor_combination params pop r1 r2 r3 j = Ok x)
  /\ (donor_combination params pop r1 r2 r3 j = Ok x
      \/ target_coordinate pop i j = Ok x).
Proof.
  unfold DE_coordinate. intros Hx. split.
  - intros ->. by rewrite Z.eqb_refl, orb_true_r in Hx.
  - destruct (dlt rj (p_CR params) || (j =? jr)); [by left|by right].
Qed.

(** The example [rand_r] returns no negative number. *)
Lemma glibc_rand_r_nonneg (seed : Z) : 0 <= (glibc_rand_r seed).1.
Proof.
  unfold glibc_rand_r. cbn [fst].
  apply Z.lxor_nonneg. split; intros _.
  - apply Z.mod_pos_bound. lia.
  - apply Z.shiftl_nonneg. apply Z.lxor_nonneg. split; intros _.
    + apply Z.mod_pos_bound. lia.
    + apply Z.shiftl_nonneg. apply Z.mod_pos_bound. lia.
Qed.

Section TrialProofs.
Context `{Libc}.

(** [rand_r] returns a number between 0 and [RAND_MAX]; what follows
    from the lower bound is stated under it. *)
Lemma randInt_draw_nonneg (fuel : nat) (randLimit seed x seed' : Z) :
  (forall s, 0 <= (rand_r s).1) ->
  randInt_draw fuel randLimit seed = Ok (x, seed') -> 0 <= x.
Proof.
  intros Hrand. revert seed.
  induction fuel as [|fuel IH]; intros seed Hrun; [done|].
  cbn [randInt_draw] in Hrun. pose proof (Hrand seed) as Hx.
  destruct (rand_r seed) as [x0 s0]. cbn [fst] in Hx.
  destruct (x0 >? randLimit); [by eapply IH|].
  by injection Hrun as <- <-.
Qed.

Lemma randInt_range (n seed x seed' : Z) :
  (forall s, 0 <= (rand_r s).1) ->
  0 < n ->
  randInt n seed = Ok (x, seed') -> 0 <= x < n.
Proof.
  intros Hrand Hn. unfold randInt.
  destruct (Z.eqb_spec n 0) as [|_]; [lia|].
  intros ([x0 s0] & Hx0%randInt_draw_nonneg & [= <- <-])%bind_Ok; [|done].
  apply Z.rem_bound_pos; lia.
Qed.

Lemma DE_draw_spec (fuel : nat) (NP : Z) (avoid : list Z) (seed r seed' : Z) :
  DE_draw fuel NP avoid seed = Ok (r, seed') -> r ∉ avoid.
Proof.
  revert seed. induction fuel as [|fuel IH]; intros seed; [done|].
  cbn [DE_draw]. intros ([r0 s0] & _ & Hrun)%bind_Ok.
  destruct (existsb (Z.eqb r0) avoid) eqn:Hex; [by eapply IH|].
  injection Hrun as -> ->. intros Hin.
  assert (existsb (Z.eqb r) avoid = true); [|congruence].
  apply existsb_exists. exists r. split; [|apply Z.eqb_refl].
  by apply list_elem_of_In.
Qed.

Lemma DE_trial_spec (params : parameters) (pop : list DEChromosome)
    (numWeights i r1 r2 r3 jr : Z) (u u' : list double) (seed seed' : Z) :
  DE_trial params pop numWeights i r1 r2 r3 jr u seed = Ok (u', seed') ->
  forall j, 0 <= j < numWeights ->
    exists x, u' !! Z.to_nat j = Some x
      /\ (j = jr -> donor_combination params pop r1 r2 r3 j = Ok x)
      /\ (donor_combination params pop r1 r2 r3 j = Ok x
          \/ target_coordinate pop i j = Ok x).
Proof.
  unfold DE_trial. intros Hrun.
  set (P := fun n (s : list double * Z) => forall j, 0 <= j < n ->
       exists x, s.1 !! Z.to_nat j = Some x
         /\ (j = jr -> donor_combination params pop r1 r2 r3 j = Ok x)
         /\ (donor_combination params pop r1 r2 r3 j = Ok x
             \/ target_coordinate pop i j = Ok x)).
  assert (Hend : P (Z.max 0 numWeights) (u', seed')).
  2: { intros j Hj. apply (Hend j). lia. }
  eapply (for_loop_inv_max P); [ | | exact Hrun]; unfold P.
  - intros j Hj. lia.
  - clear Hrun. intros n [v s] [v' s'] Hn Hlow Hbody. cbn [fst] in *.
    destruct (randDecimal s) as [rj s1].
    apply bind_Ok in Hbody as (x & Hx & Hbody).
    apply bind_Ok in Hbody as (v1 & Hset & [= <- <-]).
    apply aset_Ok in Hset as [Hr ->].
    intros j Hj. destruct (decide (j = n)) as [->|Hne].
    + exists x. rewrite list_lookup_insert_eq by lia.
      split; [done|]. by eapply DE_coordinate_spec.
    + rewrite list_lookup_insert_ne by lia. apply Hlow. lia.
Qed.

(** C5.  For every crossover rate, the trial that a sweep of [runDE]
    builds for the target [i] out of one weight or more comes from
    three donors that differ from [i] and from each other; its
    coordinate [jr] is the donor combination
    [weight[r3][jr] + F * (weight[r1][jr] - weight[r2][jr])], and each
    other coordinate is that combination or the coordinate of the
    target. *)
Theorem DE_trial_forced_coordinate (params : parameters)
    (pop : list DEChromosome) (NP numWeights i : Z) (u u' : list double)
    (seed seed' : Z) :
  (forall s, 0 <= (rand_r s).1) ->
  0 < numWeights ->
  DE_make_trial params pop NP numWeights i u seed = Ok (u', seed') ->
  exists r1 r2 r3 jr,
    (r1 <> i /\ r2 <> i /\ r2 <> r1 /\ r3 <> i /\ r3 <> r1 /\ r3 <> r2)
    /\ 0 <= jr < numWeights
    /\ (exists x, donor_combination params pop r1 r2 r3 jr = Ok x
                  /\ u' !! Z.to_nat jr = Some x)
    /\ forall j, 0 <= j < numWeights ->
         exists x, u' !! Z.to_nat j = Some x
           /\ (donor_combination params pop r1 r2 r3 j = Ok x
               \/ target_coordinate pop i j = Ok x).
Proof.
  intros Hrand Hnw. unfold DE_make_trial. intros Hrun.
  apply bind_Ok in Hrun as ([r1 s1] & H1%DE_draw_spec & Hrun).
  apply bind_Ok in Hrun as ([r2 s2] & H2%DE_draw_spec & Hrun).
  apply bind_Ok in Hrun as ([r3 s3] & H3%DE_draw_spec & Hrun).
  apply bind_Ok in Hrun as ([jr s4] & Hjr & Hrun).
  apply randInt_range in Hjr; [|done|done].
  pose proof (DE_trial_spec _ _ _ _ _ _ _ _ _ _ _ _ Hrun) as Htrial.
  exists r1, r2, r3, jr. split; [|split; [done|split]].
  - repeat match goal with
           | Hr : _ ∉ _ :: _ |- _ => apply not_elem_of_cons in Hr as [? ?]
           end. done.
  - destruct (Htrial jr Hjr) as (x & Hx & Hforced & _).
    exists x. by split; [apply Hforced|].
  - intros j Hj. destruct (Htrial j Hj) as (x & Hx & _ & Hor). by exists x.
Qed.

End TrialProofs.

Lemma DE_trial_forced_coordinate_witness :
  exists r1 r2 r3 jr,
    (r1 <> 0 /\ r2 <> 0 /\ r2 <> r1 /\ r3 <> 0 /\ r3 <> r1 /\ r3 <> r2)
    /\ 0 <= jr < 2
    /\ (exists x,
          donor_combination (set_p_CR de_params (of_int 0))
            spread_population r1 r2 r3 jr = Ok x
          /\ [of_int 1; of_int (-1)] !! Z.to_nat jr = Some x)
    /\ forall j, 0 <= j < 2 ->
         exists x, [of_int 1; of_int (-1)] !! Z.to_nat j = Some x
           /\ (donor_combination (set_p_CR de_params (of_int 0))
                 spread_population r1 r2 r3 j = Ok x
               \/ target_coordinate spread_population 0 j = Ok x).
Proof.
  apply (DE_trial_forced_coordinate (set_p_CR de_params (of_int 0))
           spread_population 4 2 0 [of_int 0; of_int 0]
           [of_int 1; of_int (-1)] 1 3834121963).
  - exact glibc_rand_r_nonneg.
  - lia.
  - vm_compute. reflexivity.
Defined.

(** In a population whose members all carry the same weights the donor
    combination is the weight of the target, and the trial is equal to
    its target in every coordinate. *)
Lemma trial_equal_to_its_target :
  rmap fst (DE_make_trial de_params uniform_population 4 2 0
              [of_int 0; of_int 0] 1)
  = Ok [half; half]
  /\ rmap weightsVector (aget uniform_population 0) = Ok [half; half].
Proof. split; vm_compute; reflexivity. Qed.

(** ** Mutation *)

Lemma upd_node_Ok (c c' : chromosome) (k : Z) (f : node -> node) :
  upd_node c k f = Ok c' ->
  exists n, 0 <= k /\ nodes c !! Z.to_nat k = Some n
            /\ c' = set_nodes c (<[Z.to_nat k := f n]> (nodes c)).
Proof.
  unfold upd_node. intros (n & Hn & Hrun)%bind_Ok.
  apply bind_Ok in Hrun as (ns & Hset & [= <-]).
  apply aget_Ok in Hn as [Hk Hn]. apply aset_Ok in Hset as [_ ->].
  by exists n.
Qed.

Lemma same_weights_refl (c : chromosome) : same_weights c c.
Proof. done. Qed.

Lemma same_weights_trans (c1 c2 c3 : chromosome) :
  same_weights c1 c2 -> same_weights c2 c3 -> same_weights c1 c3.
Proof. unfold same_weights. congruence. Qed.

Lemma upd_node_same_weights (c c' : chromosome) (k : Z) (f : node -> node) :
  (forall n, weights (f n) = weights n) ->
  upd_node c k f = Ok c' -> same_weights c c'.
Proof.
  intros Hf (n & _ & Hn & ->)%upd_node_Ok. unfold same_weights. cbn.
  by apply fmap_insert_same with n.
Qed.

(** Reading an array of which one entry was written. *)
Lemma aget_insert {A B} (l : list A) (k : nat) (x n : A) (j : Z)
    (h : A -> result B) :
  l !! k = Some n ->
  (j = Z.of_nat k -> h x = h n) ->
  (aget (<[k := x]> l) j ≫= h) = (aget l j ≫= h).
Proof.
  intros Hn Hh. unfold aget. destruct (Z.ltb_spec j 0); [done|].
  destruct (decide (Z.to_nat j = k)) as [<-|Hne].
  - rewrite list_lookup_insert_eq by by eapply lookup_lt_Some.
    rewrite Hn. cbn. apply Hh. lia.
  - by rewrite list_lookup_insert_ne.
Qed.

Lemma aget_insert_ne {A} (l : list A) (k : nat) (x : A) (j : Z) :
  j <> Z.of_nat k -> aget (<[k := x]> l) j = aget l j.
Proof.
  intros Hne. unfold aget. destruct (Z.ltb_spec j 0); [done|].
  rewrite list_lookup_insert_ne; [done | lia].
Qed.

Lemma set_gene_function_spec (params : parameters) (c c' : chromosome)
    (g0 v : Z) :
  (g0 <? p_numNodes params) = true ->
  set_gene_function c g0 v = Ok c' ->
  arity c' = arity c /\ same_weights c c'
  /\ forall g, g <> g0 -> gene params c' g = gene params c g.
Proof.
  intros Hclass Hrun. split; [|split].
  - by apply upd_node_Ok in Hrun as (n & _ & _ & ->).
  - eapply upd_node_same_weights; [|exact Hrun]. done.
  - apply upd_node_Ok in Hrun as (n & Hg0 & Hn & ->).
    intros g Hg. unfold gene. cbn [nodes arity outputNodes set_nodes].
    destruct (g <? p_numNodes params);
      [|destruct (g <? p_numNodes params + p_numNodes params * p_arity params)];
      [ | |done].
    + apply (aget_insert _ _ _ n); [done | lia].
    + by apply (aget_insert _ _ _ n).
Qed.

Lemma set_gene_input_spec (params : parameters) (c c' : chromosome)
    (g0 v : Z) :
  (g0 <? p_numNodes params) = false ->
  (g0 <? p_numNodes params + p_numNodes params * p_arity params) = true ->
  set_gene_input c (Z.quot (g0 - p_numNodes params) (arity c))
    (Z.rem (g0 - p_numNodes params) (arity c)) v = Ok c' ->
  arity c' = arity c /\ same_weights c c'
  /\ forall g, g <> g0 -> gene params c' g = gene params c g.
Proof.
  intros Hf Hi. unfold set_gene_input.
  intros (n & Hn & Hrun)%bind_Ok.
  apply bind_Ok in Hrun as (ins & Hins & Hrun).
  apply aget_Ok in Hn as [Hq Hn]. apply aset_Ok in Hins as [Hr ->].
  split; [|split].
  - by apply upd_node_Ok in Hrun as (n' & _ & _ & ->).
  - eapply upd_node_same_weights; [|exact Hrun]. done.
  - apply upd_node_Ok in Hrun as (n' & _ & Hn' & ->).
    assert (n' = n) as -> by congruence.
    intros g Hg. unfold gene. cbn [nodes arity outputNodes set_nodes].
    destruct (g <? p_numNodes params) eqn:Hgf;
      [|destruct (g <? p_numNodes params + p_numNodes params * p_arity params)];
      [ | |done].
    + by apply (aget_insert _ _ _ n).
    + apply (aget_insert _ _ _ n); [done|]. intros Hsame.
      cbn [inputs set_inputs]. apply aget_insert_ne. intros Hrem.
      apply Hg.
      pose proof (Z.quot_rem' (g - p_numNodes params) (arity c)).
      pose proof (Z.quot_rem' (g0 - p_numNodes params) (arity c)).
      rewrite Z2Nat.id in Hsame, Hrem by lia. rewrite Hsame, Hrem in *. lia.
Qed.

Lemma set_gene_output_spec (params : parameters) (c c' : chromosome)
    (g0 v : Z) :
  (g0 <? p_numNodes params) = false ->
  (g0 <? p_numNodes params + p_numNodes params * p_arity params) = false ->
  set_gene_output c
    (g0 - p_numNodes params - p_numNodes params * p_arity params) v = Ok c' ->
  arity c' = arity c /\ same_weights c c'
  /\ forall g, g <> g0 -> gene params c' g = gene params c g.
Proof.
  intros Hf Hi. unfold set_gene_output.
  intros (on & Hset & [= <-])%bind_Ok.
  apply aset_Ok in Hset as [Hr ->].
  split; [done|]. split; [done|].
  intros g Hg. unfold gene.
  cbn [nodes arity outputNodes set_outputNodes].
  destruct (g <? p_numNodes params); [done|].
  destruct (g <? p_numNodes params + p_numNodes params * p_arity params);
    [done|].
  apply aget_insert_ne. lia.
Qed.

Section MutationProofs.
Context `{Libc}.

(** The redraw of the gene [g0] changes no other gene and no weight. *)
Lemma mutateGene_spec (params : parameters) (c c' : chromosome)
    (g0 seed seed' : Z) :
  mutateGene params c g0 seed = Ok (c', seed') ->
  arity c' = arity c /\ same_weights c c'
  /\ forall g, g <> g0 -> gene params c' g = gene params c g.
Proof.
  unfold mutateGene.
  destruct (g0 <? p_numNodes params) eqn:Hf;
    [|destruct (g0 <? p_numNodes params + p_numNodes params * p_arity params)
        eqn:Hi].
  - intros ([v s] & _ & Hrun)%bind_Ok.
    apply bind_Ok in Hrun as (c1 & Hset & [= <- <-]).
    by eapply set_gene_function_spec.
  - intros ([v s] & _ & Hrun)%bind_Ok.
    apply bind_Ok in Hrun as (c1 & Hset & [= <- <-]).
    by eapply set_gene_input_spec.
  - intros ([v s] & _ & Hrun)%bind_Ok.
    apply bind_Ok in Hrun as (c1 & Hset & [= <- <-]).
    by eapply set_gene_output_spec.
Qed.

(** The log changes nothing of the loop. *)
Lemma pointMutation_logged_erase (params : parameters) (numGenes : Z) :
  forall (n : nat) (i : Z) (c : chromosome) (seed : Z) (log : list Z)
         (c' : chromosome) (seed' : Z),
  for_nat n i (fun _ cs => pointMutation_step params numGenes cs) (c, seed)
    = Ok (c', seed') ->
  exists log',
    for_nat n i
      (fun _ '(c, seed, log) =>
         '(geneToMutate, seed) ← randInt numGenes seed;
         '(c, seed) ← mutateGene params c geneToMutate seed;
         Ok (c, seed, log ++ [geneToMutate]))
      (c, seed, log) = Ok (c', seed', log')
    /\ length log' = (length log + n)%nat.
Proof.
  induction n as [|n IH]; intros i c seed log c' seed' Hrun; simpl in Hrun.
  - injection Hrun as <- <-. exists log. split; [done | lia].
  - apply bind_Ok in Hrun as ([c1 s1] & Hstep & Hrun).
    unfold pointMutation_step in Hstep.
    apply bind_Ok in Hstep as ([g s0] & Hg & Hmut).
    destruct (IH (i + 1) c1 s1 (log ++ [g]) c' seed' Hrun)
      as (log' & Hrun' & Hlen).
    exists log'. split.
    + cbn [for_nat]. rewrite Hg. cbn. rewrite Hmut. cbn. exact Hrun'.
    + rewrite Hlen, length_app. cbn. lia.
Qed.

(** C6.  One call of [pointMutation] that returns has made exactly
    [(int) roundf(G * rate)] rounds for the [G] function, input and
    output genes; each round draws one gene with [randInt(G)], a number
    from 0 to [G - 1], and redraws it, whether it was drawn before or
    not; the genes that were not drawn keep their values, and no weight
    is changed. *)
Theorem pointMutation_redraws (params : parameters) (c c' : chromosome)
    (type seed seed' : Z) :
  pointMutation params c type seed = Ok (c', seed') ->
  exists (numGenesToMutate : Z) (log : list Z),
    numGenesToMutate_of (numStructuralGenes params) (p_mutationRate params)
      = Ok numGenesToMutate
    /\ pointMutation_logged params c seed = Ok (c', seed', log)
    /\ Z.of_nat (length log) = Z.max 0 numGenesToMutate
    /\ same_weights c c'
    /\ (forall g, g ∉ log -> gene params c' g = gene params c g)
    /\ ((forall s, 0 <= (rand_r s).1) -> 0 < numStructuralGenes params ->
        Forall (fun g => 0 <= g < numStructuralGenes params) log).
Proof.
  unfold pointMutation, pointMutation_logged.
  fold (numStructuralGenes params).
  intros (n & Hn & Hrun)%bind_Ok. exists n.
  unfold for_loop in Hrun.
  destruct (pointMutation_logged_erase params (numStructuralGenes params)
              _ _ _ _ [] _ _ Hrun) as (log & Hlog & Hlen).
  exists log. rewrite Hn. cbn [mbind result_bind].
  split; [done|]. split; [exact Hlog|]. split; [cbn in Hlen; lia|].
  clear Hrun Hlen.
  assert (Hkept : same_weights c c'
                  /\ forall g, g ∉ log -> gene params c' g = gene params c g);
    [|destruct Hkept as [Hw Hg]; split; [exact Hw|]; split; [exact Hg|]].
  - change (same_weights c (c', seed', log).1.1
            /\ forall g, g ∉ (c', seed', log).2 ->
                 gene params (c', seed', log).1.1 g = gene params c g).
    eapply (for_loop_preserves
      (fun s : chromosome * Z * list Z =>
         same_weights c s.1.1
         /\ forall g, g ∉ s.2 -> gene params s.1.1 g = gene params c g));
      [ | | exact Hlog].
    + done.
    + intros j [[c1 s1] log1] [[c2 s2] log2] _ [Hw Hg] Hbody.
      cbn [fst snd] in *.
      apply bind_Ok in Hbody as ([g0 s0] & _ & Hbody).
      apply bind_Ok in Hbody as ([c3 s3] & Hmut & [= <- <- <-]).
      destruct (mutateGene_spec _ _ _ _ _ _ Hmut) as (_ & Hw3 & Hg3).
      split; [by eapply same_weights_trans|].
      intros g Hnot. rewrite not_elem_of_app, not_elem_of_cons in Hnot.
      destruct Hnot as (Hlog1 & Hne & _).
      rewrite Hg3 by done. by apply Hg.
  - intros Hrand HG.
    change (Forall (fun g => 0 <= g < numStructuralGenes params)
              (c', seed', log).2).
    eapply (for_loop_preserves
      (fun s : chromosome * Z * list Z =>
         Forall (fun g => 0 <= g < numStructuralGenes params) s.2));
      [ | | exact Hlog].
    + by apply Forall_nil.
    + intros j [[c1 s1] log1] [[c2 s2] log2] _ Hall Hbody.
      cbn [fst snd] in *.
      apply bind_Ok in Hbody as ([g0 s0] & Hg0 & Hbody).
      apply bind_Ok in Hbody as ([c3 s3] & _ & [= <- <- <-]).
      apply Forall_app. split; [done|].
      apply Forall_singleton. by eapply randInt_range.
Qed.

End MutationProofs.

Lemma pointMutation_redraws_witness :
  exists (c' : chromosome) (seed' numGenesToMutate : Z) (log : list Z),
    pointMutation point_params chromo_soft 0 1 = Ok (c', seed')
    /\ numGenesToMutate_of (numStructuralGenes point_params)
         (p_mutationRate point_params) = Ok numGenesToMutate
    /\ pointMutation_logged point_params chromo_soft 1 = Ok (c', seed', log)
    /\ Z.of_nat (length log) = Z.max 0 numGenesToMutate
    /\ same_weights chromo_soft c'
    /\ (forall g, g ∉ log ->
         gene point_params c' g = gene point_params chromo_soft g)
    /\ ((forall s, 0 <= (rand_r s).1) ->
        0 < numStructuralGenes point_params ->
        Forall (fun g => 0 <= g < numStructuralGenes point_params) log).
Proof.
  assert (Hok : is_ok (pointMutation point_params chromo_soft 0 1) = true)
    by (vm_compute; reflexivity).
  destruct (pointMutation point_params chromo_soft 0 1) as [[c' seed']|e] eqn:E;
    [|discriminate].
  destruct (pointMutation_redraws point_params chromo_soft c' 0 1 seed' E)
    as (n & log & Hredraws).
  exists c', seed', n, log. split; [reflexivity | exact Hredraws].
Defined.

(** With the seed 8 both rounds draw the gene 2, the second input gene
    of the node: one gene is redrawn, not two. *)
Lemma pointMutation_draws_a_gene_twice :
  numGenesToMutate_of (numStructuralGenes point_params)
    (p_mutationRate point_params) = Ok 2
  /\ pointMutation_draws point_params chromo_soft 8 = Ok [2; 2].
Proof. split; vm_compute; reflexivity. Qed.

(** *** The weights under the mutation routines *)

Lemma set_gene_function_same_weights (c c' : chromosome) (i v : Z) :
  set_gene_function c i v = Ok c' -> same_weights c c'.
Proof. apply upd_node_same_weights. done. Qed.

Lemma set_gene_input_same_weights (c c' : chromosome) (i j v : Z) :
  set_gene_input c i j v = Ok c' -> same_weights c c'.
Proof.
  unfold set_gene_input. intros (n & _ & Hrun)%bind_Ok.
  apply bind_Ok in Hrun as (ins & _ & Hrun).
  eapply upd_node_same_weights; [|exact Hrun]. done.
Qed.

Lemma set_gene_output_same_weights (c c' : chromosome) (i v : Z) :
  set_gene_output c i v = Ok c' -> same_weights c c'.
Proof.
  unfold set_gene_output. by intros (on & _ & [= <-])%bind_Ok.
Qed.

Lemma logActive_same_weights (c c' : chromosome) (k : Z) :
  logActive c k = Ok c' -> same_weights c c'.
Proof.
  unfold logActive. intros (c1 & H1 & Hrun)%bind_Ok.
  apply bind_Ok in Hrun as (an & _ & Hrun).
  apply bind_Ok in Hrun as (a & _ & Hrun).
  apply upd_node_same_weights in H1; [|done].
  apply upd_node_same_weights in Hrun; [|done].
  unfold same_weights in *. cbn in Hrun. congruence.
Qed.

Lemma recursivelySetActiveNodes_same_weights (fuel : nat) :
  forall (c c' : chromosome) (nodeIndex : Z),
  recursivelySetActiveNodes fuel c nodeIndex = Ok c' -> same_weights c c'.
Proof.
  induction fuel as [|fuel IH]; intros c c' nodeIndex Hrun; [done|].
  cbn [recursivelySetActiveNodes] in Hrun.
  destruct (nodeIndex <? numInputs c); [by injection Hrun as <-|].
  apply bind_Ok in Hrun as (n & _ & Hrun).
  destruct (active n =? 1); [by injection Hrun as <-|].
  apply bind_Ok in Hrun as (c1 & H1%logActive_same_weights & Hrun).
  apply bind_Ok in Hrun as (n1 & _ & Hrun).
  eapply (for_loop_preserves (fun s => same_weights c s));
    [exact H1 | | exact Hrun].
  intros j s s' _ Hs Hbody.
  apply bind_Ok in Hbody as (n2 & _ & Hbody).
  apply bind_Ok in Hbody as (input & _ & Hbody).
  eapply same_weights_trans; [exact Hs|]. by eapply IH.
Qed.

Lemma setChromosomeActiveNodes_same_weights (c c' : chromosome) :
  setChromosomeActiveNodes c = Ok c' -> same_weights c c'.
Proof.
  unfold setChromosomeActiveNodes. intros (c1 & H1 & Hrun)%bind_Ok.
  apply bind_Ok in Hrun as (c2 & H2 & [= <-]).
  assert (Hc1 : same_weights c c1).
  { eapply (for_loop_preserves (fun s => same_weights c s));
      [ | | exact H1]; [done|].
    intros j s s' _ Hs Hbody. eapply same_weights_trans; [exact Hs|].
    eapply upd_node_same_weights; [|exact Hbody]. done. }
  change (same_weights c c2).
  eapply (for_loop_preserves (fun s => same_weights c s));
    [exact Hc1 | | exact H2].
  intros j s s' _ Hs Hbody.
  apply bind_Ok in Hbody as (o & _ & Hbody).
  destruct (o <? numInputs s); [by injection Hbody as <-|].
  eapply same_weights_trans; [exact Hs|].
  by eapply recursivelySetActiveNodes_same_weights.
Qed.

Section WeightProofs.
Context `{Libc}.

Lemma mutateConnection_same_weights (params : parameters) (type i j : Z)
    (c c' : chromosome) (seed seed' : Z) :
  type <> 0 ->
  mutateConnection params type i j (c, seed) = Ok (c', seed') ->
  same_weights c c'.
Proof.
  intros Htype. unfold mutateConnection.
  destruct (randDecimal seed) as [r s1].
  intros ([c1 s2] & H1 & Hrun)%bind_Ok.
  destruct (Z.eqb_spec type 0) as [|_]; [done|].
  injection Hrun as <- <-.
  destruct (dle r (p_mutationRate params)); [|by injection H1 as <- <-].
  apply bind_Ok in H1 as ([v s3] & _ & H1).
  apply bind_Ok in H1 as (c2 & Hset & [= <- <-]).
  by eapply set_gene_input_same_weights.
Qed.

Lemma mutateConnections_same_weights (params : parameters) (type i : Z)
    (c c' : chromosome) (seed seed' : Z) :
  type <> 0 ->
  for_loop 0 (p_arity params)
    (fun j cs => mutateConnection params type i j cs) (c, seed)
    = Ok (c', seed') ->
  same_weights c c'.
Proof.
  intros Htype Hrun.
  change (same_weights c (c', seed').1).
  eapply (for_loop_preserves (fun s : chromosome * Z => same_weights c s.1));
    [ | | exact Hrun]; [done|].
  intros j [c1 s1] [c2 s2] _ Hs Hbody. cbn [fst] in *.
  eapply same_weights_trans; [exact Hs|].
  by eapply mutateConnection_same_weights.
Qed.

Lemma mutateOutputs_same_weights (params : parameters)
    (c c' : chromosome) (seed seed' : Z) :
  mutateOutputs params (c, seed) = Ok (c', seed') -> same_weights c c'.
Proof.
  unfold mutateOutputs. intros Hrun.
  change (same_weights c (c', seed').1).
  eapply (for_loop_preserves (fun s : chromosome * Z => same_weights c s.1));
    [ | | exact Hrun]; [done|].
  intros j [c1 s1] [c2 s2] _ Hs Hbody. cbn [fst] in *.
  destruct (randDecimal s1) as [r s3].
  destruct (dle r (p_mutationRate params)); [|by injection Hbody as <- <-].
  apply bind_Ok in Hbody as ([v s4] & _ & Hbody).
  apply bind_Ok in Hbody as (c3 & Hset & [= <- <-]).
  eapply same_weights_trans; [exact Hs|].
  by eapply set_gene_output_same_weights.
Qed.

Lemma probabilisticMutation_same_weights (params : parameters)
    (c c' : chromosome) (type seed seed' : Z) :
  type <> 0 ->
  probabilisticMutation params c type seed = Ok (c', seed') ->
  same_weights c c'.
Proof.
  intros Htype. unfold probabilisticMutation.
  intros ([c1 s1] & Hnodes & Hout%mutateOutputs_same_weights)%bind_Ok.
  eapply same_weights_trans; [|exact Hout].
  change (same_weights c (c1, s1).1).
  eapply (for_loop_preserves (fun s : chromosome * Z => same_weights c s.1));
    [ | | exact Hnodes]; [done|].
  intros i [c2 s2] [c3 s3] _ Hs Hbody. cbn [fst] in *.
  apply bind_Ok in Hbody as ([c4 s4] & Hfun & Hcon).
  eapply same_weights_trans; [exact Hs|].
  eapply same_weights_trans;
    [|by eapply mutateConnections_same_weights].
  destruct (numFunctions (funcSet c2) >? 1); [|by injection Hfun as <- <-].
  destruct (randDecimal s2) as [r s5].
  destruct (dle r (p_mutationRate params)); [|by injection Hfun as <- <-].
  apply bind_Ok in Hfun as ([v s6] & _ & Hfun).
  apply bind_Ok in Hfun as (c5 & Hset & [= <- <-]).
  by eapply set_gene_function_same_weights.
Qed.

Lemma probabilisticMutationOnlyActive_same_weights (params : parameters)
    (c c' : chromosome) (type seed seed' : Z) :
  type <> 0 ->
  probabilisticMutationOnlyActive params c type seed = Ok (c', seed') ->
  same_weights c c'.
Proof.
  intros Htype. unfold probabilisticMutationOnlyActive.
  intros ([c1 s1] & Hnodes & Hout%mutateOutputs_same_weights)%bind_Ok.
  eapply same_weights_trans; [|exact Hout].
  change (same_weights c (c1, s1).1).
  eapply (for_loop_preserves (fun s : chromosome * Z => same_weights c s.1));
    [ | | exact Hnodes]; [done|].
  intros i [c2 s2] [c3 s3] _ Hs Hbody. cbn [fst] in *.
  apply bind_Ok in Hbody as (activeNode & _ & Hbody).
  destruct (randDecimal s2) as [r s5].
  apply bind_Ok in Hbody as ([c4 s4] & Hfun & Hcon).
  eapply same_weights_trans; [exact Hs|].
  eapply same_weights_trans;
    [|by eapply mutateConnections_same_weights].
  destruct (dle r (p_mutationRate params)); [|by injection Hfun as <- <-].
  apply bind_Ok in Hfun as ([v s6] & _ & Hfun).
  apply bind_Ok in Hfun as (c5 & Hset & [= <- <-]).
  by eapply set_gene_function_same_weights.
Qed.

Lemma pointMutation_same_weights (params : parameters)
    (c c' : chromosome) (type seed seed' : Z) :
  pointMutation params c type seed = Ok (c', seed') -> same_weights c c'.
Proof.
  unfold pointMutation. intros (n & _ & Hrun)%bind_Ok.
  change (same_weights c (c', seed').1).
  eapply (for_loop_preserves (fun s : chromosome * Z => same_weights c s.1));
    [ | | exact Hrun]; [done|].
  intros i [c2 s2] [c3 s3] _ Hs Hbody. cbn [fst] in *.
  unfold pointMutation_step in Hbody.
  apply bind_Ok in Hbody as ([g s4] & _ & Hmut).
  eapply same_weights_trans; [exact Hs|].
  by destruct (mutateGene_spec _ _ _ _ _ _ Hmut) as (_ & Hw & _).
Qed.

Lemma singleMutation_loop_same_weights (params : parameters) (numGenes : Z)
    (fuel : nat) :
  forall (c c' : chromosome) (seed seed' : Z),
  singleMutation_loop fuel params numGenes c seed = Ok (c', seed') ->
  same_weights c c'.
Proof.
  induction fuel as [|fuel IH]; intros c c' seed seed' Hrun; [done|].
  cbn [singleMutation_loop] in Hrun.
  apply bind_Ok in Hrun as ([g s0] & _ & Hrun).
  apply bind_Ok in Hrun as ([[c1 s1] b] & Hbody & Hrun).
  assert (Hc1 : same_weights c c1).
  { destruct (g <? p_numNodes params);
      [|destruct (g <? p_numNodes params
                       + p_numNodes params * p_arity params)].
    - apply bind_Ok in Hbody as (n & _ & Hbody).
      apply bind_Ok in Hbody as ([v s2] & _ & Hbody).
      apply bind_Ok in Hbody as (c2 & Hset & [= <- <- <-]).
      by eapply set_gene_function_same_weights.
    - apply bind_Ok in Hbody as (n & _ & Hbody).
      apply bind_Ok in Hbody as (prev & _ & Hbody).
      apply bind_Ok in Hbody as ([v s2] & _ & Hbody).
      apply bind_Ok in Hbody as (c2 & Hset & [= <- <- <-]).
      by eapply set_gene_input_same_weights.
    - apply bind_Ok in Hbody as (prev & _ & Hbody).
      apply bind_Ok in Hbody as ([v s2] & _ & Hbody).
      apply bind_Ok in Hbody as (c2 & Hset & [= <- <- <-]).
      by eapply set_gene_output_same_weights. }
  destruct b.
  - by injection Hrun as <- <-.
  - eapply same_weights_trans; [exact Hc1|]. by eapply IH.
Qed.

(** Handed a [type] other than 0, every mutation routine but
    [pointMutationANN] leaves the weights as they are. *)
Lemma mutateChromosome_same_weights (params : parameters)
    (c c' : chromosome) (type seed seed' : Z) :
  type <> 0 ->
  p_mutationType params <> pointANN ->
  mutateChromosome params c type seed = Ok (c', seed') ->
  same_weights c c'.
Proof.
  intros Htype Hkind. unfold mutateChromosome.
  intros ([c1 s1] & Hmut & Hrun)%bind_Ok.
  apply bind_Ok in Hrun
    as (c2 & Hact%setChromosomeActiveNodes_same_weights & [= <- <-]).
  eapply same_weights_trans; [|exact Hact].
  destruct (p_mutationType params); [ | |done| | ].
  - by eapply probabilisticMutation_same_weights.
  - by eapply pointMutation_same_weights.
  - by eapply probabilisticMutationOnlyActive_same_weights.
  - by eapply singleMutation_loop_same_weights.
Qed.

Lemma mutateRandomParent_bred (params : parameters)
    (parents children children' : list chromosome)
    (numParents numChildren type seed seed' : Z) :
  type <> 0 ->
  p_mutationType params <> pointANN ->
  mutateRandomParent params parents children numParents numChildren type seed
    = Ok (children', seed') ->
  forall i child', 0 <= i < numChildren ->
    children' !! Z.to_nat i = Some child' ->
    bred_keeping_weights params type parents child'.
Proof.
  intros Htype Hkind Hrun. unfold mutateRandomParent in Hrun.
  set (P := fun n (s : list chromosome * Z) =>
    forall i child', 0 <= i < n -> s.1 !! Z.to_nat i = Some child' ->
      bred_keeping_weights params type parents child').
  assert (Hend : P (Z.max 0 numChildren) (children', seed')).
  2: { intros i child' Hi. apply (Hend i). lia. }
  eapply (for_loop_inv_max P); [ | | exact Hrun]; unfold P.
  - intros i child' Hi. lia.
  - clear Hrun. intros n [cs s] [cs' s'] Hn Hlow Hbody. cbn [fst] in *.
    apply bind_Ok in Hbody as ([r s1] & _ & Hbody).
    apply bind_Ok in Hbody as (p & Hp & Hbody).
    apply bind_Ok in Hbody as (child & _ & Hbody).
    apply bind_Ok in Hbody as (copy & Hcopy & Hbody).
    apply bind_Ok in Hbody as ([child1 s2] & Hmut & Hbody).
    apply bind_Ok in Hbody as (cs1 & Hset & [= <- <-]).
    apply aset_Ok in Hset as [Hr ->]. apply aget_Ok in Hp as [_ Hp].
    intros i child' Hi. destruct (decide (i = n)) as [->|Hne].
    + rewrite list_lookup_insert_eq by lia. intros [= <-].
      exists p, child, copy, s1, s2. split; [by eapply list_elem_of_lookup_2|].
      split; [done|]. split; [done|].
      by eapply mutateChromosome_same_weights.
    + rewrite list_lookup_insert_ne by lia. apply Hlow. lia.
Qed.

End WeightProofs.

Section GenerationProofs.
Context `{Libc} `{Fitness}.

Lemma generation_body_bred (params : parameters)
    (dataTrain dataValid : dataSet) (numCandidateChromos type : Z)
    (P P' : population) :
  type <> 0 ->
  p_mutationType params <> pointANN ->
  generation_body params dataTrain dataValid numCandidateChromos type P
    = Ok P' ->
  forall i child', 0 <= i < p_lambda params ->
    childrenChromos P' !! Z.to_nat i = Some child' ->
    bred_keeping_weights params type (parentChromos P') child'.
Proof.
  intros Htype Hkind. unfold generation_body.
  intros ([children g] & _ & Hrun)%bind_Ok.
  apply bind_Ok in Hrun as (best & _ & Hrun).
  apply bind_Ok in Hrun as (candidates & _ & Hrun).
  apply bind_Ok in Hrun as ([parents candidates'] & _ & Hrun).
  apply bind_Ok in Hrun as ([children' seed] & Hbreed & [= <-]).
  cbn [childrenChromos parentChromos].
  by eapply mutateRandomParent_bred.
Qed.

Lemma runCGPDE_OUT_generations_bred (params : parameters)
    (dataTrain dataValid : dataSet) (numCandidateChromos numGens : Z)
    (P P' : population) :
  p_mutationType params <> pointANN ->
  0 < numGens ->
  runCGPDE_OUT_generations params dataTrain dataValid numCandidateChromos
    numGens P = Ok P' ->
  forall i child', 0 <= i < p_lambda params ->
    childrenChromos P' !! Z.to_nat i = Some child' ->
    bred_keeping_weights params 1 (parentChromos P') child'.
Proof.
  intros Hkind Hgens Hrun. unfold runCGPDE_OUT_generations in Hrun.
  set (Q := fun (gen : Z) (P : population) =>
    0 < gen -> forall i child', 0 <= i < p_lambda params ->
      childrenChromos P !! Z.to_nat i = Some child' ->
      bred_keeping_weights params 1 (parentChromos P) child').
  assert (Hend : Q numGens P'); [|by apply Hend].
  eapply (for_loop_inv Q); [ | | | exact Hrun]; unfold Q; [lia| |].
  - intros Hlt. lia.
  - intros gen P1 P2 Hgen _ Hbody _.
    by eapply generation_body_bred.
Qed.

(** The first [n] generations of a run of more. *)
Lemma runCGPDE_OUT_generations_prefix (params : parameters)
    (dataTrain dataValid : dataSet) (numCandidateChromos numGens n : Z)
    (P P' : population) :
  0 <= n <= numGens ->
  runCGPDE_OUT_generations params dataTrain dataValid numCandidateChromos
    numGens P = Ok P' ->
  exists Pn,
    runCGPDE_OUT_generations params dataTrain dataValid numCandidateChromos
      n P = Ok Pn.
Proof.
  unfold runCGPDE_OUT_generations. intros Hn Hrun.
  assert (Hn' : 0 <= n <= numGens) by lia.
  destruct (for_loop_split _ 0 n numGens P P' Hn' Hrun) as (Pn & Hpre & _).
  by exists Pn.
Qed.

(** C3.  A run of [runCGPDE_OUT] that returns is a run of its
    generations followed by one pass of [runDE], of type 2, on the best
    chromosome by validation fitness that the generations have kept.
    Every generation hands [type = 1] to the reproduction scheme: under
    the probabilistic, the point, the only-active and the single
    mutation each child of each generation is the mutated copy of a
    parent of that generation, and the mutation has left every
    connection weight of the copy as it was.  Weight mutation is
    switched off in the generations. *)
Theorem CGPDE_OUT_generations_keep_weights (params : parameters)
    (dataTrain dataValid : dataSet) (numGens seed g : Z)
    (r : list chromosome * Z * Z) :
  p_mutationType params <> pointANN ->
  runCGPDE_OUT params dataTrain dataValid numGens seed g = Ok r ->
  exists (numCandidateChromos : Z) (P0 P : population),
    runCGPDE_OUT_generations params dataTrain dataValid numCandidateChromos
      numGens P0 = Ok P
    /\ runDE params (bestChromo P) dataTrain dataValid 2 (pop_seed P)
         (pop_rand P) = Ok r
    /\ forall n, 0 < n <= numGens ->
         exists Pn,
           runCGPDE_OUT_generations params dataTrain dataValid
             numCandidateChromos n P0 = Ok Pn
           /\ forall i child', 0 <= i < p_lambda params ->
                childrenChromos Pn !! Z.to_nat i = Some child' ->
                bred_keeping_weights params 1 (parentChromos Pn) child'.
Proof.
  intros Hkind. unfold runCGPDE_OUT.
  destruct (numGens <? 0); [done|].
  destruct (dataMismatch params dataTrain); [done|].
  destruct (dataMismatch params dataValid); [done|].
  intros ([[parents s1] g1] & _ & Hrun)%bind_Ok.
  apply bind_Ok in Hrun as ([children s2] & _ & Hrun).
  apply bind_Ok in Hrun as (p0 & _ & Hrun).
  apply bind_Ok in Hrun as ([best s3] & _ & Hrun).
  apply bind_Ok in Hrun as ([best' g2] & _ & Hrun).
  apply bind_Ok in Hrun as (numCandidateChromos & _ & Hrun).
  apply bind_Ok in Hrun as ([candidates s4] & _ & Hrun).
  apply bind_Ok in Hrun as (P & Hgens & Hde).
  eexists numCandidateChromos, _, P.
  split; [exact Hgens|]. split; [exact Hde|].
  intros n Hn.
  assert (Hn' : 0 <= n <= numGens) by lia.
  destruct (runCGPDE_OUT_generations_prefix _ _ _ _ _ n _ _ Hn' Hgens)
    as (Pn & Hpre).
  exists Pn. split; [exact Hpre|].
  destruct Hn as [Hn0 _].
  apply (runCGPDE_OUT_generations_bred _ _ _ _ n _ _ Hkind Hn0 Hpre).
Qed.

End GenerationProofs.

Lemma CGPDE_OUT_generations_keep_weights_witness :
  exists (r : list chromosome * Z * Z) (numCandidateChromos : Z)
         (P0 P : population),
    runCGPDE_OUT out_params example_data example_data 3 1 0 = Ok r
    /\ runCGPDE_OUT_generations out_params example_data example_data
         numCandidateChromos 3 P0 = Ok P
    /\ runDE out_params (bestChromo P) example_data example_data 2
         (pop_seed P) (pop_rand P) = Ok r
    /\ forall n, 0 < n <= 3 ->
         exists Pn,
           runCGPDE_OUT_generations out_params example_data example_data
             numCandidateChromos n P0 = Ok Pn
           /\ forall i child', 0 <= i < p_lambda out_params ->
                childrenChromos Pn !! Z.to_nat i = Some child' ->
                bred_keeping_weights out_params 1 (parentChromos Pn) child'.
Proof.
  assert (Hok : is_ok (runCGPDE_OUT out_params example_data example_data
                         3 1 0) = true) by (vm_compute; reflexivity).
  destruct (runCGPDE_OUT out_params example_data example_data 3 1 0)
    as [r|e] eqn:E; [|discriminate].
  destruct (CGPDE_OUT_generations_keep_weights out_params example_data
              example_data 3 1 0 r ltac:(discriminate) E)
    as (numCandidateChromos & P0 & P & Hrun).
  exists r, numCandidateChromos, P0, P. split; [reflexivity | exact Hrun].
Defined.

(** At the mutation rate 1 a generation of [runCGPDE_OUT] redraws the
    input genes of the children and leaves the weights at 1/2; the same
    generation of [runCGP], which hands over [type = 0], redraws the
    weights. *)
Lemma CGPDE_OUT_generation_redraws_no_weight :
  rmap childrenWeights
    (runCGPDE_OUT_generations always_params example_data example_data 5 1
       first_population)
  = Ok (replicate 4 [[half; half]])
  /\ rmap childrenInputs
       (runCGPDE_OUT_generations always_params example_data example_data 5 1
          first_population)
     = Ok [[[1; 1]]; [[1; 1]]; [[0; 1]]; [[0; 0]]]
  /\ childrenInputs first_population = replicate 4 [[0; 1]]
  /\ rmap childrenWeights
       (generation_body always_params example_data example_data 5 0
          first_population)
     <> Ok (replicate 4 [[half; half]]).
Proof.
  split; [vm_compute; reflexivity|]. split; [vm_compute; reflexivity|].
  split; [vm_compute; reflexivity|]. intros Heq.
  set (first_is_half := fun l : list (list (list double)) =>
    match l with
    | ((w :: _) :: _) :: _ => deq w half
    | _ => false
    end).
  assert (Hc : rmap first_is_half
                 (rmap childrenWeights
                    (generation_body always_params example_data example_data
                       5 0 first_population)) = Ok false)
    by (vm_compute; reflexivity).
  rewrite Heq in Hc. vm_compute in Hc. discriminate.
Qed.

(** ** The generators of genes *)

Lemma binary_round_aux_sign (prec emax : Z) (sx : bool) (mx ex : Z)
    (lx : location) :
  has_sign sx (binary_round_aux prec emax sx mx ex lx).
Proof.
  unfold binary_round_aux.
  destruct (shr_fexp prec emax mx ex lx) as [mrs e'].
  destruct (shr_fexp prec emax _ e' loc_Exact) as [mrs' e''].
  destruct (shr_m mrs'); [done| |done].
  by destruct (e'' <=? emax - prec).
Qed.

Lemma of_int_sign (z : Z) : 0 <= z -> has_sign false (of_int z).
Proof.
  intros Hz. unfold of_int, binary_normalize.
  destruct z as [|p|p]; [done| |lia].
  unfold binary_round. destruct (shl_align _ _ _) as [mz ez].
  apply binary_round_aux_sign.
Qed.

(** A quotient of two doubles that are not negative is not below zero. *)
Lemma ddiv_of_int_not_negative (a b : Z) :
  0 <= a -> 0 < b -> dlt (ddiv (of_int a) (of_int b)) (of_int 0) = false.
Proof.
  intros Ha Hb.
  pose proof (of_int_sign a Ha) as Hsa.
  pose proof (of_int_sign b ltac:(lia)) as Hsb.
  change (of_int 0) with (S754_zero false).
  unfold dlt, ddiv, SFltb.
  destruct (of_int a) as [sa|sa| |sa ma ea], (of_int b) as [sb|sb| |sb mb eb];
    cbn in Hsa, Hsb; subst; cbn; try done.
  destruct (SFdiv_core_binary 53 1024 (Z.pos ma) ea (Z.pos mb) eb)
    as [[mz ez] lz].
  pose proof (binary_round_aux_sign 53 1024 false mz ez lz) as Hs.
  destruct (binary_round_aux 53 1024 false mz ez lz); cbn in Hs; subst; done.
Qed.

Section GeneratorProofs.
Context `{Libc}.

Lemma randInt_draw_spec (fuel : nat) (randLimit seed x seed' : Z) :
  (forall s, 0 <= (rand_r s).1) ->
  randInt_draw fuel randLimit seed = Ok (x, seed') -> 0 <= x <= randLimit.
Proof.
  intros Hrand. revert seed.
  induction fuel as [|fuel IH]; intros seed Hrun; [done|].
  cbn [randInt_draw] in Hrun. pose proof (Hrand seed) as Hx.
  destruct (rand_r seed) as [x0 s0]. cbn [fst] in Hx.
  destruct (Z.gtb_spec x0 randLimit); [by eapply IH|].
  injection Hrun as <- <-. lia.
Qed.

(** The draw of [randDecimal] is never below zero. *)
Lemma randDecimal_not_negative (seed : Z) :
  (forall s, 0 <= (rand_r s).1) ->
  dlt (randDecimal seed).1 (of_int 0) = false.
Proof.
  intros Hrand. unfold randDecimal. pose proof (Hrand seed) as Hx.
  destruct (rand_r seed) as [x s]. cbn [fst] in *.
  apply ddiv_of_int_not_negative; [|lia].
  apply Z.rem_nonneg; lia.
Qed.

Lemma getRandomFunction_range (numFunctions_ seed v seed' : Z) :
  (forall s, 0 <= (rand_r s).1) ->
  getRandomFunction numFunctions_ seed = Ok (v, seed') ->
  0 <= v < numFunctions_.
Proof.
  intros Hrand. unfold getRandomFunction.
  destruct (Z.ltb_spec numFunctions_ 1); [done|].
  intros Hrun. eapply randInt_range; [done| |exact Hrun]. lia.
Qed.

Lemma getRandomChromosomeOutput_range
    (numInputs_ numNodes_ shortcut seed v seed' : Z) :
  (forall s, 0 <= (rand_r s).1) ->
  0 <= numInputs_ -> 0 <= numNodes_ ->
  (if shortcut =? 1 then 0 < numInputs_ + numNodes_ else 0 < numNodes_) ->
  getRandomChromosomeOutput numInputs_ numNodes_ shortcut seed
    = Ok (v, seed') ->
  (if shortcut =? 1 then 0 else numInputs_) <= v < numInputs_ + numNodes_.
Proof.
  intros Hrand HnI HnN Hpos. unfold getRandomChromosomeOutput.
  destruct (shortcut =? 1).
  - intros Hrun. by eapply randInt_range.
  - intros ([x s] & Hx & [= <- <-])%bind_Ok.
    apply randInt_range in Hx; [lia|done|done].
Qed.

(** The input gene drawn for the node at [nodePosition] addresses the
    node itself or a later node in the recurrent case, and an input of
    the chromosome or an earlier node otherwise. *)
Lemma getRandomNodeInput_range
    (numChromoInputs numNodes_ nodePosition : Z) (prob : double)
    (seed v seed' : Z) :
  (forall s, 0 <= (rand_r s).1) ->
  0 < numChromoInputs -> 0 <= nodePosition < numNodes_ ->
  getRandomNodeInput numChromoInputs numNodes_ nodePosition prob seed
    = Ok (v, seed') ->
  0 <= v < numChromoInputs + numNodes_
  /\ (if dlt (randDecimal seed).1 prob
      then numChromoInputs + nodePosition <= v
      else v < numChromoInputs + nodePosition).
Proof.
  intros Hrand HnI Hpos. unfold getRandomNodeInput.
  destruct (randDecimal seed) as [r s1]. cbn [fst].
  destruct (dlt r prob).
  - intros ([x s] & Hx & [= <- <-])%bind_Ok.
    apply randInt_range in Hx; [|done|lia]. lia.
  - intros Hrun. apply randInt_range in Hrun; [|done|lia]. lia.
Qed.

(** The loop of [randInt] returns the first draw that is at most the
    limit, and it returns it when that draw comes before its patience
    ends. *)
Lemma randInt_draw_first (randLimit : Z) :
  forall (fuel : nat) (seed x seed' : Z),
  randInt_draw fuel randLimit seed = Ok (x, seed') ->
  exists k : nat,
    (k < fuel)%nat
    /\ (forall j : nat, (j < k)%nat -> randLimit < draw j seed)
    /\ draw k seed <= randLimit
    /\ x = draw k seed /\ seed' = seed_after (S k) seed.
Proof.
  induction fuel as [|fuel IH]; intros seed x seed' Hrun; [done|].
  cbn [randInt_draw] in Hrun.
  destruct (rand_r seed) as [x0 s0] eqn:Hdraw.
  destruct (Z.gtb_spec x0 randLimit) as [Hgt|Hle].
  - destruct (IH _ _ _ Hrun) as (k & Hk & Hrej & Hacc & -> & ->).
    exists (S k). unfold draw in *. cbn [seed_after]. rewrite Hdraw.
    cbn [fst snd]. split; [lia|]. split; [|done].
    intros [|j] Hj; cbn [seed_after]; rewrite ?Hdraw; cbn [fst snd].
    + lia.
    + apply Hrej. lia.
  - injection Hrun as <- <-. exists 0%nat. unfold draw. cbn [seed_after].
    rewrite Hdraw. cbn [fst snd]. split; [lia|]. split; [|done].
    intros j Hj. lia.
Qed.

Lemma randInt_draw_accepts (randLimit : Z) :
  forall (k fuel : nat) (seed : Z),
  (k < fuel)%nat ->
  (forall j : nat, (j < k)%nat -> randLimit < draw j seed) ->
  draw k seed <= randLimit ->
  randInt_draw fuel randLimit seed
  = Ok (draw k seed, seed_after (S k) seed).
Proof.
  induction k as [|k IH]; intros [|fuel] seed Hk Hrej Hacc; try lia;
    cbn [randInt_draw]; unfold draw in *; cbn [seed_after] in *;
    destruct (rand_r seed) as [x0 s0] eqn:Hdraw; cbn [fst snd] in *.
  - destruct (Z.gtb_spec x0 randLimit); [lia|done].
  - pose proof (Hrej 0%nat ltac:(lia)) as H0. cbn [seed_after] in H0.
    rewrite Hdraw in H0. cbn [fst] in H0.
    destruct (Z.gtb_spec x0 randLimit); [|lia].
    apply IH; [lia | | done].
    intros j Hj. pose proof (Hrej (S j) ltac:(lia)) as HS.
    cbn [seed_after] in HS. by rewrite Hdraw in HS.
Qed.

(** X1.  [randInt(n)] for [n > 0] draws from [rand_r] until a draw is
    at most its limit, and returns the remainder modulo [n] of that
    draw, the first one it accepts: the draws before it are above the
    limit, and the state of the generator is the one after it.  The
    draws it accepts are the numbers from 0 to the limit, and their
    number is a multiple of [n], so that every remainder from 0 to
    [n - 1] comes from the same number of draws.  It returns in this
    way whenever a draw within its patience is accepted.  [randInt(0)]
    is 0 and draws nothing. *)
Theorem randInt_without_modulo_bias (n seed : Z) :
  (forall s, 0 <= (rand_r s).1) ->
  randInt 0 seed = Ok (0, seed)
  /\ (0 < n ->
       randLimit_of n + 1 = n * Z.quot RAND_MAX n
       /\ (forall x seed', randInt n seed = Ok (x, seed') ->
            exists k : nat,
              (k < patience)%nat
              /\ (forall j : nat, (j < k)%nat -> randLimit_of n < draw j seed)
              /\ 0 <= draw k seed <= randLimit_of n
              /\ x = Z.rem (draw k seed) n
              /\ seed' = seed_after (S k) seed
              /\ 0 <= x < n)
       /\ (forall k : nat,
            (k < patience)%nat ->
            (forall j : nat, (j < k)%nat -> randLimit_of n < draw j seed) ->
            draw k seed <= randLimit_of n ->
            randInt n seed
            = Ok (Z.rem (draw k seed) n, seed_after (S k) seed))).
Proof.
  intros Hrand. split; [done|]. intros Hn. split; [|split].
  - unfold randLimit_of. pose proof (Z.quot_rem' RAND_MAX n). lia.
  - intros x seed' Hrun.
    pose proof (randInt_range _ _ _ _ Hrand Hn Hrun) as Hx.
    unfold randInt in Hrun. destruct (Z.eqb_spec n 0) as [|_]; [lia|].
    apply bind_Ok in Hrun as ([x0 s0] & Hx0 & [= <- <-]).
    apply randInt_draw_first in Hx0 as (k & Hk & Hrej & Hacc & -> & ->).
    exists k. split; [done|]. split; [exact Hrej|].
    split; [|done]. split; [|exact Hacc].
    unfold draw. apply Hrand.
  - intros k Hk Hrej Hacc. unfold randInt.
    destruct (Z.eqb_spec n 0) as [|_]; [lia|].
    fold (randLimit_of n).
    by rewrite (randInt_draw_accepts _ k patience seed Hk Hrej Hacc).
Qed.

(** X2.  The generators of genes return valid alleles: a function gene
    is the index of a function of the set, and an empty function set
    ends the program; an input gene for the node at [nodePosition] is
    the address of an input or a node, of the node itself or a later
    one when the recurrent branch is taken and of an input or an
    earlier node otherwise; an output gene is the address of an input
    or a node with shortcut connections and of a node without. *)
Theorem gene_generators_return_valid_alleles :
  (forall s, 0 <= (rand_r s).1) ->
  (forall numFn seed, numFn < 1 -> getRandomFunction numFn seed = Err Exit)
  /\ (forall numFn seed v seed',
        getRandomFunction numFn seed = Ok (v, seed') -> 0 <= v < numFn)
  /\ (forall numIn numNd pos prob seed v seed',
        0 < numIn -> 0 <= pos < numNd ->
        getRandomNodeInput numIn numNd pos prob seed = Ok (v, seed') ->
        0 <= v < numIn + numNd
        /\ (if dlt (randDecimal seed).1 prob
            then numIn + pos <= v else v < numIn + pos))
  /\ (forall numIn numNd shortcut seed v seed',
        0 <= numIn -> 0 <= numNd ->
        (if shortcut =? 1 then 0 < numIn + numNd else 0 < numNd) ->
        getRandomChromosomeOutput numIn numNd shortcut seed = Ok (v, seed') ->
        (if shortcut =? 1 then 0 else numIn) <= v < numIn + numNd).
Proof.
  intros Hrand. split; [|split; [|split]].
  - intros numFn seed Hn. unfold getRandomFunction.
    by destruct (Z.ltb_spec numFn 1); [|lia].
  - intros numFn seed v seed'. by apply getRandomFunction_range.
  - intros numIn numNd pos prob seed v seed'.
    by apply getRandomNodeInput_range.
  - intros numIn numNd shortcut seed v seed'.
    by apply getRandomChromosomeOutput_range.
Qed.

End GeneratorProofs.

(** ** Initialisation *)

Lemma wf_node_intro (c : chromosome) (n : node) :
  0 <= function n < Z.of_nat (length (maxNumInputs (funcSet c))) ->
  arity c <= Z.of_nat (length (inputs n)) ->
  Forall (fun b => b < numInputs c + numNodes c) (inputs n) ->
  wf_node c n = true.
Proof.
  intros Hf Ha Hin. unfold wf_node.
  repeat (apply andb_true_intro; split); try lia.
  apply forallb_forall. intros b Hb%list_elem_of_In.
  rewrite Forall_forall in Hin. specialize (Hin b Hb). lia.
Qed.

Lemma wf_chromosome_intro (c : chromosome) :
  Z.of_nat (length (nodes c)) = numNodes c ->
  numNodes c <= Z.of_nat (length (activeNodes c)) ->
  Z.of_nat (length (outputNodes c)) = numOutputs c ->
  Forall (fun o => o < numInputs c + numNodes c) (outputNodes c) ->
  Forall (fun n => wf_node c n = true) (nodes c) ->
  wf_chromosome c = true.
Proof.
  intros Hn Ha Ho Hout Hnodes. unfold wf_chromosome.
  repeat (apply andb_true_intro; split); try lia.
  - apply forallb_forall. intros o Ho'%list_elem_of_In.
    rewrite Forall_forall in Hout. specialize (Hout o Ho'). lia.
  - apply forallb_forall. intros n Hn'%list_elem_of_In.
    rewrite Forall_forall in Hnodes. by apply Hnodes.
Qed.

(** Well-formedness is a matter of the genes. *)
Lemma wf_same_genes (c0 c : chromosome) :
  same_genes c0 c -> wf_chromosome c0 = true -> wf_chromosome c = true.
Proof.
  intros Hsg Hwf.
  destruct (wf_chromosome_spec _ Hwf) as (Hlen & Hact & Hout & Houts & Hnodes).
  destruct Hsg as [HnI HnN HnO Har Hon Hfs Hfun Hins Hal].
  pose proof (f_equal length Hfun) as Hl. rewrite !length_fmap in Hl.
  apply wf_chromosome_intro.
  - rewrite HnN. lia.
  - rewrite HnN, Hal. lia.
  - rewrite Hon, HnO. lia.
  - rewrite Hon, HnI, HnN. apply Forall_forall. exact Houts.
  - apply Forall_lookup. intros k n Hn.
    assert (Hf : function <$> nodes c !! k = function <$> nodes c0 !! k)
      by (rewrite <- !list_lookup_fmap; by rewrite Hfun).
    assert (Hi : inputs <$> nodes c !! k = inputs <$> nodes c0 !! k)
      by (rewrite <- !list_lookup_fmap; by rewrite Hins).
    rewrite Hn in Hf, Hi. cbn in Hf, Hi.
    destruct (nodes c0 !! k) as [n0|] eqn:Hn0; [|done].
    cbn in Hf, Hi. injection Hf as Hf. injection Hi as Hi.
    assert (Hwf0 : wf_node c0 n0 = true)
      by (apply Hnodes; by eapply list_elem_of_lookup_2).
    unfold wf_node in *. by rewrite Hf, Hi, Hfs, Har, HnI, HnN.
Qed.

Lemma sortIntArray_length (a : list Z) (n : Z) :
  length (sortIntArray a n) = length a.
Proof.
  unfold sortIntArray.
  rewrite length_app, (Permutation_length (merge_sort_Permutation _ _)).
  rewrite <- length_app. by rewrite take_drop.
Qed.

Lemma setChromosomeActiveNodes_same_genes (c c' : chromosome) :
  wf_chromosome c = true ->
  setChromosomeActiveNodes c = Ok c' ->
  same_genes c c' /\ wf_chromosome c' = true.
Proof.
  intros Hwf Hrun.
  destruct (setChromosomeActiveNodes_run c Hwf) as (s & Hrun' & Hres).
  rewrite Hrun in Hrun'. injection Hrun' as ->.
  destruct Hres as (Hsg & _).
  assert (Hsg' : same_genes c
            (set_activeNodes s
               (sortIntArray (activeNodes s) (numActiveNodes s)))).
  { destruct Hsg. split; try done. cbn. by rewrite sortIntArray_length. }
  split; [done|]. by eapply wf_same_genes.
Qed.

Section InitialisationProofs.
Context `{Libc}.

Lemma initialiseNode_spec (numIn numNd ar numFn : Z) (range prob : double)
    (pos seed : Z) (n : node) (seed' : Z) :
  (forall s, 0 <= (rand_r s).1) ->
  0 < numIn -> 0 <= pos < numNd -> 0 <= ar ->
  initialiseNode numIn numNd ar numFn range prob pos seed = Ok (n, seed') ->
  valid_node numIn numNd ar numFn n
  /\ maxArity n = ar /\ active n = 1 /\ output n = of_int 0
  /\ (prob = of_int 0 -> Forall (fun b => b < numIn + pos) (inputs n)).
Proof.
  intros Hrand HnI Hpos Har. unfold initialiseNode.
  intros ([f s1] & Hf%getRandomFunction_range & Hrun)%bind_Ok; [|done].
  apply bind_Ok in Hrun as ([n1 s2] & Hloop & [= <- <-]).
  cbn [function inputs weights maxArity active output set_maxArity
       set_output].
  set (I := fun (s : node * Z) =>
    function s.1 = f /\ active s.1 = 1
    /\ length (inputs s.1) = Z.to_nat ar
    /\ length (weights s.1) = Z.to_nat ar
    /\ Forall (fun b => 0 <= b < numIn + numNd) (inputs s.1)
    /\ (prob = of_int 0 -> Forall (fun b => b < numIn + pos) (inputs s.1))).
  assert (Hend : I (n1, s2)).
  { eapply (for_loop_preserves I); [ | | exact Hloop]; unfold I.
    - cbn. rewrite !length_replicate.
      repeat split; try done.
      + apply Forall_replicate. lia.
      + intros _. apply Forall_replicate. lia.
    - intros i [m s] [m' s'] Hi (Hfm & Hact & Hli & Hlw & Hall & Hff) Hbody.
      cbn [fst] in *.
      apply bind_Ok in Hbody as ([v s3] & Hv & Hbody).
      apply bind_Ok in Hbody as (ins & Hins & Hbody).
      destruct (getRandomConnectionWeight range s3) as [w s4].
      apply bind_Ok in Hbody as (ws & Hws & [= <- <-]).
      apply aset_Ok in Hins as [_ ->]. apply aset_Ok in Hws as [_ ->].
      cbn [function inputs weights active set_inputs set_weights] in *.
      rewrite !length_insert.
      pose proof (randDecimal_not_negative s Hrand) as Hr.
      destruct (getRandomNodeInput_range _ _ _ _ _ _ _ Hrand HnI Hpos Hv)
        as [Hv1 Hv2].
      repeat split; try done.
      + by apply Forall_insert.
      + intros ->. apply Forall_insert; [by apply Hff|].
        by rewrite Hr in Hv2. }
  destruct Hend as (Hfm & Hact & Hli & Hlw & Hall & Hff). cbn [fst] in *.
  unfold valid_node. cbn [function inputs weights set_maxArity set_output].
  rewrite Hfm. done.
Qed.

Lemma non_recurrent_from_intro (numIn : Z) (ns : list node) :
  forall k0 : Z,
  (forall (k : nat) n, ns !! k = Some n ->
     Forall (fun b => b < numIn + k0 + Z.of_nat k) (inputs n)) ->
  non_recurrent_from numIn k0 ns = true.
Proof.
  induction ns as [|n ns IH]; intros k0 Hall; [done|].
  cbn. apply andb_true_intro. split.
  - apply forallb_forall. intros b Hb%list_elem_of_In.
    pose proof (Hall 0%nat n eq_refl) as H0.
    rewrite Forall_forall in H0. specialize (H0 b Hb). lia.
  - apply IH. intros k m Hm. specialize (Hall (S k) m Hm).
    eapply Forall_impl; [exact Hall|]. cbn. intros b Hb. lia.
Qed.

Lemma copyFunctionSet_blank (fs : functionSet) :
  funcSet_ok fs -> 0 <= numFunctions fs ->
  funcSet_ok (copyFunctionSet blank_functionSet fs)
  /\ numFunctions (copyFunctionSet blank_functionSet fs) = numFunctions fs.
Proof.
  unfold funcSet_ok, copyFunctionSet. cbn. intros Hok Hn.
  rewrite drop_nil, app_nil_r, length_take. split; [lia|done].
Qed.

(** What [initialiseChromosome] has built when it returns. *)
Lemma initialiseChromosome_spec (params : parameters) (seed : Z)
    (c : chromosome) (seed' : Z) :
  (forall s, 0 <= (rand_r s).1) ->
  0 < p_numInputs params -> 0 <= p_numNodes params ->
  0 <= p_numOutputs params -> 0 <= p_arity params ->
  (p_shortcutConnections params = 1 \/ 0 < p_numNodes params) ->
  funcSet_ok (p_funcSet params) ->
  initialiseChromosome params seed = Ok (c, seed') ->
  wf_chromosome c = true
  /\ numInputs c = p_numInputs params /\ numNodes c = p_numNodes params
  /\ numOutputs c = p_numOutputs params /\ arity c = p_arity params
  /\ Forall (valid_node (p_numInputs params) (p_numNodes params)
               (p_arity params) (numFunctions (p_funcSet params))) (nodes c)
  /\ Forall (fun o => 0 <= o < p_numInputs params + p_numNodes params)
       (outputNodes c)
  /\ (p_recurrentConnectionProbability params = of_int 0 ->
      non_recurrent c = true).
Proof.
  intros Hrand HnI HnN HnO Har Hshort Hfs. unfold initialiseChromosome.
  destruct (Z.ltb_spec (numFunctions (p_funcSet params)) 1) as [|HnF];
    [done|].
  intros ([ns s1] & Hnodes & Hrun)%bind_Ok.
  apply bind_Ok in Hrun as ([outs s2] & Houts & Hrun).
  apply bind_Ok in Hrun as (c1 & Hact & [= <- <-]).
  set (good := fun (k : Z) (n : node) =>
    valid_node (p_numInputs params) (p_numNodes params) (p_arity params)
      (numFunctions (p_funcSet params)) n
    /\ (p_recurrentConnectionProbability params = of_int 0 ->
        Forall (fun b => b < p_numInputs params + k) (inputs n))).
  assert (Hns : length ns = Z.to_nat (p_numNodes params)
                /\ forall (k : nat) n, ns !! k = Some n -> good (Z.of_nat k) n).
  { set (J := fun (i : Z) (s : list node * Z) =>
      length s.1 = Z.to_nat (p_numNodes params)
      /\ forall (k : nat) n, Z.of_nat k < i -> s.1 !! k = Some n ->
           good (Z.of_nat k) n).
    assert (Hend : J (Z.max 0 (p_numNodes params)) (ns, s1)).
    { eapply (for_loop_inv_max J); [ | | exact Hnodes]; unfold J.
      - cbn. rewrite length_replicate. split; [done|]. intros k n Hk. lia.
      - intros i [l s] [l' s'] Hi [Hlen Hlow] Hbody. cbn [fst] in *.
        apply bind_Ok in Hbody as ([n s3] & Hn & Hbody).
        apply bind_Ok in Hbody as (l1 & Hset & [= <- <-]).
        apply aset_Ok in Hset as [Hr ->].
        split; [by rewrite length_insert|].
        intros k m Hk. destruct (decide (k = Z.to_nat i)) as [->|Hne].
        + rewrite list_lookup_insert_eq by lia. intros [= <-].
          rewrite Z2Nat.id by lia.
          assert (Hpos : 0 <= i < p_numNodes params) by lia.
          destruct (initialiseNode_spec _ _ _ _ _ _ _ _ _ _ Hrand HnI
                      Hpos Har Hn) as (Hv & _ & _ & _ & Hff).
          by split.
        + rewrite list_lookup_insert_ne by done. apply Hlow. lia. }
    destruct Hend as [Hlen Hall]. cbn [fst] in *. split; [done|].
    intros k n Hk. apply Hall; [|done].
    apply lookup_lt_Some in Hk. lia. }
  destruct Hns as [Hlen Hgood].
  assert (Ho : length outs = Z.to_nat (p_numOutputs params)
               /\ Forall (fun o => 0 <= o < p_numInputs params
                                           + p_numNodes params) outs).
  { change (length (outs, s2).1 = Z.to_nat (p_numOutputs params)
            /\ Forall (fun o => 0 <= o < p_numInputs params
                                        + p_numNodes params) (outs, s2).1).
    eapply (for_loop_preserves (fun s : list Z * Z =>
      length s.1 = Z.to_nat (p_numOutputs params)
      /\ Forall (fun o => 0 <= o < p_numInputs params + p_numNodes params)
           s.1)); [ | | exact Houts].
    - cbn. rewrite length_replicate. split; [done|].
      apply Forall_replicate. lia.
    - intros i [l s] [l' s'] Hi [Hl Hall] Hbody. cbn [fst] in *.
      apply bind_Ok in Hbody as ([o s3] & Ho & Hbody).
      apply bind_Ok in Hbody as (l1 & Hset & [= <- <-]).
      apply aset_Ok in Hset as [_ ->].
      split; [by rewrite length_insert|]. apply Forall_insert; [done|].
      assert (Hcond : if p_shortcutConnections params =? 1
                      then 0 < p_numInputs params + p_numNodes params
                      else 0 < p_numNodes params)
        by (destruct (Z.eqb_spec (p_shortcutConnections params) 1); lia).
      assert (HnI0 : 0 <= p_numInputs params) by lia.
      pose proof (getRandomChromosomeOutput_range _ _ _ _ _ _ Hrand HnI0 HnN
                    Hcond Ho) as Hrange.
      destruct (p_shortcutConnections params =? 1); lia. }
  destruct Ho as [Holen Hoall].
  assert (HnF0 : 0 <= numFunctions (p_funcSet params)) by lia.
  destruct (copyFunctionSet_blank _ Hfs HnF0) as [Hfs' HnF'].
  match type of Hact with
  | setChromosomeActiveNodes ?x = _ => set (c0 := x) in *
  end.
  assert (Hwf0 : wf_chromosome c0 = true).
  { apply wf_chromosome_intro; cbn.
    - lia.
    - rewrite length_replicate. lia.
    - lia.
    - eapply Forall_impl; [exact Hoall|]. cbn. lia.
    - apply Forall_lookup. intros k n Hn.
      destruct (Hgood k n Hn) as [(Hf & Hli & _ & Hin) _].
      apply wf_node_intro; cbn.
      + unfold funcSet_ok in Hfs'. cbn in Hfs'. lia.
      + lia.
      + eapply Forall_impl; [exact Hin|]. cbn. lia. }
  destruct (setChromosomeActiveNodes_same_genes _ _ Hwf0 Hact) as [Hsg Hwf].
  pose proof (setChromosomeActiveNodes_same_weights _ _ Hact) as Hsw.
  assert (Hnode : forall (k : nat) n, nodes c1 !! k = Some n ->
            exists n0, ns !! k = Some n0 /\ function n = function n0
                       /\ inputs n = inputs n0 /\ weights n = weights n0).
  { intros k n Hn.
    destruct (same_genes_lookup _ _ _ _ Hsg Hn) as (n0 & Hn0 & Hf & Hi).
    exists n0. split; [done|]. split; [done|]. split; [done|].
    assert (Hw : weights <$> nodes c1 !! k = weights <$> nodes c0 !! k)
      by (rewrite <- !list_lookup_fmap; by rewrite Hsw).
    rewrite Hn, Hn0 in Hw. by injection Hw. }
  destruct Hsg as [HsI HsN HsO HsA Hson _ _ _ _].
  split; [done|]. split; [done|]. split; [done|]. split; [done|].
  split; [done|]. split; [|split].
  - apply Forall_lookup. intros k n Hn.
    destruct (Hnode k n Hn) as (n0 & Hn0 & Hf & Hi & Hw).
    destruct (Hgood k n0 Hn0) as [Hv _].
    unfold valid_node in *. by rewrite Hf, Hi, Hw.
  - by rewrite Hson.
  - intros Hprob. unfold non_recurrent. rewrite HsI.
    apply non_recurrent_from_intro. intros k n Hn.
    destruct (Hnode k n Hn) as (n0 & Hn0 & _ & Hi & _).
    destruct (Hgood k n0 Hn0) as [_ Hff]. rewrite Hi.
    eapply Forall_impl; [by apply Hff|]. cbn. lia.
Qed.

(** X3.  A chromosome that [initialiseChromosome] returns is well
    formed and has the dimensions of the parameters: every function
    gene is the index of a function of the set, every node has [arity]
    input genes and weights, and every input gene and output gene is
    the address of an input or of a node of the chromosome.  With an
    empty function set the program ends. *)
Theorem initialiseChromosome_well_formed (params : parameters) (seed : Z)
    (c : chromosome) (seed' : Z) :
  (forall s, 0 <= (rand_r s).1) ->
  0 < p_numInputs params -> 0 <= p_numNodes params ->
  0 <= p_numOutputs params -> 0 <= p_arity params ->
  (p_shortcutConnections params = 1 \/ 0 < p_numNodes params) ->
  funcSet_ok (p_funcSet params) ->
  initialiseChromosome params seed = Ok (c, seed') ->
  wf_chromosome c = true
  /\ numInputs c = p_numInputs params /\ numNodes c = p_numNodes params
  /\ numOutputs c = p_numOutputs params /\ arity c = p_arity params
  /\ Forall (valid_node (p_numInputs params) (p_numNodes params)
               (p_arity params) (numFunctions (p_funcSet params))) (nodes c)
  /\ Forall (fun o => 0 <= o < p_numInputs params + p_numNodes params)
       (outputNodes c)
  /\ (forall params0 seed0, numFunctions (p_funcSet params0) < 1 ->
      initialiseChromosome params0 seed0 = Err Exit).
Proof.
  intros Hrand HnI HnN HnO Har Hshort Hfs Hrun.
  destruct (initialiseChromosome_spec _ _ _ _ Hrand HnI HnN HnO Har Hshort
              Hfs Hrun) as (Hwf & H1 & H2 & H3 & H4 & Hnodes & Houts & _).
  repeat (split; [done|]).
  intros params0 seed0 Hempty. unfold initialiseChromosome.
  by destruct (Z.ltb_spec (numFunctions (p_funcSet params0)) 1); [|lia].
Qed.

(** X4.  With the probability of a recurrent connection at zero, no
    input gene of a chromosome that [initialiseChromosome] returns
    addresses its own node or a later one: the chromosome is feed
    forward. *)
Theorem initialiseChromosome_feed_forward (params : parameters) (seed : Z)
    (c : chromosome) (seed' : Z) :
  (forall s, 0 <= (rand_r s).1) ->
  0 < p_numInputs params -> 0 <= p_numNodes params ->
  0 <= p_numOutputs params -> 0 <= p_arity params ->
  (p_shortcutConnections params = 1 \/ 0 < p_numNodes params) ->
  funcSet_ok (p_funcSet params) ->
  p_recurrentConnectionProbability params = of_int 0 ->
  initialiseChromosome params seed = Ok (c, seed') ->
  non_recurrent c = true
  /\ forall (k : nat) n b, nodes c !! k = Some n -> b ∈ inputs n ->
       b < numInputs c + Z.of_nat k.
Proof.
  intros Hrand HnI HnN HnO Har Hshort Hfs Hprob Hrun.
  destruct (initialiseChromosome_spec _ _ _ _ Hrand HnI HnN HnO Har Hshort
              Hfs Hrun) as (_ & _ & _ & _ & _ & _ & _ & Hnr).
  split; [by apply Hnr|]. intros k n b. apply non_recurrent_spec.
  by apply Hnr.
Qed.

End InitialisationProofs.

Lemma randInt_without_modulo_bias_witness :
  randInt 10 1 = Ok (3, 662824084)
  /\ exists k : nat,
       (k < patience)%nat
       /\ (forall j : nat, (j < k)%nat -> randLimit_of 10 < draw j 1)
       /\ 0 <= draw k 1 <= randLimit_of 10
       /\ 3 = Z.rem (draw k 1) 10
       /\ 662824084 = seed_after (S k) 1
       /\ 0 <= 3 < 10.
Proof.
  assert (Hrun : randInt 10 1 = Ok (3, 662824084)) by (vm_compute; reflexivity).
  split; [exact Hrun|].
  assert (Hn : 0 < 10) by lia.
  exact (proj1 (proj2 (proj2 (randInt_without_modulo_bias 10 1
                                glibc_rand_r_nonneg) Hn))
           3 662824084 Hrun).
Defined.

Lemma gene_generators_return_valid_alleles_witness :
  exists v seed',
    getRandomNodeInput 2 3 1 (of_int 0) 1 = Ok (v, seed')
    /\ 0 <= v < 2 + 3
    /\ (if dlt (randDecimal 1).1 (of_int 0) then 2 + 1 <= v else v < 2 + 1).
Proof.
  destruct (getRandomNodeInput 2 3 1 (of_int 0) 1) as [[v seed']|e] eqn:E;
    [|by vm_compute in E].
  exists v, seed'. split; [reflexivity|].
  destruct (@gene_generators_return_valid_alleles example_libc
              glibc_rand_r_nonneg)
    as (_ & _ & Hin & _).
  apply (Hin 2 3 1 (of_int 0) 1 v seed'); [lia | lia | exact E].
Defined.

Lemma initialiseChromosome_well_formed_witness :
  exists c seed',
    initialiseChromosome example_params 1 = Ok (c, seed')
    /\ wf_chromosome c = true
    /\ numInputs c = p_numInputs example_params
    /\ numNodes c = p_numNodes example_params
    /\ numOutputs c = p_numOutputs example_params
    /\ arity c = p_arity example_params.
Proof.
  assert (Hok : is_ok (initialiseChromosome example_params 1) = true)
    by (vm_compute; reflexivity).
  destruct (initialiseChromosome example_params 1) as [[c seed']|e] eqn:E;
    [|discriminate].
  exists c, seed'. split; [reflexivity|].
  assert (Hfs : funcSet_ok (p_funcSet example_params))
    by (unfold funcSet_ok; cbn; lia).
  assert (HnI : 0 < p_numInputs example_params) by (cbn; lia).
  assert (HnN : 0 <= p_numNodes example_params) by (cbn; lia).
  assert (HnO : 0 <= p_numOutputs example_params) by (cbn; lia).
  assert (Har : 0 <= p_arity example_params) by (cbn; lia).
  assert (Hsc : p_shortcutConnections example_params = 1
                \/ 0 < p_numNodes example_params) by (left; reflexivity).
  destruct (@initialiseChromosome_well_formed example_libc example_params 1
              c seed' glibc_rand_r_nonneg HnI HnN HnO Har Hsc Hfs E)
    as (H1 & H2 & H3 & H4 & H5 & _).
  split; [exact H1|]. split; [exact H2|]. split; [exact H3|].
  split; [exact H4 | exact H5].
Defined.

Lemma initialiseChromosome_feed_forward_witness :
  exists c seed',
    initialiseChromosome example_params 1 = Ok (c, seed')
    /\ non_recurrent c = true.
Proof.
  assert (Hok : is_ok (initialiseChromosome example_params 1) = true)
    by (vm_compute; reflexivity).
  destruct (initialiseChromosome example_params 1) as [[c seed']|e] eqn:E;
    [|discriminate].
  exists c, seed'. split; [reflexivity|].
  assert (Hfs : funcSet_ok (p_funcSet example_params))
    by (unfold funcSet_ok; cbn; lia).
  assert (HnI : 0 < p_numInputs example_params) by (cbn; lia).
  assert (HnN : 0 <= p_numNodes example_params) by (cbn; lia).
  assert (HnO : 0 <= p_numOutputs example_params) by (cbn; lia).
  assert (Har : 0 <= p_arity example_params) by (cbn; lia).
  assert (Hsc : p_shortcutConnections example_params = 1
                \/ 0 < p_numNodes example_params) by (left; reflexivity).
  assert (Hp : p_recurrentConnectionProbability example_params = of_int 0)
    by reflexivity.
  exact (proj1 (@initialiseChromosome_feed_forward example_libc
                  example_params 1 c seed' glibc_rand_r_nonneg HnI HnN HnO
                  Har Hsc Hfs Hp E)).
Defined.

(** ** Execution *)

Lemma outputs_nodes (u0 u : chromosome) (ins : list double) (N : Z) :
  for_loop 0 N
    (fun i c =>
       o ← aget (outputNodes c) i;
       v ← readAddress c ins o;
       ov ← aset (outputValues c) i v;
       Ok (set_outputValues c ov))
    u0 = Ok u ->
  nodes u = nodes u0 /\ numInputs u = numInputs u0.
Proof.
  apply (for_loop_preserves
           (fun s => nodes s = nodes u0 /\ numInputs s = numInputs u0));
    [done|].
  intros j s s' _ [Hn Hi] Hbody.
  apply bind_Ok in Hbody as (o & _ & Hbody).
  apply bind_Ok in Hbody as (v & _ & Hbody).
  by apply bind_Ok in Hbody as (ov & _ & [= <-]).
Qed.

(** The loop of [executeChromosome] over the active nodes. *)
Lemma nodes_loop_spec (c s : chromosome) (ins : list double) (g g' : Z) :
  for_loop 0 (numActiveNodes c)
    (fun i '(c, g) =>
       currentActiveNode ← aget (activeNodes c) i;
       executeNode c ins currentActiveNode g)
    (c, g) = Ok (s, g') ->
  same_program c s
  /\ outputValues s = outputValues c
  /\ forall k, k ∈ activeList c ->
       exists n, nodes s !! Z.to_nat k = Some n /\ is_finite (output n).
Proof.
  intros Hrun.
  set (J := fun (i : Z) (p : chromosome * Z) =>
    same_program c p.1 /\ outputValues p.1 = outputValues c
    /\ forall (i' : nat) k, Z.of_nat i' < i ->
         activeNodes c !! i' = Some k ->
         exists n, nodes p.1 !! Z.to_nat k = Some n /\ is_finite (output n)).
  assert (Hend : J (Z.max 0 (numActiveNodes c)) (s, g')).
  { eapply (for_loop_inv_max J); [ | | exact Hrun]; unfold J.
    - split; [apply same_program_refl|]. split; [done|]. intros i' k Hi'. lia.
    - intros i [s1 g1] [s2 g2] Hi (Hsp & Hov & Hlow) Hbody. cbn [fst] in *.
      apply bind_Ok in Hbody as (cur & Hcur & Hexec).
      pose proof (executeNode_same_program _ _ _ _ _ _ _ Hsp Hexec) as Hsp2.
      destruct (executeNode_spec _ _ _ _ _ _ Hexec)
        as (n & hold & f & v & Hc0 & Hn & _ & _ & _ & Hnodes & Hframe).
      destruct Hframe as (_ & _ & _ & _ & _ & _ & Hov2).
      split; [done|]. split; [congruence|].
      intros i' k Hi' Hk. rewrite Hnodes.
      destruct (decide (Z.to_nat k = Z.to_nat cur)) as [->|Hne].
      + rewrite list_lookup_insert_eq by by eapply lookup_lt_Some.
        eexists. split; [done|]. cbn [output set_output].
        apply sanitise_finite.
      + rewrite list_lookup_insert_ne by done.
        destruct (decide (Z.of_nat i' = i)) as [<-|Hlt].
        * destruct Hsp as (_ & _ & _ & Han & _). rewrite <- Han in Hcur.
          apply aget_Ok in Hcur as [_ Hcur]. rewrite Nat2Z.id in Hcur.
          congruence.
        * apply (Hlow i'); [lia | done]. }
  destruct Hend as (Hsp & Hov & Hall). cbn [fst] in *.
  split; [done|]. split; [done|].
  intros k Hk. unfold activeList in Hk.
  apply list_elem_of_lookup in Hk as [i' Hi'].
  apply lookup_take_Some in Hi' as [Hi' Hlt].
  apply (Hall i'); [lia | done].
Qed.

Lemma executeChromosome_spec (c c' : chromosome) (ins : list double)
    (g g' : Z) :
  executeChromosome c ins g = Ok (c', g') ->
  same_program c c'
  /\ (forall k, k ∈ activeList c ->
        exists n, nodes c' !! Z.to_nat k = Some n /\ is_finite (output n))
  /\ (forall i : nat, Z.of_nat i < numOutputs c ->
        exists o x, outputNodes c !! i = Some o
                    /\ readAddress c' ins o = Ok x
                    /\ outputValues c' !! i = Some x)
  /\ (forall i : nat, numOutputs c <= Z.of_nat i ->
        outputValues c' !! i = outputValues c !! i).
Proof.
  unfold executeChromosome.
  intros ([s g1] & Hnodes & Hrun)%bind_Ok.
  apply bind_Ok in Hrun as (u & Houts & [= <- <-]).
  destruct (nodes_loop_spec _ _ _ _ _ Hnodes) as (Hsp & Hov & Hfin).
  destruct (outputs_spec _ _ _ _ Houts) as (Hkeep & Hvals & Hrest).
  destruct (outputs_nodes _ _ _ _ Houts) as [Hn Hi].
  pose proof Hsp as (_ & _ & _ & _ & Hon & _).
  split; [by apply Hkeep|]. split; [|split].
  - intros k Hk. rewrite Hn. by apply Hfin.
  - intros i Hlt. destruct (Hvals i Hlt) as (o & x & Ho & Hx & Hv).
    exists o, x. split; [congruence|]. split; [|done].
    by rewrite (readAddress_ext s u ins o Hi Hn).
  - intros i Hge. rewrite (Hrest i Hge). by rewrite Hov.
Qed.

(** X5.  [executeChromosome] changes nothing of a chromosome but cached
    values: the genes, the weights, the list of active nodes and the
    function set are as before, and when it returns output value [i]
    is the value at the address in output gene [i]: a sample input or
    the cached output of a node.  The output values past [numOutputs]
    are left alone. *)
Theorem executeChromosome_changes_cached_values_only (c c' : chromosome)
    (ins : list double) (g g' : Z) :
  executeChromosome c ins g = Ok (c', g') ->
  same_program c c'
  /\ (forall i : nat, Z.of_nat i < numOutputs c ->
        exists o x, outputNodes c !! i = Some o
                    /\ readAddress c' ins o = Ok x
                    /\ outputValues c' !! i = Some x)
  /\ (forall i : nat, numOutputs c <= Z.of_nat i ->
        outputValues c' !! i = outputValues c !! i).
Proof.
  intros Hrun.
  destruct (executeChromosome_spec _ _ _ _ _ Hrun) as (H1 & _ & H3 & H4).
  done.
Qed.

(** X6.  After [executeChromosome] the cached output of every node of
    the active list is a finite number, never NaN and never an
    infinity, whatever the node functions returned; an output value
    that reads a node is therefore finite as well. *)
Theorem executeChromosome_caches_finite_numbers (c c' : chromosome)
    (ins : list double) (g g' : Z) :
  executeChromosome c ins g = Ok (c', g') ->
  (forall k, k ∈ activeList c ->
     exists n, nodes c' !! Z.to_nat k = Some n /\ is_finite (output n))
  /\ (forall (i : nat) o x,
        Z.of_nat i < numOutputs c -> outputNodes c !! i = Some o ->
        numInputs c <= o -> o - numInputs c ∈ activeList c ->
        outputValues c' !! i = Some x -> is_finite x).
Proof.
  intros Hrun.
  destruct (executeChromosome_spec _ _ _ _ _ Hrun)
    as (Hsp & Hfin & Hvals & _).
  split; [done|]. intros i o x Hi Ho Hnode Hact Hx.
  destruct (Hvals i Hi) as (o' & x' & Ho' & Hread & Hx').
  assert (o' = o) as -> by congruence. assert (x' = x) as -> by congruence.
  destruct Hsp as (HnI & _). unfold readAddress in Hread.
  rewrite <- HnI in Hread.
  destruct (Z.ltb_spec o (numInputs c)) as [|_]; [lia|].
  apply bind_Ok in Hread as (n & Hn & [= <-]).
  apply aget_Ok in Hn as [_ Hn].
  destruct (Hfin _ Hact) as (n' & Hn' & Hfinite). congruence.
Qed.

Lemma executeChromosome_changes_cached_values_only_witness :
  exists c' g',
    executeChromosome chromo_div [of_int (-1); of_int 0] 0 = Ok (c', g')
    /\ same_program chromo_div c'.
Proof.
  assert (Hok : is_ok (executeChromosome chromo_div [of_int (-1); of_int 0] 0)
                = true) by (vm_compute; reflexivity).
  destruct (executeChromosome chromo_div [of_int (-1); of_int 0] 0)
    as [[c' g']|e] eqn:E; [|discriminate].
  exists c', g'. split; [reflexivity|].
  exact (proj1 (executeChromosome_changes_cached_values_only chromo_div c'
                  [of_int (-1); of_int 0] 0 g' E)).
Defined.

Lemma executeChromosome_caches_finite_numbers_witness :
  exists c' g',
    executeChromosome chromo_div [of_int (-1); of_int 0] 0 = Ok (c', g')
    /\ forall k, k ∈ activeList chromo_div ->
         exists n, nodes c' !! Z.to_nat k = Some n /\ is_finite (output n).
Proof.
  assert (Hok : is_ok (executeChromosome chromo_div [of_int (-1); of_int 0] 0)
                = true) by (vm_compute; reflexivity).
  destruct (executeChromosome chromo_div [of_int (-1); of_int 0] 0)
    as [[c' g']|e] eqn:E; [|discriminate].
  exists c', g'. split; [reflexivity|].
  exact (proj1 (executeChromosome_caches_finite_numbers chromo_div c'
                  [of_int (-1); of_int 0] 0 g' E)).
Defined.

(** ** The default fitness function *)

Lemma binary_normalize_sign (prec emax m e : Z) :
  0 <= m -> has_sign false (binary_normalize prec emax m e false).
Proof.
  intros Hm. unfold binary_normalize.
  destruct m as [|p|p]; [done| |lia].
  unfold binary_round. destruct (shl_align _ _ _) as [mz ez].
  apply binary_round_aux_sign.
Qed.

Lemma dabs_sign (x : double) : has_sign false (dabs x).
Proof. by destruct x. Qed.

Lemma dadd_sign (x y : double) :
  has_sign false x -> has_sign false y -> has_sign false (dadd x y).
Proof.
  unfold dadd, SFadd.
  destruct x as [sx|sx| |sx mx ex], y as [sy|sy| |sy my ey]; cbn;
    intros Hx Hy; subst; try done.
  apply binary_normalize_sign. cbn [cond_Zopp]. lia.
Qed.

Lemma has_sign_not_negative (x : double) :
  has_sign false x ->
  dlt x (of_int 0) = false /\ (isnan x = false -> dle (of_int 0) x = true).
Proof.
  change (of_int 0) with (S754_zero false).
  destruct x as [s|s| |s m e]; cbn; intros Hs; subst; done.
Qed.

Lemma supervisedLearning_sign (params : parameters) (c c' : chromosome)
    (data : dataSet) (g g' : Z) (fit : double) :
  supervisedLearning params c data g = Ok (fit, c', g') ->
  has_sign false fit.
Proof.
  unfold supervisedLearning.
  destruct (negb (numInputs c =? d_numInputs data)); [done|].
  destruct (negb (numOutputs c =? d_numOutputs data)); [done|].
  intros Hrun. change (has_sign false (fit, c', g').1.1).
  eapply (for_loop_preserves
            (fun s : double * chromosome * Z => has_sign false s.1.1));
    [ | | exact Hrun]; [done|].
  intros i [[e1 c1] g1] [[e2 c2] g2] _ He Hbody. cbn [fst] in *.
  apply bind_Ok in Hbody as (ins & _ & Hbody).
  apply bind_Ok in Hbody as ([c3 g3] & _ & Hbody).
  apply bind_Ok in Hbody as (e3 & Hinner & [= <- <- <-]).
  eapply (for_loop_preserves (fun e => has_sign false e));
    [exact He | | exact Hinner].
  intros j e e' _ Hsign Hstep.
  apply bind_Ok in Hstep as (o & _ & Hstep).
  apply bind_Ok in Hstep as (row & _ & Hstep).
  apply bind_Ok in Hstep as (t & _ & [= <-]).
  apply dadd_sign; [done | apply dabs_sign].
Qed.

(** X7.  The fitness that [supervisedLearning] returns is never below
    zero: it is NaN or a number from zero upwards, the sum of the
    absolute errors.  A data set whose number of inputs or of outputs
    is not the chromosome's ends the program, and without samples the
    fitness is zero and the chromosome is not executed. *)
Theorem supervisedLearning_is_never_negative (params : parameters)
    (c : chromosome) (data : dataSet) (g : Z) :
  (forall fit c' g', supervisedLearning params c data g = Ok (fit, c', g') ->
     dlt fit (of_int 0) = false
     /\ (isnan fit = false -> dle (of_int 0) fit = true))
  /\ (numInputs c <> d_numInputs data \/ numOutputs c <> d_numOutputs data ->
      supervisedLearning params c data g = Err Exit)
  /\ (numInputs c = d_numInputs data -> numOutputs c = d_numOutputs data ->
      d_numSamples data <= 0 ->
      supervisedLearning params c data g = Ok (of_int 0, c, g)).
Proof.
  split; [|split].
  - intros fit c' g' Hrun. apply has_sign_not_negative.
    by eapply supervisedLearning_sign.
  - intros Hne. unfold supervisedLearning.
    destruct (Z.eqb_spec (numInputs c) (d_numInputs data)); cbn; [|done].
    destruct (Z.eqb_spec (numOutputs c) (d_numOutputs data)); cbn; [|done].
    by destruct Hne.
  - intros HnI HnO Hn. unfold supervisedLearning.
    rewrite HnI, HnO, !Z.eqb_refl. cbn [negb].
    apply for_loop_empty. lia.
Qed.

(** ** The order of the doubles *)

Lemma dlt_irrefl (x : double) : dlt x x = false.
Proof.
  unfold dlt, SFltb. destruct x as [s|s| |s m e]; cbn; try done;
    destruct s; try done.
  all: rewrite Z.compare_refl, Pos.compare_cont_refl; done.
Qed.

Lemma dlt_asym (x y : double) : dlt x y = true -> dlt y x = false.
Proof.
  intros Hxy. destruct (dlt y x) eqn:Hyx; [|done].
  assert (Hle : dle y x = true).
  { revert Hyx. unfold dlt, dle, SFltb, SFleb.
    by destruct (SFcompare y x) as [[]|]. }
  pose proof (dlt_dle_trans _ _ _ Hxy Hle) as Hc.
  by rewrite dlt_irrefl in Hc.
Qed.

(** Between numbers, not greater is less than or equal. *)
Lemma not_dgt_dle (x y : double) :
  isnan x = false -> isnan y = false -> dgt x y = false -> dle x y = true.
Proof.
  unfold dgt, dle, SFltb, SFleb. rewrite (SFcompare_antisym x y).
  intros Hx Hy.
  destruct (SFcompare x y) as [[]|] eqn:Hc; cbn; try done.
  by destruct x, y.
Qed.

Lemma not_dgt_trans (x y z : double) :
  isnan x = false -> isnan y = false ->
  dgt x y = false -> dgt y z = false -> dgt x z = false.
Proof.
  intros Hx Hy Hxy Hyz. destruct (dgt x z) eqn:Hxz; [|done].
  pose proof (not_dgt_dle _ _ Hx Hy Hxy) as Hle.
  pose proof (dlt_dle_trans z x y Hxz Hle) as Hc.
  unfold dgt in Hyz. unfold dlt in Hc. congruence.
Qed.

(** ** [sortChromosomeArray] *)

Lemma exchange_step (a : list chromosome) (i j : Z) :
  0 <= i -> 0 <= j ->
  i < Z.of_nat (length a) -> j < Z.of_nat (length a) ->
  exists x y a',
    a !! Z.to_nat i = Some x /\ a !! Z.to_nat j = Some y
    /\ (ci ← aget a i;
        cj ← aget a j;
        if dgt (fitness ci) (fitness cj) then
          let chromoTmp := ci in
          chromoArray ← aset a i cj;
          aset chromoArray j chromoTmp
        else Ok a) = Ok a'
    /\ a' = (if dgt (fitness x) (fitness y)
             then <[Z.to_nat j := x]> (<[Z.to_nat i := y]> a) else a).
Proof.
  intros Hi Hj Hil Hjl.
  destruct (lookup_lt_is_Some_2 a (Z.to_nat i)) as [x Hx]; [lia|].
  destruct (lookup_lt_is_Some_2 a (Z.to_nat j)) as [y Hy]; [lia|].
  exists x, y,
    (if dgt (fitness x) (fitness y)
     then <[Z.to_nat j := x]> (<[Z.to_nat i := y]> a) else a).
  split; [done|]. split; [done|]. split; [|done].
  assert (Hgi : aget a i = Ok x) by (by apply aget_Ok).
  assert (Hgj : aget a j = Ok y) by (by apply aget_Ok).
  rewrite Hgi. cbn [mbind result_bind]. rewrite Hgj. cbn [mbind result_bind].
  destruct (dgt (fitness x) (fitness y)); [|done].
  rewrite aset_in_range by lia. cbn [mbind result_bind].
  rewrite aset_in_range by (rewrite length_insert; lia). done.
Qed.

Lemma exchange_lookup (a : list chromosome) (i j k : nat) (x y : chromosome) :
  a !! i = Some x -> a !! j = Some y ->
  <[j := x]> (<[i := y]> a) !! k
  = if decide (k = j) then Some x
    else if decide (k = i) then Some y else a !! k.
Proof.
  intros Hx Hy. destruct (decide (k = j)) as [->|Hkj].
  - rewrite list_lookup_insert_eq; [done|].
    rewrite length_insert. by eapply lookup_lt_Some.
  - rewrite list_lookup_insert_ne by done.
    destruct (decide (k = i)) as [->|Hki].
    + rewrite list_lookup_insert_eq; [done|]. by eapply lookup_lt_Some.
    + by rewrite list_lookup_insert_ne.
Qed.

Lemma same_upto_order_exchange (n : Z) (a0 a : list chromosome)
    (i j : nat) (x y : chromosome) :
  same_upto_order n a0 a ->
  (i < Z.to_nat n)%nat -> (j < Z.to_nat n)%nat ->
  a !! i = Some x -> a !! j = Some y ->
  same_upto_order n a0 (<[j := x]> (<[i := y]> a)).
Proof.
  intros (Hlen & Hperm & Htake & Hdrop) Hi Hj Hx Hy.
  split; [by rewrite !length_insert|]. split; [|split].
  - by rewrite (Permutation_insert_swap a i j x y).
  - rewrite !take_insert_lt by done.
    rewrite (Permutation_insert_swap (take (Z.to_nat n) a) i j x y);
      [done| |]; by rewrite lookup_take_lt.
  - by rewrite !drop_insert_lt.
Qed.

Lemma same_upto_order_no_nan (n : Z) (a0 a : list chromosome) (k : nat)
    (x : chromosome) :
  same_upto_order n a0 a -> no_nan_fitness (take (Z.to_nat n) a0) ->
  Z.of_nat k < n -> a !! k = Some x -> isnan (fitness x) = false.
Proof.
  intros (_ & _ & Htake & _) Hnan Hk Hx. unfold no_nan_fitness in Hnan.
  rewrite <- Htake in Hnan. rewrite Forall_forall in Hnan. apply Hnan.
  apply (list_elem_of_lookup_2 _ k). rewrite lookup_take_lt; [done | lia].
Qed.

(** The inner loop brings an entry of least fitness to place [i]. *)
Lemma sortChromosomeArray_inner (a0 a1 : list chromosome) (n i : Z) :
  0 <= i < n -> n <= Z.of_nat (length a0) ->
  same_upto_order n a0 a1 ->
  (no_nan_fitness (take (Z.to_nat n) a0) -> sorted_before i n a1) ->
  exists a2,
    for_loop i n
      (fun j chromoArray =>
         ci ← aget chromoArray i;
         cj ← aget chromoArray j;
         if dgt (fitness ci) (fitness cj) then
           let chromoTmp := ci in
           chromoArray ← aset chromoArray i cj;
           aset chromoArray j chromoTmp
         else Ok chromoArray)
      a1 = Ok a2
    /\ same_upto_order n a0 a2
    /\ (no_nan_fitness (take (Z.to_nat n) a0) -> sorted_before (i + 1) n a2).
Proof.
  intros Hi Hn Hframe Hsorted.
  set (Q := fun (j : Z) (a : list chromosome) =>
    same_upto_order n a0 a
    /\ (no_nan_fitness (take (Z.to_nat n) a0) ->
        sorted_before i n a
        /\ forall (k : nat) x y, i <= Z.of_nat k < j ->
             a !! Z.to_nat i = Some x -> a !! k = Some y -> fitness_le x y)).
  destruct (for_loop_total Q
              (fun j chromoArray =>
                 ci ← aget chromoArray i;
                 cj ← aget chromoArray j;
                 if dgt (fitness ci) (fitness cj) then
                   let chromoTmp := ci in
                   chromoArray ← aset chromoArray i cj;
                   aset chromoArray j chromoTmp
                 else Ok chromoArray) i n a1) as (a2 & Hrun & HQ).
  - lia.
  - split; [done|]. intros Hnan. split; [by apply Hsorted|].
    intros k x y Hk. lia.
  - intros j a Hj [Hfr Hinv].
    assert (Hlen : length a = length a0) by apply Hfr.
    destruct (exchange_step a i j) as (x & y & a' & Hx & Hy & Hrun & ->);
      [lia..|].
    eexists. split; [exact Hrun|]. unfold Q.
    destruct (dgt (fitness x) (fitness y)) eqn:Hgt.
    + split; [apply same_upto_order_exchange; try done; lia|].
      intros Hnan. destruct (Hinv Hnan) as [Hpre Hmin].
      assert (Hnx : isnan (fitness x) = false)
        by (eapply (same_upto_order_no_nan n a0 a (Z.to_nat i)); [done..|lia|done]).
      assert (Hny : isnan (fitness y) = false)
        by (eapply (same_upto_order_no_nan n a0 a (Z.to_nat j)); [done..|lia|done]).
      assert (Hyx : fitness_le y x) by (by apply dlt_asym).
      split.
      * intros p q u v Hp Hpq Hq.
        rewrite !(exchange_lookup a _ _ _ x y Hx Hy).
        destruct (decide (p = Z.to_nat j)) as [->|_]; [lia|].
        destruct (decide (p = Z.to_nat i)) as [->|_]; [lia|].
        intros Hu.
        destruct (decide (q = Z.to_nat j)) as [->|_].
        { intros [= <-]. eapply (Hpre p (Z.to_nat i)); [lia..|done|done]. }
        destruct (decide (q = Z.to_nat i)) as [->|_].
        { intros [= <-]. eapply (Hpre p (Z.to_nat j)); [lia..|done|done]. }
        intros Hv. by eapply (Hpre p q).
      * intros k u v Hk. rewrite !(exchange_lookup a _ _ _ x y Hx Hy).
        destruct (decide (Z.to_nat i = Z.to_nat j)) as [Heq|_].
        { rewrite Heq in Hx. assert (x = y) as -> by congruence.
          unfold dgt in Hgt. by rewrite dlt_irrefl in Hgt. }
        rewrite decide_True by done. intros [= <-].
        destruct (decide (k = Z.to_nat j)) as [->|Hkj]; [by intros [= <-]|].
        destruct (decide (k = Z.to_nat i)) as [->|Hki].
        { intros [= <-]. unfold fitness_le, dgt. apply dlt_irrefl. }
        intros Hv. unfold fitness_le.
        eapply (not_dgt_trans _ (fitness x)); [done..|].
        apply (Hmin k); [lia|done|done].
    + split; [done|]. intros Hnan. destruct (Hinv Hnan) as [Hpre Hmin].
      split; [done|]. intros k u v Hk Hu Hv.
      destruct (decide (k = Z.to_nat j)) as [->|Hne].
      * assert (u = x) as -> by congruence. assert (v = y) as -> by congruence.
        done.
      * apply (Hmin k); [lia|done|done].
  - exists a2. split; [done|]. destruct HQ as [Hfr Hinv].
    split; [done|]. intros Hnan. destruct (Hinv Hnan) as [Hpre Hmin].
    intros p q x y Hp Hpq Hq Hx Hy.
    destruct (decide (Z.of_nat p < i)) as [Hlt|Hge].
    + by eapply (Hpre p q).
    + assert (Z.to_nat i = p) as Hpi by lia. rewrite <- Hpi in Hx.
      apply (Hmin q); [lia|done|done].
Qed.

Lemma sortChromosomeArray_spec (a : list chromosome) (n : Z) :
  0 <= n <= Z.of_nat (length a) ->
  exists a',
    sortChromosomeArray a n = Ok a'
    /\ same_upto_order n a a'
    /\ (no_nan_fitness (take (Z.to_nat n) a) -> sorted_before n n a').
Proof.
  intros Hn. unfold sortChromosomeArray.
  destruct (for_loop_total
    (fun i a1 => same_upto_order n a a1
       /\ (no_nan_fitness (take (Z.to_nat n) a) -> sorted_before i n a1))
    (fun i chromoArray =>
       for_loop i n
         (fun j chromoArray =>
            ci ← aget chromoArray i;
            cj ← aget chromoArray j;
            if dgt (fitness ci) (fitness cj) then
              let chromoTmp := ci in
              chromoArray ← aset chromoArray i cj;
              aset chromoArray j chromoTmp
            else Ok chromoArray)
         chromoArray) 0 n a) as (a' & Hrun & Hfr & Hsorted).
  - lia.
  - split; [done|]. intros _ p q x y Hp. lia.
  - intros i a1 Hi [Hfr Hs].
    destruct (sortChromosomeArray_inner a a1 n i) as (a2 & Hrun & Hfr2 & Hs2);
      [lia | lia | done | done |].
    by exists a2.
  - by exists a'.
Qed.

(** X8.  [sortChromosomeArray] on the first [n] entries of an array
    that has them returns, and it returns the same chromosomes: the
    first [n] in some order, the others in their places.  When none of
    the first [n] fitness values is NaN they end up in ascending order
    of fitness. *)
Theorem sortChromosomeArray_sorts (a : list chromosome) (n : Z) :
  0 <= n <= Z.of_nat (length a) ->
  exists a',
    sortChromosomeArray a n = Ok a'
    /\ a' ≡ₚ a
    /\ take (Z.to_nat n) a' ≡ₚ take (Z.to_nat n) a
    /\ drop (Z.to_nat n) a' = drop (Z.to_nat n) a
    /\ (no_nan_fitness (take (Z.to_nat n) a) ->
        forall (p q : nat) x y,
          (p <= q)%nat -> Z.of_nat q < n ->
          a' !! p = Some x -> a' !! q = Some y -> fitness_le x y).
Proof.
  intros Hn.
  destruct (sortChromosomeArray_spec a n Hn)
    as (a' & Hrun & (_ & Hperm & Htake & Hdrop) & Hsorted).
  exists a'. split; [done|]. split; [done|]. split; [done|]. split; [done|].
  intros Hnan p q x y Hpq Hq. apply (Hsorted Hnan); [lia | done | done].
Qed.

Lemma sortChromosomeArray_sorts_witness :
  exists a',
    sortChromosomeArray [child_a; parent_b; child_c] 3 = Ok a'
    /\ a' ≡ₚ [child_a; parent_b; child_c]
    /\ forall (p q : nat) x y,
         (p <= q)%nat -> Z.of_nat q < 3 ->
         a' !! p = Some x -> a' !! q = Some y -> fitness_le x y.
Proof.
  assert (Hn : 0 <= 3 <= Z.of_nat (length [child_a; parent_b; child_c]))
    by (cbn; lia).
  destruct (sortChromosomeArray_sorts [child_a; parent_b; child_c] 3 Hn)
    as (a' & Hrun & Hperm & _ & _ & Hsorted).
  exists a'. split; [exact Hrun|]. split; [exact Hperm|].
  apply Hsorted. repeat constructor.
Defined.

(** ** [selectFittest] and [getBestChromosome] *)

Lemma copyChromosome_fitnessValidation (dest src r : chromosome) :
  copyChromosome dest src = Ok r ->
  fitnessValidation r = fitnessValidation src.
Proof.
  unfold copyChromosome.
  repeat (destruct (negb _); [discriminate|]).
  intros (d1 & _ & Hrun)%bind_Ok.
  apply bind_Ok in Hrun as (on & _ & [= <-]). done.
Qed.

(** X9.  [selectFittest] sorts the candidates and copies the first
    [numParents] of them over the parents: parent [i] has the fitness
    of the sorted candidate [i], which is, when no candidate fitness
    is NaN, not greater than the fitness of any candidate behind it. *)
Theorem selectFittest_selects_the_fittest (params : parameters)
    (parents cands parents' cands' : list chromosome)
    (numParents numCands : Z) :
  0 <= numCands <= Z.of_nat (length cands) ->
  selectFittest params parents cands numParents numCands
    = Ok (parents', cands') ->
  sortChromosomeArray cands numCands = Ok cands'
  /\ cands' ≡ₚ cands
  /\ (forall (i : nat) p, Z.of_nat i < numParents ->
        parents' !! i = Some p ->
        exists cand, cands' !! i = Some cand
                     /\ fitness p = fitness cand
                     /\ (no_nan_fitness (take (Z.to_nat numCands) cands) ->
                         forall (q : nat) y,
                           (i <= q)%nat -> Z.of_nat q < numCands ->
                           cands' !! q = Some y -> fitness_le p y)).
Proof.
  intros Hn. unfold selectFittest.
  intros (sorted & Hsort & Hrun)%bind_Ok.
  apply bind_Ok in Hrun as (ps & Hcopy & [= <- <-]).
  destruct (sortChromosomeArray_spec cands numCands Hn)
    as (a' & Hrun' & (_ & Hperm & _ & _) & Hsorted).
  rewrite Hsort in Hrun'. injection Hrun' as <-.
  split; [done|]. split; [done|].
  set (J := fun (i : Z) (l : list chromosome) =>
    forall (k : nat) p, Z.of_nat k < i -> l !! k = Some p ->
      exists cand, sorted !! k = Some cand /\ fitness p = fitness cand).
  assert (Hend : J (Z.max 0 numParents) ps).
  { eapply (for_loop_inv_max J); [ | | exact Hcopy]; unfold J.
    - intros k p Hk. lia.
    - intros i l l' Hi Hlow Hbody.
      apply bind_Ok in Hbody as (p0 & Hp0 & Hbody).
      apply bind_Ok in Hbody as (cand & Hcand & Hbody).
      apply bind_Ok in Hbody as (p1 & Hp1 & Hset).
      apply aset_Ok in Hset as [Hr ->]. apply aget_Ok in Hcand as [_ Hcand].
      intros k p Hk. destruct (decide (k = Z.to_nat i)) as [->|Hne].
      + rewrite list_lookup_insert_eq by lia. intros [= <-].
        exists cand. split; [done|]. by eapply copyChromosome_fitness.
      + rewrite list_lookup_insert_ne by done. apply Hlow. lia. }
  intros i p Hi Hp. destruct (Hend i p ltac:(lia) Hp) as (cand & Hc & Hfit).
  exists cand. split; [done|]. split; [done|].
  intros Hnan q y Hiq Hq Hy. unfold fitness_le. rewrite Hfit.
  apply (Hsorted Hnan i q); try done.
  apply lookup_lt_Some in Hc. destruct (Z.le_gt_cases numCands (Z.of_nat i));
    lia.
Qed.

Lemma selectFittest_selects_the_fittest_witness :
  exists parents' cands',
    selectFittest example_params [chromo_add; chromo_add]
      [child_a; parent_b; child_c] 2 3 = Ok (parents', cands')
    /\ cands' ≡ₚ [child_a; parent_b; child_c].
Proof.
  assert (Hok : is_ok (selectFittest example_params [chromo_add; chromo_add]
                         [child_a; parent_b; child_c] 2 3) = true)
    by (vm_compute; reflexivity).
  destruct (selectFittest example_params [chromo_add; chromo_add]
              [child_a; parent_b; child_c] 2 3)
    as [[parents' cands']|e] eqn:E; [|discriminate].
  exists parents', cands'. split; [reflexivity|].
  assert (Hn : 0 <= 3 <= Z.of_nat (length [child_a; parent_b; child_c]))
    by (cbn; lia).
  exact (proj1 (proj2 (selectFittest_selects_the_fittest example_params
                         [chromo_add; chromo_add] [child_a; parent_b; child_c]
                         parents' cands' 2 3 Hn E))).
Defined.

Lemma dlt_dle (x y : double) : dlt x y = true -> dle x y = true.
Proof.
  unfold dlt, dle, SFltb, SFleb. by destruct (SFcompare x y) as [[]|].
Qed.

(** One round of the loops of [getBestChromosome]. *)
Lemma best_so_far_step (b p : chromosome) (seen : list chromosome) :
  Forall (validation_le b) seen ->
  Forall (validation_le
            (if dle (fitnessValidation p) (fitnessValidation b)
             then p else b)) (seen ++ [p]).
Proof.
  intros Hseen. apply Forall_app. split.
  - destruct (dle (fitnessValidation p) (fitnessValidation b)) eqn:Hle;
      [|done].
    eapply Forall_impl; [exact Hseen|]. cbn. intros q Hq.
    by eapply not_worse_accept.
  - apply Forall_singleton. unfold validation_le, dgt.
    destruct (dle (fitnessValidation p) (fitnessValidation b)) eqn:Hle.
    + apply dlt_irrefl.
    + destruct (dlt (fitnessValidation p) (fitnessValidation b)) eqn:Hlt;
        [|done].
      apply dlt_dle in Hlt. congruence.
Qed.

Lemma best_so_far_loop (l : list chromosome) (n : Z) (seen : list chromosome)
    (b b' : chromosome) (flag flag' : bool) :
  Forall (validation_le b) seen ->
  for_loop 0 n
    (fun i '(bestChromoSoFar, flag) =>
       p ← aget l i;
       if dle (fitnessValidation p) (fitnessValidation bestChromoSoFar)
       then Ok (p, true) else Ok (bestChromoSoFar, flag))
    (b, flag) = Ok (b', flag') ->
  Forall (validation_le b') (seen ++ take (Z.to_nat n) l)
  /\ ((b' = b /\ flag' = flag)
      \/ (flag' = true /\ b' ∈ take (Z.to_nat n) l)).
Proof.
  intros Hseen Hrun.
  set (J := fun (i : Z) (s : chromosome * bool) =>
    Forall (validation_le s.1) (seen ++ take (Z.to_nat i) l)
    /\ ((s.1 = b /\ s.2 = flag)
        \/ (s.2 = true /\ s.1 ∈ take (Z.to_nat i) l))).
  assert (Hend : J (Z.max 0 n) (b', flag')).
  { eapply (for_loop_inv_max J); [ | | exact Hrun]; unfold J; cbn [fst snd].
    - rewrite app_nil_r. split; [done|]. by left.
    - intros i [b1 f1] [b2 f2] Hi (Hall & Hflag) Hbody. cbn [fst snd] in *.
      apply bind_Ok in Hbody as (p & Hp & Hbody).
      apply aget_Ok in Hp as [_ Hp].
      replace (Z.to_nat (i + 1)) with (S (Z.to_nat i)) by lia.
      rewrite (take_S_r _ _ _ Hp), app_assoc.
      pose proof (best_so_far_step b1 p _ Hall) as Hstep.
      destruct (dle (fitnessValidation p) (fitnessValidation b1)) eqn:Hle;
        injection Hbody as <- <-.
      + split; [done|]. right. split; [done|].
        apply elem_of_app. right. by apply list_elem_of_singleton.
      + split; [done|]. destruct Hflag as [|[Hf Hin]]; [by left|].
        right. split; [done|]. apply elem_of_app. by left. }
  destruct Hend as (Hall & Hflag). cbn [fst snd] in *.
  destruct (Z.le_gt_cases 0 n).
  - by rewrite Z.max_r in * by done.
  - rewrite Z.max_l in * by lia.
    by replace (Z.to_nat n) with (Z.to_nat 0) by lia.
Qed.

Lemma dle_trans (a b c : double) :
  dle a b = true -> dle b c = true -> dle a c = true.
Proof.
  unfold dle, SFleb.
  destruct a as [sa|sa| |sa ma ea], b as [sb|sb| |sb mb eb],
           c as [sc|sc| |sc mc ec]; cbn;
    repeat match goal with
           | s : bool |- _ => destruct s
           end; cbn; try done.
  all: try (destruct (Z.compare_spec ea eb); cbn; try done).
  all: try (destruct (Z.compare_spec eb ec); cbn; try done).
  all: try (destruct (Z.compare_spec ea ec); cbn; try lia; try done).
  all: subst.
  all: rewrite ?Pos.compare_cont_spec in *; cbn.
  all: try (destruct (Pos.compare_spec ma mb); cbn; try done).
  all: try (destruct (Pos.compare_spec mb mc); cbn; try done).
  all: try (destruct (Pos.compare_spec ma mc); cbn; try lia; try done).
Qed.

(** What the loops of [getBestChromosome] have done after the
    chromosomes [seen]: nothing when none of them was less than or
    equal to [best], and otherwise the best so far is the last of them
    that was less than or equal to the best so far of its turn. *)
Lemma last_not_greater_step (best b p : chromosome) (flag : bool)
    (seen : list chromosome) :
  (if flag then
     exists k : nat,
       seen !! k = Some b
       /\ dle (fitnessValidation b) (fitnessValidation best) = true
       /\ forall (j : nat) y, (k < j)%nat -> seen !! j = Some y ->
            dle (fitnessValidation y) (fitnessValidation b) = false
   else
     b = best
     /\ Forall (fun y => dle (fitnessValidation y) (fitnessValidation best)
                         = false) seen) ->
  let b' := if dle (fitnessValidation p) (fitnessValidation b) then p
            else b in
  let flag' := if dle (fitnessValidation p) (fitnessValidation b) then true
               else flag in
  if flag' then
    exists k : nat,
      (seen ++ [p]) !! k = Some b'
      /\ dle (fitnessValidation b') (fitnessValidation best) = true
      /\ forall (j : nat) y, (k < j)%nat -> (seen ++ [p]) !! j = Some y ->
           dle (fitnessValidation y) (fitnessValidation b') = false
  else
    b' = best
    /\ Forall (fun y => dle (fitnessValidation y) (fitnessValidation best)
                        = false) (seen ++ [p]).
Proof.
  intros Hinv. cbv zeta.
  destruct (dle (fitnessValidation p) (fitnessValidation b)) eqn:Hle.
  - exists (length seen). split; [|split].
    + rewrite lookup_app_r by lia. by rewrite Nat.sub_diag.
    + destruct flag.
      * destruct Hinv as (k & _ & Hb & _). by eapply dle_trans.
      * destruct Hinv as [-> _]. done.
    + intros j y Hj Hy. apply lookup_lt_Some in Hy.
      rewrite length_app in Hy. cbn [length] in Hy. lia.
  - destruct flag.
    + destruct Hinv as (k & Hk & Hb & Hlater).
      exists k. split; [|split; [done|]].
      * rewrite lookup_app_l; [done|]. by eapply lookup_lt_Some.
      * intros j y Hj Hy.
        destruct (decide (j < length seen)%nat) as [Hlt|Hge].
        -- rewrite lookup_app_l in Hy by done. by eapply Hlater.
        -- rewrite lookup_app_r in Hy by lia.
           destruct (j - length seen)%nat; [|done].
           by injection Hy as <-.
    + destruct Hinv as [-> Hall]. split; [done|].
      apply Forall_app. split; [done|]. by apply Forall_singleton.
Qed.

Lemma last_not_greater_loop (best : chromosome) (l : list chromosome)
    (n : Z) (seen : list chromosome) (b b' : chromosome)
    (flag flag' : bool) :
  (if flag then
     exists k : nat,
       seen !! k = Some b
       /\ dle (fitnessValidation b) (fitnessValidation best) = true
       /\ forall (j : nat) y, (k < j)%nat -> seen !! j = Some y ->
            dle (fitnessValidation y) (fitnessValidation b) = false
   else
     b = best
     /\ Forall (fun y => dle (fitnessValidation y) (fitnessValidation best)
                         = false) seen) ->
  for_loop 0 n
    (fun i '(bestChromoSoFar, flag) =>
       p ← aget l i;
       if dle (fitnessValidation p) (fitnessValidation bestChromoSoFar)
       then Ok (p, true) else Ok (bestChromoSoFar, flag))
    (b, flag) = Ok (b', flag') ->
  if flag' then
    exists k : nat,
      (seen ++ take (Z.to_nat n) l) !! k = Some b'
      /\ dle (fitnessValidation b') (fitnessValidation best) = true
      /\ forall (j : nat) y, (k < j)%nat ->
           (seen ++ take (Z.to_nat n) l) !! j = Some y ->
           dle (fitnessValidation y) (fitnessValidation b') = false
  else
    b' = best
    /\ Forall (fun y => dle (fitnessValidation y) (fitnessValidation best)
                        = false) (seen ++ take (Z.to_nat n) l).
Proof.
  intros Hinv Hrun.
  set (J := fun (i : Z) (s : chromosome * bool) =>
    if s.2 then
      exists k : nat,
        (seen ++ take (Z.to_nat i) l) !! k = Some s.1
        /\ dle (fitnessValidation s.1) (fitnessValidation best) = true
        /\ forall (j : nat) y, (k < j)%nat ->
             (seen ++ take (Z.to_nat i) l) !! j = Some y ->
             dle (fitnessValidation y) (fitnessValidation s.1) = false
    else
      s.1 = best
      /\ Forall (fun y => dle (fitnessValidation y) (fitnessValidation best)
                          = false) (seen ++ take (Z.to_nat i) l)).
  assert (Hend : J (Z.max 0 n) (b', flag')).
  { eapply (for_loop_inv_max J); [ | | exact Hrun]; unfold J; cbn [fst snd].
    - cbn [Z.to_nat take]. by rewrite app_nil_r.
    - intros i [b1 f1] [b2 f2] Hi Hb1 Hbody. cbn [fst snd] in *.
      apply bind_Ok in Hbody as (p & Hp & Hbody).
      apply aget_Ok in Hp as [_ Hp].
      replace (Z.to_nat (i + 1)) with (S (Z.to_nat i)) by lia.
      rewrite (take_S_r _ _ _ Hp), app_assoc.
      pose proof (last_not_greater_step best b1 p f1 _ Hb1) as Hstep.
      cbv zeta in Hstep.
      destruct (dle (fitnessValidation p) (fitnessValidation b1));
        injection Hbody as <- <-; exact Hstep. }
  unfold J in Hend. cbn [fst snd] in Hend.
  destruct (Z.le_gt_cases 0 n).
  - by rewrite Z.max_r in Hend by done.
  - rewrite Z.max_l in Hend by lia.
    by replace (Z.to_nat n) with (Z.to_nat 0) by lia.
Qed.

(** X10.  The chromosome that [getBestChromosome] leaves in [best] has
    a validation fitness that is not greater than the one [best] had,
    nor than that of any of the parents and children it looked at.
    When none of them has a validation fitness less than or equal to
    the one of [best], [best] is left untouched.  Otherwise [best] is
    overwritten with a copy of one of them, whose validation fitness is
    less than or equal to the one [best] had and which no parent or
    child after it equals or betters: a parent or a child with the
    same validation fitness as the best so far takes its place, the
    last one of them winning. *)
Theorem getBestChromosome_keeps_the_best (parents children : list chromosome)
    (numParents numChildren : Z) (best r : chromosome) :
  getBestChromosome parents children numParents numChildren best = Ok r ->
  let looked_at := take (Z.to_nat numParents) parents
                   ++ take (Z.to_nat numChildren) children in
  validation_le r best
  /\ Forall (validation_le r) looked_at
  /\ ((r = best
       /\ Forall (fun y => dle (fitnessValidation y) (fitnessValidation best)
                           = false) looked_at)
      \/ exists (k : nat) c,
           looked_at !! k = Some c
           /\ copyChromosome best c = Ok r
           /\ fitnessValidation r = fitnessValidation c
           /\ dle (fitnessValidation c) (fitnessValidation best) = true
           /\ forall (j : nat) y, (k < j)%nat -> looked_at !! j = Some y ->
                dle (fitnessValidation y) (fitnessValidation c) = false).
Proof.
  unfold getBestChromosome. cbv zeta.
  intros ([b1 f1] & Hp & Hrun)%bind_Ok.
  apply bind_Ok in Hrun as ([b2 f2] & Hc & Hrun).
  assert (Hseen : Forall (validation_le best) [best]).
  { apply Forall_singleton. apply dlt_irrefl. }
  destruct (best_so_far_loop _ _ _ _ _ _ _ Hseen Hp) as (Hall1 & _).
  destruct (best_so_far_loop _ _ _ _ _ _ _ Hall1 Hc) as (Hall2 & _).
  rewrite <- app_assoc in Hall2. cbn [app] in Hall2.
  apply Forall_cons in Hall2 as [Hbest Hall2].
  assert (Hstart : if false then
            exists k : nat,
              [] !! k = Some best
              /\ dle (fitnessValidation best) (fitnessValidation best) = true
              /\ forall (j : nat) (y : chromosome), (k < j)%nat ->
                   [] !! j = Some y ->
                   dle (fitnessValidation y) (fitnessValidation best) = false
          else
            best = best
            /\ Forall (fun y : chromosome =>
                         dle (fitnessValidation y) (fitnessValidation best)
                         = false) []).
  { split; [done | constructor]. }
  pose proof (last_not_greater_loop best parents numParents [] best b1
                false f1 Hstart Hp) as H1.
  cbn [app] in H1.
  pose proof (last_not_greater_loop best children numChildren
                (take (Z.to_nat numParents) parents) b1 b2 f1 f2 H1 Hc)
    as H2.
  destruct f2.
  - pose proof (copyChromosome_fitnessValidation _ _ _ Hrun) as Hfv.
    unfold validation_le in *. rewrite Hfv.
    split; [done|]. split; [done|]. right.
    destruct H2 as (k & Hk & Hle & Hlater). by exists k, b2.
  - injection Hrun as <-. destruct H2 as [-> Hnone].
    split; [done|]. split; [done|]. by left.
Qed.

Lemma getBestChromosome_keeps_the_best_witness :
  exists r,
    getBestChromosome [parent_3] [child_2a; child_2b] 1 2 best_2 = Ok r
    /\ let looked_at := take (Z.to_nat 1) [parent_3]
                        ++ take (Z.to_nat 2) [child_2a; child_2b] in
       validation_le r best_2
       /\ Forall (validation_le r) looked_at
       /\ ((r = best_2
            /\ Forall (fun y => dle (fitnessValidation y)
                                  (fitnessValidation best_2) = false)
                 looked_at)
           \/ exists (k : nat) c,
                looked_at !! k = Some c
                /\ copyChromosome best_2 c = Ok r
                /\ fitnessValidation r = fitnessValidation c
                /\ dle (fitnessValidation c) (fitnessValidation best_2)
                   = true
                /\ forall (j : nat) y, (k < j)%nat ->
                     looked_at !! j = Some y ->
                     dle (fitnessValidation y) (fitnessValidation c)
                     = false).
Proof.
  assert (Hok : is_ok (getBestChromosome [parent_3] [child_2a; child_2b] 1 2
                         best_2) = true) by (vm_compute; reflexivity).
  destruct (getBestChromosome [parent_3] [child_2a; child_2b] 1 2 best_2)
    as [r|e] eqn:E; [|discriminate].
  exists r. split; [reflexivity|].
  exact (getBestChromosome_keeps_the_best [parent_3] [child_2a; child_2b]
           1 2 best_2 r E).
Defined.

(** ** Comparing chromosomes *)

(** A loop whose rounds go on where [P] holds and return [v0] where it
    does not goes through when [P] holds throughout, and returns [v0]
    otherwise. *)
Lemma for_nat_ret_forall {R} (body : Z -> unit -> result (unit + R))
    (P : Z -> Prop) (v0 : R) :
  forall (n : nat) (lo : Z),
  (forall i, lo <= i < lo + Z.of_nat n ->
     (P i /\ body i tt = Ok (inl tt)) \/ (~ P i /\ body i tt = Ok (inr v0))) ->
  ((forall i, lo <= i < lo + Z.of_nat n -> P i)
   /\ for_nat_ret n lo body tt = Ok (inl tt))
  \/ (~ (forall i, lo <= i < lo + Z.of_nat n -> P i)
      /\ for_nat_ret n lo body tt = Ok (inr v0)).
Proof.
  induction n as [|n IH]; intros lo Hbody.
  - left. split; [|done]. intros i Hi. lia.
  - cbn [for_nat_ret].
    destruct (Hbody lo ltac:(lia)) as [[HP Hrun]|[HP Hrun]]; rewrite Hrun;
      cbn [mbind result_bind].
    + destruct (IH (lo + 1)) as [[Hall Hrest]|[Hnot Hrest]].
      * intros i Hi. apply Hbody. lia.
      * left. split; [|done]. intros i Hi.
        destruct (decide (i = lo)) as [->|Hne]; [done|]. apply Hall. lia.
      * right. split; [|done]. intros Hall. apply Hnot.
        intros i Hi. apply Hall. lia.
    + right. split; [|done]. intros Hall. apply HP, Hall. lia.
Qed.

Lemma for_loop_ret_forall {R} (body : Z -> unit -> result (unit + R))
    (P : Z -> Prop) (v0 : R) (lo hi : Z) :
  (forall i, lo <= i < hi ->
     (P i /\ body i tt = Ok (inl tt)) \/ (~ P i /\ body i tt = Ok (inr v0))) ->
  ((forall i, lo <= i < hi -> P i)
   /\ for_loop_ret lo hi body tt = Ok (inl tt))
  \/ (~ (forall i, lo <= i < hi -> P i)
      /\ for_loop_ret lo hi body tt = Ok (inr v0)).
Proof.
  intros Hbody. unfold for_loop_ret.
  destruct (for_nat_ret_forall body P v0 (Z.to_nat (hi - lo)) lo)
    as [[Hall Hrun]|[Hnot Hrun]].
  - intros i Hi. apply Hbody. lia.
  - left. split; [|done]. intros i Hi. apply Hall. lia.
  - right. split; [|done]. intros Hall. apply Hnot.
    intros i Hi. apply Hall. lia.
Qed.

(** The comparison of two arrays of integers, entry by entry. *)
Lemma compare_entries (l1 l2 : list Z) (n : Z) :
  n <= Z.of_nat (length l1) -> n <= Z.of_nat (length l2) ->
  ((forall j : nat, Z.of_nat j < n -> l1 !! j = l2 !! j)
   /\ for_loop_ret 0 n
        (fun j _ =>
           a ← aget l1 j;
           b ← aget l2 j;
           if negb (a =? b) then Ok (inr 0) else Ok (inl tt))
        tt = Ok (inl tt))
  \/ (~ (forall j : nat, Z.of_nat j < n -> l1 !! j = l2 !! j)
      /\ for_loop_ret 0 n
           (fun j _ =>
              a ← aget l1 j;
              b ← aget l2 j;
              if negb (a =? b) then Ok (inr 0) else Ok (inl tt))
           tt = Ok (inr 0)).
Proof.
  intros H1 H2.
  destruct (for_loop_ret_forall
    (fun j (_ : unit) =>
       a ← aget l1 j;
       b ← aget l2 j;
       if negb (a =? b) then Ok (inr 0) else Ok (inl tt))
    (fun j => l1 !! Z.to_nat j = l2 !! Z.to_nat j) 0 0 n)
    as [[Hall Hrun]|[Hnot Hrun]].
  - intros j Hj.
    destruct (lookup_lt_is_Some_2 l1 (Z.to_nat j)) as [a Ha]; [lia|].
    destruct (lookup_lt_is_Some_2 l2 (Z.to_nat j)) as [b Hb]; [lia|].
    assert (Hga : aget l1 j = Ok a) by (apply aget_Ok; split; [lia|done]).
    assert (Hgb : aget l2 j = Ok b) by (apply aget_Ok; split; [lia|done]).
    rewrite Hga, Hgb, Ha, Hb. cbn [mbind result_bind].
    destruct (Z.eqb_spec a b) as [->|Hne]; cbn [negb].
    + by left.
    + right. split; [congruence|done].
  - left. split; [|done]. intros j Hj.
    specialize (Hall (Z.of_nat j) ltac:(lia)). by rewrite Nat2Z.id in Hall.
  - right. split; [|done]. intros Hall. apply Hnot. intros j Hj.
    apply Hall. lia.
Qed.

Lemma dimensionsDiffer_spec (a b : chromosome) :
  dimensionsDiffer a b = false <->
  numInputs a = numInputs b /\ numNodes a = numNodes b
  /\ numOutputs a = numOutputs b /\ arity a = arity b.
Proof.
  unfold dimensionsDiffer.
  destruct (Z.eqb_spec (numInputs a) (numInputs b)),
           (Z.eqb_spec (numNodes a) (numNodes b)),
           (Z.eqb_spec (numOutputs a) (numOutputs b)),
           (Z.eqb_spec (arity a) (arity b)); cbn; split; try done;
    intros (? & ? & ? & ?); done.
Qed.

Lemma allocated_lookup (c : chromosome) (i : Z) :
  allocated c -> 0 <= i < numNodes c ->
  exists n, nodes c !! Z.to_nat i = Some n /\ aget (nodes c) i = Ok n
            /\ arity c <= Z.of_nat (length (inputs n))
            /\ arity c <= Z.of_nat (length (weights n)).
Proof.
  intros (Hn & _ & Hall) Hi.
  destruct (lookup_lt_is_Some_2 (nodes c) (Z.to_nat i)) as [n Hl]; [lia|].
  exists n. split; [done|]. split; [apply aget_Ok; split; [lia|done]|].
  apply (Hall (Z.to_nat i)); [lia | done].
Qed.

Lemma compareChromosomes_decides (a b : chromosome) :
  allocated a -> allocated b ->
  (genes_equal a b /\ compareChromosomes a b = Ok 1)
  \/ (~ genes_equal a b /\ compareChromosomes a b = Ok 0).
Proof.
  intros Ha Hb. unfold compareChromosomes.
  destruct (dimensionsDiffer a b) eqn:Hdim.
  { right. split; [|done]. intros (H1 & H2 & H3 & H4 & _).
    assert (dimensionsDiffer a b = false) by (by apply dimensionsDiffer_spec).
    congruence. }
  apply dimensionsDiffer_spec in Hdim as (HnI & HnN & HnO & Har).
  set (P := fun i : Z =>
    forall na nb, nodes a !! Z.to_nat i = Some na ->
      nodes b !! Z.to_nat i = Some nb ->
      function na = function nb
      /\ forall j : nat, Z.of_nat j < arity a ->
           inputs na !! j = inputs nb !! j).
  destruct (for_loop_ret_forall
    (fun i (_ : unit) =>
       na ← aget (nodes a) i;
       nb ← aget (nodes b) i;
       if negb (function na =? function nb) then Ok (inr 0)
       else
         for_loop_ret 0 (arity a)
           (fun j _ =>
              x ← aget (inputs na) j;
              y ← aget (inputs nb) j;
              if negb (x =? y) then Ok (inr 0) else Ok (inl tt))
           tt)
    P 0 0 (numNodes a)) as [[Hall Hrun]|[Hnot Hrun]].
  - intros i Hi.
    destruct (allocated_lookup a i Ha Hi) as (na & Hla & Hga & Hia & _).
    destruct (allocated_lookup b i Hb ltac:(lia)) as (nb & Hlb & Hgb & Hib & _).
    rewrite Hga, Hgb. cbn [mbind result_bind]. unfold P.
    destruct (Z.eqb_spec (function na) (function nb)) as [Hf|Hf]; cbn [negb].
    + destruct (compare_entries (inputs na) (inputs nb) (arity a))
        as [[Hin Hr]|[Hin Hr]]; [lia | lia | |].
      * left. split; [|done]. intros na' nb' Hna' Hnb'.
        assert (na' = na) as -> by congruence.
        assert (nb' = nb) as -> by congruence. done.
      * right. split; [|done]. intros HP. apply Hin.
        by apply (HP na nb Hla Hlb).
    + right. split; [|done]. intros HP. apply Hf.
      by apply (HP na nb Hla Hlb).
  - rewrite Hrun. cbn [and_then mbind result_bind]. unfold compareOutputs.
    destruct Ha as (_ & Hoa & _), Hb as (_ & Hob & _).
    destruct (compare_entries (outputNodes a) (outputNodes b) (numOutputs a))
      as [[Hout Hr]|[Hout Hr]]; [lia | lia | |]; rewrite Hr;
      cbn [and_then mbind result_bind].
    + left. split; [|done]. repeat (split; [done|]).
      split; [|done]. intros i na nb Hi Hna Hnb.
      apply (Hall (Z.of_nat i)); [lia | by rewrite Nat2Z.id..].
    + right. split; [|done]. intros (_ & _ & _ & _ & _ & Hg). by apply Hout.
  - rewrite Hrun. cbn [and_then mbind result_bind].
    right. split; [|done]. intros (_ & _ & _ & _ & Hg & _). apply Hnot.
    intros i Hi na nb Hna Hnb. apply (Hg (Z.to_nat i)); [lia|done|done].
Qed.

(** X11.  On two chromosomes whose arrays are as long as their
    dimensions say, [compareChromosomes] returns, and it returns 1 when
    the dimensions and the function, input and output genes are the
    same and 0 when they are not.  Weights, cached values and fitness
    do not count. *)
Theorem compareChromosomes_decides_equal_genes (a b : chromosome) :
  allocated a -> allocated b ->
  (compareChromosomes a b = Ok 1 \/ compareChromosomes a b = Ok 0)
  /\ (compareChromosomes a b = Ok 1 <-> genes_equal a b).
Proof.
  intros Ha Hb.
  destruct (compareChromosomes_decides a b Ha Hb) as [[Hg Hr]|[Hg Hr]];
    rewrite Hr.
  - split; [by left|]. done.
  - split; [by right|]. split; [done|]. intros Hg'. by destruct Hg.
Qed.

Lemma compareChromosomes_decides_equal_genes_witness :
  compareChromosomes chromo_add chromo_div = Ok 0
  /\ (compareChromosomes chromo_add chromo_add = Ok 1
      <-> genes_equal chromo_add chromo_add).
Proof.
  assert (Ha : allocated chromo_add).
  { unfold allocated. cbn. split; [lia|]. split; [lia|].
    intros [|i] n Hi; [|cbn in Hi; lia]. intros [= <-]. cbn. lia. }
  split; [vm_compute; reflexivity|].
  exact (proj2 (compareChromosomes_decides_equal_genes chromo_add chromo_add
                  Ha Ha)).
Defined.

(** ** Copies *)

Lemma copyNode_spec (nd ns r : node) :
  copyNode nd ns = Ok r ->
  copied_node ns r /\ output r = output nd
  /\ length (inputs r) = length (inputs nd)
  /\ length (weights r) = length (weights nd).
Proof.
  unfold copyNode. intros Hrun.
  set (J := fun (i : Z) (m : node) =>
    function m = function ns /\ active m = active ns
    /\ maxArity m = maxArity ns /\ actArity m = actArity ns
    /\ output m = output nd
    /\ length (inputs m) = length (inputs nd)
    /\ length (weights m) = length (weights nd)
    /\ forall j : nat, Z.of_nat j < i ->
         is_Some (inputs ns !! j) /\ is_Some (weights ns !! j)
         /\ inputs m !! j = inputs ns !! j
         /\ weights m !! j = weights ns !! j).
  assert (Hend : J (Z.max 0 (maxArity ns)) r).
  { eapply (for_loop_inv_max J); [ | | exact Hrun]; unfold J.
    - cbn. repeat (split; [done|]). intros j Hj. lia.
    - intros i m m' Hi (Hf & Ha & Hm & Hac & Ho & Hli & Hlw & Hlow) Hbody.
      apply bind_Ok in Hbody as (x & Hx & Hbody).
      apply bind_Ok in Hbody as (ins & Hins & Hbody).
      apply bind_Ok in Hbody as (w & Hw & Hbody).
      apply bind_Ok in Hbody as (ws & Hws & [= <-]).
      apply aget_Ok in Hx as [_ Hx]. apply aget_Ok in Hw as [_ Hw].
      apply aset_Ok in Hins as [Hri ->]. apply aset_Ok in Hws as [Hrw ->].
      cbn [function active maxArity actArity output inputs weights
           set_inputs set_weights] in *.
      rewrite !length_insert. repeat (split; [done|]).
      intros j Hj. destruct (decide (j = Z.to_nat i)) as [->|Hne].
      + rewrite !list_lookup_insert_eq by lia. by rewrite Hx, Hw.
      + rewrite !list_lookup_insert_ne by done. apply Hlow. lia. }
  destruct Hend as (Hf & Ha & Hm & Hac & Ho & Hli & Hlw & Hlow).
  split; [|done]. unfold copied_node. repeat (split; [done|]).
  intros j Hj. apply Hlow. lia.
Qed.

Lemma copyChromosome_spec (dest src r : chromosome) :
  copyChromosome dest src = Ok r ->
  dimensionsDiffer dest src = false
  /\ numInputs r = numInputs src /\ numNodes r = numNodes src
  /\ numOutputs r = numOutputs src /\ arity r = arity src
  /\ numActiveNodes r = numActiveNodes src
  /\ fitness r = fitness src /\ fitnessValidation r = fitnessValidation src
  /\ generation r = generation src
  /\ length (nodes r) = length (nodes dest)
  /\ length (outputNodes r) = length (outputNodes dest)
  /\ (forall i : nat, Z.of_nat i < numNodes src ->
        exists ns nr, nodes src !! i = Some ns /\ nodes r !! i = Some nr
                      /\ copied_node ns nr)
  /\ (forall i : nat, Z.of_nat i < numOutputs src ->
        is_Some (outputNodes src !! i)
        /\ outputNodes r !! i = outputNodes src !! i).
Proof.
  unfold copyChromosome, dimensionsDiffer.
  destruct (Z.eqb_spec (numInputs dest) (numInputs src)) as [HnI|];
    cbn [negb orb]; [|done].
  destruct (Z.eqb_spec (numNodes dest) (numNodes src)) as [HnN|];
    cbn [negb orb]; [|done].
  destruct (Z.eqb_spec (numOutputs dest) (numOutputs src)) as [HnO|];
    cbn [negb orb]; [|done].
  destruct (Z.eqb_spec (arity dest) (arity src)) as [Har|];
    cbn [negb orb]; [|done].
  intros (d & Hnodes & Hrun)%bind_Ok.
  apply bind_Ok in Hrun as (on & Hout & [= <-]).
  cbn [numInputs numNodes numOutputs arity numActiveNodes fitness
       fitnessValidation generation nodes outputNodes set_generation
       set_fitnessValidation set_fitness set_numActiveNodes set_outputNodes
       set_funcSet].
  set (J := fun (i : Z) (s : chromosome) =>
    numInputs s = numInputs dest /\ numNodes s = numNodes dest
    /\ numOutputs s = numOutputs dest /\ arity s = arity dest
    /\ outputNodes s = outputNodes dest
    /\ length (nodes s) = length (nodes dest)
    /\ forall k : nat, Z.of_nat k < i ->
         exists ns nr, nodes src !! k = Some ns /\ nodes s !! k = Some nr
                       /\ copied_node ns nr).
  assert (Hend : J (Z.max 0 (numNodes src)) d).
  { eapply (for_loop_inv_max J); [ | | exact Hnodes]; unfold J.
    - repeat (split; [done|]). intros k Hk. lia.
    - intros i s s' Hi (H1 & H2 & H3 & H4 & H5 & Hlen & Hlow) Hbody.
      apply bind_Ok in Hbody as (nd & Hnd & Hbody).
      apply bind_Ok in Hbody as (ns & Hns & Hbody).
      apply bind_Ok in Hbody as (nd' & Hcopy & Hbody).
      apply bind_Ok in Hbody as (nds & Hset & Hbody).
      apply bind_Ok in Hbody as (x & _ & Hbody).
      apply bind_Ok in Hbody as (an & _ & [= <-]).
      apply aset_Ok in Hset as [Hr ->]. apply aget_Ok in Hns as [_ Hns].
      cbn [numInputs numNodes numOutputs arity outputNodes nodes
           set_activeNodes set_nodes].
      rewrite length_insert. repeat (split; [done|]).
      intros k Hk. destruct (decide (k = Z.to_nat i)) as [->|Hne].
      + exists ns, nd'. split; [done|].
        split; [by rewrite list_lookup_insert_eq by lia|].
        by apply copyNode_spec in Hcopy as [? _].
      + rewrite list_lookup_insert_ne by done. apply Hlow. lia. }
  destruct Hend as (H1 & H2 & H3 & H4 & H5 & Hlen & Hlow).
  destruct (copyArray_spec _ _ _ _ Hout) as [Holen Hocopy].
  cbn [outputNodes set_funcSet] in *.
  split; [done|]. split; [congruence|]. split; [congruence|].
  split; [congruence|]. split; [congruence|]. repeat (split; [done|]).
  split; [congruence|]. split.
  - intros i Hi. apply Hlow. lia.
  - intros i Hi. rewrite (Hocopy i Hi). split; [|done].
    apply lookup_lt_is_Some.
    destruct (Z.le_gt_cases (Z.of_nat (length (outputNodes src)))
                (Z.of_nat i)) as [Hge|]; [|lia].
    exfalso. revert Hout. unfold copyArray. intros Hout.
    destruct (for_loop_split _ 0 (Z.of_nat i) (numOutputs src) _ _
                ltac:(lia) Hout) as (t & _ & Hrest).
    unfold for_loop in Hrest.
    replace (Z.to_nat (numOutputs src - Z.of_nat i))
      with (S (Z.to_nat (numOutputs src - Z.of_nat i - 1))) in Hrest by lia.
    cbn [for_nat] in Hrest.
    rewrite (aget_past_end _ _ Hge) in Hrest. done.
Qed.

Lemma copy_allocated (dest src r : chromosome) :
  (forall (i : nat) n, Z.of_nat i < numNodes src -> nodes src !! i = Some n ->
     arity src <= maxArity n) ->
  copyChromosome dest src = Ok r ->
  allocated src /\ allocated r /\ genes_equal r src.
Proof.
  intros Hmax Hrun.
  destruct (copyChromosome_spec _ _ _ Hrun)
    as (_ & HnI & HnN & HnO & Har & _ & _ & _ & _ & _ & _ & Hnodes & Houts).
  assert (Hlen : forall {A} (l : list A) (n : Z),
            (forall i : nat, Z.of_nat i < n -> is_Some (l !! i)) ->
            n <= Z.of_nat (length l)).
  { intros A l n Hall. destruct (Z.le_gt_cases n 0) as [|Hpos]; [lia|].
    specialize (Hall (Z.to_nat (n - 1)) ltac:(lia)).
    apply lookup_lt_is_Some in Hall. lia. }
  assert (Hsrc : allocated src).
  { split; [|split].
    - apply Hlen. intros i Hi. destruct (Hnodes i Hi) as (ns & nr & -> & _).
      by eexists.
    - apply Hlen. intros i Hi. by apply Houts.
    - intros i n Hi Hn. destruct (Hnodes i Hi) as (ns & nr & Hns & _ & Hc).
      assert (ns = n) as -> by congruence.
      destruct Hc as (_ & _ & _ & _ & Hc). specialize (Hmax i n Hi Hn).
      split; apply Hlen; intros j Hj; apply Hc; lia. }
  assert (Hr : allocated r).
  { split; [|split].
    - rewrite HnN. apply Hlen. intros i Hi.
      destruct (Hnodes i Hi) as (ns & nr & _ & -> & _). by eexists.
    - rewrite HnO. apply Hlen. intros i Hi.
      destruct (Houts i Hi) as [Hs ->]. done.
    - rewrite HnN, Har. intros i n Hi Hn.
      destruct (Hnodes i Hi) as (ns & nr & Hns & Hnr & Hc).
      assert (nr = n) as -> by congruence.
      destruct Hc as (_ & _ & _ & _ & Hc). specialize (Hmax i ns Hi Hns).
      split; apply Hlen; intros j Hj;
        destruct (Hc j ltac:(lia)) as (Hi1 & Hi2 & He1 & He2);
        rewrite ?He1, ?He2; done. }
  split; [done|]. split; [done|].
  unfold genes_equal. rewrite HnI, HnN, HnO, Har. repeat (split; [done|]).
  split.
  - intros i na nb Hi Hna Hnb.
    destruct (Hnodes i Hi) as (ns & nr & Hns & Hnr & Hc).
    assert (ns = nb) as -> by congruence.
    assert (nr = na) as -> by congruence.
    destruct Hc as (Hf & _ & _ & _ & Hc). split; [done|].
    intros j Hj. specialize (Hmax i nb Hi Hnb). apply Hc. lia.
  - intros i Hi. by apply Houts.
Qed.

(** X12.  A chromosome that [copyChromosome] has written compares
    equal to its source with [compareChromosomes], and has its weights
    within the arity, its fitness values, its generation and its
    number of active nodes; this for a source whose nodes have the
    arity of the chromosome, as the nodes of the library have.  A
    destination of other dimensions ends the program. *)
Theorem copyChromosome_copy_compares_equal (dest src r : chromosome) :
  (forall (i : nat) n, Z.of_nat i < numNodes src -> nodes src !! i = Some n ->
     arity src <= maxArity n) ->
  copyChromosome dest src = Ok r ->
  compareChromosomes r src = Ok 1
  /\ (forall (i j : nat) ns nr,
        Z.of_nat i < numNodes src -> Z.of_nat j < arity src ->
        nodes src !! i = Some ns -> nodes r !! i = Some nr ->
        weights nr !! j = weights ns !! j)
  /\ fitness r = fitness src /\ fitnessValidation r = fitnessValidation src
  /\ generation r = generation src
  /\ numActiveNodes r = numActiveNodes src
  /\ (forall d s, dimensionsDiffer d s = true ->
        copyChromosome d s = Err Exit).
Proof.
  intros Hmax Hrun.
  destruct (copy_allocated _ _ _ Hmax Hrun) as (Hsrc & Hr & Hgenes).
  destruct (copyChromosome_spec _ _ _ Hrun)
    as (_ & _ & _ & _ & _ & Hact & Hfit & Hfv & Hgen & _ & _ & Hnodes & _).
  split.
  { destruct (compareChromosomes_decides r src Hr Hsrc) as [[_ Hc]|[Hn _]];
      [done | by destruct Hn]. }
  split.
  { intros i j ns nr Hi Hj Hns Hnr.
    destruct (Hnodes i Hi) as (ns' & nr' & Hns' & Hnr' & Hc).
    assert (ns' = ns) as -> by congruence.
    assert (nr' = nr) as -> by congruence.
    destruct Hc as (_ & _ & _ & _ & Hc). specialize (Hmax i ns Hi Hns).
    apply Hc. lia. }
  repeat (split; [done|]).
  intros d s. unfold copyChromosome, dimensionsDiffer.
  destruct (negb (numInputs d =? numInputs s)); [done|].
  destruct (negb (numNodes d =? numNodes s)); [done|].
  destruct (negb (numOutputs d =? numOutputs s)); [done|].
  destruct (negb (arity d =? arity s)); done.
Qed.

Lemma copyChromosome_copy_compares_equal_witness :
  exists r,
    copyChromosome chromo_add chromo_div = Ok r
    /\ compareChromosomes r chromo_div = Ok 1.
Proof.
  assert (Hok : is_ok (copyChromosome chromo_add chromo_div) = true)
    by (vm_compute; reflexivity).
  destruct (copyChromosome chromo_add chromo_div) as [r|e] eqn:E;
    [|discriminate].
  exists r. split; [reflexivity|].
  assert (Hmax : forall (i : nat) n, Z.of_nat i < numNodes chromo_div ->
            nodes chromo_div !! i = Some n -> arity chromo_div <= maxArity n).
  { intros [|i] n Hi; [|cbn in Hi; lia]. intros [= <-]. cbn. lia. }
  exact (proj1 (copyChromosome_copy_compares_equal chromo_add chromo_div r
                  Hmax E)).
Defined.

(** ** Weights that are not numbers *)

Lemma deq_self (x : double) : deq x x = negb (isnan x).
Proof.
  unfold deq, SFeqb. destruct x as [s|s| |s m e]; cbn; try done;
    destruct s; try done.
  all: rewrite Z.compare_refl, Pos.compare_cont_refl; done.
Qed.

Lemma compareChromosomesANN_self (c : chromosome) :
  allocated c ->
  (no_nan_weights c /\ compareChromosomesANN c c = Ok 1)
  \/ (~ no_nan_weights c /\ compareChromosomesANN c c = Ok 0).
Proof.
  intros Ha. unfold compareChromosomesANN.
  assert (Hdim : dimensionsDiffer c c = false)
    by (by apply dimensionsDiffer_spec).
  rewrite Hdim.
  set (P := fun i : Z =>
    forall n (j : nat) w, nodes c !! Z.to_nat i = Some n ->
      Z.of_nat j < arity c -> weights n !! j = Some w -> isnan w = false).
  destruct (for_loop_ret_forall
    (fun i (_ : unit) =>
       na ← aget (nodes c) i;
       nb ← aget (nodes c) i;
       if negb (function na =? function nb) then Ok (inr 0)
       else
         for_loop_ret 0 (arity c)
           (fun j _ =>
              a ← aget (inputs na) j;
              b ← aget (inputs nb) j;
              if negb (a =? b) then Ok (inr 0)
              else
                wa ← aget (weights na) j;
                wb ← aget (weights nb) j;
                if negb (deq wa wb) then Ok (inr 0) else Ok (inl tt))
           tt)
    P 0 0 (numNodes c)) as [[Hall Hrun]|[Hnot Hrun]].
  - intros i Hi.
    destruct (allocated_lookup c i Ha Hi) as (n & Hl & Hg & Hin & Hw).
    rewrite Hg. cbn [mbind result_bind]. rewrite Z.eqb_refl. cbn [negb].
    destruct (for_loop_ret_forall
      (fun j (_ : unit) =>
         a ← aget (inputs n) j;
         b ← aget (inputs n) j;
         if negb (a =? b) then Ok (inr 0)
         else
           wa ← aget (weights n) j;
           wb ← aget (weights n) j;
           if negb (deq wa wb) then Ok (inr 0) else Ok (inl tt))
      (fun j => forall w, weights n !! Z.to_nat j = Some w -> isnan w = false)
      0 0 (arity c)) as [[Hallj Hrunj]|[Hnotj Hrunj]].
    + intros j Hj.
      destruct (lookup_lt_is_Some_2 (inputs n) (Z.to_nat j)) as [a Hla];
        [lia|].
      destruct (lookup_lt_is_Some_2 (weights n) (Z.to_nat j)) as [w Hlw];
        [lia|].
      assert (Hga : aget (inputs n) j = Ok a)
        by (apply aget_Ok; split; [lia|done]).
      assert (Hgw : aget (weights n) j = Ok w)
        by (apply aget_Ok; split; [lia|done]).
      rewrite Hga. cbn [mbind result_bind]. rewrite Z.eqb_refl. cbn [negb].
      rewrite Hgw. cbn [mbind result_bind]. rewrite deq_self, negb_involutive.
      destruct (isnan w) eqn:Hnan.
      * right. split; [|done]. intros HP. specialize (HP w Hlw). congruence.
      * left. split; [|done]. intros w' Hw'. congruence.
    + left. split; [|done]. intros n' j w Hn' Hj Hw'.
      assert (n' = n) as -> by congruence.
      apply (Hallj (Z.of_nat j)); [lia|]. by rewrite Nat2Z.id.
    + right. split; [|done]. intros HP. apply Hnotj. intros j Hj w Hw'.
      apply (HP n (Z.to_nat j) w Hl); [lia|done].
  - rewrite Hrun. cbn [and_then mbind result_bind]. unfold compareOutputs.
    destruct Ha as (_ & Hoa & _).
    destruct (compare_entries (outputNodes c) (outputNodes c) (numOutputs c))
      as [[Hout Hr]|[Hout Hr]]; [lia | lia | |]; rewrite Hr;
      cbn [and_then mbind result_bind].
    + left. split; [|done]. intros i j n w Hi Hn Hj Hw.
      apply (Hall (Z.of_nat i) ltac:(lia) n j w); [by rewrite Nat2Z.id|done..].
    + by destruct Hout.
  - rewrite Hrun. cbn [and_then mbind result_bind].
    right. split; [|done]. intros Hno. apply Hnot.
    intros i Hi n j w Hn Hj Hw. apply (Hno (Z.to_nat i) j n w); [lia|done..].
Qed.

(** X13.  [compareChromosomesANN] compares the weights with [!=], and a
    NaN differs from itself: a chromosome compares equal to itself
    exactly when none of its weights is NaN. *)
Theorem compareChromosomesANN_self_comparison (c : chromosome) :
  allocated c ->
  (compareChromosomesANN c c = Ok 1 \/ compareChromosomesANN c c = Ok 0)
  /\ (compareChromosomesANN c c = Ok 1 <-> no_nan_weights c).
Proof.
  intros Ha.
  destruct (compareChromosomesANN_self c Ha) as [[Hn Hr]|[Hn Hr]]; rewrite Hr.
  - split; [by left|]. done.
  - split; [by right|]. split; [done|]. intros Hn'. by destruct Hn.
Qed.

Lemma compareChromosomesANN_self_comparison_witness :
  compareChromosomesANN chromo_nan chromo_nan = Ok 0
  /\ compareChromosomes chromo_nan chromo_nan = Ok 1
  /\ (compareChromosomesANN chromo_nan chromo_nan = Ok 1
      <-> no_nan_weights chromo_nan).
Proof.
  assert (Ha : allocated chromo_nan).
  { unfold allocated. cbn. split; [lia|]. split; [lia|].
    intros [|i] n Hi; [|cbn in Hi; lia]. intros [= <-]. cbn. lia. }
  split; [vm_compute; reflexivity|]. split; [vm_compute; reflexivity|].
  exact (proj2 (compareChromosomesANN_self_comparison chromo_nan Ha)).
Defined.

(** ** Mutation keeps chromosomes well formed *)

Lemma well_formed_like_refl (c : chromosome) :
  wf_chromosome c = true -> genes_valid c -> well_formed_like c c.
Proof. by intros Hwf Hgv. Qed.

(** A node of a well-formed chromosome may be replaced by a node that
    is well formed. *)
Lemma upd_node_wf (c0 c c' : chromosome) (k : Z) (f : node -> node) :
  well_formed_like c0 c ->
  (forall n, wf_node c n = true -> wf_node c (f n) = true) ->
  (forall n, node_genes_valid c n -> node_genes_valid c (f n)) ->
  upd_node c k f = Ok c' ->
  well_formed_like c0 c' /\ 0 <= k < numNodes c.
Proof.
  intros (Hwf & [Hgn Hgo] & HnI & HnN & HnO & Har & Hfs) Hf Hg Hrun.
  apply upd_node_Ok in Hrun as (n & Hk & Hn & ->).
  destruct (wf_chromosome_spec _ Hwf) as (Hlen & Hact & Hout & Houts & Hnodes).
  pose proof (lookup_lt_Some _ _ _ Hn) as Hlt.
  split; [|lia]. split; [|split; [|done]].
  - apply wf_chromosome_intro; cbn [nodes numNodes numInputs numOutputs
      outputNodes activeNodes set_nodes].
    + rewrite length_insert. lia.
    + done.
    + done.
    + apply Forall_forall. exact Houts.
    + apply Forall_insert.
      * apply Forall_forall. intros m Hm. specialize (Hnodes m Hm).
        unfold wf_node in *. exact Hnodes.
      * assert (Hwn : wf_node c n = true)
          by (apply Hnodes; by eapply list_elem_of_lookup_2).
        specialize (Hf n Hwn). unfold wf_node in *. exact Hf.
  - split; [|exact Hgo].
    cbn [nodes set_nodes]. apply Forall_insert.
    + exact Hgn.
    + apply Hg. exact (Forall_lookup_1 _ _ _ _ Hgn Hn).
Qed.

Lemma set_gene_function_wf (c0 c c' : chromosome) (i v : Z) :
  well_formed_like c0 c ->
  0 <= v < Z.of_nat (length (maxNumInputs (funcSet c))) ->
  0 <= v < numFunctions (funcSet c) ->
  set_gene_function c i v = Ok c' ->
  well_formed_like c0 c'.
Proof.
  intros Hinv Hv Hv' Hrun. eapply upd_node_wf; [exact Hinv| | |exact Hrun].
  - intros n. unfold wf_node. cbn [function inputs set_function].
    rewrite !andb_true_iff. intros [[[_ _] Ha] Hin].
    repeat split; [lia | lia | done | done].
  - intros n [_ Hin]. split; [exact Hv' | exact Hin].
Qed.

Lemma set_gene_input_wf (c0 c c' : chromosome) (i j v : Z) :
  well_formed_like c0 c ->
  0 <= v < numInputs c + numNodes c ->
  set_gene_input c i j v = Ok c' ->
  well_formed_like c0 c' /\ 0 <= i < numNodes c.
Proof.
  intros Hinv Hv. unfold set_gene_input.
  intros (n & Hn & Hrun)%bind_Ok.
  apply bind_Ok in Hrun as (ins & Hins & Hrun).
  apply aset_Ok in Hins as [_ ->].
  eapply upd_node_wf; [exact Hinv| | |exact Hrun].
  - intros m. unfold wf_node. cbn [function inputs set_inputs].
    rewrite !andb_true_iff. intros [[[Hf1 Hf2] Ha] Hin].
    apply aget_Ok in Hn as [_ Hn].
    destruct Hinv as (Hwf & _).
    destruct (wf_chromosome_spec _ Hwf) as (_ & _ & _ & _ & Hnodes).
    assert (Hwn : wf_node c n = true)
      by (apply Hnodes; by eapply list_elem_of_lookup_2).
    destruct (wf_node_spec _ _ Hwn) as (_ & Han & Hinn).
    repeat split; try done.
    + rewrite length_insert. lia.
    + apply forallb_forall. intros b Hb%list_elem_of_In.
      apply list_elem_of_lookup in Hb as [k Hk].
      destruct (decide (k = Z.to_nat j)) as [->|Hne].
      * destruct (decide (Z.to_nat j < length (inputs n))%nat).
        -- rewrite list_lookup_insert_eq in Hk by done.
           injection Hk as <-. lia.
        -- rewrite list_insert_ge in Hk by lia.
           specialize (Hinn b (list_elem_of_lookup_2 _ _ _ Hk)). lia.
      * rewrite list_lookup_insert_ne in Hk by done.
        specialize (Hinn b (list_elem_of_lookup_2 _ _ _ Hk)). lia.
  - intros m [Hfm _]. split; [exact Hfm|]. cbn [inputs set_inputs].
    apply aget_Ok in Hn as [_ Hn].
    destruct Hinv as (_ & [Hgn _] & _).
    destruct (Forall_lookup_1 _ _ _ _ Hgn Hn) as [_ Hinn].
    by apply Forall_insert.
Qed.

Lemma set_gene_weight_wf (c0 c c' : chromosome) (i j : Z) (w : double) :
  well_formed_like c0 c ->
  set_gene_weight c i j w = Ok c' ->
  well_formed_like c0 c'.
Proof.
  intros Hinv. unfold set_gene_weight.
  intros (n & Hn & Hrun)%bind_Ok.
  apply bind_Ok in Hrun as (ws & _ & Hrun).
  eapply upd_node_wf; [exact Hinv| | |exact Hrun]; done.
Qed.

Lemma set_gene_output_wf (c0 c c' : chromosome) (i v : Z) :
  well_formed_like c0 c ->
  0 <= v < numInputs c + numNodes c ->
  set_gene_output c i v = Ok c' ->
  well_formed_like c0 c'.
Proof.
  intros (Hwf & [Hgn Hgo] & HnI & HnN & HnO & Har & Hfs) Hv.
  unfold set_gene_output.
  intros (on & Hset & [= <-])%bind_Ok. apply aset_Ok in Hset as [Hr ->].
  destruct (wf_chromosome_spec _ Hwf) as (Hlen & Hact & Hout & Houts & Hnodes).
  split; [|split; [|done]].
  - apply wf_chromosome_intro; cbn [nodes numNodes numInputs numOutputs
      outputNodes activeNodes set_outputNodes].
    + done.
    + done.
    + rewrite length_insert. lia.
    + apply Forall_insert; [by apply Forall_forall|lia].
    + apply Forall_forall. intros m Hm. specialize (Hnodes m Hm).
      unfold wf_node in *. exact Hnodes.
  - split; [exact Hgn|]. cbn [outputNodes set_outputNodes].
    by apply Forall_insert.
Qed.

Section MutationKeepsWellFormed.
Context `{Libc}.
Variable c0 : chromosome.
Variable params : parameters.
Hypothesis Hrand : forall s, 0 <= (rand_r s).1.
Hypothesis HnI : 0 < numInputs c0.
Hypothesis Hfs : funcSet_ok (funcSet c0).
Hypothesis Hsc : p_shortcutConnections params = 1 \/ 0 < numNodes c0.

Lemma function_step_wf (c c' : chromosome) (i v seed seed' : Z) :
  well_formed_like c0 c ->
  getRandomFunction (numFunctions (funcSet c)) seed = Ok (v, seed') ->
  set_gene_function c i v = Ok c' ->
  well_formed_like c0 c'.
Proof.
  intros Hinv Hv Hset. pose proof Hinv as (_ & _ & _ & _ & _ & _ & Hf).
  apply getRandomFunction_range in Hv; [|done].
  eapply set_gene_function_wf; [exact Hinv| |exact Hv|exact Hset].
  rewrite Hf in *. unfold funcSet_ok in Hfs. lia.
Qed.

Lemma input_step_wf (c c' : chromosome) (i j v seed seed' : Z) :
  well_formed_like c0 c ->
  getRandomNodeInput (numInputs c) (numNodes c) i
    (p_recurrentConnectionProbability params) seed = Ok (v, seed') ->
  set_gene_input c i j v = Ok c' ->
  well_formed_like c0 c'.
Proof.
  intros Hinv Hv Hset. pose proof Hinv as (_ & _ & Hi & Hn & _).
  assert (Hpos : 0 <= i < numNodes c).
  { unfold set_gene_input in Hset.
    apply bind_Ok in Hset as (n & Hn' & Hset).
    apply bind_Ok in Hset as (ins & _ & Hset).
    apply upd_node_Ok in Hset as (m & Hk & Hm & _).
    destruct Hinv as (Hwf & _).
    destruct (wf_chromosome_spec _ Hwf) as (Hlen & _).
    apply lookup_lt_Some in Hm. lia. }
  assert (HnI' : 0 < numInputs c) by lia.
  destruct (getRandomNodeInput_range _ _ _ _ _ _ _ Hrand HnI' Hpos Hv)
    as [Hrange _].
  eapply set_gene_input_wf; [exact Hinv| |exact Hset]. exact Hrange.
Qed.

Lemma output_step_wf (c c' : chromosome) (i v seed seed' : Z) :
  well_formed_like c0 c ->
  getRandomChromosomeOutput (numInputs c) (numNodes c)
    (p_shortcutConnections params) seed = Ok (v, seed') ->
  set_gene_output c i v = Ok c' ->
  well_formed_like c0 c'.
Proof.
  intros Hinv Hv Hset. pose proof Hinv as (Hwf & _ & Hi & Hn & _).
  destruct (wf_chromosome_spec _ Hwf) as (Hlen & _).
  assert (H1 : 0 <= numInputs c) by lia.
  assert (H2 : 0 <= numNodes c) by lia.
  assert (Hcond : if p_shortcutConnections params =? 1
                  then 0 < numInputs c + numNodes c else 0 < numNodes c)
    by (destruct (Z.eqb_spec (p_shortcutConnections params) 1); lia).
  pose proof (getRandomChromosomeOutput_range _ _ _ _ _ _ Hrand H1 H2 Hcond
                Hv) as Hrange.
  eapply set_gene_output_wf; [exact Hinv| |exact Hset].
  destruct (p_shortcutConnections params =? 1); lia.
Qed.

Lemma mutateGene_wf (c c' : chromosome) (g seed seed' : Z) :
  well_formed_like c0 c ->
  mutateGene params c g seed = Ok (c', seed') ->
  well_formed_like c0 c'.
Proof.
  intros Hinv. unfold mutateGene.
  destruct (g <? p_numNodes params);
    [|destruct (g <? p_numNodes params + p_numNodes params * p_arity params)].
  - intros ([v s] & Hv & Hrun)%bind_Ok.
    apply bind_Ok in Hrun as (c1 & Hset & [= <- <-]).
    by eapply function_step_wf.
  - intros ([v s] & Hv & Hrun)%bind_Ok.
    apply bind_Ok in Hrun as (c1 & Hset & [= <- <-]).
    by eapply input_step_wf.
  - intros ([v s] & Hv & Hrun)%bind_Ok.
    apply bind_Ok in Hrun as (c1 & Hset & [= <- <-]).
    by eapply output_step_wf.
Qed.

Lemma mutateConnection_wf (type i j : Z) (c c' : chromosome)
    (seed seed' : Z) :
  well_formed_like c0 c ->
  mutateConnection params type i j (c, seed) = Ok (c', seed') ->
  well_formed_like c0 c'.
Proof.
  intros Hinv. unfold mutateConnection.
  destruct (randDecimal seed) as [r s1].
  intros ([c1 s2] & H1 & Hrun)%bind_Ok.
  assert (Hc1 : well_formed_like c0 c1).
  { destruct (dle r (p_mutationRate params)); [|by injection H1 as <- <-].
    apply bind_Ok in H1 as ([v s3] & Hv & H1).
    apply bind_Ok in H1 as (c2 & Hset & [= <- <-]).
    by eapply input_step_wf. }
  destruct (type =? 0); [|by injection Hrun as <- <-].
  destruct (randDecimal s2) as [r2 s3].
  destruct (dle r2 (p_mutationRate params)); [|by injection Hrun as <- <-].
  destruct (getRandomConnectionWeight _ s3) as [w s4].
  apply bind_Ok in Hrun as (c2 & Hset & [= <- <-]).
  by eapply set_gene_weight_wf.
Qed.

Lemma mutateConnections_wf (type i : Z) (c c' : chromosome)
    (seed seed' : Z) :
  well_formed_like c0 c ->
  for_loop 0 (p_arity params)
    (fun j cs => mutateConnection params type i j cs) (c, seed)
    = Ok (c', seed') ->
  well_formed_like c0 c'.
Proof.
  intros Hinv Hrun. change (well_formed_like c0 (c', seed').1).
  eapply (for_loop_preserves
            (fun s : chromosome * Z => well_formed_like c0 s.1));
    [ | | exact Hrun]; [exact Hinv|].
  intros j [c1 s1] [c2 s2] _ Hs Hbody. cbn [fst] in *.
  by eapply mutateConnection_wf.
Qed.

Lemma mutateOutputs_wf (c c' : chromosome) (seed seed' : Z) :
  well_formed_like c0 c ->
  mutateOutputs params (c, seed) = Ok (c', seed') ->
  well_formed_like c0 c'.
Proof.
  intros Hinv. unfold mutateOutputs. intros Hrun.
  change (well_formed_like c0 (c', seed').1).
  eapply (for_loop_preserves
            (fun s : chromosome * Z => well_formed_like c0 s.1));
    [ | | exact Hrun]; [exact Hinv|].
  intros j [c1 s1] [c2 s2] _ Hs Hbody. cbn [fst] in *.
  destruct (randDecimal s1) as [r s3].
  destruct (dle r (p_mutationRate params)); [|by injection Hbody as <- <-].
  apply bind_Ok in Hbody as ([v s4] & Hv & Hbody).
  apply bind_Ok in Hbody as (c3 & Hset & [= <- <-]).
  by eapply output_step_wf.
Qed.

Lemma probabilisticMutation_wf (c c' : chromosome) (type seed seed' : Z) :
  well_formed_like c0 c ->
  probabilisticMutation params c type seed = Ok (c', seed') ->
  well_formed_like c0 c'.
Proof.
  intros Hinv. unfold probabilisticMutation.
  intros ([c1 s1] & Hnodes & Hout)%bind_Ok.
  eapply mutateOutputs_wf; [|exact Hout].
  change (well_formed_like c0 (c1, s1).1).
  eapply (for_loop_preserves
            (fun s : chromosome * Z => well_formed_like c0 s.1));
    [ | | exact Hnodes]; [exact Hinv|].
  intros i [c2 s2] [c3 s3] _ Hs Hbody. cbn [fst] in *.
  apply bind_Ok in Hbody as ([c4 s4] & Hfun & Hcon).
  eapply mutateConnections_wf; [|exact Hcon].
  destruct (numFunctions (funcSet c2) >? 1); [|by injection Hfun as <- <-].
  destruct (randDecimal s2) as [r s5].
  destruct (dle r (p_mutationRate params)); [|by injection Hfun as <- <-].
  apply bind_Ok in Hfun as ([v s6] & Hv & Hfun).
  apply bind_Ok in Hfun as (c5 & Hset & [= <- <-]).
  by eapply function_step_wf.
Qed.

Lemma probabilisticMutationOnlyActive_wf (c c' : chromosome)
    (type seed seed' : Z) :
  well_formed_like c0 c ->
  probabilisticMutationOnlyActive params c type seed = Ok (c', seed') ->
  well_formed_like c0 c'.
Proof.
  intros Hinv. unfold probabilisticMutationOnlyActive.
  intros ([c1 s1] & Hnodes & Hout)%bind_Ok.
  eapply mutateOutputs_wf; [|exact Hout].
  change (well_formed_like c0 (c1, s1).1).
  eapply (for_loop_preserves
            (fun s : chromosome * Z => well_formed_like c0 s.1));
    [ | | exact Hnodes]; [exact Hinv|].
  intros i [c2 s2] [c3 s3] _ Hs Hbody. cbn [fst] in *.
  apply bind_Ok in Hbody as (activeNode & _ & Hbody).
  destruct (randDecimal s2) as [r s5].
  apply bind_Ok in Hbody as ([c4 s4] & Hfun & Hcon).
  eapply mutateConnections_wf; [|exact Hcon].
  destruct (dle r (p_mutationRate params)); [|by injection Hfun as <- <-].
  apply bind_Ok in Hfun as ([v s6] & Hv & Hfun).
  apply bind_Ok in Hfun as (c5 & Hset & [= <- <-]).
  by eapply function_step_wf.
Qed.

Lemma pointMutation_wf (c c' : chromosome) (type seed seed' : Z) :
  well_formed_like c0 c ->
  pointMutation params c type seed = Ok (c', seed') ->
  well_formed_like c0 c'.
Proof.
  intros Hinv. unfold pointMutation. intros (n & _ & Hrun)%bind_Ok.
  change (well_formed_like c0 (c', seed').1).
  eapply (for_loop_preserves
            (fun s : chromosome * Z => well_formed_like c0 s.1));
    [ | | exact Hrun]; [exact Hinv|].
  intros i [c2 s2] [c3 s3] _ Hs Hbody. cbn [fst] in *.
  unfold pointMutation_step in Hbody.
  apply bind_Ok in Hbody as ([g s4] & _ & Hmut).
  by eapply mutateGene_wf.
Qed.

Lemma pointMutationANN_loop_wf (numGenes numGenesToMutate : Z) (fuel : nat) :
  forall (counter : Z) (c c' : chromosome) (seed seed' : Z),
  well_formed_like c0 c ->
  pointMutationANN_loop fuel params numGenes numGenesToMutate counter c seed
    = Ok (c', seed') ->
  well_formed_like c0 c'.
Proof.
  induction fuel as [|fuel IH]; intros counter c c' seed seed' Hinv Hrun.
  - cbn [pointMutationANN_loop] in Hrun.
    destruct (negb (counter <? numGenesToMutate)); [|done].
    by injection Hrun as <- <-.
  - cbn [pointMutationANN_loop] in Hrun.
    destruct (negb (counter <? numGenesToMutate));
      [by injection Hrun as <- <-|].
    apply bind_Ok in Hrun as ([g s0] & _ & Hrun).
    apply bind_Ok in Hrun as ([[c1 s1] k1] & Hbody & Hrun).
    eapply IH; [|exact Hrun].
    destruct (g <? p_numNodes params);
      [|destruct (g <? p_numNodes params
                       + p_numNodes params * p_arity params);
        [|destruct (g <? p_numNodes params
                         + p_numNodes params * p_arity params
                         + p_numNodes params * p_arity params)]].
    + apply bind_Ok in Hbody as (n & _ & Hbody).
      apply bind_Ok in Hbody as ([v s2] & Hv & Hbody).
      apply bind_Ok in Hbody as (c2 & Hset & [= <- <- <-]).
      by eapply function_step_wf.
    + apply bind_Ok in Hbody as (n & _ & Hbody).
      apply bind_Ok in Hbody as ([v s2] & Hv & Hbody).
      apply bind_Ok in Hbody as (c2 & Hset & [= <- <- <-]).
      by eapply input_step_wf.
    + apply bind_Ok in Hbody as (n & _ & Hbody).
      destruct (getRandomConnectionWeight _ s0) as [w s2].
      apply bind_Ok in Hbody as (c2 & Hset & [= <- <- <-]).
      by eapply set_gene_weight_wf.
    + apply bind_Ok in Hbody as ([v s2] & Hv & Hbody).
      apply bind_Ok in Hbody as (c2 & Hset & [= <- <- <-]).
      by eapply output_step_wf.
Qed.

Lemma singleMutation_loop_wf (numGenes : Z) (fuel : nat) :
  forall (c c' : chromosome) (seed seed' : Z),
  well_formed_like c0 c ->
  singleMutation_loop fuel params numGenes c seed = Ok (c', seed') ->
  well_formed_like c0 c'.
Proof.
  induction fuel as [|fuel IH]; intros c c' seed seed' Hinv Hrun; [done|].
  cbn [singleMutation_loop] in Hrun.
  apply bind_Ok in Hrun as ([g s0] & _ & Hrun).
  apply bind_Ok in Hrun as ([[c1 s1] b] & Hbody & Hrun).
  assert (Hc1 : well_formed_like c0 c1).
  { destruct (g <? p_numNodes params);
      [|destruct (g <? p_numNodes params
                       + p_numNodes params * p_arity params)].
    - apply bind_Ok in Hbody as (n & _ & Hbody).
      apply bind_Ok in Hbody as ([v s2] & Hv & Hbody).
      apply bind_Ok in Hbody as (c2 & Hset & [= <- <- <-]).
      by eapply function_step_wf.
    - apply bind_Ok in Hbody as (n & _ & Hbody).
      apply bind_Ok in Hbody as (prev & _ & Hbody).
      apply bind_Ok in Hbody as ([v s2] & Hv & Hbody).
      apply bind_Ok in Hbody as (c2 & Hset & [= <- <- <-]).
      by eapply input_step_wf.
    - apply bind_Ok in Hbody as (prev & _ & Hbody).
      apply bind_Ok in Hbody as ([v s2] & Hv & Hbody).
      apply bind_Ok in Hbody as (c2 & Hset & [= <- <- <-]).
      by eapply output_step_wf. }
  destruct b.
  - by injection Hrun as <- <-.
  - by eapply IH.
Qed.

Lemma mutateChromosome_wf (c c' : chromosome) (type seed seed' : Z) :
  well_formed_like c0 c ->
  mutateChromosome params c type seed = Ok (c', seed') ->
  well_formed_like c0 c'.
Proof.
  intros Hinv. unfold mutateChromosome.
  intros ([c1 s1] & Hmut & Hrun)%bind_Ok.
  apply bind_Ok in Hrun as (c2 & Hact & [= <- <-]).
  assert (Hc1 : well_formed_like c0 c1).
  { destruct (p_mutationType params).
    - by eapply probabilisticMutation_wf.
    - by eapply pointMutation_wf.
    - unfold pointMutationANN in Hmut.
      apply bind_Ok in Hmut as (n & _ & Hmut).
      by eapply pointMutationANN_loop_wf.
    - by eapply probabilisticMutationOnlyActive_wf.
    - by eapply singleMutation_loop_wf. }
  destruct Hc1 as (Hwf & [Hgn Hgo] & H1 & H2 & H3 & H4 & H5).
  destruct (setChromosomeActiveNodes_same_genes _ _ Hwf Hact) as [Hsg Hwf2].
  pose proof Hsg as [HnI' HnN' HnO' Har' Hon' Hfs' _ _ _].
  split; [done|]. split; [|repeat split; congruence].
  split.
  - apply Forall_lookup_2. intros k n Hn.
    destruct (same_genes_lookup _ _ _ _ Hsg Hn) as (n0 & Hn0 & Hf0 & Hi0).
    destruct (Forall_lookup_1 _ _ _ _ Hgn Hn0) as [Hfn Hin].
    unfold node_genes_valid. by rewrite Hf0, Hi0, Hfs', HnI', HnN'.
  - by rewrite Hon', HnI', HnN'.
Qed.

End MutationKeepsWellFormed.

(** X14.  Mutation keeps a chromosome well formed, whatever the
    mutation type and the [type] of the run: after [mutateChromosome]
    every function gene is still the index of a function of the set,
    every input gene and output gene is still the address of an input
    or of a node, from 0 up to [numInputs + numNodes - 1], and the
    sizes of the arrays, the dimensions and the function set are as
    before. *)
Theorem mutateChromosome_keeps_well_formed `{Libc} (params : parameters)
    (c c' : chromosome) (type seed seed' : Z) :
  (forall s, 0 <= (rand_r s).1) ->
  wf_chromosome c = true ->
  genes_valid c ->
  0 < numInputs c ->
  funcSet_ok (funcSet c) ->
  (p_shortcutConnections params = 1 \/ 0 < numNodes c) ->
  mutateChromosome params c type seed = Ok (c', seed') ->
  wf_chromosome c' = true
  /\ Forall (fun n => 0 <= function n < numFunctions (funcSet c)
                      /\ Forall (fun b => 0 <= b < numInputs c + numNodes c)
                           (inputs n)) (nodes c')
  /\ Forall (fun o => 0 <= o < numInputs c + numNodes c) (outputNodes c')
  /\ numInputs c' = numInputs c /\ numNodes c' = numNodes c
  /\ numOutputs c' = numOutputs c /\ arity c' = arity c
  /\ funcSet c' = funcSet c.
Proof.
  intros Hrand Hwf Hgv HnI Hfs Hsc Hrun.
  destruct (mutateChromosome_wf c params Hrand HnI Hfs Hsc c c' type seed
              seed' (well_formed_like_refl c Hwf Hgv) Hrun)
    as (Hwf' & [Hgn Hgo] & H1 & H2 & H3 & H4 & H5).
  split; [done|]. unfold node_genes_valid in Hgn.
  rewrite H1, H2, H5 in Hgn. rewrite H1, H2 in Hgo. done.
Qed.

Lemma mutateChromosome_keeps_well_formed_witness :
  exists c' seed',
    mutateChromosome always_params chromo_soft 0 1 = Ok (c', seed')
    /\ wf_chromosome c' = true
    /\ Forall (fun o => 0 <= o < numInputs chromo_soft + numNodes chromo_soft)
         (outputNodes c').
Proof.
  assert (Hok : is_ok (mutateChromosome always_params chromo_soft 0 1) = true)
    by (vm_compute; reflexivity).
  destruct (mutateChromosome always_params chromo_soft 0 1)
    as [[c' seed']|e] eqn:E; [|discriminate].
  exists c', seed'. split; [reflexivity|].
  assert (Hwf : wf_chromosome chromo_soft = true) by (vm_compute; reflexivity).
  assert (Hgv : genes_valid chromo_soft).
  { unfold genes_valid, node_genes_valid. cbn.
    unfold set_actArity, mk_node. simpl.
    split.
    - apply Forall_singleton. simpl. split; [lia|].
      repeat (constructor; [lia|]). constructor.
    - repeat (constructor; [lia|]). constructor. }
  assert (HnI : 0 < numInputs chromo_soft) by (cbn; lia).
  assert (Hfs : funcSet_ok (funcSet chromo_soft))
    by (unfold funcSet_ok; cbn; lia).
  assert (Hsc : p_shortcutConnections always_params = 1
                \/ 0 < numNodes chromo_soft) by (left; reflexivity).
  pose proof (@mutateChromosome_keeps_well_formed example_libc
                always_params chromo_soft c' 0 1 seed' glibc_rand_r_nonneg
                Hwf Hgv HnI Hfs Hsc E) as Hkeep.
  split; [exact (proj1 Hkeep) | exact (proj1 (proj2 (proj2 Hkeep)))].
Defined.

(** ** The weights of a DE individual *)

Lemma set_gene_weight_spec (c c' : chromosome) (i j : Z) (w : double) :
  set_gene_weight c i j w = Ok c' ->
  exists n, 0 <= i /\ nodes c !! Z.to_nat i = Some n
    /\ 0 <= j < Z.of_nat (length (weights n))
    /\ c' = set_nodes c
              (<[Z.to_nat i := set_weights n (<[Z.to_nat j := w]> (weights n))]>
                 (nodes c)).
Proof.
  unfold set_gene_weight. intros (n & Hn & Hrun)%bind_Ok.
  apply bind_Ok in Hrun as (ws & Hws & Hrun).
  apply aget_Ok in Hn as [Hi Hn]. apply aset_Ok in Hws as [Hj ->].
  apply upd_node_Ok in Hrun as (n' & _ & Hn' & ->).
  assert (n' = n) as -> by congruence. by exists n.
Qed.

Lemma set_gene_weight_same_genes (c0 c c' : chromosome) (i j : Z)
    (w : double) :
  same_genes c0 c -> set_gene_weight c i j w = Ok c' -> same_genes c0 c'.
Proof.
  intros Hsg (n & _ & Hn & _ & ->)%set_gene_weight_spec.
  destruct Hsg as [HnI HnN HnO Har Hon Hfs Hfn Hins Hlen].
  split; cbn [numInputs numNodes numOutputs arity outputNodes
    funcSet nodes activeNodes set_nodes]; try done.
  - rewrite <- Hfn. by apply (fmap_insert_same _ _ _ n).
  - rewrite <- Hins. by apply (fmap_insert_same _ _ _ n).
Qed.

(** X15.  [transferWeightsVectorToChromo] lays the flat vector of
    weights out node by node: weight [j] of node [i] becomes entry
    [i * arity + j] of the vector.  The genes of the chromosome and the
    vector itself are left as they are. *)
Theorem transferWeightsVectorToChromo_layout (params : parameters)
    (d d' : DEChromosome) :
  0 <= arity (chromo d) ->
  transferWeightsVectorToChromo params d = Ok d' ->
  weightsVector d' = weightsVector d
  /\ same_genes (chromo d) (chromo d')
  /\ forall (i j : nat),
       Z.of_nat i < numNodes (chromo d) -> Z.of_nat j < arity (chromo d) ->
       exists n' w,
         nodes (chromo d') !! i = Some n' /\ weights n' !! j = Some w
         /\ weightsVector d
              !! Z.to_nat (Z.of_nat i * arity (chromo d) + Z.of_nat j)
            = Some w.
Proof.
  intros Har. unfold transferWeightsVectorToChromo.
  intros ([c k] & Hrun & [= <-])%bind_Ok. cbn [weightsVector chromo set_chromo].
  split; [done|].
  set (c0 := chromo d) in *. set (wv := weightsVector d) in *.
  set (laid := fun (c : chromosome) (i j : nat) =>
    exists n' w, nodes c !! i = Some n' /\ weights n' !! j = Some w
      /\ wv !! Z.to_nat (Z.of_nat i * arity c0 + Z.of_nat j) = Some w).
  set (J := fun (i : Z) (s : chromosome * Z) =>
    same_genes c0 s.1 /\ s.2 = i * arity c0
    /\ forall i' j' : nat, Z.of_nat i' < i -> Z.of_nat j' < arity c0 ->
         laid s.1 i' j').
  assert (Hend : J (Z.max 0 (numNodes c0)) (c, k)).
  { eapply (for_loop_inv_max J); [ | | exact Hrun]; unfold J.
    - cbn [fst snd]. split; [apply same_genes_refl|]. split; [lia|].
      intros i' j' Hi'. lia.
    - intros i [c1 k1] [c2 k2] Hi (Hsg & Hk & Hlow) Hbody. cbn [fst snd] in *.
      assert (Ha1 : arity c1 = arity c0) by apply Hsg.
      rewrite Ha1 in Hbody.
      set (K := fun (j : Z) (s : chromosome * Z) =>
        same_genes c0 s.1 /\ s.2 = i * arity c0 + j
        /\ (forall i' j' : nat, Z.of_nat i' < i -> Z.of_nat j' < arity c0 ->
              laid s.1 i' j')
        /\ forall j' : nat, Z.of_nat j' < j -> laid s.1 (Z.to_nat i) j').
      assert (Hin : K (arity c0) (c2, k2)).
      { eapply (for_loop_inv K); [exact Har | | | exact Hbody]; unfold K.
        - cbn [fst snd]. split; [done|]. split; [lia|]. split; [done|].
          intros j' Hj'. lia.
        - intros j [c3 k3] [c4 k4] Hj (Hsg3 & Hk3 & Hprev & Hcur) Hstep.
          cbn [fst snd] in *.
          apply bind_Ok in Hstep as (w & Hw & Hstep).
          apply bind_Ok in Hstep as (c5 & Hset & [= <- <-]).
          pose proof (set_gene_weight_same_genes _ _ _ _ _ _ Hsg3 Hset) as Hsg5.
          apply set_gene_weight_spec in Hset as (n & Hi0 & Hn & Hjr & ->).
          apply aget_Ok in Hw as [_ Hw]. subst k3.
          split; [done|]. split; [lia|]. unfold laid in *.
          cbn [nodes set_nodes]. split.
          + intros i' j' Hi' Hj'.
            destruct (Hprev i' j' Hi' Hj') as (n' & w' & Hn' & Hw' & Hv).
            exists n', w'. split; [|done].
            rewrite list_lookup_insert_ne by lia. done.
          + intros j' Hj'.
            rewrite list_lookup_insert_eq by by eapply lookup_lt_Some.
            destruct (decide (j' = Z.to_nat j)) as [->|Hne].
            * exists (set_weights n (<[Z.to_nat j := w]> (weights n))), w.
              split; [done|]. cbn [weights set_weights].
              split; [by rewrite list_lookup_insert_eq by lia|].
              by rewrite !Z2Nat.id by lia.
            * destruct (Hcur j' ltac:(lia)) as (n' & w' & Hn' & Hw' & Hv).
              assert (n' = n) as -> by congruence.
              exists (set_weights n (<[Z.to_nat j := w]> (weights n))), w'.
              split; [done|]. cbn [weights set_weights].
              split; [by rewrite list_lookup_insert_ne|done]. }
      destruct Hin as (Hsg2 & Hk2 & Hprev & Hcur). cbn [fst snd] in *.
      split; [done|]. split; [lia|].
      intros i' j' Hi' Hj'. destruct (decide (Z.of_nat i' < i)) as [Hlt|Hge].
      + by apply Hprev.
      + assert (i' = Z.to_nat i) as -> by lia. by apply Hcur. }
  destruct Hend as (Hsg & _ & Hall). cbn [fst snd] in *.
  split; [done|]. intros i j Hi Hj. apply Hall; [lia|done].
Qed.

Lemma transferWeightsVectorToChromo_layout_witness :
  exists d',
    transferWeightsVectorToChromo example_params
      (with_weights [of_int 3; of_int 5]) = Ok d'
    /\ exists n' w,
         nodes (chromo d') !! 0%nat = Some n' /\ weights n' !! 1%nat = Some w
         /\ [of_int 3; of_int 5] !! Z.to_nat (0 * 2 + 1) = Some w.
Proof.
  assert (Hok : is_ok (transferWeightsVectorToChromo example_params
                         (with_weights [of_int 3; of_int 5])) = true)
    by (vm_compute; reflexivity).
  destruct (transferWeightsVectorToChromo example_params
              (with_weights [of_int 3; of_int 5])) as [d'|e] eqn:E;
    [|discriminate].
  exists d'. split; [reflexivity|].
  assert (Har : 0 <= arity (chromo (with_weights [of_int 3; of_int 5])))
    by (cbn; lia).
  destruct (transferWeightsVectorToChromo_layout example_params _ d' Har E)
    as (_ & _ & Hlay).
  assert (H0 : Z.of_nat 0 < numNodes (chromo (with_weights [of_int 3; of_int 5])))
    by (cbn; lia).
  assert (H1 : Z.of_nat 1 < arity (chromo (with_weights [of_int 3; of_int 5])))
    by (cbn; lia).
  exact (Hlay 0%nat 1%nat H0 H1).
Defined.

(** ** Cross-validation: the folds *)

Section FoldProofs.
Context `{Libc}.

Lemma DE_draw_range (fuel : nat) (NP : Z) (avoid : list Z)
    (seed r seed' : Z) :
  (forall s, 0 <= (rand_r s).1) -> 0 < NP ->
  DE_draw fuel NP avoid seed = Ok (r, seed') -> 0 <= r < NP.
Proof.
  intros Hrand HNP. revert seed.
  induction fuel as [|fuel IH]; intros seed; [done|].
  cbn [DE_draw]. intros ([r0 s0] & Hr0 & Hrun)%bind_Ok.
  destruct (existsb (Z.eqb r0) avoid); [by eapply IH|].
  injection Hrun as <- <-. by eapply randInt_range.
Qed.

Lemma getIndex_draw_spec (avoid : list Z) (seed r seed' : Z) :
  (forall s, 0 <= (rand_r s).1) ->
  getIndex_draw avoid seed = Ok (r, seed') -> (r ∉ avoid) /\ 0 <= r < 10.
Proof.
  intros Hrand Hrun. split.
  - by eapply DE_draw_spec.
  - eapply DE_draw_range; [done | lia | exact Hrun].
Qed.

(** Ten folds that are all different and all among 0, ..., 9 are the ten
    folds. *)
Lemma ten_folds (l : list Z) :
  NoDup l -> Forall (fun x => 0 <= x < 10) l -> length l = 10%nat ->
  l ≡ₚ seqZ 0 10.
Proof.
  intros Hnd Hall Hlen. apply submseteq_length_Permutation.
  - apply NoDup_submseteq; [done|]. intros x Hx.
    rewrite Forall_forall in Hall. apply elem_of_seqZ.
    specialize (Hall x Hx). lia.
  - rewrite length_seqZ. lia.
Qed.

Lemma getIndex_spec (training_index validation_index : list Z)
    (testing_index seed : Z) (tr va : list Z) (seed' : Z) :
  (forall s, 0 <= (rand_r s).1) ->
  0 <= testing_index < 10 ->
  getIndex training_index validation_index testing_index seed
    = Ok (tr, va, seed') ->
  testing_index :: take 7 tr ++ take 2 va ≡ₚ seqZ 0 10
  /\ drop 7 tr = drop 7 training_index
  /\ drop 2 va = drop 2 validation_index.
Proof.
  intros Hrand Htest. unfold getIndex. intros Hrun.
  repeat match type of Hrun with
  | (_ ≫= _) = Ok _ =>
      let x := fresh "x" in let Hx := fresh "Hx" in
      apply bind_Ok in Hrun as (x & Hx & Hrun);
      try (destruct x as [? ?]; apply (getIndex_draw_spec _ _ _ _ Hrand) in Hx
             as [? ?]);
      try (apply aset_Ok in Hx as [? ->])
  end.
  injection Hrun as <- <- <-.
  repeat match goal with
  | Hl : context [length (<[_ := _]> _)] |- _ => rewrite length_insert in Hl
  end.
  destruct training_index as [|a0 [|a1 [|a2 [|a3 [|a4 [|a5 [|a6 rest]]]]]]];
    simpl in *; try lia.
  destruct validation_index as [|b0 [|b1 rest']]; simpl in *; try lia.
  split; [|done].
  apply ten_folds; [| |done].
  - rewrite <- reverse_Permutation. cbn [reverse rev_append].
    repeat (apply NoDup_cons; split; [
      repeat match goal with
      | Hn : _ ∉ _ :: _ |- _ => apply not_elem_of_cons in Hn as [? Hn]
      end;
      repeat (apply not_elem_of_cons; split; [congruence|]);
      apply not_elem_of_nil |]).
    apply NoDup_nil_2.
  - repeat (apply Forall_cons; split; [lia|]). apply Forall_nil_2.
Qed.

Lemma memcpy_full {A} (dest src w : list A) (n : Z) :
  memcpy dest src n = Ok w ->
  Z.of_nat (length dest) = n -> Z.of_nat (length src) = n -> w = src.
Proof.
  intros [Hlen Hcp]%copyArray_spec Hd Hs.
  apply list_eq. intros j. destruct (decide (Z.of_nat j < n)).
  - by apply Hcp.
  - rewrite (lookup_ge_None_2 w), (lookup_ge_None_2 src); [done | lia | lia].
Qed.

Lemma data_ok_row (rows : list (list double)) (n i : Z) (r : list double) :
  Forall (fun r => Z.of_nat (length r) = n) rows ->
  aget rows i = Ok r -> Z.of_nat (length r) = n.
Proof.
  intros Hall [_ Hr]%aget_Ok.
  by apply (Forall_lookup_1 _ _ _ _ Hall Hr).
Qed.

(** One turn of the loop of [shuffleData] exchanges two samples. *)
Lemma shuffleData_step (i : Z) (d d' : dataSet) (seed seed' : Z) :
  data_ok d ->
  (let '(data, seed) := (d, seed) in
   '(rnd1, seed) ← randInt (d_numSamples data) seed;
   '(rnd2, seed) ← randInt (d_numSamples data) seed;
   let row1_input := replicate (Z.to_nat (d_numInputs data)) (of_int 0) in
   let row1_output :=
     replicate (Z.to_nat (d_numOutputs data)) (of_int 0) in
   let row2_input := replicate (Z.to_nat (d_numInputs data)) (of_int 0) in
   let row2_output :=
     replicate (Z.to_nat (d_numOutputs data)) (of_int 0) in
   src ← aget (inputData data) rnd1;
   row1_input ← memcpy row1_input src (d_numInputs data);
   src ← aget (outputData data) rnd1;
   row1_output ← memcpy row1_output src (d_numOutputs data);
   src ← aget (inputData data) rnd2;
   row2_input ← memcpy row2_input src (d_numInputs data);
   src ← aget (outputData data) rnd2;
   row2_output ← memcpy row2_output src (d_numOutputs data);
   dest ← aget (inputData data) rnd1;
   dest ← memcpy dest row2_input (d_numInputs data);
   inD ← aset (inputData data) rnd1 dest;
   let data := set_inputData data inD in
   dest ← aget (outputData data) rnd1;
   dest ← memcpy dest row2_output (d_numOutputs data);
   outD ← aset (outputData data) rnd1 dest;
   let data := set_outputData data outD in
   dest ← aget (inputData data) rnd2;
   dest ← memcpy dest row1_input (d_numInputs data);
   inD ← aset (inputData data) rnd2 dest;
   let data := set_inputData data inD in
   dest ← aget (outputData data) rnd2;
   dest ← memcpy dest row1_output (d_numOutputs data);
   outD ← aset (outputData data) rnd2 dest;
   let data := set_outputData data outD in
   Ok (data, seed)) = Ok (d', seed') ->
  data_ok d'
  /\ d_numSamples d' = d_numSamples d /\ d_numInputs d' = d_numInputs d
  /\ d_numOutputs d' = d_numOutputs d
  /\ samples d' ≡ₚ samples d.
Proof.
  intros (HnI & HnO & HlI & HlO & HrI & HrO). cbv zeta.
  intros ([rnd1 s1] & _ & Hrun)%bind_Ok.
  apply bind_Ok in Hrun as ([rnd2 s2] & _ & Hrun).
  apply bind_Ok in Hrun as (in1 & Hin1 & Hrun).
  apply bind_Ok in Hrun as (r1i & Hr1i & Hrun).
  apply bind_Ok in Hrun as (out1 & Hout1 & Hrun).
  apply bind_Ok in Hrun as (r1o & Hr1o & Hrun).
  apply bind_Ok in Hrun as (in2 & Hin2 & Hrun).
  apply bind_Ok in Hrun as (r2i & Hr2i & Hrun).
  apply bind_Ok in Hrun as (out2 & Hout2 & Hrun).
  apply bind_Ok in Hrun as (r2o & Hr2o & Hrun).
  pose proof (data_ok_row _ _ _ _ HrI Hin1) as Hlin1.
  pose proof (data_ok_row _ _ _ _ HrO Hout1) as Hlout1.
  pose proof (data_ok_row _ _ _ _ HrI Hin2) as Hlin2.
  pose proof (data_ok_row _ _ _ _ HrO Hout2) as Hlout2.
  apply memcpy_full in Hr1i as ->; [|rewrite length_replicate; lia|done].
  apply memcpy_full in Hr1o as ->; [|rewrite length_replicate; lia|done].
  apply memcpy_full in Hr2i as ->; [|rewrite length_replicate; lia|done].
  apply memcpy_full in Hr2o as ->; [|rewrite length_replicate; lia|done].
  apply bind_Ok in Hrun as (d1 & Hd1 & Hrun).
  apply bind_Ok in Hrun as (d1' & Hd1' & Hrun).
  apply bind_Ok in Hrun as (inD1 & HinD1 & Hrun).
  pose proof (data_ok_row _ _ _ _ HrI Hd1) as Hld1.
  apply memcpy_full in Hd1' as ->; [|done|done].
  apply aset_Ok in HinD1 as [Hrnd1 ->].
  cbn [outputData inputData set_inputData set_outputData d_numInputs
       d_numOutputs d_numSamples] in Hrun.
  apply bind_Ok in Hrun as (d2 & Hd2 & Hrun).
  apply bind_Ok in Hrun as (d2' & Hd2' & Hrun).
  apply bind_Ok in Hrun as (outD1 & HoutD1 & Hrun).
  pose proof (data_ok_row _ _ _ _ HrO Hd2) as Hld2.
  apply memcpy_full in Hd2' as ->; [|done|done].
  apply aset_Ok in HoutD1 as [Hrnd1' ->].
  cbn [outputData inputData set_inputData set_outputData d_numInputs
       d_numOutputs d_numSamples] in Hrun.
  assert (HrI1 : Forall (fun r => Z.of_nat (length r) = d_numInputs d)
                   (<[Z.to_nat rnd1:=in2]> (inputData d))).
  { by apply Forall_insert. }
  assert (HrO1 : Forall (fun r => Z.of_nat (length r) = d_numOutputs d)
                   (<[Z.to_nat rnd1:=out2]> (outputData d))).
  { by apply Forall_insert. }
  apply bind_Ok in Hrun as (d3 & Hd3 & Hrun).
  apply bind_Ok in Hrun as (d3' & Hd3' & Hrun).
  apply bind_Ok in Hrun as (inD2 & HinD2 & Hrun).
  pose proof (data_ok_row _ _ _ _ HrI1 Hd3) as Hld3.
  apply memcpy_full in Hd3' as ->; [|done|done].
  apply aset_Ok in HinD2 as [Hrnd2 ->].
  cbn [outputData inputData set_inputData set_outputData d_numInputs
       d_numOutputs d_numSamples] in Hrun.
  apply bind_Ok in Hrun as (d4 & Hd4 & Hrun).
  apply bind_Ok in Hrun as (d4' & Hd4' & Hrun).
  apply bind_Ok in Hrun as (outD2 & HoutD2 & Hrun).
  pose proof (data_ok_row _ _ _ _ HrO1 Hd4) as Hld4.
  apply memcpy_full in Hd4' as ->; [|done|done].
  apply aset_Ok in HoutD2 as [Hrnd2' ->].
  injection Hrun as <- <-.
  unfold data_ok, samples.
  cbn [outputData inputData set_inputData set_outputData d_numInputs
       d_numOutputs d_numSamples].
  rewrite !length_insert.
  split; [|split; [done|split; [done|split; [done|]]]].
  - split; [done|]. split; [done|]. split; [done|]. split; [done|].
    split; by apply Forall_insert.
  - rewrite <- !insert_zip_with.
    apply aget_Ok in Hin1 as [_ Hin1]. apply aget_Ok in Hout1 as [_ Hout1].
    apply aget_Ok in Hin2 as [_ Hin2]. apply aget_Ok in Hout2 as [_ Hout2].
    apply Permutation_insert_swap.
    + apply lookup_zip_with_Some. by exists in1, out1.
    + apply lookup_zip_with_Some. by exists in2, out2.
Qed.

(** X17.  On a data set whose arrays have the sizes its counts announce,
    [shuffleData] permutes the samples: every row of inputs stays with
    its row of targets, no sample is lost and none is doubled, and the
    three counts are kept. *)
Theorem shuffleData_permutes_the_samples (data data' : dataSet)
    (seed seed' : Z) :
  data_ok data ->
  shuffleData data seed = Ok (data', seed') ->
  data_ok data'
  /\ d_numSamples data' = d_numSamples data
  /\ d_numInputs data' = d_numInputs data
  /\ d_numOutputs data' = d_numOutputs data
  /\ samples data' ≡ₚ samples data.
Proof.
  intros Hok Hrun. unfold shuffleData in Hrun.
  set (P := fun s : dataSet * Z =>
         data_ok s.1 /\ d_numSamples s.1 = d_numSamples data
         /\ d_numInputs s.1 = d_numInputs data
         /\ d_numOutputs s.1 = d_numOutputs data
         /\ samples s.1 ≡ₚ samples data).
  assert (Hend : P (data', seed')); [|exact Hend].
  eapply (for_loop_preserves P); [ | | exact Hrun]; unfold P.
  - done.
  - clear Hrun. intros j [d s] [d' s'] _ (Hd & HS & HI & HO & Hperm) Hbody.
    cbn [fst snd] in *.
    apply (shuffleData_step j) in Hbody as (Hd' & HS' & HI' & HO' & Hperm');
      [|done].
    split; [done|]. split; [congruence|]. split; [congruence|].
    split; [congruence|]. by rewrite Hperm'.
Qed.

End FoldProofs.

(** ** Data sets from arrays *)

(** The loop that fills a row from a flat array, from [base] on. *)
Lemma fill_row {A} (src : list A) (base n : Z) (row0 : list A) :
  0 <= base -> 0 <= n -> base + n <= Z.of_nat (length src) ->
  Z.of_nat (length row0) = n ->
  for_loop 0 n (fun j row => x ← aget src (base + j); aset row j x) row0
    = Ok (take (Z.to_nat n) (drop (Z.to_nat base) src)).
Proof.
  intros Hbase Hn Hsrc Hrow.
  set (P := fun (j : Z) (row : list A) =>
         Z.of_nat (length row) = n
         /\ forall k : nat, Z.of_nat k < j ->
              row !! k = src !! (Z.to_nat base + k)%nat).
  destruct (for_loop_total P
              (fun j row => x ← aget src (base + j); aset row j x) 0 n row0)
    as (row & Hrun & Hlen & Hrow'); [done | | | ].
  - split; [done|]. intros k Hk. lia.
  - intros j row Hj [Hlen Hlow].
    destruct (aget_in_range src (base + j)) as [x Hx]; [lia|].
    rewrite Hx. cbn [mbind result_bind]. 
    rewrite aset_in_range by lia. eexists. split; [done|].
    split; [by rewrite length_insert|].
    intros k Hk. destruct (decide (k = Z.to_nat j)) as [->|Hne].
    + rewrite list_lookup_insert_eq by lia.
      apply aget_Ok in Hx as [_ Hx]. rewrite <- Hx. f_equal. lia.
    + rewrite list_lookup_insert_ne by done. apply Hlow. lia.
  - rewrite Hrun. f_equal. apply list_eq. intros k.
    destruct (decide (Z.of_nat k < n)) as [Hk|Hk].
    + rewrite lookup_take_lt by lia. rewrite lookup_drop. by apply Hrow'.
    + rewrite lookup_take_ge by lia. apply lookup_ge_None_2. lia.
Qed.

Lemma row_length {A} (src : list A) (base n : Z) :
  0 <= base -> 0 <= n -> base + n <= Z.of_nat (length src) ->
  Z.of_nat (length (take (Z.to_nat n) (drop (Z.to_nat base) src))) = n.
Proof. intros Hb Hn Hs. rewrite length_take, length_drop. lia. Qed.

Lemma row_cell {A} (src : list A) (base n j : Z) :
  0 <= base -> 0 <= j < n -> base + n <= Z.of_nat (length src) ->
  exists x, aget src (base + j) = Ok x
    /\ aget (take (Z.to_nat n) (drop (Z.to_nat base) src)) j = Ok x.
Proof.
  intros Hb Hj Hs.
  destruct (aget_in_range src (base + j)) as [x Hx]; [lia|].
  exists x. split; [done|]. apply aget_Ok in Hx as [_ Hx].
  apply aget_Ok. split; [lia|].
  rewrite lookup_take_lt by lia. rewrite lookup_drop. rewrite <- Hx.
  f_equal. lia.
Qed.

Lemma initialiseDataSetFromArrays_spec (nI nO nS : Z)
    (ins outs : list double) :
  0 <= nI -> 0 <= nO -> 0 <= nS ->
  nS * nI <= Z.of_nat (length ins) -> nS * nO <= Z.of_nat (length outs) ->
  exists d, initialiseDataSetFromArrays nI nO nS ins outs = Ok d
    /\ d_numSamples d = nS /\ d_numInputs d = nI /\ d_numOutputs d = nO
    /\ Z.of_nat (length (inputData d)) = nS
    /\ Z.of_nat (length (outputData d)) = nS
    /\ forall k : nat, Z.of_nat k < nS ->
         inputData d !! k
           = Some (take (Z.to_nat nI) (drop (Z.to_nat (Z.of_nat k * nI)) ins))
         /\ outputData d !! k
           = Some (take (Z.to_nat nO)
                     (drop (Z.to_nat (Z.of_nat k * nO)) outs)).
Proof.
  intros HnI HnO HnS Hins Houts. unfold initialiseDataSetFromArrays.
  set (P := fun (i : Z) (s : list (list double) * list (list double)) =>
         Z.of_nat (length s.1) = nS /\ Z.of_nat (length s.2) = nS
         /\ forall k : nat, Z.of_nat k < i ->
              s.1 !! k
                = Some (take (Z.to_nat nI)
                          (drop (Z.to_nat (Z.of_nat k * nI)) ins))
              /\ s.2 !! k
                = Some (take (Z.to_nat nO)
                          (drop (Z.to_nat (Z.of_nat k * nO)) outs))).
  match goal with
  | |- context [for_loop 0 nS ?body ?s0] =>
      destruct (for_loop_total P body 0 nS s0)
        as ([inD outD] & Hrun & HlI & HlO & Hrows); [done | | | ]
  end.
  - unfold P. cbn [fst snd]. rewrite !length_replicate.
    split; [lia|]. split; [lia|]. intros k Hk. lia.
  - intros i [inD outD] Hi (HlI & HlO & Hrows). cbn [fst snd] in *.
    rewrite (fill_row ins (i * nI) nI);
      [| nia | done | nia | rewrite length_replicate; lia].
    cbn [mbind result_bind].
    rewrite (fill_row outs (i * nO) nO);
      [| nia | done | nia | rewrite length_replicate; lia].
    cbn [mbind result_bind].
    rewrite aset_in_range by lia. cbn [mbind result_bind].
    rewrite aset_in_range by lia. cbn [mbind result_bind].
    eexists. split; [done|]. unfold P. cbn [fst snd].
    rewrite !length_insert. split; [done|]. split; [done|].
    intros k Hk. destruct (decide (k = Z.to_nat i)) as [->|Hne].
    + rewrite !list_lookup_insert_eq by lia.
      by replace (Z.of_nat (Z.to_nat i)) with i by lia.
    + rewrite !list_lookup_insert_ne by done. apply Hrows. lia.
  - rewrite Hrun. cbn [mbind result_bind]. eexists. split; [done|].
    cbn [d_numSamples d_numInputs d_numOutputs inputData outputData].
    cbn [fst snd] in *. done.
Qed.

(** X18.  [initialiseDataSetFromArrays], on two flat arrays that hold at
    least [numSamples] rows, returns a data set whose arrays have the
    sizes its counts announce, and [getDataSetSampleInput] and
    [getDataSetSampleOutput] read back, at the sample [i] and the
    column [j], the cells [i * numInputs + j] and [i * numOutputs + j]
    of the two arrays. *)
Theorem initialiseDataSetFromArrays_round_trip (nI nO nS : Z)
    (ins outs : list double) :
  0 <= nI -> 0 <= nO -> 0 <= nS ->
  nS * nI <= Z.of_nat (length ins) -> nS * nO <= Z.of_nat (length outs) ->
  exists d, initialiseDataSetFromArrays nI nO nS ins outs = Ok d
    /\ data_ok d
    /\ getNumDataSetSamples d = nS /\ getNumDataSetInputs d = nI
    /\ getNumDataSetOutputs d = nO
    /\ (forall i j, 0 <= i < nS -> 0 <= j < nI ->
          exists x, aget ins (i * nI + j) = Ok x
            /\ getDataSetSampleInput d i j = Ok x)
    /\ (forall i j, 0 <= i < nS -> 0 <= j < nO ->
          exists x, aget outs (i * nO + j) = Ok x
            /\ getDataSetSampleOutput d i j = Ok x).
Proof.
  intros HnI HnO HnS Hins Houts.
  destruct (initialiseDataSetFromArrays_spec nI nO nS ins outs)
    as (d & Hrun & HS & HI & HO & HlI & HlO & Hrows); [done..|].
  exists d. split; [done|].
  unfold getNumDataSetSamples, getNumDataSetInputs, getNumDataSetOutputs.
  split; [|split; [done|split; [done|split; [done|split]]]].
  - unfold data_ok. rewrite HS, HI, HO.
    split; [done|]. split; [done|]. split; [done|]. split; [done|].
    split; apply Forall_lookup_2; intros k r Hr.
    + assert (Hk : Z.of_nat k < nS) by (apply lookup_lt_Some in Hr; lia).
      destruct (Hrows k Hk) as [Hrow _]. rewrite Hrow in Hr.
      injection Hr as <-. apply row_length; [lia | done | nia].
    + assert (Hk : Z.of_nat k < nS) by (apply lookup_lt_Some in Hr; lia).
      destruct (Hrows k Hk) as [_ Hrow]. rewrite Hrow in Hr.
      injection Hr as <-. apply row_length; [lia | done | nia].
  - intros i j Hi Hj. unfold getDataSetSampleInput, aget2.
    destruct (Hrows (Z.to_nat i)) as [Hrow _]; [lia|].
    replace (Z.of_nat (Z.to_nat i)) with i in Hrow by lia.
    assert (Hget : aget (inputData d) i
              = Ok (take (Z.to_nat nI) (drop (Z.to_nat (i * nI)) ins))).
    { apply aget_Ok. split; [lia | done]. }
    rewrite Hget. cbn [mbind result_bind].
    apply row_cell; [nia | done | nia].
  - intros i j Hi Hj. unfold getDataSetSampleOutput, aget2.
    destruct (Hrows (Z.to_nat i)) as [_ Hrow]; [lia|].
    replace (Z.of_nat (Z.to_nat i)) with i in Hrow by lia.
    assert (Hget : aget (outputData d) i
              = Ok (take (Z.to_nat nO) (drop (Z.to_nat (i * nO)) outs))).
    { apply aget_Ok. split; [lia | done]. }
    rewrite Hget. cbn [mbind result_bind].
    apply row_cell; [nia | done | nia].
Qed.

(** ** The extras on cross-validation *)

(** X16.  With a generator that returns no negative number and a testing
    fold among 0, ..., 9, the testing fold, the seven training folds and
    the two validation folds [getIndex] writes are the ten folds, each
    of them once.  The entries of the two arrays after the seventh and
    after the second are left as they were. *)
Theorem getIndex_draws_every_fold_once `{Libc}
    (training_index validation_index : list Z) (testing_index seed : Z)
    (tr va : list Z) (seed' : Z) :
  (forall s, 0 <= (rand_r s).1) ->
  0 <= testing_index < 10 ->
  getIndex training_index validation_index testing_index seed
    = Ok (tr, va, seed') ->
  testing_index :: take 7 tr ++ take 2 va ≡ₚ seqZ 0 10
  /\ drop 7 tr = drop 7 training_index
  /\ drop 2 va = drop 2 validation_index.
Proof. apply getIndex_spec. Qed.

Lemma getIndex_draws_every_fold_once_witness :
  exists tr va seed',
    getIndex (replicate 7 0) (replicate 2 0) 3 1 = Ok (tr, va, seed')
    /\ 3 :: take 7 tr ++ take 2 va ≡ₚ seqZ 0 10.
Proof.
  assert (Hok : is_ok (getIndex (replicate 7 0) (replicate 2 0) 3 1) = true)
    by (vm_compute; reflexivity).
  destruct (getIndex (replicate 7 0) (replicate 2 0) 3 1)
    as [[[tr va] seed']|e] eqn:E; [|discriminate].
  exists tr, va, seed'. split; [reflexivity|].
  assert (Ht : 0 <= 3 < 10) by lia.
  exact (proj1 (@getIndex_draws_every_fold_once example_libc _ _ 3 1
                  tr va seed' glibc_rand_r_nonneg Ht E)).
Defined.

Lemma shuffleData_permutes_the_samples_witness :
  exists data' seed',
    shuffleData example_data 1 = Ok (data', seed')
    /\ samples data' ≡ₚ samples example_data.
Proof.
  assert (Hok : is_ok (shuffleData example_data 1) = true)
    by (vm_compute; reflexivity).
  destruct (shuffleData example_data 1) as [[data' seed']|e] eqn:E;
    [|discriminate].
  exists data', seed'. split; [reflexivity|].
  assert (Hdata : data_ok example_data).
  { unfold data_ok. cbn.
    split; [lia|]. split; [lia|]. split; [lia|]. split; [lia|].
    split; repeat constructor. }
  exact (proj2 (proj2 (proj2 (proj2
           (@shuffleData_permutes_the_samples example_libc _ data' 1 seed'
              Hdata E))))).
Defined.

Lemma initialiseDataSetFromArrays_round_trip_witness :
  exists d,
    initialiseDataSetFromArrays 2 1 2
      [of_int 1; of_int 2; of_int 3; of_int (-1)] [half; of_int 0] = Ok d
    /\ data_ok d.
Proof.
  assert (HnI : 0 <= 2) by lia. assert (HnO : 0 <= 1) by lia.
  assert (Hins : 2 * 2 <= Z.of_nat (length
            [of_int 1; of_int 2; of_int 3; of_int (-1)])) by (cbn; lia).
  assert (Houts : 2 * 1 <= Z.of_nat (length [half; of_int 0])) by (cbn; lia).
  destruct (initialiseDataSetFromArrays_round_trip 2 1 2 _ _
              HnI HnO HnI Hins Houts) as (d & Hd & Hok & _).
  exists d. split; [exact Hd | exact Hok].
Defined.

(** ** Cross-validation: the three sets *)

Lemma row_step {A} (r r0 : list A) (k : nat) (x : A) :
  r !! k = Some x -> (k < length r0)%nat ->
  <[k:=x]> (take k r ++ drop k r0) = take (S k) r ++ drop (S k) r0.
Proof.
  intros Hx Hk.
  assert (Hlen : length (take k r) = k).
  { rewrite length_take. apply lookup_lt_Some in Hx. lia. }
  rewrite insert_app_r_alt by lia. rewrite Hlen, Nat.sub_diag.
  destruct (lookup_lt_is_Some_2 r0 k Hk) as [y Hy].
  rewrite (drop_S _ _ _ Hy). cbn [insert list_insert].
  rewrite (take_S_r _ _ _ Hx). by rewrite <- app_assoc.
Qed.

(** The loop that copies the row [j] of [src] to the row [l] of [dst],
    cell by cell. *)
Lemma copy_cells {A} (src dst : list (list A)) (j l n : Z) (r r0 : list A) :
  0 <= j -> 0 <= l ->
  src !! Z.to_nat j = Some r -> dst !! Z.to_nat l = Some r0 ->
  Z.of_nat (length r) = n -> Z.of_nat (length r0) = n ->
  for_loop 0 n (fun k d => x ← aget2 src j k; aset2 d l k x) dst
    = Ok (<[Z.to_nat l := r]> dst).
Proof.
  intros Hj Hl Hr Hr0 Hlr Hlr0.
  set (P := fun (k : Z) (d : list (list A)) =>
         d = <[Z.to_nat l :=
                 take (Z.to_nat k) r ++ drop (Z.to_nat k) r0]> dst).
  destruct (for_loop_total P
              (fun k d => x ← aget2 src j k; aset2 d l k x) 0 n dst)
    as (d & Hrun & Hd); [lia | | | ].
  - unfold P. cbn [Z.to_nat take]. rewrite drop_0. cbn [app].
    by rewrite list_insert_id.
  - intros k d Hk ->. unfold aget2, aset2.
    assert (Hsrc : aget src j = Ok r) by (by apply aget_Ok).
    rewrite Hsrc. cbn [mbind result_bind].
    destruct (aget_in_range r k) as [x Hx]; [lia|].
    rewrite Hx. cbn [mbind result_bind].
    pose proof (lookup_lt_Some _ _ _ Hr0) as Hldst.
    set (row := take (Z.to_nat k) r ++ drop (Z.to_nat k) r0).
    assert (Hrow : aget (<[Z.to_nat l:=row]> dst) l = Ok row).
    { apply aget_Ok. split; [done|]. by apply list_lookup_insert_eq. }
    rewrite Hrow. cbn [mbind result_bind].
    assert (Hlrow : Z.of_nat (length row) = n).
    { unfold row. rewrite length_app, length_take, length_drop. lia. }
    rewrite aset_in_range by lia. cbn [mbind result_bind].
    rewrite aset_in_range by (rewrite length_insert; lia).
    eexists. split; [done|]. unfold P. rewrite list_insert_insert_eq.
    f_equal. replace (Z.to_nat (k + 1)) with (S (Z.to_nat k)) by lia.
    apply row_step; [|lia]. by apply aget_Ok in Hx as [_ Hx].
  - rewrite Hrun. f_equal. unfold P in Hd. rewrite Hd. f_equal.
    rewrite take_ge by lia. rewrite drop_ge by lia. apply app_nil_r.
Qed.

(** The next free row of a set that is being filled. *)
Lemma fill_next {A} (pre : list A) (m : nat) (z r : A) :
  <[length pre := r]> (pre ++ replicate (S m) z)
    = (pre ++ [r]) ++ replicate m z.
Proof.
  rewrite insert_app_r_alt by lia. rewrite Nat.sub_diag. cbn.
  by rewrite <- app_assoc.
Qed.

Lemma fill_next_at {A} (pre : list A) (m : nat) (z r : A) (i : nat) :
  i = length pre ->
  <[i := r]> (pre ++ replicate (S m) z) = (pre ++ [r]) ++ replicate m z.
Proof. intros ->. apply fill_next. Qed.

(** The loop that copies one fold behind the rows [preI] and [preO]
    that are filled already; [m] rows are free. *)
Lemma copy_fold (f : dataSet) (nI nO : Z)
    (preI preO : list (list double)) (m : nat) (l : Z) :
  data_ok f -> d_numInputs f = nI -> d_numOutputs f = nO ->
  Z.of_nat (length preI) = l -> Z.of_nat (length preO) = l ->
  d_numSamples f <= Z.of_nat m ->
  for_loop 0 (d_numSamples f)
    (fun j '(inD, outD, l) =>
       inD ← for_loop 0 nI
               (fun k inD => x ← aget2 (inputData f) j k; aset2 inD l k x)
               inD;
       outD ← for_loop 0 nO
                (fun k outD =>
                   x ← aget2 (outputData f) j k; aset2 outD l k x)
                outD;
       Ok (inD, outD, l + 1))
    (preI ++ replicate m (replicate (Z.to_nat nI) (of_int 0)),
     preO ++ replicate m (replicate (Z.to_nat nO) (of_int 0)), l)
  = Ok ((preI ++ inputData f)
          ++ replicate (m - Z.to_nat (d_numSamples f))
               (replicate (Z.to_nat nI) (of_int 0)),
        (preO ++ outputData f)
          ++ replicate (m - Z.to_nat (d_numSamples f))
               (replicate (Z.to_nat nO) (of_int 0)),
        l + d_numSamples f).
Proof.
  intros (HnI & HnO & HlI & HlO & HrI & HrO) HI HO HpI HpO Hm.
  set (zI := replicate (Z.to_nat nI) (of_int 0)).
  set (zO := replicate (Z.to_nat nO) (of_int 0)).
  set (P := fun (j : Z) (s : list (list double) * list (list double) * Z) =>
         s = ((preI ++ take (Z.to_nat j) (inputData f))
                ++ replicate (m - Z.to_nat j) zI,
              (preO ++ take (Z.to_nat j) (outputData f))
                ++ replicate (m - Z.to_nat j) zO,
              l + j)).
  match goal with
  | |- for_loop 0 _ ?body ?s0 = _ =>
      destruct (for_loop_total P body 0 (d_numSamples f) s0)
        as (s & Hrun & Hs); [lia | | | ]
  end.
  - unfold P. cbn [Z.to_nat take]. rewrite !app_nil_r, Nat.sub_0_r.
    by rewrite Z.add_0_r.
  - intros j s Hj ->.
    destruct (lookup_lt_is_Some_2 (inputData f) (Z.to_nat j)) as [rI HrIj];
      [lia|].
    destruct (lookup_lt_is_Some_2 (outputData f) (Z.to_nat j)) as [rO HrOj];
      [lia|].
    pose proof (Forall_lookup_1 _ _ _ _ HrI HrIj) as HlrI.
    pose proof (Forall_lookup_1 _ _ _ _ HrO HrOj) as HlrO.
    cbn beta in HlrI, HlrO.
    replace (m - Z.to_nat j)%nat with (S (m - Z.to_nat (j + 1)))%nat by lia.
    assert (HlenI : Z.to_nat (l + j)
              = length (preI ++ take (Z.to_nat j) (inputData f))).
    { rewrite length_app, length_take. lia. }
    assert (HlenO : Z.to_nat (l + j)
              = length (preO ++ take (Z.to_nat j) (outputData f))).
    { rewrite length_app, length_take. lia. }
    rewrite (copy_cells (inputData f) _ j (l + j) nI rI zI);
      [ | lia | lia | done | | lia | unfold zI; rewrite length_replicate; lia].
    2: { rewrite HlenI. rewrite lookup_app_r by lia.
         by rewrite Nat.sub_diag. }
    cbn [mbind result_bind].
    rewrite (copy_cells (outputData f) _ j (l + j) nO rO zO);
      [ | lia | lia | done | | lia | unfold zO; rewrite length_replicate; lia].
    2: { rewrite HlenO. rewrite lookup_app_r by lia.
         by rewrite Nat.sub_diag. }
    cbn [mbind result_bind].
    eexists. split; [done|]. unfold P.
    rewrite HlenI at 1. rewrite HlenO at 1. rewrite !fill_next.
    replace (Z.to_nat (j + 1)) with (S (Z.to_nat j)) by lia.
    rewrite (take_S_r _ _ _ HrIj), (take_S_r _ _ _ HrOj).
    rewrite !app_assoc. f_equal. lia.
  - rewrite Hrun. f_equal. unfold P in Hs. rewrite Hs.
    rewrite !take_ge by lia. done.
Qed.

Lemma chosen_folds_app (folds : list dataSet) (a b : list Z) :
  chosen_folds folds (a ++ b) = chosen_folds folds a ++ chosen_folds folds b.
Proof. apply omap_app. Qed.

Lemma chosen_folds_step (folds : list dataSet) (index : list Z) (i : nat)
    (k : Z) (f : dataSet) :
  index !! i = Some k -> folds !! Z.to_nat k = Some f ->
  chosen_folds folds (take (S i) index)
    = chosen_folds folds (take i index) ++ [f].
Proof.
  intros Hk Hf. rewrite (take_S_r _ _ _ Hk), chosen_folds_app.
  f_equal. unfold chosen_folds. cbn. by rewrite Hf.
Qed.

Lemma chosen_folds_Forall (P : dataSet -> Prop) (folds : list dataSet)
    (index : list Z) :
  Forall P folds -> Forall P (chosen_folds folds index).
Proof.
  intros Hall. induction index as [|k index IH]; [constructor|].
  unfold chosen_folds in *. cbn.
  destruct (folds !! Z.to_nat k) as [f|] eqn:Hf; [|done].
  constructor; [|done]. by apply (Forall_lookup_1 _ _ _ _ Hall Hf).
Qed.

Lemma total_samples_app (a b : list dataSet) :
  total_samples (a ++ b) = total_samples a + total_samples b.
Proof.
  unfold total_samples. induction a as [|f a IH]; cbn [app foldr]; lia.
Qed.

Lemma total_samples_inputs (f0 : dataSet) (fs : list dataSet) :
  Forall (fold_like f0) fs ->
  Z.of_nat (length (concat (inputData <$> fs))) = total_samples fs.
Proof.
  unfold total_samples.
  induction 1 as [|f fs ((_ & _ & Hl & _) & _) _ IH]; [done|].
  cbn [fmap list_fmap concat foldr]. rewrite length_app. lia.
Qed.

Lemma total_samples_outputs (f0 : dataSet) (fs : list dataSet) :
  Forall (fold_like f0) fs ->
  Z.of_nat (length (concat (outputData <$> fs))) = total_samples fs.
Proof.
  unfold total_samples.
  induction 1 as [|f fs ((_ & _ & _ & Hl & _) & _) _ IH]; [done|].
  cbn [fmap list_fmap concat foldr]. rewrite length_app. lia.
Qed.

Lemma total_samples_nonneg (f0 : dataSet) (fs : list dataSet) :
  Forall (fold_like f0) fs -> 0 <= total_samples fs.
Proof. intros Hall. rewrite <- (total_samples_inputs f0) by done. lia. Qed.

Lemma fold_rows_inputs (f0 : dataSet) (fs : list dataSet) :
  Forall (fold_like f0) fs ->
  Forall (fun r => Z.of_nat (length r) = d_numInputs f0)
    (concat (inputData <$> fs)).
Proof.
  induction 1 as [|f fs ((_ & _ & _ & _ & Hr & _) & HI & _) _ IH];
    [constructor|].
  cbn. apply Forall_app. split; [|done]. by rewrite <- HI.
Qed.

Lemma fold_rows_outputs (f0 : dataSet) (fs : list dataSet) :
  Forall (fold_like f0) fs ->
  Forall (fun r => Z.of_nat (length r) = d_numOutputs f0)
    (concat (outputData <$> fs)).
Proof.
  induction 1 as [|f fs ((_ & _ & _ & _ & _ & Hr) & _ & HO) _ IH];
    [constructor|].
  cbn. apply Forall_app. split; [|done]. by rewrite <- HO.
Qed.

(** What [getTrainingData] and [getValidationData] return: the rows of
    the chosen folds, one fold after the other. *)
Lemma gatherFolds_spec (n : Z) (folds : list dataSet) (index : list Z)
    (f0 : dataSet) :
  folds !! 0%nat = Some f0 ->
  Forall (fold_like f0) folds ->
  0 <= n <= Z.of_nat (length index) ->
  Forall (fun k => 0 <= k < Z.of_nat (length folds))
    (take (Z.to_nat n) index) ->
  exists d, gatherFolds n folds index = Ok d
    /\ data_ok d
    /\ d_numInputs d = d_numInputs f0 /\ d_numOutputs d = d_numOutputs f0
    /\ inputData d
       = concat (inputData <$> chosen_folds folds (take (Z.to_nat n) index))
    /\ outputData d
       = concat (outputData <$> chosen_folds folds (take (Z.to_nat n) index)).
Proof.
  intros Hf0 Hall Hn Hidx. unfold gatherFolds.
  assert (Hget0 : aget folds 0 = Ok f0) by (by apply aget_Ok).
  rewrite Hget0. cbn [mbind result_bind]. cbv zeta.
  set (chosen := fun i : Z => chosen_folds folds (take (Z.to_nat i) index)).
  assert (Hch : forall i, Forall (fold_like f0) (chosen i)).
  { intros i. by apply chosen_folds_Forall. }
  assert (Hentry : forall i, 0 <= i < n ->
            exists k f, aget index i = Ok k /\ aget folds k = Ok f
              /\ chosen (i + 1) = chosen i ++ [f]).
  { intros i Hi.
    destruct (lookup_lt_is_Some_2 index (Z.to_nat i)) as [k Hk]; [lia|].
    assert (Hkr : 0 <= k < Z.of_nat (length folds)).
    { rewrite Forall_forall in Hidx. apply Hidx.
      apply list_elem_of_lookup. exists (Z.to_nat i).
      rewrite lookup_take_lt by lia. done. }
    destruct (lookup_lt_is_Some_2 folds (Z.to_nat k)) as [f Hf]; [lia|].
    exists k, f.
    split; [apply aget_Ok; split; [lia|done]|].
    split; [apply aget_Ok; split; [lia|done]|].
    unfold chosen. replace (Z.to_nat (i + 1)) with (S (Z.to_nat i)) by lia.
    by apply chosen_folds_step with k. }
  assert (Hmono : forall i, 0 <= i <= n ->
            total_samples (chosen i) <= total_samples (chosen n)).
  { intros i Hi. unfold chosen.
    rewrite <- (take_drop (Z.to_nat i) (take (Z.to_nat n) index)).
    rewrite take_take. replace (Z.to_nat i `min` Z.to_nat n)%nat
      with (Z.to_nat i) by lia.
    rewrite chosen_folds_app, total_samples_app.
    assert (0 <= total_samples
              (chosen_folds folds
                 (drop (Z.to_nat i) (take (Z.to_nat n) index)))); [|lia].
    apply (total_samples_nonneg f0). by apply chosen_folds_Forall. }
  (* the number of samples *)
  match goal with
  | |- context [for_loop 0 n ?body 0] =>
      destruct (for_loop_total
                  (fun i s => s = total_samples (chosen i)) body 0 n 0)
        as (T & HT & HTeq); [lia | done | | ]
  end.
  { intros i s Hi ->. destruct (Hentry i Hi) as (k & f & Hk & Hf & Hnext).
    rewrite Hk. cbn [mbind result_bind]. rewrite Hf. cbn [mbind result_bind].
    eexists. split; [done|]. rewrite Hnext, total_samples_app. cbn. lia. }
  rewrite HT. cbn [mbind result_bind]. subst T.
  (* the rows *)
  set (T := total_samples (chosen n)).
  set (zI := replicate (Z.to_nat (d_numInputs f0)) (of_int 0)).
  set (zO := replicate (Z.to_nat (d_numOutputs f0)) (of_int 0)).
  set (Q := fun (i : Z) (s : list (list double) * list (list double) * Z) =>
         s = (concat (inputData <$> chosen i)
                ++ replicate (Z.to_nat (T - total_samples (chosen i))) zI,
              concat (outputData <$> chosen i)
                ++ replicate (Z.to_nat (T - total_samples (chosen i))) zO,
              total_samples (chosen i))).
  match goal with
  | |- context [for_loop 0 n ?body ?s0] =>
      destruct (for_loop_total Q body 0 n s0)
        as (s & Hrun & Hs); [lia | | | ]
  end.
  { unfold Q, chosen. cbn. by rewrite Z.sub_0_r. }
  { intros i s Hi ->. destruct (Hentry i Hi) as (k & f & Hk & Hf & Hnext).
    rewrite Hk. cbn [mbind result_bind]. rewrite Hf. cbn [mbind result_bind].
    assert (Hfl : fold_like f0 f).
    { specialize (Hch (i + 1)). rewrite Hnext in Hch.
      apply Forall_app in Hch as [_ Hch]. by inversion Hch. }
    destruct Hfl as (Hfok & HfI & HfO).
    assert (Htot : total_samples (chosen (i + 1))
              = total_samples (chosen i) + d_numSamples f).
    { rewrite Hnext, total_samples_app. cbn. lia. }
    pose proof (Hmono (i + 1) ltac:(lia)) as Hle. fold T in Hle.
    rewrite (copy_fold f (d_numInputs f0) (d_numOutputs f0));
      [ | done | done | done
        | by apply (total_samples_inputs f0)
        | by apply (total_samples_outputs f0) | lia ].
    eexists. split; [done|]. unfold Q. rewrite Hnext.
    rewrite !fmap_app, !concat_app. cbn [fmap list_fmap concat].
    rewrite !app_nil_r. rewrite <- Hnext, Htot.
    assert (Hpos : 0 <= d_numSamples f).
    { destruct Hfok as (_ & _ & Hl & _). lia. }
    replace (Z.to_nat (T - (total_samples (chosen i) + d_numSamples f)))
      with (Z.to_nat (T - total_samples (chosen i))
            - Z.to_nat (d_numSamples f))%nat by lia.
    done. }
  rewrite Hrun. unfold Q in Hs. subst s. cbn [mbind result_bind].
  eexists. split; [done|].
  cbn [d_numSamples d_numInputs d_numOutputs inputData outputData].
  replace (Z.to_nat (T - total_samples (chosen n))) with O by (unfold T; lia).
  cbn [replicate]. rewrite !app_nil_r.
  split; [|done].
  assert (Hf0like : fold_like f0 f0) by apply (Forall_lookup_1 _ _ _ _ Hall Hf0).
  destruct Hf0like as ((HnI & HnO & _) & _).
  unfold data_ok.
  cbn [d_numSamples d_numInputs d_numOutputs inputData outputData].
  split; [done|]. split; [done|].
  split; [by apply (total_samples_inputs f0)|].
  split; [by apply (total_samples_outputs f0)|].
  split; [by apply fold_rows_inputs | by apply fold_rows_outputs].
Qed.

(** What [getTestingData] returns: the rows of the fold. *)
Lemma getTestingData_spec (folds : list dataSet) (testing_index : Z)
    (f0 : dataSet) :
  folds !! 0%nat = Some f0 ->
  Forall (fold_like f0) folds ->
  0 <= testing_index < Z.of_nat (length folds) ->
  exists d f, folds !! Z.to_nat testing_index = Some f
    /\ getTestingData folds testing_index = Ok d
    /\ data_ok d
    /\ d_numInputs d = d_numInputs f0 /\ d_numOutputs d = d_numOutputs f0
    /\ inputData d = inputData f /\ outputData d = outputData f.
Proof.
  intros Hf0 Hall Ht. unfold getTestingData.
  assert (Hget0 : aget folds 0 = Ok f0) by (by apply aget_Ok).
  rewrite Hget0. cbn [mbind result_bind].
  destruct (lookup_lt_is_Some_2 folds (Z.to_nat testing_index)) as [f Hf];
    [lia|].
  assert (Hget : aget folds testing_index = Ok f).
  { apply aget_Ok. split; [lia|done]. }
  rewrite Hget. cbn [mbind result_bind]. cbv zeta.
  destruct (Forall_lookup_1 _ _ _ _ Hall Hf) as (Hfok & HfI & HfO).
  pose proof Hfok as (HnI & HnO & HlI & HlO & HrI & HrO).
  set (zI := replicate (Z.to_nat (d_numInputs f0)) (of_int 0)).
  set (zO := replicate (Z.to_nat (d_numOutputs f0)) (of_int 0)).
  set (N := Z.to_nat (d_numSamples f)).
  set (P := fun (i : Z) (s : list (list double) * list (list double)) =>
         s = (take (Z.to_nat i) (inputData f)
                ++ replicate (N - Z.to_nat i) zI,
              take (Z.to_nat i) (outputData f)
                ++ replicate (N - Z.to_nat i) zO)).
  match goal with
  | |- context [for_loop 0 (d_numSamples f) ?body ?s0] =>
      destruct (for_loop_total P body 0 (d_numSamples f) s0)
        as (s & Hrun & Hs); [lia | | | ]
  end.
  - unfold P. cbn [Z.to_nat take app]. by rewrite Nat.sub_0_r.
  - intros i s Hi ->.
    destruct (lookup_lt_is_Some_2 (inputData f) (Z.to_nat i)) as [rI HrIi];
      [lia|].
    destruct (lookup_lt_is_Some_2 (outputData f) (Z.to_nat i)) as [rO HrOi];
      [lia|].
    pose proof (Forall_lookup_1 _ _ _ _ HrI HrIi) as HlrI.
    pose proof (Forall_lookup_1 _ _ _ _ HrO HrOi) as HlrO.
    cbn beta in HlrI, HlrO.
    replace (N - Z.to_nat i)%nat with (S (N - Z.to_nat (i + 1)))%nat
      by (unfold N; lia).
    assert (HlenI : Z.to_nat i = length (take (Z.to_nat i) (inputData f))).
    { rewrite length_take. lia. }
    assert (HlenO : Z.to_nat i = length (take (Z.to_nat i) (outputData f))).
    { rewrite length_take. lia. }
    rewrite (copy_cells (inputData f) _ i i (d_numInputs f0) rI zI);
      [ | lia | lia | done | | lia | unfold zI; rewrite length_replicate; lia].
    2: { rewrite HlenI at 1. rewrite lookup_app_r by lia.
         by rewrite Nat.sub_diag. }
    cbn [mbind result_bind].
    rewrite (copy_cells (outputData f) _ i i (d_numOutputs f0) rO zO);
      [ | lia | lia | done | | lia | unfold zO; rewrite length_replicate; lia].
    2: { rewrite HlenO at 1. rewrite lookup_app_r by lia.
         by rewrite Nat.sub_diag. }
    cbn [mbind result_bind].
    eexists. split; [done|]. unfold P.
    rewrite (fill_next_at _ _ _ _ _ HlenI), (fill_next_at _ _ _ _ _ HlenO).
    replace (Z.to_nat (i + 1)) with (S (Z.to_nat i)) by lia.
    by rewrite (take_S_r _ _ _ HrIi), (take_S_r _ _ _ HrOi).
  - rewrite Hrun. unfold P in Hs. subst s. cbn [mbind result_bind].
    exists {| d_numSamples := d_numSamples f;
              d_numInputs := d_numInputs f0;
              d_numOutputs := d_numOutputs f0;
              inputData := inputData f; outputData := outputData f |}, f.
    split; [done|].
    replace (N - Z.to_nat (d_numSamples f))%nat with O by (unfold N; lia).
    cbn [replicate]. rewrite !app_nil_r. rewrite !take_ge by lia.
    split; [done|].
    unfold data_ok.
    cbn [d_numSamples d_numInputs d_numOutputs inputData outputData].
    rewrite <- HfI, <- HfO. done.
Qed.

Lemma samples_concat (f0 : dataSet) (fs : list dataSet) :
  Forall (fold_like f0) fs ->
  zip (concat (inputData <$> fs)) (concat (outputData <$> fs))
    = concat (samples <$> fs).
Proof.
  induction 1 as [|f fs ((_ & _ & HlI & HlO & _) & _) _ IH]; [done|].
  cbn [fmap list_fmap concat]. rewrite zip_with_app by lia.
  by rewrite IH.
Qed.

Lemma concat_Permutation {A} (l k : list (list A)) :
  l ≡ₚ k -> concat l ≡ₚ concat k.
Proof.
  induction 1 as [|x l k _ IH|x y l|l k m _ IH1 _ IH2]; cbn [concat].
  - done.
  - by rewrite IH.
  - rewrite !app_assoc. by rewrite (Permutation_app_comm x y).
  - by rewrite IH1.
Qed.

Lemma chosen_folds_all (folds : list dataSet) :
  length folds = 10%nat -> chosen_folds folds (seqZ 0 10) = folds.
Proof.
  intros Hlen.
  do 10 (destruct folds as [|? folds]; [discriminate|]).
  destruct folds; [reflexivity | discriminate].
Qed.

(** X21.  The split of a cross-validation loses no sample and doubles
    none: with the indices [getIndex] draws for a testing fold among
    0, ..., 9, the testing set, the training set and the validation set
    built from ten folds hold, together, the samples of the ten folds,
    each of them once. *)
Theorem cross_validation_split_is_a_partition `{Libc} (folds : list dataSet)
    (f0 : dataSet) (training_index validation_index : list Z)
    (testing_index seed : Z) (tr va : list Z) (seed' : Z) :
  (forall s, 0 <= (rand_r s).1) ->
  0 <= testing_index < 10 ->
  length folds = 10%nat ->
  folds !! 0%nat = Some f0 ->
  Forall (fold_like f0) folds ->
  getIndex training_index validation_index testing_index seed
    = Ok (tr, va, seed') ->
  exists dS dT dV,
    getTestingData folds testing_index = Ok dS
    /\ getTrainingData folds tr = Ok dT
    /\ getValidationData folds va = Ok dV
    /\ samples dS ++ samples dT ++ samples dV ≡ₚ concat (samples <$> folds).
Proof.
  intros Hrand Ht Hlen Hf0 Hall Hrun.
  destruct (getIndex_spec _ _ _ _ _ _ _ Hrand Ht Hrun) as (Hperm & _ & _).
  assert (Hcount : length (testing_index :: take 7 tr ++ take 2 va)
             = 10%nat) by (by rewrite Hperm).
  cbn [length] in Hcount. rewrite length_app, !length_take in Hcount.
  assert (Hrange : Forall (fun k => 0 <= k < Z.of_nat (length folds))
             (testing_index :: take 7 tr ++ take 2 va)).
  { rewrite Hperm. apply Forall_forall. intros k Hk%elem_of_seqZ. lia. }
  apply Forall_cons in Hrange as [_ Hrange].
  apply Forall_app in Hrange as [Htr Hva].
  destruct (getTestingData_spec folds testing_index f0)
    as (dS & fS & HfS & HdS & _ & _ & _ & HSi & HSo); [done | done | lia|].
  destruct (gatherFolds_spec 7 folds tr f0)
    as (dT & HdT & _ & _ & _ & HTi & HTo); [done | done | lia | done|].
  destruct (gatherFolds_spec 2 folds va f0)
    as (dV & HdV & _ & _ & _ & HVi & HVo); [done | done | lia | done|].
  exists dS, dT, dV. split; [done|]. split; [done|]. split; [done|].
  unfold samples at 1 2 3. rewrite HSi, HSo, HTi, HTo, HVi, HVo.
  rewrite !(samples_concat f0) by (by apply chosen_folds_Forall).
  change (Z.to_nat 7) with 7%nat. change (Z.to_nat 2) with 2%nat.
  fold (samples fS).
  assert (Hfolds : concat (samples <$> folds)
            = concat (samples <$> chosen_folds folds (seqZ 0 10))).
  { by rewrite chosen_folds_all. }
  rewrite Hfolds.
  transitivity (concat (samples <$> chosen_folds folds
                  (testing_index :: take 7 tr ++ take 2 va))).
  2: { apply concat_Permutation, fmap_Permutation. unfold chosen_folds.
       by apply omap_Permutation. }
  change (testing_index :: take 7 tr ++ take 2 va)
    with ([testing_index] ++ take 7 tr ++ take 2 va).
  rewrite !chosen_folds_app, !fmap_app, !concat_app.
  assert (Htest : chosen_folds folds [testing_index] = [fS]).
  { unfold chosen_folds. cbn. by rewrite HfS. }
  rewrite Htest.
  cbn [fmap list_fmap concat]. by rewrite app_nil_r.
Qed.

(** ** The extras on the three sets *)

(** X19.  With folds of the dimensions of the first one and an array of
    at least seven, or two, places of folds, [getTrainingData] and
    [getValidationData] return a data set that holds the rows of the
    first seven, or two, folds the array names, one fold after the
    other and in the order of the array, with the dimensions of the
    first fold. *)
Theorem getTrainingData_concatenates_the_folds (folds : list dataSet)
    (f0 : dataSet) (training_index validation_index : list Z) :
  folds !! 0%nat = Some f0 ->
  Forall (fold_like f0) folds ->
  (7 <= length training_index)%nat ->
  (2 <= length validation_index)%nat ->
  names_folds folds (take 7 training_index) ->
  names_folds folds (take 2 validation_index) ->
  gathers f0 folds (take 7 training_index)
    (getTrainingData folds training_index)
  /\ gathers f0 folds (take 2 validation_index)
       (getValidationData folds validation_index).
Proof.
  intros Hf0 Hall Htr Hva Hntr Hnva. split.
  - apply (gatherFolds_spec 7); [done | done | lia | done].
  - apply (gatherFolds_spec 2); [done | done | lia | done].
Qed.

(** X20.  [getTestingData] returns a copy of the fold it is given the
    place of: the same rows of inputs and of targets, under the
    dimensions of the first fold. *)
Theorem getTestingData_copies_the_fold (folds : list dataSet)
    (testing_index : Z) (f0 : dataSet) :
  folds !! 0%nat = Some f0 ->
  Forall (fold_like f0) folds ->
  0 <= testing_index < Z.of_nat (length folds) ->
  exists d f, folds !! Z.to_nat testing_index = Some f
    /\ getTestingData folds testing_index = Ok d
    /\ data_ok d
    /\ d_numInputs d = d_numInputs f0 /\ d_numOutputs d = d_numOutputs f0
    /\ inputData d = inputData f /\ outputData d = outputData f.
Proof. apply getTestingData_spec. Qed.

Lemma example_data_ok : data_ok example_data.
Proof.
  unfold data_ok. cbn.
  split; [lia|]. split; [lia|]. split; [lia|]. split; [lia|].
  split; repeat constructor.
Qed.

Lemma example_folds_like : Forall (fold_like example_data) example_folds.
Proof.
  apply Forall_replicate. split; [apply example_data_ok | split; reflexivity].
Qed.

Lemma getTrainingData_concatenates_the_folds_witness :
  gathers example_data example_folds (take 7 [1; 2; 3; 4; 5; 6; 7])
    (getTrainingData example_folds [1; 2; 3; 4; 5; 6; 7])
  /\ gathers example_data example_folds (take 2 [8; 9])
       (getValidationData example_folds [8; 9]).
Proof.
  assert (H0 : example_folds !! 0%nat = Some example_data) by reflexivity.
  assert (H7 : (7 <= length [1; 2; 3; 4; 5; 6; 7])%nat) by (cbn; lia).
  assert (H2 : (2 <= length [8; 9])%nat) by (cbn; lia).
  assert (Htr : names_folds example_folds (take 7 [1; 2; 3; 4; 5; 6; 7])).
  { unfold names_folds. cbn. repeat (constructor; [lia|]). constructor. }
  assert (Hva : names_folds example_folds (take 2 [8; 9])).
  { unfold names_folds. cbn. repeat (constructor; [lia|]). constructor. }
  exact (getTrainingData_concatenates_the_folds example_folds example_data
           [1; 2; 3; 4; 5; 6; 7] [8; 9] H0 example_folds_like H7 H2 Htr Hva).
Defined.

Lemma getTestingData_copies_the_fold_witness :
  exists d f, example_folds !! Z.to_nat 3 = Some f
    /\ getTestingData example_folds 3 = Ok d
    /\ inputData d = inputData f /\ outputData d = outputData f.
Proof.
  assert (H0 : example_folds !! 0%nat = Some example_data) by reflexivity.
  assert (H3 : 0 <= 3 < Z.of_nat (length example_folds)) by (cbn; lia).
  destruct (getTestingData_copies_the_fold example_folds 3 example_data
              H0 example_folds_like H3)
    as (d & f & Hf & Hd & _ & _ & _ & Hi & Ho).
  exists d, f. split; [exact Hf|]. split; [exact Hd|].
  split; [exact Hi | exact Ho].
Defined.

Lemma cross_validation_split_is_a_partition_witness :
  exists tr va seed' dS dT dV,
    getIndex (replicate 7 0) (replicate 2 0) 3 1 = Ok (tr, va, seed')
    /\ getTestingData example_folds 3 = Ok dS
    /\ getTrainingData example_folds tr = Ok dT
    /\ getValidationData example_folds va = Ok dV
    /\ samples dS ++ samples dT ++ samples dV
       ≡ₚ concat (samples <$> example_folds).
Proof.
  assert (Hok : is_ok (getIndex (replicate 7 0) (replicate 2 0) 3 1) = true)
    by (vm_compute; reflexivity).
  destruct (getIndex (replicate 7 0) (replicate 2 0) 3 1)
    as [[[tr va] seed']|e] eqn:E; [|discriminate].
  assert (H0 : example_folds !! 0%nat = Some example_data) by reflexivity.
  assert (Ht : 0 <= 3 < 10) by lia.
  assert (Hlen : length example_folds = 10%nat) by reflexivity.
  destruct (@cross_validation_split_is_a_partition example_libc
              example_folds example_data _ _ 3 1 tr va seed'
              glibc_rand_r_nonneg Ht Hlen H0 example_folds_like E)
    as (dS & dT & dV & HS & HT & HV & Hperm).
  exists tr, va, seed', dS, dT, dV.
  split; [reflexivity|]. split; [exact HS|]. split; [exact HT|].
  split; [exact HV | exact Hperm].
Defined.

(** ** The best of a population of differential evolution *)

(** One turn of the loop of [getBestDEChromosome]. *)
Lemma strictly_better_step (t : Z) (b p : chromosome)
    (seen : list chromosome) :
  Forall (fun c => dlt (DE_measure t c) (DE_measure t b) = false) seen ->
  let b' := if dlt (DE_measure t p) (DE_measure t b) then p else b in
  Forall (fun c => dlt (DE_measure t c) (DE_measure t b') = false)
    (seen ++ [p]).
Proof.
  intros Hseen b'. subst b'. apply Forall_app. split.
  - destruct (dlt (DE_measure t p) (DE_measure t b)) eqn:Hlt; [|done].
    eapply Forall_impl; [exact Hseen|]. cbn. intros q Hq.
    apply dlt_dle in Hlt.
    exact (not_worse_accept _ _ _ Hlt Hq).
  - apply Forall_singleton.
    destruct (dlt (DE_measure t p) (DE_measure t b)) eqn:Hlt; [|done].
    apply dlt_irrefl.
Qed.

Section BestOfPopulationProofs.
Context `{Libc} `{Fitness}.

(** X22.  For the types 1, 2 and 3 of CGPDE, no chromosome of the
    population is strictly fitter than the one [getBestDEChromosome]
    returns, by the training fitness for the types 1 and 2 and by the
    validation fitness for the type 3; what it returns carries the two
    fitness values of a member of the population (of the first
    chromosome when the population size is not positive).  For the
    types 1 and 2 the population is left as it was. *)
Theorem getBestDEChromosome_returns_the_fittest (params : parameters)
    (chromos : list chromosome) (dataValid : dataSet) (typeCGPDE : Z)
    (seed g : Z) (best : chromosome) (chromos' : list chromosome)
    (seed' g' : Z) :
  typeCGPDE = 1 \/ typeCGPDE = 2 \/ typeCGPDE = 3 ->
  getBestDEChromosome params chromos dataValid typeCGPDE seed g
    = Ok (best, chromos', seed', g') ->
  (typeCGPDE <> 3 -> chromos' = chromos /\ g' = g)
  /\ Forall (fun c => dlt (DE_measure typeCGPDE c)
                        (DE_measure typeCGPDE best) = false)
       (take (Z.to_nat (best_NP params typeCGPDE)) chromos')
  /\ exists c, c ∈ take (Z.to_nat (Z.max 1 (best_NP params typeCGPDE)))
                     chromos'
        /\ fitness best = fitness c
        /\ fitnessValidation best = fitnessValidation c.
Proof.
  intros Htype. unfold getBestDEChromosome. cbv zeta.
  assert (HNP : (if typeCGPDE =? 1 then p_NP_IN params
                 else if (typeCGPDE =? 2) || (typeCGPDE =? 3)
                      then p_NP_OUT params else 0)
                = best_NP params typeCGPDE).
  { unfold best_NP. by destruct Htype as [->|[->| ->]]. }
  rewrite HNP. set (NP := best_NP params typeCGPDE).
  intros ([ch g1] & Hval & Hrun)%bind_Ok.
  apply bind_Ok in Hrun as (c0 & Hc0 & Hrun).
  apply bind_Ok in Hrun as ([b0 s1] & _ & Hrun).
  apply bind_Ok in Hrun as (bsf & Hloop & Hrun).
  apply bind_Ok in Hrun as (r & Hcopy & Hrun).
  injection Hrun as <- <- <- <-.
  split.
  { intros Hne. destruct (Z.eqb_spec typeCGPDE 3) as [|_]; [done|].
    by injection Hval as <- <-. }
  apply aget_Ok in Hc0 as [_ Hc0]. change (Z.to_nat 0) with 0%nat in Hc0.
  set (le := fun b c : chromosome =>
         dlt (DE_measure typeCGPDE c) (DE_measure typeCGPDE b) = false).
  set (J := fun (i : Z) (b : chromosome) =>
         Forall (le b) (take (Z.to_nat i) ch) /\ b ∈ take (Z.to_nat i) ch).
  assert (Hend : J (Z.max 1 NP) bsf).
  { eapply (for_loop_inv_max J); [ | | exact Hloop]; unfold J.
    - change (Z.to_nat 1) with 1%nat.
      rewrite (take_S_r _ _ _ Hc0). cbn [take app]. split.
      + apply Forall_singleton. apply dlt_irrefl.
      + by apply list_elem_of_singleton.
    - intros i b b' Hi [Hall Hin] Hbody.
      apply bind_Ok in Hbody as (ci & Hci & Hbody).
      apply aget_Ok in Hci as [_ Hci].
      replace (Z.to_nat (i + 1)) with (S (Z.to_nat i)) by lia.
      rewrite (take_S_r _ _ _ Hci).
      assert (Hb' : b' = if dlt (DE_measure typeCGPDE ci)
                              (DE_measure typeCGPDE b) then ci else b).
      { unfold DE_measure.
        destruct Htype as [->|[->| ->]]; cbn [Z.eqb Pos.eqb orb andb] in *.
        - destruct (dlt (fitness ci) (fitness b)); by injection Hbody.
        - destruct (dlt (fitness ci) (fitness b)); by injection Hbody.
        - destruct (dlt (fitnessValidation ci) (fitnessValidation b));
            by injection Hbody. }
      pose proof (strictly_better_step typeCGPDE b ci _ Hall) as Hstep.
      cbv zeta in Hstep. rewrite <- Hb' in Hstep. split; [exact Hstep|].
      rewrite Hb'. apply elem_of_app.
      destruct (dlt (DE_measure typeCGPDE ci) (DE_measure typeCGPDE b)).
      + right. by apply list_elem_of_singleton.
      + by left. }
  destruct Hend as [Hall Hin].
  pose proof (copyChromosome_fitness _ _ _ Hcopy) as Hfit.
  pose proof (copyChromosome_fitnessValidation _ _ _ Hcopy) as Hfv.
  assert (Hm : DE_measure typeCGPDE r = DE_measure typeCGPDE bsf).
  { unfold DE_measure. by rewrite Hfit, Hfv. }
  split.
  - rewrite Hm.
    assert (take (Z.to_nat NP) ch
            = take (Z.to_nat NP) (take (Z.to_nat (Z.max 1 NP)) ch)) as ->.
    { rewrite take_take. f_equal. lia. }
    by apply Forall_take.
  - exists bsf. done.
Qed.

End BestOfPopulationProofs.

Lemma getBestDEChromosome_returns_the_fittest_witness :
  exists best chromos' seed' g',
    getBestDEChromosome de_params (replicate 4 chromo_soft) example_data 2
      1 0 = Ok (best, chromos', seed', g')
    /\ Forall (fun c => dlt (DE_measure 2 c) (DE_measure 2 best) = false)
         (take (Z.to_nat (best_NP de_params 2)) chromos').
Proof.
  assert (Hok : is_ok (getBestDEChromosome de_params
                         (replicate 4 chromo_soft) example_data 2 1 0)
                = true) by (vm_compute; reflexivity).
  destruct (getBestDEChromosome de_params (replicate 4 chromo_soft)
              example_data 2 1 0) as [[[[best chromos'] seed'] g']|e] eqn:E;
    [|discriminate].
  exists best, chromos', seed', g'. split; [reflexivity|].
  assert (Ht : 2 = 1 \/ 2 = 2 \/ 2 = 3) by (right; left; reflexivity).
  exact (proj1 (proj2
           (@getBestDEChromosome_returns_the_fittest example_libc
              example_fitness de_params _ example_data 2 1 0 best chromos'
              seed' g' Ht E))).
Defined.

(** ** The best chromosome over the generations *)

Lemma validation_improved_refl (a : chromosome) : validation_improved a a.
Proof. by left. Qed.

Lemma validation_improved_trans (a b c : chromosome) :
  validation_improved a b -> validation_improved b c ->
  validation_improved a c.
Proof.
  unfold validation_improved. intros [Hab|Hab] [Hbc|Hbc].
  - left. congruence.
  - right. by rewrite Hab.
  - right. by rewrite <- Hbc.
  - right. by eapply dle_trans.
Qed.

Lemma best_so_far_improves (l : list chromosome) (n : Z)
    (b0 b b' : chromosome) (flag flag' : bool) :
  validation_improved b b0 ->
  for_loop 0 n
    (fun i '(bestChromoSoFar, flag) =>
       p ← aget l i;
       if dle (fitnessValidation p) (fitnessValidation bestChromoSoFar)
       then Ok (p, true) else Ok (bestChromoSoFar, flag))
    (b, flag) = Ok (b', flag') ->
  validation_improved b' b0.
Proof.
  intros Hb Hrun.
  set (J := fun s : chromosome * bool => validation_improved s.1 b0).
  assert (Hend : J (b', flag')); [|exact Hend].
  eapply (for_loop_preserves J); [ | | exact Hrun]; unfold J; [done|].
  intros i [b1 f1] [b2 f2] _ Hb1 Hbody. cbn [fst snd] in *.
  apply bind_Ok in Hbody as (p & _ & Hbody).
  destruct (dle (fitnessValidation p) (fitnessValidation b1)) eqn:Hle;
    injection Hbody as <- <-; [|done].
  apply (validation_improved_trans _ b1); [by right | done].
Qed.

Lemma getBestChromosome_improves (parents children : list chromosome)
    (numParents numChildren : Z) (best r : chromosome) :
  getBestChromosome parents children numParents numChildren best = Ok r ->
  validation_improved r best.
Proof.
  unfold getBestChromosome.
  intros ([b1 f1] & Hp & Hrun)%bind_Ok.
  apply bind_Ok in Hrun as ([b2 f2] & Hc & Hrun).
  pose proof (best_so_far_improves _ _ best _ _ _ _
                (validation_improved_refl best) Hp) as H1.
  pose proof (best_so_far_improves _ _ best _ _ _ _ H1 Hc) as H2.
  destruct f2.
  - pose proof (copyChromosome_fitnessValidation _ _ _ Hrun) as Hfv.
    unfold validation_improved in *. by rewrite Hfv.
  - injection Hrun as <-. apply validation_improved_refl.
Qed.

Section BestOverGenerations.
Context `{Libc} `{Fitness}.

Lemma generation_body_best (params : parameters)
    (dataTrain dataValid : dataSet) (numCandidateChromos type : Z)
    (P P' : population) :
  generation_body params dataTrain dataValid numCandidateChromos type P
    = Ok P' ->
  validation_improved (bestChromo P') (bestChromo P).
Proof.
  unfold generation_body.
  intros ([children g] & _ & Hrun)%bind_Ok.
  apply bind_Ok in Hrun as (best & Hbest & Hrun).
  apply bind_Ok in Hrun as (candidates & _ & Hrun).
  apply bind_Ok in Hrun as ([parents candidates'] & _ & Hrun).
  apply bind_Ok in Hrun as ([children' seed] & _ & Hrun).
  injection Hrun as <-. cbn [bestChromo].
  by eapply getBestChromosome_improves.
Qed.

(** X23.  Over the generations of [runCGP] and of [runCGPDE_OUT] the
    best chromosome never gets worse on the validation set: after any
    number of generations its validation fitness is the one it had, or
    a number that is less than or equal to it.  [type] is the argument
    the reproduction scheme receives, 0 in [runCGP] and 1 in
    [runCGPDE_OUT]. *)
Theorem generations_never_worsen_the_best (params : parameters)
    (dataTrain dataValid : dataSet) (numCandidateChromos type numGens : Z)
    (P P' : population) :
  for_loop 0 numGens
    (fun gen P =>
       generation_body params dataTrain dataValid numCandidateChromos type P)
    P = Ok P' ->
  validation_improved (bestChromo P') (bestChromo P).
Proof.
  intros Hrun.
  eapply (for_loop_preserves
            (fun Q => validation_improved (bestChromo Q) (bestChromo P)));
    [ | | exact Hrun].
  - apply validation_improved_refl.
  - intros gen Q Q' _ HQ Hbody.
    apply (validation_improved_trans _ (bestChromo Q)); [|exact HQ].
    exact (generation_body_best _ _ _ _ _ _ _ Hbody).
Qed.

End BestOverGenerations.

Lemma generations_never_worsen_the_best_witness :
  exists P',
    for_loop 0 3
      (fun gen P =>
         generation_body out_params example_data example_data 5 1 P)
      first_population = Ok P'
    /\ validation_improved (bestChromo P') (bestChromo first_population).
Proof.
  assert (Hok : is_ok (for_loop 0 3
                         (fun gen P =>
                            generation_body out_params example_data
                              example_data 5 1 P)
                         first_population) = true)
    by (vm_compute; reflexivity).
  destruct (for_loop 0 3
              (fun gen P =>
                 generation_body out_params example_data example_data 5 1 P)
              first_population) as [P'|e] eqn:E; [|discriminate].
  exists P'. split; [reflexivity|].
  exact (@generations_never_worsen_the_best example_libc example_fitness
           out_params example_data example_data 5 1 3 first_population P' E).
Defined.

(** ** The logic gates *)

(** The loop of [_and], [_nand], [_or] and [_nor]: it returns [hit] at
    the first input that is [v]. *)
Lemma scan_inputs_nat (ins : list double) (v : Z) (hit : double) :
  forall (n : nat) (lo : Z),
  0 <= lo -> lo + Z.of_nat n <= Z.of_nat (length ins) ->
  for_nat_ret n lo
    (fun i _ =>
       x ← aget ins i;
       if deq x (of_int v) then Ok (inr hit) else Ok (inl tt))
    tt
  = Ok (if some_input_is v (take n (drop (Z.to_nat lo) ins))
        then inr hit else inl tt).
Proof.
  induction n as [|n IH]; intros lo Hlo Hhi; [done|].
  cbn [for_nat_ret].
  destruct (aget_in_range ins lo) as [x Hx]; [lia|].
  rewrite Hx. cbn [mbind result_bind].
  apply aget_Ok in Hx as [_ Hx]. rewrite (drop_S _ _ _ Hx).
  cbn [take]. unfold some_input_is. cbn [existsb].
  destruct (deq x (of_int v)); cbn [orb mbind result_bind]; [done|].
  rewrite IH by lia. unfold some_input_is.
  by replace (Z.to_nat (lo + 1)) with (S (Z.to_nat lo)) by lia.
Qed.

Lemma scan_inputs (ins : list double) (n v : Z) (hit : double) :
  0 <= n <= Z.of_nat (length ins) ->
  for_loop_ret 0 n
    (fun i _ =>
       x ← aget ins i;
       if deq x (of_int v) then Ok (inr hit) else Ok (inl tt))
    tt
  = Ok (if some_input_is v (take (Z.to_nat n) ins) then inr hit else inl tt).
Proof.
  intros Hn. unfold for_loop_ret. rewrite scan_inputs_nat by lia.
  by rewrite Z.sub_0_r.
Qed.

Lemma ones_cons (x : double) (l : list double) :
  ones (x :: l) = (if deq x (of_int 1) then 1 else 0) + ones l.
Proof.
  unfold ones. cbn [List.filter].
  destruct (deq x (of_int 1)); cbn [length]; lia.
Qed.

Lemma ones_nonneg (l : list double) : 0 <= ones l.
Proof. unfold ones. lia. Qed.

(** The loop of [_xor] and [_xnor]: leaving it at the second input that
    is 1 does not change whether exactly one input is 1. *)
Lemma countOnes_nat (ins : list double) :
  forall (n : nat) (lo k : Z),
  0 <= lo -> lo + Z.of_nat n <= Z.of_nat (length ins) -> 0 <= k <= 1 ->
  exists r,
    for_nat_ret n lo
      (fun i numOnes =>
         x ← aget ins i;
         let numOnes := if deq x (of_int 1) then numOnes + 1 else numOnes in
         if numOnes >? 1 then Ok (inr numOnes) else Ok (inl numOnes))
      k = Ok r
    /\ ((match r with inl a => a | inr a => a end) =? 1)
       = (k + ones (take n (drop (Z.to_nat lo) ins)) =? 1).
Proof.
  induction n as [|n IH]; intros lo k Hlo Hhi Hk.
  - exists (inl k). split; [done|]. cbn [take]. unfold ones. cbn.
    by rewrite Z.add_0_r.
  - cbn [for_nat_ret].
    destruct (aget_in_range ins lo) as [x Hx]; [lia|].
    rewrite Hx. cbn [mbind result_bind]. cbv zeta.
    apply aget_Ok in Hx as [_ Hx]. rewrite (drop_S _ _ _ Hx).
    cbn [take]. rewrite ones_cons.
    pose proof (ones_nonneg (take n (drop (S (Z.to_nat lo)) ins))) as Hpos.
    destruct (deq x (of_int 1)).
    + destruct (Z.gtb_spec (k + 1) 1) as [Hgt|Hle]; cbn [mbind result_bind].
      * exists (inr (k + 1)). split; [done|].
        destruct (Z.eqb_spec (k + 1) 1), (Z.eqb_spec
          (k + (1 + ones (take n (drop (S (Z.to_nat lo)) ins)))) 1);
          try done; lia.
      * destruct (IH (lo + 1) (k + 1)) as (r & Hr & Hv); [lia..|].
        exists r. split; [done|]. rewrite Hv.
        replace (Z.to_nat (lo + 1)) with (S (Z.to_nat lo)) by lia.
        f_equal. lia.
    + destruct (Z.gtb_spec k 1) as [Hgt|Hle]; [lia|].
      cbn [mbind result_bind].
      destruct (IH (lo + 1) k) as (r & Hr & Hv); [lia..|].
      exists r. split; [done|]. rewrite Hv.
      replace (Z.to_nat (lo + 1)) with (S (Z.to_nat lo)) by lia.
      f_equal.
Qed.

Lemma countOnes_spec (ins : list double) (n : Z) :
  0 <= n <= Z.of_nat (length ins) ->
  exists k, countOnes n ins = Ok k
    /\ (k =? 1) = (ones (take (Z.to_nat n) ins) =? 1).
Proof.
  intros Hn. unfold countOnes, for_loop_ret.
  destruct (countOnes_nat ins (Z.to_nat (n - 0)) 0 0) as (r & Hr & Hv);
    [lia..|].
  cbv zeta in Hr. rewrite Hr. cbn [mbind result_bind].
  eexists. split; [done|].
  rewrite Hv. by rewrite Z.sub_0_r.
Qed.

(** X24.  The logic gates of the function set, on at least [numInputs]
    inputs.  [_and] returns 1 when no input is 0 and 0 otherwise, [_or]
    returns 1 when an input is 1 and 0 otherwise, and [_xor] returns 1
    when exactly one input is 1 and 0 otherwise: it is a one-hot test,
    not a parity.  [_nand], [_nor] and [_xnor] return the opposite
    value.  None of them touches the state of [rand()]. *)
Theorem logic_gates_truth_tables (numInputs_ : Z) (ins ws : list double)
    (g : Z) :
  0 <= numInputs_ <= Z.of_nat (length ins) ->
  let l := take (Z.to_nat numInputs_) ins in
  _and numInputs_ ins ws g = Ok (truth (negb (some_input_is 0 l)), g)
  /\ _nand numInputs_ ins ws g = Ok (truth (some_input_is 0 l), g)
  /\ _or numInputs_ ins ws g = Ok (truth (some_input_is 1 l), g)
  /\ _nor numInputs_ ins ws g = Ok (truth (negb (some_input_is 1 l)), g)
  /\ _xor numInputs_ ins ws g = Ok (truth (ones l =? 1), g)
  /\ _xnor numInputs_ ins ws g = Ok (truth (negb (ones l =? 1)), g).
Proof.
  intros Hn l. unfold _and, _nand, _or, _nor, _xor, _xnor, and_then.
  rewrite !scan_inputs by done. fold l. cbn [mbind result_bind].
  destruct (countOnes_spec ins numInputs_ Hn) as (k & Hk & Hv). fold l in Hv.
  rewrite Hk. cbn [mbind result_bind]. cbv zeta. rewrite Hv.
  unfold truth.
  destruct (some_input_is 0 l), (some_input_is 1 l), (ones l =? 1);
    cbn [negb mbind result_bind]; done.
Qed.

Lemma logic_gates_truth_tables_witness :
  _xor 3 [of_int 1; of_int 1; of_int 1] [] 0
  = Ok (truth (ones (take (Z.to_nat 3) [of_int 1; of_int 1; of_int 1]) =? 1),
        0).
Proof.
  assert (Hn : 0 <= 3 <= Z.of_nat (length [of_int 1; of_int 1; of_int 1]))
    by (cbn; lia).
  exact (proj1 (proj2 (proj2 (proj2 (proj2
           (logic_gates_truth_tables 3 [of_int 1; of_int 1; of_int 1] [] 0
              Hn)))))).
Defined.

(** ** Single mutation *)

(** A node whose genes are those of [n] but for the gene [j], which is
    [v], takes the place of [n]. *)
Lemma node_insert_genes (ns : list node) (i : nat) (n n' : node) (j : nat)
    (v : Z) (rest : list Z) :
  ns !! i = Some n ->
  (active n =? 1) = true ->
  (j < length (node_genes n))%nat ->
  node_genes n' = <[j := v]> (node_genes n) ->
  concat (node_genes <$> <[i := n']> ns) ++ rest
  = <[(length (concat (node_genes <$> take i ns)) + j)%nat := v]>
      (concat (node_genes <$> ns) ++ rest).
Proof.
  intros Hn Hact Hj Hn'.
  pose proof (lookup_lt_Some _ _ _ Hn) as Hi.
  rewrite insert_take_drop by done.
  set (A := concat (node_genes <$> take i ns)).
  assert (Hsplit : concat (node_genes <$> ns)
            = A ++ node_genes n ++ concat (node_genes <$> drop (S i) ns)).
  { rewrite <- (take_drop_middle ns i n Hn) at 1.
    by rewrite fmap_app, fmap_cons, concat_app. }
  rewrite Hsplit.
  rewrite !fmap_app, !fmap_cons, !concat_app. cbn [concat].
  rewrite Hn'. rewrite <- !app_assoc.
  rewrite insert_app_r. f_equal.
  by rewrite insert_app_l.
Qed.

Lemma node_insert_silent (ns : list node) (i : nat) (n n' : node) :
  ns !! i = Some n -> node_genes n' = node_genes n ->
  node_genes <$> <[i := n']> ns = node_genes <$> ns.
Proof.
  intros Hn Hn'. rewrite list_fmap_insert, Hn'.
  apply list_insert_id. by rewrite list_lookup_fmap, Hn.
Qed.

Lemma node_genes_lookup (ns : list node) (i : nat) (n : node) (j : nat)
    (x : Z) (rest : list Z) :
  ns !! i = Some n -> node_genes n !! j = Some x ->
  (concat (node_genes <$> ns) ++ rest)
    !! (length (concat (node_genes <$> take i ns)) + j)%nat = Some x.
Proof.
  intros Hn Hx.
  set (A := concat (node_genes <$> take i ns)).
  assert (Hsplit : concat (node_genes <$> ns)
            = A ++ node_genes n ++ concat (node_genes <$> drop (S i) ns)).
  { rewrite <- (take_drop_middle ns i n Hn) at 1.
    by rewrite fmap_app, fmap_cons, concat_app. }
  rewrite Hsplit. rewrite <- !app_assoc.
  rewrite lookup_app_r by lia.
  replace (length A + j - length A)%nat with j by lia.
  rewrite lookup_app_l; [done|]. by eapply lookup_lt_Some.
Qed.

(** What a round of [singleMutation] does to the expressed genes [E1],
    from the gene it redrew: nothing when its flag stays 0, one gene
    that changed when the flag is 1. *)
Lemma round_outcome (E1 E2 : list Z) (k : nat) (prev v : Z) (act : bool) :
  (act = true -> E1 !! k = Some prev /\ E2 = <[k := v]> E1) ->
  (act = false -> E2 = E1) ->
  if negb (prev =? v) && act then
    exists (k : nat) (old new : Z),
      E1 !! k = Some old /\ old <> new /\ E2 = <[k := new]> E1
  else E2 = E1.
Proof.
  intros Hon Hoff. destruct act; cbn [andb].
  - destruct (Hon eq_refl) as [Hk ->].
    destruct (Z.eqb_spec prev v) as [<-|Hne]; cbn [negb andb].
    + by apply list_insert_id.
    + by exists k, prev, v.
  - rewrite andb_false_r. by apply Hoff.
Qed.

Lemma function_round (c c2 : chromosome) (i v : Z) (n : node) :
  aget (nodes c) i = Ok n ->
  set_gene_function c i v = Ok c2 ->
  if negb (function n =? v) && (active n =? 1) then
    exists (k : nat) (old new : Z),
      expressed_genes c !! k = Some old /\ old <> new
      /\ expressed_genes c2 = <[k := new]> (expressed_genes c)
  else expressed_genes c2 = expressed_genes c.
Proof.
  intros [Hi Hn]%aget_Ok Hset.
  apply upd_node_Ok in Hset as (n0 & _ & Hn0 & ->).
  assert (n0 = n) as -> by congruence.
  unfold expressed_genes. cbn [nodes outputNodes set_nodes].
  apply (round_outcome _ _
           (length (concat (node_genes <$> take (Z.to_nat i) (nodes c))) + 0)).
  - intros Hact. split.
    + apply node_genes_lookup with n; [done|].
      unfold node_genes. by rewrite Hact.
    + apply node_insert_genes with n; [done | done | |].
      * unfold node_genes. rewrite Hact. cbn. lia.
      * unfold node_genes. cbn [active set_function function inputs].
        by rewrite Hact.
  - intros Hact. do 2 f_equal. apply node_insert_silent with n; [done|].
    unfold node_genes. cbn [active set_function]. by rewrite Hact.
Qed.

Lemma input_round (c c2 : chromosome) (i j v prev : Z) (n : node) :
  aget (nodes c) i = Ok n ->
  aget (inputs n) j = Ok prev ->
  set_gene_input c i j v = Ok c2 ->
  if negb (prev =? v) && (active n =? 1) then
    exists (k : nat) (old new : Z),
      expressed_genes c !! k = Some old /\ old <> new
      /\ expressed_genes c2 = <[k := new]> (expressed_genes c)
  else expressed_genes c2 = expressed_genes c.
Proof.
  intros Hget [Hj Hprev]%aget_Ok. unfold set_gene_input.
  rewrite Hget. cbn [mbind result_bind].
  intros (ins & Hins & Hset)%bind_Ok.
  apply aset_Ok in Hins as [Hjr ->].
  apply aget_Ok in Hget as [Hi Hn].
  apply upd_node_Ok in Hset as (n0 & _ & Hn0 & ->).
  assert (n0 = n) as -> by congruence.
  unfold expressed_genes. cbn [nodes outputNodes set_nodes].
  apply (round_outcome _ _
           (length (concat (node_genes <$> take (Z.to_nat i) (nodes c)))
            + S (Z.to_nat j))).
  - intros Hact. split.
    + apply node_genes_lookup with n; [done|].
      unfold node_genes. by rewrite Hact.
    + apply node_insert_genes with n; [done | done | |].
      * unfold node_genes. rewrite Hact. cbn [length]. lia.
      * unfold node_genes. cbn [active set_inputs function inputs].
        by rewrite Hact.
  - intros Hact. do 2 f_equal. apply node_insert_silent with n; [done|].
    unfold node_genes. cbn [active set_inputs]. by rewrite Hact.
Qed.

Lemma output_round (c c2 : chromosome) (i v prev : Z) :
  aget (outputNodes c) i = Ok prev ->
  set_gene_output c i v = Ok c2 ->
  if negb (prev =? v) then
    exists (k : nat) (old new : Z),
      expressed_genes c !! k = Some old /\ old <> new
      /\ expressed_genes c2 = <[k := new]> (expressed_genes c)
  else expressed_genes c2 = expressed_genes c.
Proof.
  intros [Hi Hprev]%aget_Ok. unfold set_gene_output.
  intros (on & Hon & [= <-])%bind_Ok. apply aset_Ok in Hon as [Hr ->].
  unfold expressed_genes. cbn [nodes outputNodes set_outputNodes].
  pose proof (round_outcome
    (concat (node_genes <$> nodes c) ++ outputNodes c)
    (concat (node_genes <$> nodes c) ++ <[Z.to_nat i:=v]> (outputNodes c))
    (length (concat (node_genes <$> nodes c)) + Z.to_nat i) prev v true)
    as Hout.
  rewrite andb_true_r in Hout. apply Hout; [|done].
  intros _. split.
  - rewrite lookup_app_r by lia. rewrite <- Hprev. f_equal. lia.
  - by rewrite insert_app_r.
Qed.

Section SingleMutationProofs.
Context `{Libc}.

Lemma singleMutation_loop_spec (params : parameters) (numGenes : Z) :
  forall (fuel : nat) (c : chromosome) (seed : Z) (c' : chromosome)
         (seed' : Z),
  singleMutation_loop fuel params numGenes c seed = Ok (c', seed') ->
  exists (k : nat) (old new : Z),
    expressed_genes c !! k = Some old /\ old <> new
    /\ expressed_genes c' = <[k := new]> (expressed_genes c).
Proof.
  induction fuel as [|fuel IH]; intros c seed c' seed'; [done|].
  cbn [singleMutation_loop]. cbv zeta.
  intros ([g s1] & _ & Hrun)%bind_Ok.
  apply bind_Ok in Hrun as ([[c2 s2] flag] & Hround & Hrun).
  assert (Hstep : if flag then
            exists (k : nat) (old new : Z),
              expressed_genes c !! k = Some old /\ old <> new
              /\ expressed_genes c2 = <[k := new]> (expressed_genes c)
          else expressed_genes c2 = expressed_genes c).
  { destruct (g <? p_numNodes params);
      [|destruct (g <? p_numNodes params + p_numNodes params * p_arity params)].
    - apply bind_Ok in Hround as (n & Hn & Hround).
      apply bind_Ok in Hround as ([v s3] & _ & Hround).
      apply bind_Ok in Hround as (c3 & Hset & [= <- <- <-]).
      by eapply function_round.
    - apply bind_Ok in Hround as (n & Hn & Hround).
      apply bind_Ok in Hround as (prev & Hprev & Hround).
      apply bind_Ok in Hround as ([v s3] & _ & Hround).
      apply bind_Ok in Hround as (c3 & Hset & [= <- <- <-]).
      by eapply input_round.
    - apply bind_Ok in Hround as (prev & Hprev & Hround).
      apply bind_Ok in Hround as ([v s3] & _ & Hround).
      apply bind_Ok in Hround as (c3 & Hset & [= <- <- <-]).
      by eapply output_round. }
  destruct flag.
  - by injection Hrun as <- <-.
  - apply IH in Hrun. by rewrite Hstep in Hrun.
Qed.

End SingleMutationProofs.

(** X25.  When [singleMutation] returns, the expressed genes of the
    chromosome (the function and input genes of the nodes that carry
    the flag [active], and the output genes) differ from what they were
    in exactly one place; the genes of the other nodes may have been
    redrawn any number of times on the way.  The connection weights are
    left as they were. *)
Theorem singleMutation_changes_one_expressed_gene `{Libc}
    (params : parameters) (c : chromosome) (type seed : Z)
    (c' : chromosome) (seed' : Z) :
  singleMutation params c type seed = Ok (c', seed') ->
  (exists (k : nat) (old new : Z),
     expressed_genes c !! k = Some old /\ old <> new
     /\ expressed_genes c' = <[k := new]> (expressed_genes c))
  /\ same_weights c c'.
Proof.
  intros Hrun. split.
  - by eapply singleMutation_loop_spec.
  - unfold singleMutation in Hrun.
    by eapply singleMutation_loop_same_weights.
Qed.

Lemma singleMutation_changes_one_expressed_gene_witness :
  exists c' seed',
    singleMutation example_params chromo_soft 0 1 = Ok (c', seed')
    /\ same_weights chromo_soft c'.
Proof.
  assert (Hok : is_ok (singleMutation example_params chromo_soft 0 1) = true)
    by (vm_compute; reflexivity).
  destruct (singleMutation example_params chromo_soft 0 1)
    as [[c' seed']|e] eqn:E; [|discriminate].
  exists c', seed'. split; [reflexivity|].
  exact (proj2 (@singleMutation_changes_one_expressed_gene example_libc
                  example_params chromo_soft 0 1 c' seed' E)).
Defined.

(** ** The median *)

Lemma Sorted_cmpInt_le (l : list Z) : Sorted cmpInt_le l -> Sorted Z.le l.
Proof.
  induction 1 as [|x l Hs IH Hhd]; constructor; [done|].
  destruct Hhd as [|y l' Hxy]; constructor.
  unfold cmpInt_le, cmpInt in Hxy. lia.
Qed.

(** The copy [medianInt] makes of the first [n] entries. *)
Lemma copy_prefix {A} (a : list A) (n : Z) (z : A) :
  0 <= n <= Z.of_nat (length a) ->
  copyArray n (replicate (Z.to_nat n) z) a = Ok (take (Z.to_nat n) a).
Proof.
  intros Hn. unfold copyArray.
  apply (fill_row a 0 n (replicate (Z.to_nat n) z)); [lia | lia | lia |].
  rewrite length_replicate. lia.
Qed.

Lemma medianInt_spec (anArray : list Z) (n : Z) :
  0 < n <= Z.of_nat (length anArray) ->
  Forall (fun x => 0 <= x <= Z.quot INT_MAX 2) (take (Z.to_nat n) anArray) ->
  exists s, s ≡ₚ take (Z.to_nat n) anArray /\ Sorted Z.le s
    /\ if Z.rem n 2 =? 0 then
         exists x y, s !! Z.to_nat (Z.quot n 2 - 1) = Some x
           /\ s !! Z.to_nat (Z.quot n 2) = Some y
           /\ medianInt anArray n = Ok (of_int (Z.quot (x + y) 2))
       else
         exists x, s !! Z.to_nat (Z.quot (n - 1) 2) = Some x
           /\ medianInt anArray n = Ok (of_int x).
Proof.
  intros Hn Hall. unfold medianInt.
  rewrite copy_prefix by lia. cbn [mbind result_bind]. cbv zeta.
  unfold sortIntArray.
  set (l := take (Z.to_nat n) anArray) in *.
  assert (Hl : length l = Z.to_nat n).
  { unfold l. rewrite length_take. lia. }
  rewrite take_ge by lia. rewrite drop_ge by lia. rewrite app_nil_r.
  set (s := merge_sort cmpInt_le l).
  assert (Hperm : s ≡ₚ l) by apply merge_sort_Permutation.
  assert (Hs : length s = Z.to_nat n) by (by rewrite Hperm).
  exists s. split; [done|]. split.
  { apply Sorted_cmpInt_le, Sorted_merge_sort. apply _. }
  assert (Hbound : Forall (fun x => 0 <= x <= Z.quot INT_MAX 2) s).
  { by rewrite Hperm. }
  destruct (Z.eqb_spec (Z.rem n 2) 0) as [Heven|Hodd].
  - assert (Hq : 0 < Z.quot n 2 < n).
    { pose proof (Z.quot_rem' n 2). lia. }
    destruct (lookup_lt_is_Some_2 s (Z.to_nat (Z.quot n 2 - 1))) as [x Hx];
      [lia|].
    destruct (lookup_lt_is_Some_2 s (Z.to_nat (Z.quot n 2))) as [y Hy];
      [lia|].
    exists x, y. split; [done|]. split; [done|].
    assert (Hgy : aget s (Z.quot n 2) = Ok y).
    { apply aget_Ok. split; [lia|done]. }
    assert (Hgx : aget s (Z.quot n 2 - 1) = Ok x).
    { apply aget_Ok. split; [lia|done]. }
    rewrite Hgy. cbn [mbind result_bind].
    rewrite Hgx. cbn [mbind result_bind].
    pose proof (Forall_lookup_1 _ _ _ _ Hbound Hx) as Hbx.
    pose proof (Forall_lookup_1 _ _ _ _ Hbound Hy) as Hby.
    cbn beta in Hbx, Hby. unfold int_add.
    assert (Hh : Z.quot INT_MAX 2 = 1073741823) by reflexivity.
    destruct (Z.ltb_spec (y + x) INT_MIN) as [Hlo|_];
      [unfold INT_MIN, INT_MAX in Hlo; lia|].
    destruct (Z.ltb_spec INT_MAX (y + x)) as [Hhi|_];
      [unfold INT_MAX in Hhi; lia|].
    cbn [orb mbind result_bind]. by rewrite (Z.add_comm y x).
  - assert (Hq : 0 <= Z.quot (n - 1) 2 < n).
    { pose proof (Z.quot_rem' (n - 1) 2).
      pose proof (Z.rem_bound_pos (n - 1) 2). lia. }
    destruct (lookup_lt_is_Some_2 s (Z.to_nat (Z.quot (n - 1) 2)))
      as [x Hx]; [lia|].
    exists x. split; [done|].
    assert (Hgx : aget s (Z.quot (n - 1) 2) = Ok x).
    { apply aget_Ok. split; [lia|done]. }
    by rewrite Hgx.
Qed.

Lemma medianInt_empty (anArray : list Z) : medianInt anArray 0 = Err Fault.
Proof. reflexivity. Qed.

(** X26.  [medianInt] reads outside its copy when the length is 0.  On
    [n] > 0 entries between 0 and half of [INT_MAX] it returns, for an
    odd [n], the middle entry of the sorted entries and, for an even
    [n], the quotient by 2 of the sum of the two middle entries, as an
    integer division: the half is cut off before the conversion to
    [double]. *)
Theorem medianInt_cuts_the_half (anArray : list Z) (n : Z) :
  (n = 0 -> medianInt anArray n = Err Fault)
  /\ (0 < n <= Z.of_nat (length anArray) ->
      Forall (fun x => 0 <= x <= Z.quot INT_MAX 2)
        (take (Z.to_nat n) anArray) ->
      exists s, s ≡ₚ take (Z.to_nat n) anArray /\ Sorted Z.le s
        /\ if Z.rem n 2 =? 0 then
             exists x y, s !! Z.to_nat (Z.quot n 2 - 1) = Some x
               /\ s !! Z.to_nat (Z.quot n 2) = Some y
               /\ medianInt anArray n = Ok (of_int (Z.quot (x + y) 2))
           else
             exists x, s !! Z.to_nat (Z.quot (n - 1) 2) = Some x
               /\ medianInt anArray n = Ok (of_int x)).
Proof.
  split.
  - intros ->. apply medianInt_empty.
  - apply medianInt_spec.
Qed.

Lemma medianInt_cuts_the_half_witness :
  exists s, s ≡ₚ take (Z.to_nat 2) [1; 2] /\ Sorted Z.le s
    /\ exists x y, s !! Z.to_nat (Z.quot 2 2 - 1) = Some x
         /\ s !! Z.to_nat (Z.quot 2 2) = Some y
         /\ medianInt [1; 2] 2 = Ok (of_int (Z.quot (x + y) 2)).
Proof.
  assert (Hn : 0 < 2 <= Z.of_nat (length [1; 2])) by (cbn; lia).
  assert (Hall : Forall (fun x => 0 <= x <= Z.quot INT_MAX 2)
                   (take (Z.to_nat 2) [1; 2])).
  { change (Z.quot INT_MAX 2) with 1073741823. cbn.
    repeat (constructor; [lia|]). constructor. }
  exact (proj2 (medianInt_cuts_the_half [1; 2] 2) Hn Hall).
Defined.
